(* ===== verification/_CoqProject ===== *)
-Q . S2P
Prelude.v
Xdr.v
Rpc.v
Messages.v
Portmap.v
RustStr.v
Lock.v
Backend.v
Bus.v
Vxi11Ops.v
Vxi11Server.v
Vxi11Run.v
Prologix.v
HislipMsg.v
Hislip.v
UsbtmcMsg.v
Effect.v
Usb.v
Usbtmc.v
UsbtmcDevice.v
UsbtmcProofs.v
UsbtmcUsb.v
NiMsg.v
NiUsb.v
NiProofs.v
NiHost.v
AgilentMsg.v
Firmware.v
Agilent.v
AgilentProofs.v
AgilentHost.v
AgilentBoot.v
Attach.v
Stream.v
Vxi11Client.v
HislipClient.v
HislipAsync.v
HislipServer.v
Select.v
Capture.v
Scpi.v
PortmapRun.v
Daemon.v
