(* ===== verification/Prelude.v ===== *)
(** * ugpibd: a verification development

    ugpibd is a daemon that puts GPIB (IEEE 488) instruments on the network.
    One USB adapter drives the bus; four front-ends serve clients over TCP: a
    Prologix-style line protocol, VXI-11 over ONC RPC, HiSLIP, and a raw
    capture stream.  All of them share the adapter behind one mutex and, for
    VXI-11 and HiSLIP, one registry of instrument locks.  The daemon runs on a
    current-thread executor, so code between two awaits is atomic.  Beside it
    stand the clients of its protocols, a command-line tool over them, and a
    portmap service.

    ** The parts and the files

    Shared:
    - [Prelude]: results, machine integers, bytes, big-endian words, lengths
      in [Z], the tactics and hints the other files use.
    - [RustStr]: what the code uses of [str] and [String]: UTF-8 decoding,
      trimming, splitting, decimal parsing and printing.  A [str] is its list
      of code points.
    - [Effect]: the error-and-state monad [Act] of the drivers, its
      [wp]-style reasoning rules.  [Stream]: the client end of a connection.

    Wire formats and services:
    - [Xdr], [Rpc], [Messages], [Portmap] ([src/vxi11/xdr.rs], [rpc.rs],
      [messages.rs], [portmap.rs]): the cursor over XDR data, RPC calls and
      replies and record marking over a stream that can end or fail anywhere,
      the fourteen VXI-11 structures behind the class [XdrStruct], and the
      portmapper's responder and clients.
    - [PortmapRun] ([portmap.rs], [src/bin/portmap.rs]): the responder's UDP
      and TCP loops, and register mode - announce, check and repair, withdraw -
      in front of a portmapper given by the protocol's rules
      ([PortmapperLaws]).
    - [HislipMsg] ([src/hislip/messages.rs], [errors.rs], [protocol.rs]): the
      message header and payload, the code tables, the bit fields.
    - [Lock] ([src/frontend/lock.rs]): the lock registry, a map from resource
      to exclusive holder and shared holders with their depths.
    - [Backend] ([src/backend/mod.rs], [src/frontend/instrument.rs]): the
      adapter trait as the class [GpibBackend], what the front-ends rely on
      as the class [BackendLaws], the calls of a held bus.  [Logged] wraps
      any backend and records its calls, so that theorems can say what
      reached the bus; [Mock] is a scripted bus for the witnesses.

    Front-ends, over any [GpibBackend]:
    - [Vxi11Ops] ([src/vxi11/mod.rs], [src/vxi11/server.rs]): the device
      procedures, the abort window of a call, the shared state: a table from
      link id to a cell of a heap of links, because a running call keeps its
      link when another connection's call removes it from the table.
    - [Vxi11Server] ([src/vxi11/server.rs]): links and interrupt channels,
      the SRQ forwarder, the dispatcher, the abort channel and the connection
      handler with its clean-up.
    - [Vxi11Run] ([src/vxi11/server.rs]): the server as a whole, a sequence of
      turns of its connections, forwarders and abort calls over one state.
    - [Prologix] ([src/prologix.rs], [src/server.rs]): the command parser and
      its state, the handler of a connection and the accept loop.
    - [Hislip] ([src/hislip/server.rs], [src/hislip/instrument.rs]): the
      bridge from a command to the bus, the session state, one step of each
      channel and the loop of the synchronous one, service requests, session
      set-up and tear-down.
    - [HislipServer] ([src/hislip/server.rs]): the server as a whole, a sequence
      of events of its connections over the session table, with the guard that
      ends a session, its detached clean-up, and asynchronous connections that
      outlive theirs.
    - [Capture] ([src/capture.rs]): the streaming loop and the admission of
      clients.

    Adapters, each an instance of [GpibBackend] over an abstract transport, and
    the transport over an abstract USB host:
    - [Bus]: what command bytes do to the bus: talker, listeners, ATN.
    - [UsbtmcMsg], [Usb], [Usbtmc], [UsbtmcDevice], [UsbtmcProofs], [UsbtmcUsb]
      ([src/backend/usbtmc/]): the wire format, the driver with its aborts and
      recoveries, an abstract USB488 instrument the driver refines, the
      transport over URBs.
    - [NiMsg], [NiUsb], [NiProofs], [NiHost] ([src/backend/ni_usb_hs/]): the
      block codec and timeout tables, the driver, the transport with its
      resynchronisation.
    - [AgilentMsg], [Firmware], [Agilent], [AgilentProofs], [AgilentHost],
      [AgilentBoot] ([src/backend/agilent_82357/]): the packet codec, the HEX
      parser and firmware loader, the controller, the transport with its
      interrupt poller, finding and booting an adapter.
    - [Attach] (the [open]s of [src/backend/*/usb.rs] and [mod.rs]): finding,
      opening and claiming a device and its endpoints over an abstract bus
      ([UsbBus]), the NI driver's three attempts, the interrupt readers.
    - [Select] ([src/backend/select.rs], [BackendKind] of
      [src/backend/mod.rs]): recognising, listing and choosing adapters, port
      ids and their spellings per platform, the watch for removal.

    Clients and programs:
    - [Vxi11Client], [HislipClient] ([src/vxi11/client.rs],
      [src/hislip/client.rs]): every operation of both clients, the receiver
      of service requests, the one-shot abort.
    - [HislipAsync] (both [src/hislip/server.rs] and [client.rs]): the loop of
      the asynchronous channel with the tasks that share its writer, and what
      a client does on it.
    - [Scpi] ([src/bin/scpi.rs]): the class [Transport] with its three
      instances, the line interpreter and the two input loops.
    - [Daemon] ([src/main.rs], [src/bin/portmap.rs]): start-up, modes, ports
      and the end of the daemon; the choice of the portmap tool's mode.

    Names are the source's.  An operation that can fail returns [result]; one
    that changes state returns the state it leaves.

    ** Concurrency, time and fuel

    Other tasks run only where the code awaits.  A definition that awaits
    takes what they do there as an argument: [Lock.turn] is what happened to
    the registry before a waiting request looks again, and the clock then;
    [Env], [CallEnv], [SyncEnv] and [Capture.Turn] carry the effects around a
    bus operation, a lock wait, a message or a turn of a loop.  The theorems
    quantify over them, with the invariant they must keep as a hypothesis
    where one is needed.  The clock is part of the bus, in nanoseconds;
    [BackendLaws] says that it does not run backwards and that a sleep lasts
    as long as it was asked to.  In the USBTMC driver every await is also a
    point where the future can be dropped, and the invariants hold there.

    [None] is "still waiting when the given turns ran out" or "out of fuel".
    The fuel that is enough is proved: the length of the stream for
    [Rpc.read_record], for the lines of a Prologix client and for the replies
    the clients wait for (each turn consumes a byte), one turn per requested
    byte plus one per millisecond of timeout for [device_read] (a turn that
    delivers nothing is paced to a millisecond or more), one per 4096 bytes
    for [device_write], 26 polls for a HiSLIP service request (500 ms in steps
    of 20 ms), the number of sessions plus one for a session id; in the
    drivers one turn per requested byte for a read, one per chunk for a write,
    fixed counts for polls of an abort, 61 and 101 polls for an adapter to go
    away and come back under its deadline, one per 200 ms of the time given for
    [wait_for_pid], four replies for a resynchronisation; the length of the
    stream for a portmap connection.

    A whole server ([HislipServer], [Vxi11Run]) is a sequence of events, each a
    turn of one task from one message to the next; the theorems quantify over
    the sequences.  What a turn's own awaits let others do to the bus, the locks
    and the session is again an argument of the turn.

    ** What the theorems show

    - Wire formats: each structure, call, reply, record and HiSLIP message is
      read back as written, with exactly the following bytes left; decoding
      arbitrary bytes yields only values within the types' and the protocol's
      limits; reading a record always ends and never exceeds its limit.
    - Locks: exclusive locks exclude in every reachable registry; releasing
      undoes exactly what was granted; access gained is announced to the
      waiters; requests time out.
    - VXI-11: every call is answered and keeps the server's tables
      consistent; what a read's reply says about the data and why it ended;
      what a write puts on the bus; locked-out links do not reach the bus; an
      abort reaches the call it was sent to and no later one; links come and
      go with their locks; whatever connections come, close or break, every
      link belongs to an open one or to one that broke
      ([links_follow_connections]); service requests go to the right links.
    - Prologix: every connection is served to its end on any input and never
      addresses anything but a primary address 0 to 30 or the daemon's default
      address; settings read back; data lines reach the instrument as typed.
    - HiSLIP: one command is one exchange on the bus, however it is cut into
      messages; replies arrive whole and within the client's limit, or 272
      bytes where that is less; lock
      waits, device clear, message-available and the session table, which in
      every run of the server is the set of sessions of its connections, of
      clean-ups to run and of failed announcements
      ([sessions_follow_connections]).
    - Portmap: a responder answers every call of a connection in order; in
      register mode the program stays findable through restarts of the
      portmapper and is gone after the withdrawal ([register_mode_lifecycle]).
    - Capture: a client gets the bytes of the reads, all and in order; one
      client at a time.
    - Drivers: the USBTMC driver refines an abstract instrument, keeps its
      pipes in step through drops and recoveries - each reply is awaited under
      the tag of the request it answers - and keeps the front-ends' contract in
      front of a device that sends no more than it was asked for; the NI driver
      addresses what it was asked to address, writes messages the adapter
      accepted whole, hands the adapter the timeout its transport waits for,
      and its transport never takes a reply for one to another kind of request
      and drains the pipe after an exchange that was given up; opening it hands
      on an adapter whose registers were set up and acknowledged and whose
      monitor is armed ([ni_open_sound]); the Agilent driver's mode flag and
      the chip's listen-only bit move together except through [init], capturing
      is quiet on the bus and keeps what a timed-out transfer collected, and
      only a ready adapter at the right port is handed on.
    - End to end: the two clients in front of the two servers see what the
      server's operations return ([rpc_transparent], [hislip_transparent],
      [hislip_async_transparent], [abort_delivered]),
      the command-line tool prints the answers to the queries of a batch of
      plain lines and triggers ([scpi_over_hislip]) and drives the bus through the line protocol
      ([scpi_over_prologix]); the chosen adapter is the one its driver finds
      ([open_selected_finds]); the portmap tool serves or stands back
      ([portmap_auto]).
    - Where the code does not do what it means to, the theorem states what it
      does: a broken VXI-11 connection keeps its locks
      ([broken_connection_keeps_locks]) and enough of them use up the links
      ([broken_connections_exhaust]), a HiSLIP lock can be granted to a
      session that is gone ([late_grant_outlives_session]), an asynchronous
      channel that outlives its session can release the lock of the next one
      ([stale_channel_unlocks]), announcements that fail fill the table
      ([announcements_leak]), the payload of an
      over-long HiSLIP message is read as messages
      ([oversized_payload_read_as_messages]), a truncated one passes for
      whole ([truncated_payload_accepted]), a session's own grant does not
      wake its parked waiter ([own_grant_does_not_wake]), [++rst] takes an
      Agilent chip out of listen-only mode and leaves the flag set
      ([reset_keeps_listen_only_flag]), and a port that cannot be bound leaves
      the adapter open ([adapter_left]).

    ** What is simplified

    While [create_link] waits for a lock other tasks may change the lock
    registry only; between the records of one VXI-11 connection
    [serve_connection] sees no one else ([Vxi11Run] interleaves whole calls of
    all connections).  A command transfer the NI adapter reports as short
    counts as delivered, as it does in the code.  The NI transport's exchange is
    one step: a future dropped inside it is not modelled, the deadline it would
    leave is that of an exchange that fails.

    ** What is not modelled

    Binding, connecting and accepting sockets, which deliver streams and
    connections to the definitions; logging and the text of log lines; argument
    parsing, line editing, terminal handling and the futures' wiring; the
    library's module declarations.  Tests are not modelled.
    The USB library, the operating system's listing of devices and the
    adapters themselves enter as parameters with the laws stated where they
    are used.  An [anyhow::Error] is its one-line rendering where a bus reports
    it, and a constructor with the values its text prints elsewhere. *)

From Stdlib Require Export ZArith Lia Strings.Byte.
From stdpp Require Export base gmap list strings.

#[export] Set Default Goal Selector "!".
#[global] Open Scope Z_scope.

(** ** Results

    Rust's [Result<A, E>], with the [?] operator as a bind notation. *)

Inductive result (A E : Type) : Type :=
| Ok (a : A)
| Err (e : E).
Arguments Ok {A E} a.
Arguments Err {A E} e.

Definition rbind {A B E} (m : result A E) (k : A -> result B E) : result B E :=
  match m with
  | Ok a => k a
  | Err e => Err e
  end.

Definition map_err {A E F} (f : E -> F) (m : result A E) : result A F :=
  match m with
  | Ok a => Ok a
  | Err e => Err (f e)
  end.

Definition is_ok {A E} (m : result A E) : bool :=
  match m with Ok _ => true | Err _ => false end.

Declare Scope rust_scope.
Delimit Scope rust_scope with rust.
Notation "'let?' p ':=' m 'in' k" :=
  (rbind m (fun x => match x with p => k end))
  (at level 10, p pattern, m at level 100, k at level 200) : rust_scope.
#[global] Open Scope rust_scope.

Lemma rbind_Ok {A B E} (m : result A E) (k : A -> result B E) b :
  rbind m k = Ok b <-> exists a, m = Ok a /\ k a = Ok b.
Proof. destruct m; simpl; naive_solver. Qed.

Lemma rbind_Err {A B E} (m : result A E) (k : A -> result B E) e :
  rbind m k = Err e <-> m = Err e \/ exists a, m = Ok a /\ k a = Err e.
Proof. destruct m; simpl; naive_solver. Qed.

#[export] Instance result_eq_dec {A E} `{EqDecision A, EqDecision E} :
  EqDecision (result A E).
Proof. solve_decision. Defined.

(** ** Machine integers

    A w-bit Rust integer is a [Z]; the casts and the arithmetic that wraps are
    written out.  Bytes are [Byte.byte], so no range hypothesis is needed on
    wire data. *)

Definition in_u8 (z : Z) : Prop := 0 <= z < 256.
Definition in_u16 (z : Z) : Prop := 0 <= z < 65536.
Definition in_u32 (z : Z) : Prop := 0 <= z < 4294967296.
Definition in_i32 (z : Z) : Prop := -2147483648 <= z < 2147483648.
Definition in_u64 (z : Z) : Prop := 0 <= z < 18446744073709551616.

Definition as_u8 (z : Z) : Z := z mod 256.
Definition as_u16 (z : Z) : Z := z mod 65536.
Definition as_u32 (z : Z) : Z := z mod 4294967296.
Definition as_i32 (z : Z) : Z :=
  let u := as_u32 z in if u <? 2147483648 then u else u - 4294967296.

(** [usize] is 64 bits on every supported target. *)
Definition checked_add_usize (a b : Z) : option Z :=
  if a + b <? 18446744073709551616 then Some (a + b) else None.

(** A flag test [v & m != 0]. *)
Definition has_flag (v m : Z) : bool := negb (Z.land v m =? 0).

Definition u8 (b : byte) : Z := Z.of_N (Byte.to_N b).
Definition b8 (z : Z) : byte :=
  match Byte.of_N (Z.to_N (as_u8 z)) with Some b => b | None => x00 end.

#[export] Instance byte_eq_decision : EqDecision byte := Byte.byte_eq_dec.

Lemma u8_range b : 0 <= u8 b < 256.
Proof. unfold u8. pose proof (Byte.to_N_bounded b). lia. Qed.

Lemma as_u8_range z : 0 <= as_u8 z < 256.
Proof. apply Z.mod_pos_bound. lia. Qed.

Lemma u8_b8 z : u8 (b8 z) = as_u8 z.
Proof.
  unfold u8, b8. pose proof (as_u8_range z).
  destruct (Byte.of_N (Z.to_N (as_u8 z))) as [b|] eqn:E.
  - apply Byte.to_of_N in E. rewrite E. lia.
  - apply Byte.of_N_None_iff in E. lia.
Qed.

Lemma u8_inj a b : u8 a = u8 b -> a = b.
Proof.
  unfold u8. intros H%N2Z.inj.
  pose proof (Byte.of_to_N a) as Ha. pose proof (Byte.of_to_N b) as Hb.
  rewrite H in Ha. congruence.
Qed.

Lemma b8_u8 b : b8 (u8 b) = b.
Proof. apply u8_inj. rewrite u8_b8. apply Z.mod_small, u8_range. Qed.

Lemma b8_mod z : b8 (z mod 256) = b8 z.
Proof. apply u8_inj. rewrite !u8_b8. unfold as_u8. by rewrite Z.mod_mod by lia. Qed.

Lemma as_u8_id z : in_u8 z -> as_u8 z = z.
Proof. apply Z.mod_small. Qed.
Lemma as_u16_id z : in_u16 z -> as_u16 z = z.
Proof. apply Z.mod_small. Qed.
Lemma as_u32_id z : in_u32 z -> as_u32 z = z.
Proof. apply Z.mod_small. Qed.
Lemma as_u32_range z : in_u32 (as_u32 z).
Proof. unfold in_u32, as_u32. apply Z.mod_pos_bound. lia. Qed.
Lemma as_i32_range z : in_i32 (as_i32 z).
Proof.
  unfold as_i32, in_i32. pose proof (as_u32_range z) as H. unfold in_u32 in H.
  destruct (Z.ltb_spec (as_u32 z) 2147483648); lia.
Qed.
Lemma as_i32_id z : in_i32 z -> as_i32 z = z.
Proof.
  unfold in_i32, as_i32, as_u32. intros H.
  destruct (Z_lt_dec z 0).
  - replace (z mod 4294967296) with (z + 4294967296).
    { destruct (Z.ltb_spec (z + 4294967296) 2147483648); lia. }
    rewrite <- (Z.mod_add z 1) by lia. symmetry. apply Z.mod_small. lia.
  - rewrite Z.mod_small by lia. destruct (Z.ltb_spec z 2147483648); lia.
Qed.
Lemma as_i32_mod z : as_i32 (z mod 4294967296) = as_i32 z.
Proof. unfold as_i32, as_u32. by rewrite Z.mod_mod by lia. Qed.

(** Setting high bits over a small value is addition. *)
Lemma lor_high_add a k u : 0 <= k -> 0 <= u < 2 ^ k -> Z.lor (a * 2 ^ k) u = a * 2 ^ k + u.
Proof.
  intros Hk Hu. assert (Hland : Z.land (a * 2 ^ k) u = 0).
  { apply Z.bits_inj'. intros i Hi. rewrite Z.land_spec, Z.bits_0.
    destruct (Z_lt_dec i k).
    - rewrite Z.mul_pow2_bits_low by lia. done.
    - rewrite <- (Z.mod_small u (2 ^ k)) by lia.
      rewrite Z.mod_pow2_bits_high by lia. apply andb_false_r. }
  rewrite <- Z.lxor_lor by done. by rewrite <- Z.add_nocarry_lxor.
Qed.

(** ** Big- and little-endian words *)

Fixpoint be_val (l : list byte) : Z :=
  match l with
  | [] => 0
  | b :: l => u8 b * 256 ^ Z.of_nat (length l) + be_val l
  end.

Fixpoint be_bytes (n : nat) (v : Z) : list byte :=
  match n with
  | O => []
  | S n => b8 (v / 256 ^ Z.of_nat n) :: be_bytes n v
  end.

Definition le_val (l : list byte) : Z := be_val (rev l).
Definition le_bytes (n : nat) (v : Z) : list byte := rev (be_bytes n v).

Lemma pow256_pos n : 0 < 256 ^ Z.of_nat n.
Proof. apply Z.pow_pos_nonneg; lia. Qed.

Lemma pow256_S n : 256 ^ Z.of_nat (S n) = 256 ^ Z.of_nat n * 256.
Proof. rewrite Nat2Z.inj_succ, Z.pow_succ_r by lia. lia. Qed.

Lemma length_be_bytes n v : length (be_bytes n v) = n.
Proof. induction n; simpl; congruence. Qed.

Lemma be_val_range l : 0 <= be_val l < 256 ^ Z.of_nat (length l).
Proof.
  induction l as [|b l IH]; simpl be_val.
  - simpl. lia.
  - change (length (b :: l)) with (S (length l)). rewrite pow256_S.
    pose proof (u8_range b). pose proof (pow256_pos (length l)). nia.
Qed.

Lemma be_val_be_bytes n v : be_val (be_bytes n v) = v mod 256 ^ Z.of_nat n.
Proof.
  induction n as [|n IH]; simpl be_bytes; simpl be_val.
  - by rewrite Z.mod_1_r.
  - rewrite IH, length_be_bytes, u8_b8, pow256_S. unfold as_u8.
    pose proof (pow256_pos n). rewrite Z.rem_mul_r by lia. lia.
Qed.

Lemma be_bytes_mod n v : be_bytes n (v mod 256 ^ Z.of_nat n) = be_bytes n v.
Proof.
  enough (forall m, (n <= m)%nat ->
    be_bytes n (v mod 256 ^ Z.of_nat m) = be_bytes n v) as H by (apply H; lia).
  intros m. induction n as [|n IH]; intros Hm; simpl; [done|].
  rewrite IH by lia. f_equal. apply u8_inj. rewrite !u8_b8. unfold as_u8.
  replace m with (n + S (m - S n))%nat by lia.
  rewrite Nat2Z.inj_add, Z.pow_add_r, pow256_S by lia.
  pose proof (pow256_pos n). pose proof (pow256_pos (m - S n)).
  rewrite Z.rem_mul_r, (Z.mul_comm (256 ^ Z.of_nat n)), Z.div_add by lia.
  rewrite (Z.div_small (v mod _)) by (apply Z.mod_pos_bound; lia).
  rewrite Z.add_0_l, (Z.mul_comm _ 256), Z.rem_mul_r by lia.
  by rewrite Z.mul_comm, Z.mod_add, Z.mod_mod by lia.
Qed.

Lemma be_bytes_be_val l : be_bytes (length l) (be_val l) = l.
Proof.
  induction l as [|b l IH]; simpl; [done|].
  pose proof (be_val_range l). pose proof (pow256_pos (length l)).
  f_equal.
  - rewrite Z.add_comm, Z.div_add, Z.div_small, Z.add_0_l by lia. apply b8_u8.
  - rewrite <- be_bytes_mod, Z.add_comm, Z.mod_add, Z.mod_small by lia. done.
Qed.

Lemma length_le_bytes n v : length (le_bytes n v) = n.
Proof. unfold le_bytes. by rewrite length_rev, length_be_bytes. Qed.

Lemma le_val_le_bytes n v : le_val (le_bytes n v) = v mod 256 ^ Z.of_nat n.
Proof. unfold le_val, le_bytes. by rewrite rev_involutive, be_val_be_bytes. Qed.

#[global] Arguments be_bytes : simpl never.
#[global] Arguments be_val : simpl never.

(** ** Slices *)

Definition zlen {A} (l : list A) : Z := Z.of_nat (length l).
Definition ztake {A} (n : Z) (l : list A) : list A := take (Z.to_nat n) l.
Definition zdrop {A} (n : Z) (l : list A) : list A := drop (Z.to_nat n) l.

Lemma zlen_nonneg {A} (l : list A) : 0 <= zlen l.
Proof. unfold zlen. lia. Qed.
Lemma zlen_nil {A} : zlen (@nil A) = 0.
Proof. done. Qed.
Lemma zlen_cons {A} (x : A) l : zlen (x :: l) = 1 + zlen l.
Proof. unfold zlen. simpl length. lia. Qed.
Lemma zlen_app {A} (l k : list A) : zlen (l ++ k) = zlen l + zlen k.
Proof. unfold zlen. rewrite length_app. lia. Qed.
Lemma zlen_be_bytes n v : zlen (be_bytes n v) = Z.of_nat n.
Proof. unfold zlen. by rewrite length_be_bytes. Qed.
Lemma zlen_ztake {A} n (l : list A) : 0 <= n <= zlen l -> zlen (ztake n l) = n.
Proof. unfold zlen, ztake. rewrite length_take. lia. Qed.
Lemma zlen_zdrop {A} n (l : list A) : 0 <= n <= zlen l -> zlen (zdrop n l) = zlen l - n.
Proof. unfold zlen, zdrop. rewrite length_drop. lia. Qed.
Lemma zlen_replicate {A} n (x : A) : zlen (replicate n x) = Z.of_nat n.
Proof. unfold zlen. by rewrite length_replicate. Qed.
Lemma zlen_zero {A} (l : list A) : zlen l = 0 -> l = [].
Proof. destruct l; [done|]. rewrite zlen_cons. pose proof (zlen_nonneg l). lia. Qed.
Lemma ztake_app_zlen {A} n (l k : list A) : zlen l = n -> ztake n (l ++ k) = l.
Proof. intros <-. unfold ztake, zlen. rewrite Nat2Z.id. apply take_app_length. Qed.
Lemma zdrop_app_zlen {A} n (l k : list A) : zlen l = n -> zdrop n (l ++ k) = k.
Proof. intros <-. unfold zdrop, zlen. rewrite Nat2Z.id. apply drop_app_length. Qed.
Lemma ztake_zdrop {A} n (l : list A) : ztake n l ++ zdrop n l = l.
Proof. apply take_drop. Qed.

Lemma ztake_all {A} n (l : list A) : zlen l <= n -> ztake n l = l.
Proof. unfold ztake, zlen. intros. apply take_ge. lia. Qed.
Lemma zdrop_zdrop {A} n m (l : list A) : 0 <= n -> 0 <= m -> zdrop n (zdrop m l) = zdrop (m + n) l.
Proof. intros. unfold zdrop. rewrite drop_drop. f_equal. lia. Qed.
Lemma zdrop_0 {A} (l : list A) : zdrop 0 l = l.
Proof. done. Qed.

Lemma zdrop_nil_iff {A} n (l : list A) : 0 <= n -> zdrop n l = [] <-> zlen l <= n.
Proof.
  intros Hn. unfold zdrop, zlen. split.
  - intros E%(f_equal length). rewrite length_drop in E. simpl in E. lia.
  - intros. apply drop_ge. lia.
Qed.
Lemma ztake_split {A} k n (l : list A) : 0 <= k <= n -> ztake n l = ztake k l ++ ztake (n - k) (zdrop k l).
Proof.
  intros. unfold ztake, zdrop. replace (Z.to_nat n) with (Z.to_nat k + Z.to_nat (n - k))%nat by lia.
  symmetry. apply take_take_drop.
Qed.

Lemma ztake_min_app {A} m (l k : list A) : ztake (Z.min (zlen l) m) (l ++ k) = ztake m l.
Proof.
  unfold ztake, zlen. replace (Z.to_nat (Z.min (Z.of_nat (length l)) m)) with (Nat.min (Z.to_nat m) (length l)) by lia.
  by rewrite <- take_take, take_app_length.
Qed.

Create Rewrite HintDb zlen.
#[export] Hint Rewrite @zlen_nil @zlen_cons @zlen_app @zlen_be_bytes @zlen_replicate : zlen.

(** Close a goal about slice lengths. *)
Ltac zlen_solve :=
  autorewrite with zlen in *;
  repeat match goal with
         | l : list _ |- _ =>
             lazymatch goal with
             | _ : 0 <= zlen l |- _ => fail
             | _ => pose proof (zlen_nonneg l)
             end
         end; lia.
