(* ===== verification/Xdr.v ===== *)
(** * XDR: [src/vxi11/xdr.rs]

    The encoders append to a byte vector and the strict reader [Cursor] walks
    one buffer; a reader operation either yields a value with the advanced
    cursor or an [XdrError]. *)

From S2P Require Import Prelude.

Module Xdr.

Inductive XdrError : Type :=
| Truncated
| TooLong (len max : Z)
| BadBool (v : Z).

#[export] Instance XdrError_eq_dec : EqDecision XdrError.
Proof. solve_decision. Defined.

(** ** Encoders *)

Definition pad_of (len : Z) : Z := (4 - len mod 4) mod 4.

Definition put_u32 (buf : list byte) (v : Z) : list byte := buf ++ be_bytes 4 v.
Definition put_i32 (buf : list byte) (v : Z) : list byte := buf ++ be_bytes 4 v.
Definition put_bool (buf : list byte) (v : bool) : list byte :=
  put_u32 buf (if v then 1 else 0).
Definition put_opaque (buf data : list byte) : list byte :=
  let buf := put_u32 buf (as_u32 (zlen data)) in
  let buf := buf ++ data in
  buf ++ replicate (Z.to_nat (pad_of (zlen data))) x00.
Definition put_string (buf s : list byte) : list byte := put_opaque buf s.

(** ** The cursor *)

Record Cursor : Type := mkCursor { data : list byte; pos : Z }.

Definition new (d : list byte) : Cursor := mkCursor d 0.

(** A reader operation. *)
Definition reader (A : Type) : Type := Cursor -> result (A * Cursor) XdrError.

Definition take (n : Z) : reader (list byte) := fun c =>
  match checked_add_usize (pos c) n with
  | None => Err Truncated
  | Some e =>
      if zlen (data c) <? e then Err Truncated
      else Ok (ztake (e - pos c) (zdrop (pos c) (data c)), mkCursor (data c) e)
  end.

Definition u32 : reader Z := fun c =>
  let? (b, c) := take 4 c in Ok (be_val b, c).

Definition i32 : reader Z := fun c =>
  let? (b, c) := take 4 c in Ok (as_i32 (be_val b), c).

Definition bool_ : reader bool := fun c =>
  let? (v, c) := u32 c in
  if v =? 0 then Ok (false, c)
  else if v =? 1 then Ok (true, c)
  else Err (BadBool v).

Definition opaque (max : Z) : reader (list byte) := fun c =>
  let? (len, c) := u32 c in
  if max <? len then Err (TooLong len max)
  else
    let? (d, c) := take len c in
    let? (_, c) := take (pad_of len) c in
    Ok (d, c).

Definition remaining (c : Cursor) : Z := zlen (data c) - pos c.

Definition rest (c : Cursor) : list byte * Cursor :=
  (zdrop (pos c) (data c), mkCursor (data c) (zlen (data c))).

(** ** The reader seen through what is left to read

    [at_rest c l]: the cursor is inside its buffer, the buffer is small enough
    to exist in memory, and [l] is what has not been consumed. *)

Definition fits (l : list byte) : Prop := zlen l < 18446744073709551616.

Definition at_rest (c : Cursor) (l : list byte) : Prop :=
  0 <= pos c <= zlen (data c) /\ fits (data c) /\ zdrop (pos c) (data c) = l.

Lemma at_rest_new d : fits d -> at_rest (new d) d.
Proof. intros H. split; [|done]. simpl. pose proof (zlen_nonneg d). lia. Qed.

Lemma at_rest_remaining c l : at_rest c l -> remaining c = zlen l.
Proof. intros (H & _ & <-). unfold remaining. rewrite zlen_zdrop; lia. Qed.

Lemma at_rest_rest c l : at_rest c l -> zdrop (pos c) (data c) = l.
Proof. by intros (_ & _ & ?). Qed.

Lemma take_spec n c l : at_rest c l -> 0 <= n ->
  if zlen l <? n then take n c = Err Truncated
  else exists c', take n c = Ok (ztake n l, c') /\ at_rest c' (zdrop n l).
Proof.
  intros (Hp & Hf & Hl) Hn. unfold take, checked_add_usize, fits in *.
  pose proof (zlen_zdrop (pos c) (data c) ltac:(lia)) as Hlen. rewrite Hl in Hlen.
  destruct (Z.ltb_spec (zlen l) n).
  - destruct (Z.ltb_spec (pos c + n) 18446744073709551616); [|done].
    destruct (Z.ltb_spec (zlen (data c)) (pos c + n)); [done|lia].
  - rewrite (proj2 (Z.ltb_lt _ _)) by lia.
    rewrite (proj2 (Z.ltb_ge _ _)) by lia.
    replace (pos c + n - pos c) with n by lia. rewrite Hl. eexists; split; [done|].
    unfold at_rest, fits; simpl. rewrite <- Hl, zdrop_zdrop by lia. split; [lia|done].
Qed.

Lemma take_app n c l k : at_rest c (l ++ k) -> zlen l = n ->
  exists c', take n c = Ok (l, c') /\ at_rest c' k.
Proof.
  intros Hc Hn. pose proof (take_spec n c _ Hc ltac:(zlen_solve)) as H.
  rewrite (proj2 (Z.ltb_ge _ _)) in H by zlen_solve.
  by rewrite ztake_app_zlen, zdrop_app_zlen in H by done.
Qed.

Lemma u32_put v c l : at_rest c (be_bytes 4 v ++ l) -> in_u32 v ->
  exists c', u32 c = Ok (v, c') /\ at_rest c' l.
Proof.
  intros Hc Hv. destruct (take_app 4 c _ _ Hc) as (c' & E & Hc'); [zlen_solve|].
  exists c'. unfold u32. rewrite E. simpl rbind.
  rewrite be_val_be_bytes. change (256 ^ Z.of_nat 4) with 4294967296.
  by rewrite Z.mod_small.
Qed.

Lemma i32_put v c l : at_rest c (be_bytes 4 v ++ l) -> in_i32 v ->
  exists c', i32 c = Ok (v, c') /\ at_rest c' l.
Proof.
  intros Hc Hv. destruct (take_app 4 c _ _ Hc) as (c' & E & Hc'); [zlen_solve|].
  exists c'. unfold i32. rewrite E. simpl rbind.
  rewrite be_val_be_bytes. change (256 ^ Z.of_nat 4) with 4294967296.
  by rewrite as_i32_mod, as_i32_id.
Qed.

Lemma bool_put (v : bool) c l : at_rest c (be_bytes 4 (if v then 1 else 0) ++ l) ->
  exists c', bool_ c = Ok (v, c') /\ at_rest c' l.
Proof.
  intros Hc. destruct (u32_put (if v then 1 else 0) c l Hc) as (c' & E & Hc').
  { destruct v; unfold in_u32; lia. }
  exists c'. unfold bool_. rewrite E. by destruct v.
Qed.

Lemma pad_of_range n : 0 <= pad_of n < 4.
Proof. unfold pad_of. apply Z.mod_pos_bound. lia. Qed.

(** The bytes of one opaque item on the wire. *)
Definition opaque_wire (d : list byte) : list byte :=
  be_bytes 4 (as_u32 (zlen d)) ++ d ++ replicate (Z.to_nat (pad_of (zlen d))) x00.

Lemma put_opaque_wire buf d : put_opaque buf d = buf ++ opaque_wire d.
Proof. unfold put_opaque, opaque_wire, put_u32. by rewrite <- !app_assoc. Qed.

Lemma opaque_put max d c l : at_rest c (opaque_wire d ++ l) ->
  zlen d <= max -> max < 4294967296 ->
  exists c', opaque max c = Ok (d, c') /\ at_rest c' l.
Proof.
  intros Hc Hd Hmax. unfold opaque_wire in Hc. rewrite <- !app_assoc in Hc.
  pose proof (zlen_nonneg d). pose proof (pad_of_range (zlen d)).
  rewrite as_u32_id in Hc by (unfold in_u32; lia).
  destruct (u32_put _ _ _ Hc) as (c1 & E1 & Hc1); [unfold in_u32; lia|].
  destruct (take_app (zlen d) _ _ _ Hc1) as (c2 & E2 & Hc2); [done|].
  destruct (take_app (pad_of (zlen d)) _ _ _ Hc2) as (c3 & E3 & Hc3).
  { rewrite zlen_replicate. lia. }
  exists c3. unfold opaque. rewrite E1. simpl.
  rewrite (proj2 (Z.ltb_ge _ _)) by lia. rewrite E2. simpl. by rewrite E3.
Qed.

(** ** What a successful read says about the value *)

Lemma zlen_ztake_le {A} n (l : list A) : 0 <= n -> zlen (ztake n l) <= n.
Proof. intros ?. unfold zlen, ztake. rewrite length_take. lia. Qed.

Lemma take_Ok_len n c d c' : 0 <= n -> take n c = Ok (d, c') -> zlen d <= n.
Proof.
  unfold take, checked_add_usize. intros Hn.
  destruct (_ <? _); [|done]. destruct (_ <? _); intros E; simplify_eq.
  replace (pos c + n - pos c) with n by lia. by apply zlen_ztake_le.
Qed.

Lemma be_val_le4 l : zlen l <= 4 -> in_u32 (be_val l).
Proof.
  intros H. pose proof (be_val_range l). unfold in_u32.
  assert (256 ^ Z.of_nat (length l) <= 256 ^ 4) by (apply Z.pow_le_mono_r; unfold zlen in H; lia).
  lia.
Qed.

Lemma u32_Ok c v c' : u32 c = Ok (v, c') -> in_u32 v.
Proof.
  unfold u32. intros ([b c1] & E & H)%rbind_Ok. simplify_eq.
  apply be_val_le4. eapply take_Ok_len; [|done]. lia.
Qed.

Lemma i32_Ok c v c' : i32 c = Ok (v, c') -> in_i32 v.
Proof. unfold i32. intros ([b c1] & E & H)%rbind_Ok. simplify_eq. apply as_i32_range. Qed.

Lemma opaque_Ok max c d c' : opaque max c = Ok (d, c') -> zlen d <= max.
Proof.
  unfold opaque. intros ([len c1] & E & H)%rbind_Ok.
  apply u32_Ok in E. unfold in_u32 in E.
  destruct (Z.ltb_spec max len); [done|].
  apply rbind_Ok in H as ([d1 c2] & E2 & H). apply rbind_Ok in H as ([? c3] & E3 & H).
  simplify_eq. apply take_Ok_len in E2; lia.
Qed.

Create HintDb xdr.
#[export] Hint Resolve u32_Ok i32_Ok opaque_Ok : xdr.

(** The complete behaviour of [opaque] on what is left to read. *)
Lemma opaque_spec max c l : at_rest c l ->
  match opaque max c with
  | Err e =>
      (zlen l < 4 /\ e = Truncated) \/
      (4 <= zlen l /\ max < be_val (ztake 4 l) /\ e = TooLong (be_val (ztake 4 l)) max) \/
      (4 <= zlen l /\ be_val (ztake 4 l) <= max /\ e = Truncated /\
       zlen l < 4 + be_val (ztake 4 l) + pad_of (be_val (ztake 4 l)))
  | Ok (d, c') =>
      let len := be_val (ztake 4 l) in
      len <= max /\ 4 + len + pad_of len <= zlen l /\
      d = ztake len (zdrop 4 l) /\ at_rest c' (zdrop (4 + len + pad_of len) l)
  end.
Proof.
  intros Hc. unfold opaque, u32.
  pose proof (take_spec 4 c l Hc ltac:(lia)) as H1.
  destruct (Z.ltb_spec (zlen l) 4) as [Hl|Hl].
  { rewrite H1. simpl. auto. }
  destruct H1 as (c1 & -> & Hc1). simpl.
  set (len := be_val (ztake 4 l)). pose proof (pad_of_range len).
  assert (0 <= len) by (apply be_val_range).
  destruct (Z.ltb_spec max len); [right; left; auto|].
  pose proof (take_spec len c1 _ Hc1 ltac:(lia)) as H2.
  rewrite zlen_zdrop in H2 by lia.
  destruct (Z.ltb_spec (zlen l - 4) len) as [Hs|Hs].
  { rewrite H2. simpl. right; right. split_and!; auto; lia. }
  destruct H2 as (c2 & -> & Hc2). simpl.
  pose proof (take_spec (pad_of len) c2 _ Hc2 ltac:(lia)) as H3.
  rewrite zdrop_zdrop, zlen_zdrop in H3 by lia.
  destruct (Z.ltb_spec (zlen l - (4 + len)) (pad_of len)).
  { rewrite H3. simpl. right; right. split_and!; auto; lia. }
  destruct H3 as (c3 & -> & Hc3). simpl.
  rewrite zdrop_zdrop in Hc3 by lia. split_and!; auto; lia.
Qed.

#[global] Opaque at_rest fits.

End Xdr.

(** ** Automation for codecs

    [xdr_wire] brings an encoder's output to right-nested wire form;
    [xdr_read] performs one read of a decoder against it. *)

Ltac xdr_wire :=
  unfold Xdr.put_string, Xdr.put_bool, Xdr.put_u32, Xdr.put_i32;
  rewrite ?Xdr.put_opaque_wire; rewrite <- ?app_assoc; rewrite ?app_nil_l.

Ltac xdr_side :=
  first [assumption | unfold in_u32, in_i32, in_u16, in_u8 in *; lia | vm_compute; by split | by vm_compute].

Ltac xdr_read :=
  let c' := fresh "c" in let E := fresh "E" in let Hc := fresh "Hc" in
  match goal with
  | H : Xdr.at_rest ?c (be_bytes 4 ?v ++ ?l) |- context [Xdr.u32 ?c] =>
      destruct (Xdr.u32_put v c l H) as (c' & E & Hc); [xdr_side|]
  | H : Xdr.at_rest ?c (be_bytes 4 ?v ++ ?l) |- context [Xdr.i32 ?c] =>
      destruct (Xdr.i32_put v c l H) as (c' & E & Hc); [xdr_side|]
  | H : Xdr.at_rest ?c (be_bytes 4 (if ?v then 1 else 0) ++ ?l) |- context [Xdr.bool_ ?c] =>
      destruct (Xdr.bool_put v c l H) as (c' & E & Hc)
  | H : Xdr.at_rest ?c (Xdr.opaque_wire ?d ++ ?l) |- context [Xdr.opaque ?m ?c] =>
      destruct (Xdr.opaque_put m d c l H) as (c' & E & Hc); [xdr_side|xdr_side|]
  end;
  rewrite E; clear E; simpl.

(** Take apart a successful decode into its reads. *)
Ltac xdr_inv H :=
  lazymatch type of H with
  | rbind _ _ = Ok _ =>
      let x := fresh "x" in let c := fresh "c" in let E := fresh "E" in
      apply rbind_Ok in H as ([x c] & E & H); xdr_inv H
  | _ => simplify_eq/=
  end.
