(* ===== verification/Rpc.v ===== *)
(** * ONC RPC v2: [src/vxi11/rpc.rs]

    Call and reply headers, both halves, and the record marking that frames
    them on a TCP stream.  A stream is the bytes that will arrive followed by
    how it ends: a clean EOF or a transport error. *)

From S2P Require Import Prelude Xdr.

(** ** Byte streams (the part of [tokio::io::AsyncRead] the code uses) *)

Module Io.

Inductive IoError : Type :=
| UnexpectedEof
| InvalidData
| InvalidInput
| Transport (code : Z).

#[export] Instance IoError_eq_dec : EqDecision IoError.
Proof. solve_decision. Defined.

Record Reader : Type := mkReader {
  avail : list byte;          (* bytes still to arrive *)
  ending : option Z;          (* [None]: EOF; [Some e]: transport error [e] *)
}.

Definition end_error (r : Reader) : IoError :=
  match ending r with None => UnexpectedEof | Some e => Transport e end.

(** [read_exact]: fill a buffer of [n] bytes or fail. *)
Definition read_exact (n : Z) (r : Reader) : result (list byte * Reader) IoError :=
  if n <=? zlen (avail r)
  then Ok (ztake n (avail r), mkReader (zdrop n (avail r)) (ending r))
  else Err (end_error r).

Lemma read_exact_app n l k e : zlen l = n ->
  read_exact n (mkReader (l ++ k) e) = Ok (l, mkReader k e).
Proof.
  intros Hn. unfold read_exact. simpl.
  rewrite (proj2 (Z.leb_le _ _)) by zlen_solve.
  by rewrite ztake_app_zlen, zdrop_app_zlen by done.
Qed.

Lemma read_exact_Ok n r l r' : 0 <= n -> read_exact n r = Ok (l, r') ->
  zlen l = n /\ avail r = l ++ avail r' /\ ending r' = ending r.
Proof.
  unfold read_exact. intros Hn. destruct (Z.leb_spec n (zlen (avail r))); intros E; simplify_eq/=.
  rewrite zlen_ztake by lia. by rewrite ztake_zdrop.
Qed.

Lemma read_exact_Err n r e : read_exact n r = Err e -> e = end_error r /\ zlen (avail r) < n.
Proof.
  unfold read_exact. destruct (Z.leb_spec n (zlen (avail r))); intros E; by simplify_eq.
Qed.

#[global] Arguments read_exact : simpl never.

End Io.

Module Rpc.
Import Xdr Io.
#[local] Transparent fits.

Definition RPC_VERSION : Z := 2.
Definition AUTH_BODY_MAX : Z := 400.
Definition CALL : Z := 0.
Definition REPLY : Z := 1.
Definition MSG_ACCEPTED : Z := 0.
Definition MSG_DENIED : Z := 1.
Definition SUCCESS : Z := 0.
Definition PROG_UNAVAIL : Z := 1.
Definition PROG_MISMATCH : Z := 2.
Definition PROC_UNAVAIL : Z := 3.
Definition GARBAGE_ARGS : Z := 4.
Definition SYSTEM_ERR : Z := 5.
Definition RPC_MISMATCH : Z := 0.
Definition AUTH_NONE : Z := 0.

Record CallHeader : Type := mkCallHeader { xid : Z; prog : Z; vers : Z; proc : Z }.

Inductive CallError : Type :=
| Garbled (e : XdrError)
| NotACall (xid : Z)
| RpcVersion (xid vers : Z).

(** ** Calls *)

(** One iteration of the [for _ in 0..2] loop over cred and verf. *)
Definition skip_auth (c : Cursor) : result Cursor XdrError :=
  let? (_, c) := u32 c in
  let? (_, c) := opaque AUTH_BODY_MAX c in
  Ok c.

Definition decode_call (record : list byte) : result (CallHeader * list byte) CallError :=
  let c := new record in
  let? (xid, c) := map_err Garbled (u32 c) in
  let? (mtype, c) := map_err Garbled (u32 c) in
  if negb (mtype =? CALL) then Err (NotACall xid) else
  let? (rpcvers, c) := map_err Garbled (u32 c) in
  if negb (rpcvers =? RPC_VERSION) then Err (RpcVersion xid rpcvers) else
  let rest_ :=
    let? (prog, c) := u32 c in
    let? (vers, c) := u32 c in
    let? (proc, c) := u32 c in
    let? c := skip_auth c in
    let? c := skip_auth c in
    Ok (mkCallHeader xid prog vers proc, c) in
  match rest_ with
  | Ok (header, c) => Ok (header, (rest c).1)
  | Err e => Err (Garbled e)
  end.

Definition put_null_auth (buf : list byte) : list byte :=
  put_opaque (put_u32 buf AUTH_NONE) [].

Definition encode_call (xid prog vers proc : Z) (args : list byte) : list byte :=
  let buf := put_u32 [] xid in
  let buf := put_u32 buf CALL in
  let buf := put_u32 buf RPC_VERSION in
  let buf := put_u32 buf prog in
  let buf := put_u32 buf vers in
  let buf := put_u32 buf proc in
  let buf := put_null_auth buf in
  let buf := put_null_auth buf in
  buf ++ args.

(** ** Replies *)

Definition accepted (xid stat : Z) : list byte :=
  let buf := put_u32 [] xid in
  let buf := put_u32 buf REPLY in
  let buf := put_u32 buf MSG_ACCEPTED in
  let buf := put_u32 buf AUTH_NONE in
  let buf := put_opaque buf [] in
  put_u32 buf stat.

Definition reply_success (xid : Z) (results : list byte) : list byte :=
  accepted xid SUCCESS ++ results.
Definition reply_prog_unavail (xid : Z) : list byte := accepted xid PROG_UNAVAIL.
Definition reply_prog_mismatch (xid low high : Z) : list byte :=
  put_u32 (put_u32 (accepted xid PROG_MISMATCH) low) high.
Definition reply_proc_unavail (xid : Z) : list byte := accepted xid PROC_UNAVAIL.
Definition reply_garbage_args (xid : Z) : list byte := accepted xid GARBAGE_ARGS.
Definition reply_system_err (xid : Z) : list byte := accepted xid SYSTEM_ERR.

Definition reply_rpc_mismatch (xid : Z) : list byte :=
  let buf := put_u32 [] xid in
  let buf := put_u32 buf REPLY in
  let buf := put_u32 buf MSG_DENIED in
  let buf := put_u32 buf RPC_MISMATCH in
  let buf := put_u32 buf RPC_VERSION in
  put_u32 buf RPC_VERSION.

Inductive ReplyBody : Type :=
| Success (results : list byte)
| Accepted (stat : Z)
| Denied (stat : Z).

Inductive ReplyError : Type :=
| ReplyGarbled (e : XdrError)
| WrongXid (got expected : Z)
| NotAReply (t : Z).

Definition decode_reply (record : list byte) (expect_xid : Z)
    : result ReplyBody ReplyError :=
  let c := new record in
  let? (xid, c) := map_err ReplyGarbled (u32 c) in
  if negb (xid =? expect_xid) then Err (WrongXid xid expect_xid) else
  let? (mtype, c) := map_err ReplyGarbled (u32 c) in
  if negb (mtype =? REPLY) then Err (NotAReply mtype) else
  let? (stat, c) := map_err ReplyGarbled (u32 c) in
  if stat =? MSG_ACCEPTED then
    let? (_, c) := map_err ReplyGarbled (u32 c) in
    let? (_, c) := map_err ReplyGarbled (opaque AUTH_BODY_MAX c) in
    let? (astat, c) := map_err ReplyGarbled (u32 c) in
    if astat =? SUCCESS then Ok (Success (rest c).1) else Ok (Accepted astat)
  else if stat =? MSG_DENIED then
    let? (rstat, c) := map_err ReplyGarbled (u32 c) in
    Ok (Denied rstat)
  else Err (NotAReply stat).

(** ** Record marking *)

Definition RECORD_MAX : Z := 32 * 1024 * 1024.

(** The fragment loop.  [None] is the model running out of fuel, which
    [read_record] never does (see [read_record_total]). *)
Fixpoint read_fragments (fuel : nat) (max_len : Z) (record : list byte) (rd : Reader)
    : option (result (option (list byte) * Reader) IoError) :=
  match fuel with
  | O => None
  | S fuel =>
      match read_exact 4 rd with
      | Err e =>
          if bool_decide (e = UnexpectedEof) && bool_decide (record = [])
          then Some (Ok (None, rd))
          else Some (Err e)
      | Ok (header, rd) =>
          let word := be_val header in
          let last := has_flag word 0x80000000 in
          let len := Z.land word 0x7FFFFFFF in
          if max_len <? Z.min (zlen record + len) 18446744073709551615
          then Some (Err InvalidData)
          else
            match read_exact len rd with
            | Err e => Some (Err e)
            | Ok (body, rd) =>
                let record := record ++ body in
                if last then Some (Ok (Some record, rd))
                else read_fragments fuel max_len record rd
            end
      end
  end.

Definition read_record (rd : Reader) (max_len : Z)
    : option (result (option (list byte) * Reader) IoError) :=
  read_fragments (S (length (avail rd))) max_len [] rd.

(** What [write_record] hands to the transport. *)
Definition write_record (payload : list byte) : result (list byte) IoError :=
  if 0x7FFFFFFF <? zlen payload then Err InvalidInput
  else Ok (be_bytes 4 (Z.lor 0x80000000 (as_u32 (zlen payload))) ++ payload).

(** ** Theorems: calls and replies *)

Definition wf_header (h : CallHeader) : Prop :=
  in_u32 (xid h) /\ in_u32 (prog h) /\ in_u32 (vers h) /\ in_u32 (proc h).

(** The wire form of a call with arbitrary credential and verifier. *)
Definition call_wire (h : CallHeader) (f1 : Z) (b1 : list byte) (f2 : Z) (b2 : list byte)
    (args : list byte) : list byte :=
  be_bytes 4 (xid h) ++ be_bytes 4 CALL ++ be_bytes 4 RPC_VERSION ++
  be_bytes 4 (prog h) ++ be_bytes 4 (vers h) ++ be_bytes 4 (proc h) ++
  be_bytes 4 f1 ++ opaque_wire b1 ++ be_bytes 4 f2 ++ opaque_wire b2 ++ args.

Lemma skip_auth_put f b c l :
  at_rest c (be_bytes 4 f ++ opaque_wire b ++ l) -> in_u32 f -> zlen b <= 400 ->
  exists c', skip_auth c = Ok c' /\ at_rest c' l.
Proof.
  intros Hc Hf Hb. unfold skip_auth. xdr_read. unfold AUTH_BODY_MAX. xdr_read. eauto.
Qed.

Lemma decode_call_wire h f1 b1 f2 b2 args :
  wf_header h -> in_u32 f1 -> in_u32 f2 -> zlen b1 <= 400 -> zlen b2 <= 400 ->
  fits (call_wire h f1 b1 f2 b2 args) ->
  decode_call (call_wire h f1 b1 f2 b2 args) = Ok (h, args).
Proof.
  intros (Hx & Hp & Hv & Hr) Hf1 Hf2 Hb1 Hb2 Hfit.
  pose proof (at_rest_new _ Hfit) as Hc. unfold decode_call. unfold call_wire in Hc at 2.
  xdr_read. xdr_read. xdr_read. do 3 xdr_read.
  destruct (skip_auth_put f1 b1 _ _ ltac:(eassumption) Hf1 Hb1) as (? & -> & ?). simpl.
  destruct (skip_auth_put f2 b2 _ _ ltac:(eassumption) Hf2 Hb2) as (? & -> & ?). simpl.
  erewrite at_rest_rest by eassumption. by destruct h.
Qed.

Lemma encode_call_wire h args :
  encode_call (xid h) (prog h) (vers h) (proc h) args = call_wire h AUTH_NONE [] AUTH_NONE [] args.
Proof. unfold encode_call, put_null_auth, call_wire. by xdr_wire. Qed.

Lemma accepted_wire x s l : accepted x s ++ l =
  be_bytes 4 x ++ be_bytes 4 REPLY ++ be_bytes 4 MSG_ACCEPTED ++ be_bytes 4 AUTH_NONE ++
  opaque_wire [] ++ be_bytes 4 s ++ l.
Proof. unfold accepted. by xdr_wire. Qed.

Lemma decode_accepted x s l : in_u32 x -> in_u32 s -> fits (accepted x s ++ l) ->
  decode_reply (accepted x s ++ l) x = Ok (if s =? SUCCESS then Success l else Accepted s).
Proof.
  intros Hx Hs Hfit. pose proof (at_rest_new _ Hfit) as Hc. rewrite accepted_wire in Hc at 2.
  unfold decode_reply, AUTH_BODY_MAX. xdr_read. rewrite Z.eqb_refl. simpl.
  do 4 xdr_read. xdr_read.
  destruct (Z.eqb_spec s SUCCESS); [|done]. by erewrite at_rest_rest by eassumption.
Qed.

Lemma decode_call_wf record h args : decode_call record = Ok (h, args) -> wf_header h.
Proof.
  unfold decode_call. intros H.
  apply rbind_Ok in H as ([x c1] & E1 & H). apply rbind_Ok in H as ([m c2] & E2 & H).
  destruct (negb _); [done|]. apply rbind_Ok in H as ([v c3] & E3 & H).
  destruct (negb _); [done|].
  destruct (u32 (new record)) as [[? ?]|] eqn:E0; simplify_eq/=.
  destruct (rbind (u32 c3) _) as [[h' c']|] eqn:E4; simplify_eq/=.
  apply rbind_Ok in E4 as ([? ?] & ? & E4). apply rbind_Ok in E4 as ([? ?] & ? & E4).
  apply rbind_Ok in E4 as ([? ?] & ? & E4). apply rbind_Ok in E4 as (? & ? & E4).
  apply rbind_Ok in E4 as (? & ? & E4). simplify_eq/=. unfold wf_header; simpl.
  split_and!; eapply u32_Ok; eassumption.
Qed.

(** ** Theorems: record marking *)

(** A fragment on the wire. *)
Definition fragment (last : bool) (body : list byte) : list byte :=
  be_bytes 4 (Z.lor (if last then 0x80000000 else 0) (zlen body)) ++ body.

Lemma length_fragment last body : length (fragment last body) = (4 + length body)%nat.
Proof. unfold fragment. by rewrite length_app, length_be_bytes. Qed.

Lemma fragment_word (last : bool) n : 0 <= n < 0x80000000 ->
  let w := Z.lor (if last then 0x80000000 else 0) n in
  in_u32 w /\ has_flag w 0x80000000 = last /\ Z.land w 0x7FFFFFFF = n.
Proof.
  intros Hn w.
  assert (Hland : Z.land n 0x7FFFFFFF = n).
  { change 0x7FFFFFFF with (Z.ones 31). rewrite Z.land_ones by lia. by apply Z.mod_small. }
  assert (Hhi : Z.land n 0x80000000 = 0).
  { rewrite <- Hland, <- Z.land_assoc. apply Z.land_0_r. }
  assert (Hw : w = (if last then 0x80000000 else 0) + n).
  { subst w. destruct last; [|done]. symmetry. rewrite <- Z.lxor_lor, <- Z.add_nocarry_lxor; [done|..];
    by rewrite Z.land_comm. }
  split; [unfold in_u32; destruct last; lia|]. unfold has_flag. subst w.
  rewrite !(Z.land_lor_distr_l), Hhi, Hland. by destruct last.
Qed.

Lemma read_fragment fuel max record (last : bool) body k e :
  zlen body < 0x80000000 -> zlen record + zlen body <= max -> zlen record + zlen body < 2 ^ 64 ->
  read_fragments (S fuel) max record (mkReader (fragment last body ++ k) e) =
  if last then Some (Ok (Some (record ++ body), mkReader k e))
  else read_fragments fuel max (record ++ body) (mkReader k e).
Proof.
  intros Hb Hm Hs. pose proof (zlen_nonneg body).
  destruct (fragment_word last (zlen body) ltac:(lia)) as (Hw & Hflag & Hlen).
  unfold fragment. rewrite <- app_assoc. cbn [read_fragments].
  rewrite read_exact_app by zlen_solve.
  rewrite be_val_be_bytes. change (256 ^ Z.of_nat 4) with 4294967296.
  rewrite Z.mod_small, Hflag, Hlen by apply Hw.
  rewrite (proj2 (Z.ltb_ge _ _)) by lia. rewrite read_exact_app by done. by destruct last.
Qed.

Lemma read_fragments_total fuel max record rd :
  (length (avail rd) < fuel)%nat -> is_Some (read_fragments fuel max record rd).
Proof.
  revert record rd. induction fuel as [|fuel IH]; intros record rd Hf; [lia|].
  simpl. destruct (read_exact 4 rd) as [[h r1]|] eqn:E1; [|case_match; eauto].
  apply read_exact_Ok in E1 as (L1 & A1 & _); [|lia].
  destruct (_ <? _); [eauto|].
  destruct (read_exact _ r1) as [[b r2]|] eqn:E2; [|eauto].
  apply read_exact_Ok in E2 as (_ & A2 & _); [|apply Z.land_nonneg; right; lia].
  destruct (has_flag _ _); [eauto|]. apply IH.
  rewrite A1, A2, !length_app in Hf. unfold zlen in L1. lia.
Qed.

Lemma read_fragments_bound fuel max record rd rec rd' :
  zlen record <= max -> max < 2 ^ 64 - 1 ->
  read_fragments fuel max record rd = Some (Ok (Some rec, rd')) -> zlen rec <= max.
Proof.
  revert record rd. induction fuel as [|fuel IH]; intros record rd Hr Hm; [done|].
  simpl. destruct (read_exact 4 rd) as [[h r1]|]; [|case_match; intros; simplify_eq].
  destruct (Z.ltb_spec max (Z.min (zlen record + Z.land (be_val h) 2147483647) 18446744073709551615)); [done|].
  destruct (read_exact _ r1) as [[b r2]|] eqn:E2; [|done].
  apply read_exact_Ok in E2 as (L2 & _ & _); [|apply Z.land_nonneg; right; lia].
  assert (zlen (record ++ b) <= max) by (rewrite zlen_app, L2; lia).
  destruct (has_flag _ _); [intros; by simplify_eq|]. by apply IH.
Qed.

(** ** Properties *)

(** A buffer no larger than a Rust allocation can be ([isize::MAX] bytes). *)
Definition vec_ok (l : list byte) : Prop := zlen l < 2 ^ 63.

Lemma zlen_opaque_wire d : zlen (opaque_wire d) = 4 + zlen d + pad_of (zlen d).
Proof. unfold opaque_wire. pose proof (pad_of_range (zlen d)). zlen_solve. Qed.

Lemma fits_call_wire h f1 b1 f2 b2 args : zlen b1 <= 400 -> zlen b2 <= 400 -> vec_ok args ->
  fits (call_wire h f1 b1 f2 b2 args).
Proof.
  unfold vec_ok, fits, call_wire. intros. autorewrite with zlen. rewrite !zlen_opaque_wire.
  pose proof (pad_of_range (zlen b1)). pose proof (pad_of_range (zlen b2)). lia.
Qed.

Lemma fits_accepted x s l : vec_ok l -> fits (accepted x s ++ l).
Proof.
  unfold vec_ok, fits. rewrite accepted_wire. autorewrite with zlen.
  rewrite zlen_opaque_wire. change (pad_of (zlen [])) with 0. zlen_solve.
Qed.

Lemma vec_ok_fits l : vec_ok l -> fits l.
Proof. unfold vec_ok, fits. lia. Qed.

Lemma call_roundtrip_aux h args : wf_header h -> vec_ok args ->
  decode_call (encode_call (xid h) (prog h) (vers h) (proc h) args) = Ok (h, args).
Proof.
  intros Hh Ha. rewrite encode_call_wire.
  apply decode_call_wire; try done; [unfold in_u32, AUTH_NONE; lia..|].
  by apply fits_call_wire.
Qed.

Lemma write_read_record_aux payload wire tail e max_len :
  write_record payload = Ok wire -> zlen payload <= max_len -> max_len < 2 ^ 64 ->
  read_record (mkReader (wire ++ tail) e) max_len = Some (Ok (Some payload, mkReader tail e)).
Proof.
  unfold write_record. intros Hw Hm Hmax. destruct (Z.ltb_spec 0x7FFFFFFF (zlen payload)); [done|].
  simplify_eq. pose proof (zlen_nonneg payload).
  rewrite as_u32_id by (unfold in_u32; lia). unfold read_record.
  by rewrite (read_fragment _ max_len [] true payload tail e); [|simpl; zlen_solve..].
Qed.

(** A record cut off after its header is an error, not an end of stream. *)
Lemma read_record_cut payload wire k e max_len :
  write_record payload = Ok wire -> 4 <= k < zlen wire -> zlen payload <= max_len -> max_len < 2 ^ 64 - 1 ->
  read_record (mkReader (ztake k wire) e) max_len = Some (Err (end_error (mkReader [] e))).
Proof.
  unfold write_record. intros Hw Hk Hm Hmax. destruct (Z.ltb_spec 0x7FFFFFFF (zlen payload)); [done|].
  assert (wire = be_bytes 4 (Z.lor 0x80000000 (as_u32 (zlen payload))) ++ payload) as -> by congruence.
  pose proof (zlen_nonneg payload).
  rewrite as_u32_id in Hk |- * by (unfold in_u32; lia). autorewrite with zlen in Hk.
  destruct (fragment_word true (zlen payload) ltac:(lia)) as (Hword & Hflag & Hlen).
  unfold ztake. rewrite take_app_ge by (rewrite length_be_bytes; lia). rewrite length_be_bytes.
  unfold read_record. cbn [read_fragments]. rewrite read_exact_app by zlen_solve.
  rewrite be_val_be_bytes. change (256 ^ Z.of_nat 4) with 4294967296.
  rewrite Z.mod_small, Hlen by apply Hword.
  rewrite (proj2 (Z.ltb_ge _ _)) by zlen_solve. unfold read_exact. cbn [avail].
  rewrite (proj2 (Z.leb_gt _ _)); [done|]. unfold zlen in *. rewrite length_take. lia.
Qed.

(** a call encoded by the client half ([encode_call]) decodes at the
    server half ([decode_call]) to the same xid, program, version, procedure
    and argument bytes. *)
Theorem call_roundtrip h args : wf_header h -> vec_ok args ->
  decode_call (encode_call (xid h) (prog h) (vers h) (proc h) args) = Ok (h, args).
Proof. apply call_roundtrip_aux. Qed.

Lemma call_roundtrip_witness :
  decode_call (encode_call 0x1234 0x0607AF 1 10 [x61; x62; x63]) =
  Ok (mkCallHeader 0x1234 0x0607AF 1 10, [x61; x62; x63]).
Proof.
  apply (call_roundtrip (mkCallHeader 0x1234 0x0607AF 1 10) [x61; x62; x63]);
    [unfold wf_header, in_u32; simpl; lia|by vm_compute].
Defined.

(** Whatever flavor and contents the credential and the verifier have (up
    to the protocol's 400 bytes each), [decode_call] skips them: the header
    and the arguments come out the same as with AUTH_NONE. *)
Theorem credentials_ignored h f1 b1 f2 b2 args :
  wf_header h -> in_u32 f1 -> in_u32 f2 -> zlen b1 <= 400 -> zlen b2 <= 400 -> vec_ok args ->
  decode_call (call_wire h f1 b1 f2 b2 args) =
  decode_call (encode_call (xid h) (prog h) (vers h) (proc h) args).
Proof.
  intros Hh ???? Ha. rewrite encode_call_wire, !decode_call_wire; try done;
    try (by apply fits_call_wire); unfold in_u32, AUTH_NONE; lia.
Qed.

Lemma credentials_ignored_witness :
  decode_call (call_wire (mkCallHeader 7 100000 2 3) 1 (replicate 24 xaa) 0 [] [x78]) =
  decode_call (encode_call 7 100000 2 3 [x78]).
Proof.
  apply (credentials_ignored (mkCallHeader 7 100000 2 3)); try (by vm_compute);
    unfold wf_header, in_u32; simpl; lia.
Defined.

(** every reply the server can build decodes at the client half, under
    the same xid, to exactly the status it was built for: SUCCESS carries its
    result bytes, the four error replies and PROG_MISMATCH surface their
    accept_stat, and an RPC version mismatch is a denial. *)
Theorem reply_roundtrip x results low high : in_u32 x -> vec_ok results ->
  decode_reply (reply_success x results) x = Ok (Success results) /\
  decode_reply (reply_prog_unavail x) x = Ok (Accepted PROG_UNAVAIL) /\
  decode_reply (reply_prog_mismatch x low high) x = Ok (Accepted PROG_MISMATCH) /\
  decode_reply (reply_proc_unavail x) x = Ok (Accepted PROC_UNAVAIL) /\
  decode_reply (reply_garbage_args x) x = Ok (Accepted GARBAGE_ARGS) /\
  decode_reply (reply_system_err x) x = Ok (Accepted SYSTEM_ERR) /\
  decode_reply (reply_rpc_mismatch x) x = Ok (Denied RPC_MISMATCH).
Proof.
  intros Hx Hr.
  assert (Hacc : forall s l, in_u32 s -> vec_ok l -> s <> SUCCESS ->
            decode_reply (accepted x s ++ l) x = Ok (Accepted s)).
  { intros s l Hs Hl Hne. rewrite decode_accepted; [|done..|by apply fits_accepted].
    by destruct (Z.eqb_spec s SUCCESS). }
  assert (Hacc0 : forall s, in_u32 s -> s <> SUCCESS ->
            decode_reply (accepted x s) x = Ok (Accepted s)).
  { intros s ??. rewrite <- (app_nil_r (accepted x s)). by apply Hacc. }
  unfold reply_prog_unavail, reply_proc_unavail, reply_garbage_args, reply_system_err.
  split_and!; [|apply Hacc0; done| |apply Hacc0; done..|].
  - unfold reply_success. rewrite decode_accepted; [done|done|done|by apply fits_accepted].
  - unfold reply_prog_mismatch, put_u32. rewrite <- app_assoc. apply Hacc; [done| |done].
    unfold vec_ok. zlen_solve.
  - unfold reply_rpc_mismatch. xdr_wire.
    assert (Hc : at_rest (new (be_bytes 4 x ++ be_bytes 4 REPLY ++ be_bytes 4 MSG_DENIED ++
      be_bytes 4 RPC_MISMATCH ++ be_bytes 4 RPC_VERSION ++ be_bytes 4 RPC_VERSION)) _)
      by (apply at_rest_new; unfold fits; zlen_solve).
    unfold decode_reply. xdr_read. rewrite Z.eqb_refl. simpl. by do 3 xdr_read.
Qed.

Lemma reply_roundtrip_witness :
  decode_reply (reply_success 0x42 [x72; x65]) 0x42 = Ok (Success [x72; x65]).
Proof. by apply (reply_roundtrip 0x42 [x72; x65] 1 1). Defined.

(** [read_record] always returns: on every stream, with every limit, the
    fragment loop ends with a record, a hang-up or an error. *)
Theorem read_record_total rd max_len : is_Some (read_record rd max_len).
Proof. apply read_fragments_total. lia. Qed.

(** a record split into any fragments (empty ones included) is
    reassembled by [read_record] into the concatenation of their bodies, and
    the bytes after the last fragment are left for the next record. *)
Theorem read_record_reassembles max_len bodies last_body tail e :
  (forall b, b ∈ bodies ++ [last_body] -> zlen b < 0x80000000) ->
  zlen (concat (bodies ++ [last_body])) <= max_len -> max_len < 2 ^ 64 ->
  read_record
    (mkReader (concat (map (fragment false) bodies) ++ fragment true last_body ++ tail) e)
    max_len =
  Some (Ok (Some (concat (bodies ++ [last_body])), mkReader tail e)).
Proof.
  intros Hb Hm Hmax. unfold read_record. cbn [avail].
  set (fuel := S (length (concat (map (fragment false) bodies) ++ fragment true last_body ++ tail))).
  assert (Hfuel : (length bodies < fuel)%nat).
  { subst fuel. rewrite length_app. enough (length bodies <= length (concat (map (fragment false) bodies)))%nat by lia.
    clear. induction bodies as [|b bs IH]; cbn [map concat]; [simpl; lia|].
    rewrite length_app, length_fragment. simpl. lia. }
  clearbody fuel.
  enough (forall record, zlen (record ++ concat (bodies ++ [last_body])) <= max_len ->
    read_fragments fuel max_len record
      (mkReader (concat (map (fragment false) bodies) ++ fragment true last_body ++ tail) e) =
    Some (Ok (Some (record ++ concat (bodies ++ [last_body])), mkReader tail e))) as H
    by (by apply (H [])).
  clear Hm. revert bodies Hb Hfuel. induction fuel as [|fuel IH]; intros bodies Hb Hfuel record Hm; [lia|].
  destruct bodies as [|b bs]; cbn [map concat app length] in *.
  - rewrite app_nil_r in *. rewrite zlen_app in Hm.
    rewrite read_fragment; [done|apply Hb; set_solver|lia|lia].
  - rewrite !zlen_app in Hm. pose proof (zlen_nonneg (concat (bs ++ [last_body]))).
    rewrite <- app_assoc. rewrite read_fragment; [|apply Hb; set_solver|lia|lia].
    rewrite IH; [by rewrite <- app_assoc|set_solver|lia|rewrite !zlen_app; lia].
Qed.

Lemma read_record_reassembles_witness :
  read_record
    (mkReader (concat (map (fragment false) [[x61; x62; x63]; []]) ++ fragment true [x64; x65] ++ [xff]) None)
    RECORD_MAX =
  Some (Ok (Some [x61; x62; x63; x64; x65], mkReader [xff] None)).
Proof.
  apply (read_record_reassembles RECORD_MAX [[x61; x62; x63]; []] [x64; x65] [xff] None);
    [|by vm_compute..].
  intros b Hb. repeat (apply elem_of_cons in Hb as [->|Hb]; [by vm_compute|]).
  by apply elem_of_nil in Hb.
Defined.

(** What [write_record] puts on the wire is one record for [read_record]:
    the payload comes back unchanged and nothing of what follows is consumed. *)
Theorem write_read_record payload wire tail e max_len :
  write_record payload = Ok wire -> zlen payload <= max_len -> max_len < 2 ^ 64 ->
  read_record (mkReader (wire ++ tail) e) max_len = Some (Ok (Some payload, mkReader tail e)).
Proof. apply write_read_record_aux. Qed.

Lemma write_read_record_witness :
  read_record (mkReader ((be_bytes 4 0x80000002 ++ [x6f; x6e]) ++ []) None) 8 =
  Some (Ok (Some [x6f; x6e], mkReader [] None)).
Proof. by apply (write_read_record [x6f; x6e]); vm_compute. Defined.

(** no record longer than the limit is ever returned, however many
    fragments it arrives in. *)
Theorem read_record_bounded rd max_len rec rd' : 0 <= max_len < 2 ^ 64 - 1 ->
  read_record rd max_len = Some (Ok (Some rec, rd')) -> zlen rec <= max_len.
Proof. intros H. apply read_fragments_bound; [rewrite zlen_nil|]; lia. Qed.

Lemma read_record_bounded_witness : zlen [x6f; x6e] <= 2.
Proof.
  apply (read_record_bounded (mkReader (fragment true [x6f; x6e]) None) 2 _ (mkReader [] None)); [lia|].
  by vm_compute.
Defined.

(** A stream that ends inside the first fragment header (one to three
    bytes of it) is reported as a clean hang-up, the same as a stream that
    ends between records. *)
Theorem truncated_first_header_is_hangup l max_len : zlen l < 4 ->
  read_record (mkReader l None) max_len = Some (Ok (None, mkReader l None)).
Proof.
  intros Hl. unfold read_record. cbn [read_fragments]. unfold read_exact. cbn [avail].
  by rewrite (proj2 (Z.leb_gt _ _)) by lia.
Qed.

Lemma truncated_first_header_is_hangup_witness :
  read_record (mkReader [x80; x00] None) 4096 = Some (Ok (None, mkReader [x80; x00] None)).
Proof. by apply truncated_first_header_is_hangup. Defined.

End Rpc.
