(* ===== verification/Messages.v ===== *)
(** * VXI-11 messages: [src/vxi11/messages.rs]

    The RPCL structures in the specification's own field order, each with both
    directions.  [XdrStruct] is the contract a structure's codec offers its
    users (the server decodes parameters and encodes responses, the client the
    reverse): a well-formed value survives the wire, whatever follows it, and
    decoding only ever yields well-formed values. *)

From S2P Require Import Prelude Xdr Rpc.

Module Messages.
Import Xdr.

Definition SRQ_HANDLE_MAX : Z := 40.
Definition DEVICE_NAME_MAX : Z := 1024.
Definition DATA_MAX : Z := 4096.

(** ** CreateLinkParms *)

Record CreateLinkParms : Type := mkCreateLinkParms {
  clp_client_id : Z;
  clp_lock_device : bool;
  clp_lock_timeout_ms : Z;
  clp_device : list byte;
}.

Definition CreateLinkParms_encode (p : CreateLinkParms) (buf : list byte) : list byte :=
  let buf := put_i32 buf (clp_client_id p) in
  let buf := put_bool buf (clp_lock_device p) in
  let buf := put_u32 buf (clp_lock_timeout_ms p) in
  put_opaque buf (clp_device p).

Definition CreateLinkParms_decode (data : list byte) : result CreateLinkParms XdrError :=
  let c := new data in
  let? (client_id_, c) := i32 c in
  let? (lock_device_, c) := bool_ c in
  let? (lock_timeout_ms_, c) := u32 c in
  let? (device_, c) := opaque DEVICE_NAME_MAX c in
  Ok (mkCreateLinkParms client_id_ lock_device_ lock_timeout_ms_ device_).

Definition CreateLinkParms_wf (p : CreateLinkParms) : Prop :=
  in_i32 (clp_client_id p) /\ in_u32 (clp_lock_timeout_ms p) /\ zlen (clp_device p) <= DEVICE_NAME_MAX.

(** ** CreateLinkResp *)

Record CreateLinkResp : Type := mkCreateLinkResp {
  clr_error : Z;
  clr_lid : Z;
  clr_abort_port : Z;
  clr_max_recv_size : Z;
}.

Definition CreateLinkResp_encode (p : CreateLinkResp) : list byte :=
  let buf := [] in
  let buf := put_u32 buf (clr_error p) in
  let buf := put_i32 buf (clr_lid p) in
  let buf := put_u32 buf (clr_abort_port p) in
  put_u32 buf (clr_max_recv_size p).

Definition CreateLinkResp_decode (data : list byte) : result CreateLinkResp XdrError :=
  let c := new data in
  let? (error_, c) := u32 c in
  let? (lid_, c) := i32 c in
  let? (abort_port_, c) := u32 c in
  let? (max_recv_size_, c) := u32 c in
  Ok (mkCreateLinkResp error_ lid_ (as_u16 abort_port_) max_recv_size_).

Definition CreateLinkResp_wf (p : CreateLinkResp) : Prop :=
  in_u32 (clr_error p) /\ in_i32 (clr_lid p) /\ in_u16 (clr_abort_port p) /\ in_u32 (clr_max_recv_size p).

(** ** DeviceWriteParms *)

Record DeviceWriteParms : Type := mkDeviceWriteParms {
  dwp_lid : Z;
  dwp_io_timeout_ms : Z;
  dwp_lock_timeout_ms : Z;
  dwp_flags : Z;
  dwp_data : list byte;
}.

Definition DeviceWriteParms_encode (p : DeviceWriteParms) (buf : list byte) : list byte :=
  let buf := put_i32 buf (dwp_lid p) in
  let buf := put_u32 buf (dwp_io_timeout_ms p) in
  let buf := put_u32 buf (dwp_lock_timeout_ms p) in
  let buf := put_u32 buf (dwp_flags p) in
  put_opaque buf (dwp_data p).

Definition DeviceWriteParms_decode (data : list byte) (max_data : Z) : result DeviceWriteParms XdrError :=
  let c := new data in
  let? (lid_, c) := i32 c in
  let? (io_timeout_ms_, c) := u32 c in
  let? (lock_timeout_ms_, c) := u32 c in
  let? (flags_, c) := u32 c in
  let? (data_, c) := opaque max_data c in
  Ok (mkDeviceWriteParms lid_ io_timeout_ms_ lock_timeout_ms_ flags_ data_).

Definition DeviceWriteParms_wf (max_data : Z) (p : DeviceWriteParms) : Prop :=
  in_i32 (dwp_lid p) /\ in_u32 (dwp_io_timeout_ms p) /\ in_u32 (dwp_lock_timeout_ms p) /\ in_u32 (dwp_flags p) /\ zlen (dwp_data p) <= max_data.

(** ** DeviceWriteResp *)

Record DeviceWriteResp : Type := mkDeviceWriteResp {
  dwr_error : Z;
  dwr_size : Z;
}.

Definition DeviceWriteResp_encode (p : DeviceWriteResp) : list byte :=
  let buf := [] in
  let buf := put_u32 buf (dwr_error p) in
  put_u32 buf (dwr_size p).

Definition DeviceWriteResp_decode (data : list byte) : result DeviceWriteResp XdrError :=
  let c := new data in
  let? (error_, c) := u32 c in
  let? (size_, c) := u32 c in
  Ok (mkDeviceWriteResp error_ size_).

Definition DeviceWriteResp_wf (p : DeviceWriteResp) : Prop :=
  in_u32 (dwr_error p) /\ in_u32 (dwr_size p).

(** ** DeviceReadParms *)

Record DeviceReadParms : Type := mkDeviceReadParms {
  drp_lid : Z;
  drp_request_size : Z;
  drp_io_timeout_ms : Z;
  drp_lock_timeout_ms : Z;
  drp_flags : Z;
  drp_term_char : Z;
}.

Definition DeviceReadParms_encode (p : DeviceReadParms) (buf : list byte) : list byte :=
  let buf := put_i32 buf (drp_lid p) in
  let buf := put_u32 buf (drp_request_size p) in
  let buf := put_u32 buf (drp_io_timeout_ms p) in
  let buf := put_u32 buf (drp_lock_timeout_ms p) in
  let buf := put_u32 buf (drp_flags p) in
  put_i32 buf (drp_term_char p).

Definition DeviceReadParms_decode (data : list byte) : result DeviceReadParms XdrError :=
  let c := new data in
  let? (lid_, c) := i32 c in
  let? (request_size_, c) := u32 c in
  let? (io_timeout_ms_, c) := u32 c in
  let? (lock_timeout_ms_, c) := u32 c in
  let? (flags_, c) := u32 c in
  let? (term_char_, c) := i32 c in
  Ok (mkDeviceReadParms lid_ request_size_ io_timeout_ms_ lock_timeout_ms_ flags_ term_char_).

Definition DeviceReadParms_wf (p : DeviceReadParms) : Prop :=
  in_i32 (drp_lid p) /\ in_u32 (drp_request_size p) /\ in_u32 (drp_io_timeout_ms p) /\ in_u32 (drp_lock_timeout_ms p) /\ in_u32 (drp_flags p) /\ in_i32 (drp_term_char p).

(** ** DeviceReadResp *)

Record DeviceReadResp : Type := mkDeviceReadResp {
  drr_error : Z;
  drr_reason : Z;
  drr_data : list byte;
}.

Definition DeviceReadResp_encode (p : DeviceReadResp) : list byte :=
  let buf := [] in
  let buf := put_u32 buf (drr_error p) in
  let buf := put_u32 buf (drr_reason p) in
  put_opaque buf (drr_data p).

Definition DeviceReadResp_decode (data : list byte) (max_data : Z) : result DeviceReadResp XdrError :=
  let c := new data in
  let? (error_, c) := u32 c in
  let? (reason_, c) := u32 c in
  let? (data_, c) := opaque max_data c in
  Ok (mkDeviceReadResp error_ reason_ data_).

Definition DeviceReadResp_wf (max_data : Z) (p : DeviceReadResp) : Prop :=
  in_u32 (drr_error p) /\ in_u32 (drr_reason p) /\ zlen (drr_data p) <= max_data.

(** ** DeviceGenericParms *)

Record DeviceGenericParms : Type := mkDeviceGenericParms {
  dgp_lid : Z;
  dgp_flags : Z;
  dgp_lock_timeout_ms : Z;
  dgp_io_timeout_ms : Z;
}.

Definition DeviceGenericParms_encode (p : DeviceGenericParms) (buf : list byte) : list byte :=
  let buf := put_i32 buf (dgp_lid p) in
  let buf := put_u32 buf (dgp_flags p) in
  let buf := put_u32 buf (dgp_lock_timeout_ms p) in
  put_u32 buf (dgp_io_timeout_ms p).

Definition DeviceGenericParms_decode (data : list byte) : result DeviceGenericParms XdrError :=
  let c := new data in
  let? (lid_, c) := i32 c in
  let? (flags_, c) := u32 c in
  let? (lock_timeout_ms_, c) := u32 c in
  let? (io_timeout_ms_, c) := u32 c in
  Ok (mkDeviceGenericParms lid_ flags_ lock_timeout_ms_ io_timeout_ms_).

Definition DeviceGenericParms_wf (p : DeviceGenericParms) : Prop :=
  in_i32 (dgp_lid p) /\ in_u32 (dgp_flags p) /\ in_u32 (dgp_lock_timeout_ms p) /\ in_u32 (dgp_io_timeout_ms p).

(** ** DeviceReadStbResp *)

Record DeviceReadStbResp : Type := mkDeviceReadStbResp {
  dsr_error : Z;
  dsr_stb : Z;
}.

Definition DeviceReadStbResp_encode (p : DeviceReadStbResp) : list byte :=
  let buf := [] in
  let buf := put_u32 buf (dsr_error p) in
  put_u32 buf (dsr_stb p).

Definition DeviceReadStbResp_decode (data : list byte) : result DeviceReadStbResp XdrError :=
  let c := new data in
  let? (error_, c) := u32 c in
  let? (stb_, c) := u32 c in
  Ok (mkDeviceReadStbResp error_ (as_u8 stb_)).

Definition DeviceReadStbResp_wf (p : DeviceReadStbResp) : Prop :=
  in_u32 (dsr_error p) /\ in_u8 (dsr_stb p).

(** ** DeviceLockParms *)

Record DeviceLockParms : Type := mkDeviceLockParms {
  dlp_lid : Z;
  dlp_flags : Z;
  dlp_lock_timeout_ms : Z;
}.

Definition DeviceLockParms_encode (p : DeviceLockParms) (buf : list byte) : list byte :=
  let buf := put_i32 buf (dlp_lid p) in
  let buf := put_u32 buf (dlp_flags p) in
  put_u32 buf (dlp_lock_timeout_ms p).

Definition DeviceLockParms_decode (data : list byte) : result DeviceLockParms XdrError :=
  let c := new data in
  let? (lid_, c) := i32 c in
  let? (flags_, c) := u32 c in
  let? (lock_timeout_ms_, c) := u32 c in
  Ok (mkDeviceLockParms lid_ flags_ lock_timeout_ms_).

Definition DeviceLockParms_wf (p : DeviceLockParms) : Prop :=
  in_i32 (dlp_lid p) /\ in_u32 (dlp_flags p) /\ in_u32 (dlp_lock_timeout_ms p).

(** ** DeviceEnableSrqParms *)

Record DeviceEnableSrqParms : Type := mkDeviceEnableSrqParms {
  dep_lid : Z;
  dep_enable : bool;
  dep_handle : list byte;
}.

Definition DeviceEnableSrqParms_encode (p : DeviceEnableSrqParms) (buf : list byte) : list byte :=
  let buf := put_i32 buf (dep_lid p) in
  let buf := put_bool buf (dep_enable p) in
  put_opaque buf (dep_handle p).

Definition DeviceEnableSrqParms_decode (data : list byte) : result DeviceEnableSrqParms XdrError :=
  let c := new data in
  let? (lid_, c) := i32 c in
  let? (enable_, c) := bool_ c in
  let? (handle_, c) := opaque SRQ_HANDLE_MAX c in
  Ok (mkDeviceEnableSrqParms lid_ enable_ handle_).

Definition DeviceEnableSrqParms_wf (p : DeviceEnableSrqParms) : Prop :=
  in_i32 (dep_lid p) /\ zlen (dep_handle p) <= SRQ_HANDLE_MAX.

(** ** DeviceRemoteFunc *)

Record DeviceRemoteFunc : Type := mkDeviceRemoteFunc {
  drf_host_addr : Z;
  drf_host_port : Z;
  drf_prog_num : Z;
  drf_prog_vers : Z;
  drf_prog_family : Z;
}.

Definition DeviceRemoteFunc_encode (p : DeviceRemoteFunc) (buf : list byte) : list byte :=
  let buf := put_u32 buf (drf_host_addr p) in
  let buf := put_u32 buf (drf_host_port p) in
  let buf := put_u32 buf (drf_prog_num p) in
  let buf := put_u32 buf (drf_prog_vers p) in
  put_u32 buf (drf_prog_family p).

Definition DeviceRemoteFunc_decode (data : list byte) : result DeviceRemoteFunc XdrError :=
  let c := new data in
  let? (host_addr_, c) := u32 c in
  let? (host_port_, c) := u32 c in
  let? (prog_num_, c) := u32 c in
  let? (prog_vers_, c) := u32 c in
  let? (prog_family_, c) := u32 c in
  Ok (mkDeviceRemoteFunc host_addr_ (as_u16 host_port_) prog_num_ prog_vers_ prog_family_).

Definition DeviceRemoteFunc_wf (p : DeviceRemoteFunc) : Prop :=
  in_u32 (drf_host_addr p) /\ in_u16 (drf_host_port p) /\ in_u32 (drf_prog_num p) /\ in_u32 (drf_prog_vers p) /\ in_u32 (drf_prog_family p).

(** ** DeviceSrqParms *)

Record DeviceSrqParms : Type := mkDeviceSrqParms {
  dsp_handle : list byte;
}.

Definition DeviceSrqParms_encode (p : DeviceSrqParms) : list byte :=
  let buf := [] in
  put_opaque buf (dsp_handle p).

Definition DeviceSrqParms_decode (data : list byte) : result DeviceSrqParms XdrError :=
  let c := new data in
  let? (handle_, c) := opaque SRQ_HANDLE_MAX c in
  Ok (mkDeviceSrqParms handle_).

Definition DeviceSrqParms_wf (p : DeviceSrqParms) : Prop :=
  zlen (dsp_handle p) <= SRQ_HANDLE_MAX.

(** ** DeviceDocmdParms *)

Record DeviceDocmdParms : Type := mkDeviceDocmdParms {
  ddp_lid : Z;
  ddp_flags : Z;
  ddp_io_timeout_ms : Z;
  ddp_lock_timeout_ms : Z;
  ddp_cmd : Z;
  ddp_network_order : bool;
  ddp_datasize : Z;
  ddp_data_in : list byte;
}.

Definition DeviceDocmdParms_encode (p : DeviceDocmdParms) (buf : list byte) : list byte :=
  let buf := put_i32 buf (ddp_lid p) in
  let buf := put_u32 buf (ddp_flags p) in
  let buf := put_u32 buf (ddp_io_timeout_ms p) in
  let buf := put_u32 buf (ddp_lock_timeout_ms p) in
  let buf := put_i32 buf (ddp_cmd p) in
  let buf := put_bool buf (ddp_network_order p) in
  let buf := put_i32 buf (ddp_datasize p) in
  put_opaque buf (ddp_data_in p).

Definition DeviceDocmdParms_decode (data : list byte) : result DeviceDocmdParms XdrError :=
  let c := new data in
  let? (lid_, c) := i32 c in
  let? (flags_, c) := u32 c in
  let? (io_timeout_ms_, c) := u32 c in
  let? (lock_timeout_ms_, c) := u32 c in
  let? (cmd_, c) := i32 c in
  let? (network_order_, c) := bool_ c in
  let? (datasize_, c) := i32 c in
  let? (data_in_, c) := opaque DATA_MAX c in
  Ok (mkDeviceDocmdParms lid_ flags_ io_timeout_ms_ lock_timeout_ms_ cmd_ network_order_ datasize_ data_in_).

Definition DeviceDocmdParms_wf (p : DeviceDocmdParms) : Prop :=
  in_i32 (ddp_lid p) /\ in_u32 (ddp_flags p) /\ in_u32 (ddp_io_timeout_ms p) /\ in_u32 (ddp_lock_timeout_ms p) /\ in_i32 (ddp_cmd p) /\ in_i32 (ddp_datasize p) /\ zlen (ddp_data_in p) <= DATA_MAX.

(** ** DeviceDocmdResp *)

Record DeviceDocmdResp : Type := mkDeviceDocmdResp {
  ddr_error : Z;
  ddr_data_out : list byte;
}.

Definition DeviceDocmdResp_encode (p : DeviceDocmdResp) : list byte :=
  let buf := [] in
  let buf := put_u32 buf (ddr_error p) in
  put_opaque buf (ddr_data_out p).

Definition DeviceDocmdResp_decode (data : list byte) : result DeviceDocmdResp XdrError :=
  let c := new data in
  let? (error_, c) := u32 c in
  let? (data_out_, c) := opaque DATA_MAX c in
  Ok (mkDeviceDocmdResp error_ data_out_).

Definition DeviceDocmdResp_wf (p : DeviceDocmdResp) : Prop :=
  in_u32 (ddr_error p) /\ zlen (ddr_data_out p) <= DATA_MAX.

(** ** Device_Error *)

Definition encode_device_error (error : Z) : list byte := put_u32 [] error.
Definition decode_device_error (data : list byte) : result Z XdrError :=
  let? (v, _) := u32 (new data) in Ok v.

(** ** The codec contract *)

Class XdrStruct (A : Type) (enc : A -> list byte) (dec : list byte -> result A XdrError)
    (wf : A -> Prop) : Prop := {
  xdr_roundtrip : forall a tail, wf a -> fits (enc a ++ tail) -> dec (enc a ++ tail) = Ok a;
  xdr_decode_wf : forall d a, dec d = Ok a -> wf a;
}.

(** Discharge the two laws of a structure from its definitions. *)
Ltac xdr_law_roundtrip :=
  let p := fresh "p" in let Hwf := fresh "Hwf" in let Hfit := fresh "Hfit" in
  let Hc := fresh "Hc" in
  intros p tail Hwf Hfit; pose proof (at_rest_new _ Hfit) as Hc; clear Hfit;
  destruct p; autounfold with messages in *; simpl in Hwf; destruct_and? Hwf; revert Hc; cbn -[new be_bytes put_opaque app];
  xdr_wire; intros Hc;
  repeat xdr_read; rewrite ?as_u16_id, ?as_u8_id by assumption; reflexivity.

Ltac xdr_law_wf :=
  let H := fresh "H" in
  intros; lazymatch goal with E : _ = Ok _ |- _ => rename E into H end;
  autounfold with messages in *;
  repeat (apply rbind_Ok in H as ([? ?] & ? & H)); simplify_eq/=;
  split_and?; eauto with xdr;
  unfold as_u16, as_u8, in_u16, in_u8; apply Z.mod_pos_bound; lia.

Create HintDb messages.
#[export] Hint Unfold
  CreateLinkParms_encode CreateLinkParms_decode CreateLinkParms_wf
  CreateLinkResp_encode CreateLinkResp_decode CreateLinkResp_wf
  DeviceWriteParms_encode DeviceWriteParms_decode DeviceWriteParms_wf
  DeviceWriteResp_encode DeviceWriteResp_decode DeviceWriteResp_wf
  DeviceReadParms_encode DeviceReadParms_decode DeviceReadParms_wf
  DeviceReadResp_encode DeviceReadResp_decode DeviceReadResp_wf
  DeviceGenericParms_encode DeviceGenericParms_decode DeviceGenericParms_wf
  DeviceReadStbResp_encode DeviceReadStbResp_decode DeviceReadStbResp_wf
  DeviceLockParms_encode DeviceLockParms_decode DeviceLockParms_wf
  DeviceEnableSrqParms_encode DeviceEnableSrqParms_decode DeviceEnableSrqParms_wf
  DeviceRemoteFunc_encode DeviceRemoteFunc_decode DeviceRemoteFunc_wf
  DeviceSrqParms_encode DeviceSrqParms_decode DeviceSrqParms_wf
  DeviceDocmdParms_encode DeviceDocmdParms_decode DeviceDocmdParms_wf
  DeviceDocmdResp_encode DeviceDocmdResp_decode DeviceDocmdResp_wf : messages.

#[export] Instance CreateLinkParms_xdr :
  XdrStruct CreateLinkParms (fun p => CreateLinkParms_encode p []) CreateLinkParms_decode CreateLinkParms_wf.
Proof. split; [xdr_law_roundtrip|xdr_law_wf]. Qed.

#[export] Instance CreateLinkResp_xdr :
  XdrStruct CreateLinkResp CreateLinkResp_encode CreateLinkResp_decode CreateLinkResp_wf.
Proof. split; [xdr_law_roundtrip|xdr_law_wf]. Qed.

#[export] Instance DeviceWriteParms_xdr m (Hm : m < 4294967296) :
  XdrStruct DeviceWriteParms (fun p => DeviceWriteParms_encode p []) (fun d => DeviceWriteParms_decode d m) (DeviceWriteParms_wf m).
Proof. split; [xdr_law_roundtrip|xdr_law_wf]. Qed.

#[export] Instance DeviceWriteResp_xdr :
  XdrStruct DeviceWriteResp DeviceWriteResp_encode DeviceWriteResp_decode DeviceWriteResp_wf.
Proof. split; [xdr_law_roundtrip|xdr_law_wf]. Qed.

#[export] Instance DeviceReadParms_xdr :
  XdrStruct DeviceReadParms (fun p => DeviceReadParms_encode p []) DeviceReadParms_decode DeviceReadParms_wf.
Proof. split; [xdr_law_roundtrip|xdr_law_wf]. Qed.

#[export] Instance DeviceReadResp_xdr m (Hm : m < 4294967296) :
  XdrStruct DeviceReadResp DeviceReadResp_encode (fun d => DeviceReadResp_decode d m) (DeviceReadResp_wf m).
Proof. split; [xdr_law_roundtrip|xdr_law_wf]. Qed.

#[export] Instance DeviceGenericParms_xdr :
  XdrStruct DeviceGenericParms (fun p => DeviceGenericParms_encode p []) DeviceGenericParms_decode DeviceGenericParms_wf.
Proof. split; [xdr_law_roundtrip|xdr_law_wf]. Qed.

#[export] Instance DeviceReadStbResp_xdr :
  XdrStruct DeviceReadStbResp DeviceReadStbResp_encode DeviceReadStbResp_decode DeviceReadStbResp_wf.
Proof. split; [xdr_law_roundtrip|xdr_law_wf]. Qed.

#[export] Instance DeviceLockParms_xdr :
  XdrStruct DeviceLockParms (fun p => DeviceLockParms_encode p []) DeviceLockParms_decode DeviceLockParms_wf.
Proof. split; [xdr_law_roundtrip|xdr_law_wf]. Qed.

#[export] Instance DeviceEnableSrqParms_xdr :
  XdrStruct DeviceEnableSrqParms (fun p => DeviceEnableSrqParms_encode p []) DeviceEnableSrqParms_decode DeviceEnableSrqParms_wf.
Proof. split; [xdr_law_roundtrip|xdr_law_wf]. Qed.

#[export] Instance DeviceRemoteFunc_xdr :
  XdrStruct DeviceRemoteFunc (fun p => DeviceRemoteFunc_encode p []) DeviceRemoteFunc_decode DeviceRemoteFunc_wf.
Proof. split; [xdr_law_roundtrip|xdr_law_wf]. Qed.

#[export] Instance DeviceSrqParms_xdr :
  XdrStruct DeviceSrqParms DeviceSrqParms_encode DeviceSrqParms_decode DeviceSrqParms_wf.
Proof. split; [xdr_law_roundtrip|xdr_law_wf]. Qed.

#[export] Instance DeviceDocmdParms_xdr :
  XdrStruct DeviceDocmdParms (fun p => DeviceDocmdParms_encode p []) DeviceDocmdParms_decode DeviceDocmdParms_wf.
Proof. split; [xdr_law_roundtrip|xdr_law_wf]. Qed.

#[export] Instance DeviceDocmdResp_xdr :
  XdrStruct DeviceDocmdResp DeviceDocmdResp_encode DeviceDocmdResp_decode DeviceDocmdResp_wf.
Proof. split; [xdr_law_roundtrip|xdr_law_wf]. Qed.

(** ** Properties *)

(** every VXI-11 structure survives the wire: a well-formed value encoded
    by one side decodes on the other to the same value, whatever bytes follow
    it.  A transposition of two fields in either direction would break it. *)
Theorem messages_roundtrip :
  (forall p tail, CreateLinkParms_wf p -> fits (CreateLinkParms_encode p [] ++ tail) ->
     CreateLinkParms_decode (CreateLinkParms_encode p [] ++ tail) = Ok p) /\
  (forall p tail, CreateLinkResp_wf p -> fits (CreateLinkResp_encode p ++ tail) ->
     CreateLinkResp_decode (CreateLinkResp_encode p ++ tail) = Ok p) /\
  (forall p tail m, m < 4294967296 -> DeviceWriteParms_wf m p -> fits (DeviceWriteParms_encode p [] ++ tail) ->
     DeviceWriteParms_decode (DeviceWriteParms_encode p [] ++ tail) m = Ok p) /\
  (forall p tail, DeviceWriteResp_wf p -> fits (DeviceWriteResp_encode p ++ tail) ->
     DeviceWriteResp_decode (DeviceWriteResp_encode p ++ tail) = Ok p) /\
  (forall p tail, DeviceReadParms_wf p -> fits (DeviceReadParms_encode p [] ++ tail) ->
     DeviceReadParms_decode (DeviceReadParms_encode p [] ++ tail) = Ok p) /\
  (forall p tail m, m < 4294967296 -> DeviceReadResp_wf m p -> fits (DeviceReadResp_encode p ++ tail) ->
     DeviceReadResp_decode (DeviceReadResp_encode p ++ tail) m = Ok p) /\
  (forall p tail, DeviceGenericParms_wf p -> fits (DeviceGenericParms_encode p [] ++ tail) ->
     DeviceGenericParms_decode (DeviceGenericParms_encode p [] ++ tail) = Ok p) /\
  (forall p tail, DeviceReadStbResp_wf p -> fits (DeviceReadStbResp_encode p ++ tail) ->
     DeviceReadStbResp_decode (DeviceReadStbResp_encode p ++ tail) = Ok p) /\
  (forall p tail, DeviceLockParms_wf p -> fits (DeviceLockParms_encode p [] ++ tail) ->
     DeviceLockParms_decode (DeviceLockParms_encode p [] ++ tail) = Ok p) /\
  (forall p tail, DeviceEnableSrqParms_wf p -> fits (DeviceEnableSrqParms_encode p [] ++ tail) ->
     DeviceEnableSrqParms_decode (DeviceEnableSrqParms_encode p [] ++ tail) = Ok p) /\
  (forall p tail, DeviceRemoteFunc_wf p -> fits (DeviceRemoteFunc_encode p [] ++ tail) ->
     DeviceRemoteFunc_decode (DeviceRemoteFunc_encode p [] ++ tail) = Ok p) /\
  (forall p tail, DeviceSrqParms_wf p -> fits (DeviceSrqParms_encode p ++ tail) ->
     DeviceSrqParms_decode (DeviceSrqParms_encode p ++ tail) = Ok p) /\
  (forall p tail, DeviceDocmdParms_wf p -> fits (DeviceDocmdParms_encode p [] ++ tail) ->
     DeviceDocmdParms_decode (DeviceDocmdParms_encode p [] ++ tail) = Ok p) /\
  (forall p tail, DeviceDocmdResp_wf p -> fits (DeviceDocmdResp_encode p ++ tail) ->
     DeviceDocmdResp_decode (DeviceDocmdResp_encode p ++ tail) = Ok p).
Proof.
  split_and!; intros;
    first [ by eapply (xdr_roundtrip (XdrStruct := DeviceWriteParms_xdr _ ltac:(eassumption)))
          | by eapply (xdr_roundtrip (XdrStruct := DeviceReadResp_xdr _ ltac:(eassumption)))
          | by eapply (xdr_roundtrip (enc := fun p => _ p [])) | by eapply xdr_roundtrip ].
Qed.

(** C22: whatever bytes arrive, a structure that decodes is well-formed: the
    integers are in the range of their Rust types and the variable-length
    fields respect the protocol limits (1024-byte device names, 40-byte SRQ
    handles, 4096-byte docmd data, the negotiated write size). *)
Theorem messages_decode_wf :
  (forall d p, CreateLinkParms_decode d = Ok p -> CreateLinkParms_wf p) /\
  (forall d p, CreateLinkResp_decode d = Ok p -> CreateLinkResp_wf p) /\
  (forall d p m, DeviceWriteParms_decode d m = Ok p -> DeviceWriteParms_wf m p) /\
  (forall d p, DeviceWriteResp_decode d = Ok p -> DeviceWriteResp_wf p) /\
  (forall d p, DeviceReadParms_decode d = Ok p -> DeviceReadParms_wf p) /\
  (forall d p m, DeviceReadResp_decode d m = Ok p -> DeviceReadResp_wf m p) /\
  (forall d p, DeviceGenericParms_decode d = Ok p -> DeviceGenericParms_wf p) /\
  (forall d p, DeviceReadStbResp_decode d = Ok p -> DeviceReadStbResp_wf p) /\
  (forall d p, DeviceLockParms_decode d = Ok p -> DeviceLockParms_wf p) /\
  (forall d p, DeviceEnableSrqParms_decode d = Ok p -> DeviceEnableSrqParms_wf p) /\
  (forall d p, DeviceRemoteFunc_decode d = Ok p -> DeviceRemoteFunc_wf p) /\
  (forall d p, DeviceSrqParms_decode d = Ok p -> DeviceSrqParms_wf p) /\
  (forall d p, DeviceDocmdParms_decode d = Ok p -> DeviceDocmdParms_wf p) /\
  (forall d p, DeviceDocmdResp_decode d = Ok p -> DeviceDocmdResp_wf p).
Proof. split_and!; xdr_law_wf. Qed.

(** the whole path of one call's arguments.  For any structure with a
    codec ([XdrStruct]), a client's call framed by [write_record] is read back
    by the server's [read_record] as one record, [decode_call] recovers the
    header, and decoding the arguments yields the structure that was sent. *)
Theorem call_end_to_end `{HX : XdrStruct A enc dec wf} h a wire tail e max_len :
  Rpc.wf_header h -> wf a -> Rpc.vec_ok (enc a) ->
  Rpc.write_record (Rpc.encode_call (Rpc.xid h) (Rpc.prog h) (Rpc.vers h) (Rpc.proc h) (enc a)) = Ok wire ->
  zlen (Rpc.encode_call (Rpc.xid h) (Rpc.prog h) (Rpc.vers h) (Rpc.proc h) (enc a)) <= max_len ->
  max_len < 2 ^ 64 ->
  exists record args,
    Rpc.read_record (Io.mkReader (wire ++ tail) e) max_len =
      Some (Ok (Some record, Io.mkReader tail e)) /\
    Rpc.decode_call record = Ok (h, args) /\ dec args = Ok a.
Proof.
  intros Hh Ha Hv Hw Hm Hmax. do 2 eexists. split_and!.
  - by apply Rpc.write_read_record_aux.
  - by apply Rpc.call_roundtrip_aux.
  - rewrite <- (app_nil_r (enc a)). apply xdr_roundtrip; [done|]. rewrite app_nil_r.
    by apply Rpc.vec_ok_fits.
Qed.

Lemma call_end_to_end_witness :
  exists record args,
    Rpc.read_record (Io.mkReader
      ((be_bytes 4 (Z.lor 0x80000000 56) ++
        Rpc.encode_call 1 0x0607AF 1 14
          (DeviceGenericParms_encode (mkDeviceGenericParms 3 1 500 250) [])) ++ []) None) 4096 =
      Some (Ok (Some record, Io.mkReader [] None)) /\
    Rpc.decode_call record = Ok (Rpc.mkCallHeader 1 0x0607AF 1 14, args) /\
    DeviceGenericParms_decode args = Ok (mkDeviceGenericParms 3 1 500 250).
Proof.
  apply (call_end_to_end (HX := DeviceGenericParms_xdr) (Rpc.mkCallHeader 1 0x0607AF 1 14)
           (mkDeviceGenericParms 3 1 500 250)).
  - unfold Rpc.wf_header, in_u32; simpl; lia.
  - unfold DeviceGenericParms_wf, in_u32, in_i32; simpl; lia.
  - by vm_compute.
  - by vm_compute.
  - by vm_compute.
  - by vm_compute.
Defined.

End Messages.
