(* ===== verification/Portmap.v ===== *)
(** * Portmapper: [src/vxi11/portmap.rs]

    The portmap v2 codec, the fixed-table responder's dispatch, and the client
    side that registers with and queries a portmapper over UDP.  A UDP
    exchange is given by what each attempt received. *)

From S2P Require Import Prelude Xdr Rpc.

Module Portmap.
Import Xdr Rpc.
#[local] Transparent fits.

Definition PMAP_PROG : Z := 100000.
Definition PMAP_VERS : Z := 2.
Definition PMAPPROC_NULL : Z := 0.
Definition PMAPPROC_SET : Z := 1.
Definition PMAPPROC_UNSET : Z := 2.
Definition PMAPPROC_GETPORT : Z := 3.
Definition PMAPPROC_DUMP : Z := 4.
Definition PMAPPROC_CALLIT : Z := 5.

Record Mapping : Type := mkMapping { m_prog : Z; m_vers : Z; m_prot : Z; m_port : Z }.

Definition Mapping_encode (m : Mapping) (buf : list byte) : list byte :=
  let buf := put_u32 buf (m_prog m) in
  let buf := put_u32 buf (m_vers m) in
  let buf := put_u32 buf (m_prot m) in
  put_u32 buf (m_port m).

Definition Mapping_decode : reader Mapping := fun c =>
  let? (p, c) := u32 c in
  let? (v, c) := u32 c in
  let? (t, c) := u32 c in
  let? (o, c) := u32 c in
  Ok (mkMapping p v t o, c).

Definition encode_getport_reply (port : Z) : list byte := put_u32 [] port.

Definition encode_dump_reply (mappings : list Mapping) : list byte :=
  put_bool (fold_left (fun buf m => Mapping_encode m (put_bool buf true)) mappings []) false.

(** The [while c.bool()?] loop; [None] is the model running out of fuel. *)
Fixpoint dump_loop (fuel : nat) (c : Cursor) (mappings : list Mapping)
    : option (result (list Mapping) XdrError) :=
  match fuel with
  | O => None
  | S fuel =>
      match bool_ c with
      | Err e => Some (Err e)
      | Ok (false, _) => Some (Ok mappings)
      | Ok (true, c) =>
          match Mapping_decode c with
          | Err e => Some (Err e)
          | Ok (m, c) => dump_loop fuel c (mappings ++ [m])
          end
      end
  end.

Definition decode_dump_reply (data : list byte) : option (result (list Mapping) XdrError) :=
  dump_loop (S (length data)) (new data) [].

(** ** The responder *)

Definition matches (wanted m : Mapping) : bool :=
  (m_prog m =? m_prog wanted) && (m_vers m =? m_vers wanted) && (m_prot m =? m_prot wanted).

Definition find_port (mappings : list Mapping) (wanted : Mapping) : Z :=
  match List.find (matches wanted) mappings with Some m => m_port m | None => 0 end.

(** One call; [None] means "send nothing". *)
Definition dispatch (record : list byte) (mappings : list Mapping) : option (list byte) :=
  match decode_call record with
  | Err (RpcVersion x _) => Some (reply_rpc_mismatch x)
  | Err _ => None
  | Ok (h, args) =>
      let x := xid h in
      if negb (prog h =? PMAP_PROG) then Some (reply_prog_unavail x)
      else if negb (vers h =? PMAP_VERS) then Some (reply_prog_mismatch x PMAP_VERS PMAP_VERS)
      else if proc h =? PMAPPROC_NULL then Some (reply_success x [])
      else if proc h =? PMAPPROC_GETPORT then
        match Mapping_decode (new args) with
        | Err _ => Some (reply_garbage_args x)
        | Ok (wanted, _) =>
            Some (reply_success x (encode_getport_reply (find_port mappings wanted)))
        end
      else if proc h =? PMAPPROC_DUMP then Some (reply_success x (encode_dump_reply mappings))
      else if (proc h =? PMAPPROC_SET) || (proc h =? PMAPPROC_UNSET) then
        Some (reply_success x (put_bool [] false))
      else if proc h =? PMAPPROC_CALLIT then None
      else Some (reply_proc_unavail x)
  end.

(** ** The client side over UDP *)

Inductive Attempt : Type :=
| SendFailed
| TimedOut
| RecvFailed
| Datagram (d : list byte).

Inductive PmError : Type :=
| PmIo
| PmAnswered (b : ReplyBody)
| PmBadReply (e : ReplyError)
| PmBadBody (e : XdrError)
| PmNoAnswer.

Definition set_registration_call (mapping : Mapping) (register : bool) : list byte :=
  encode_call 1 PMAP_PROG PMAP_VERS (if register then PMAPPROC_SET else PMAPPROC_UNSET)
    (Mapping_encode mapping []).

(** Reading a SET/UNSET answer out of a datagram (512-byte receive buffer). *)
Definition set_registration_answer (d : list byte) : result bool PmError :=
  match decode_reply (ztake 512 d) 1 with
  | Ok (Success body) => let? (b, _) := map_err PmBadBody (bool_ (new body)) in Ok b
  | Ok other => Err (PmAnswered other)
  | Err e => Err (PmBadReply e)
  end.

Fixpoint attempts_loop (n : nat) (recv : list Attempt) : result bool PmError :=
  match n, recv with
  | S n, a :: recv =>
      match a with
      | SendFailed | RecvFailed => Err PmIo
      | TimedOut => attempts_loop n recv
      | Datagram d => set_registration_answer d
      end
  | _, _ => Err PmNoAnswer
  end.

(** [recv] lists what the attempts met, in order; at most three are made. *)
Definition set_registration (recv : list Attempt) : result bool PmError := attempts_loop 3 recv.

Definition getport_call (mapping : Mapping) : list byte :=
  encode_call 3 PMAP_PROG PMAP_VERS PMAPPROC_GETPORT (Mapping_encode mapping []).

Definition getport (recv : Attempt) : result Z PmError :=
  match recv with
  | SendFailed | RecvFailed => Err PmIo
  | TimedOut => Err PmNoAnswer
  | Datagram d =>
      match decode_reply (ztake 128 d) 3 with
      | Ok (Success body) => let? (p, _) := map_err PmBadBody (u32 (new body)) in Ok p
      | Ok other => Err (PmAnswered other)
      | Err e => Err (PmBadReply e)
      end
  end.

Definition probe_call : list byte := encode_call 2 PMAP_PROG PMAP_VERS PMAPPROC_NULL [].

Fixpoint probe_loop (n : nat) (recv : list Attempt) : bool :=
  match n, recv with
  | S n, a :: recv =>
      match a with
      | SendFailed => false
      | TimedOut | RecvFailed => probe_loop n recv
      | Datagram d => is_ok (decode_reply (ztake 128 d) 2)
      end
  | _, _ => false
  end.

Definition probe (recv : list Attempt) : bool := probe_loop 2 recv.

(** ** Lemmas *)

Definition Mapping_wf (m : Mapping) : Prop :=
  in_u32 (m_prog m) /\ in_u32 (m_vers m) /\ in_u32 (m_prot m) /\ in_u32 (m_port m).

Definition mapping_wire (m : Mapping) : list byte :=
  be_bytes 4 (m_prog m) ++ be_bytes 4 (m_vers m) ++ be_bytes 4 (m_prot m) ++ be_bytes 4 (m_port m).

Lemma Mapping_encode_wire m buf : Mapping_encode m buf = buf ++ mapping_wire m.
Proof. unfold Mapping_encode, mapping_wire. by xdr_wire. Qed.

Lemma zlen_mapping_wire m : zlen (mapping_wire m) = 16.
Proof. unfold mapping_wire. zlen_solve. Qed.

Lemma Mapping_decode_put m c l : at_rest c (mapping_wire m ++ l) -> Mapping_wf m ->
  exists c', Mapping_decode c = Ok (m, c') /\ at_rest c' l.
Proof.
  intros Hc (?&?&?&?). unfold mapping_wire in Hc. rewrite <- !app_assoc in Hc.
  unfold Mapping_decode. do 4 xdr_read. destruct m; eauto.
Qed.

(** A DUMP reply as a chain of entries. *)
Definition dump_wire (ms : list Mapping) : list byte :=
  concat (map (fun m => be_bytes 4 1 ++ mapping_wire m) ms) ++ be_bytes 4 0.

Lemma encode_dump_reply_wire ms : encode_dump_reply ms = dump_wire ms.
Proof.
  unfold encode_dump_reply, dump_wire, put_bool, put_u32.
  f_equal. rewrite <- (app_nil_l (concat _)). generalize (@nil byte).
  induction ms as [|m ms IH]; intros buf; cbn [fold_left map concat].
  - by rewrite app_nil_r.
  - rewrite IH, Mapping_encode_wire. by rewrite <- !app_assoc.
Qed.

Lemma dump_loop_wire fuel c acc ms : (length ms < fuel)%nat -> Forall Mapping_wf ms ->
  at_rest c (dump_wire ms) -> dump_loop fuel c acc = Some (Ok (acc ++ ms)).
Proof.
  revert c acc ms. induction fuel as [|fuel IH]; intros c acc ms Hf Hms Hc; [lia|].
  destruct ms as [|m ms]; unfold dump_wire in Hc; cbn [map concat app length] in *.
  - rewrite <- (app_nil_r (be_bytes 4 0)) in Hc.
    destruct (bool_put false c [] Hc) as (c1 & E & _). simpl. rewrite E. by rewrite app_nil_r.
  - rewrite <- !app_assoc in Hc. apply Forall_cons in Hms as [Hm Hms].
    destruct (bool_put true c _ Hc) as (c1 & E & Hc1). cbn [dump_loop]. rewrite E.
    destruct (Mapping_decode_put m c1 _ Hc1 Hm) as (c2 & E2 & Hc2). rewrite E2.
    rewrite (IH c2 (acc ++ [m]) ms); [by rewrite <- app_assoc|lia|done|].
    exact Hc2.
Qed.

Lemma length_dump_wire ms : (length ms <= length (dump_wire ms))%nat.
Proof.
  unfold dump_wire. rewrite length_app.
  enough (length ms <= length (concat (map (fun m => be_bytes 4 1 ++ mapping_wire m) ms)))%nat by lia.
  induction ms as [|m ms IH]; cbn [map concat length]; [lia|].
  rewrite !length_app, length_be_bytes. lia.
Qed.

Lemma zlen_dump_wire ms : zlen (dump_wire ms) = 20 * zlen ms + 4.
Proof.
  unfold dump_wire. rewrite zlen_app, zlen_be_bytes.
  enough (zlen (concat (map (fun m => be_bytes 4 1 ++ mapping_wire m) ms)) = 20 * zlen ms) by lia.
  induction ms as [|m ms IH]; [done|]. cbn [map concat].
  rewrite !zlen_app, zlen_be_bytes, zlen_mapping_wire, IH, zlen_cons. lia.
Qed.

Lemma find_port_u32 ms w : Forall Mapping_wf ms -> in_u32 (find_port ms w).
Proof.
  intros H. unfold find_port. destruct (List.find _ _) as [m|] eqn:E; [|unfold in_u32; lia].
  apply List.find_some in E as [Hin _]. rewrite <- list_elem_of_In in Hin.
  rewrite Forall_forall in H. apply (H m Hin).
Qed.

Lemma vec_ok_mapping m : vec_ok (mapping_wire m).
Proof. unfold vec_ok. rewrite zlen_mapping_wire. lia. Qed.

Lemma dispatch_pmap x p args : in_u32 x -> in_u32 p -> vec_ok args ->
  decode_call (encode_call x PMAP_PROG PMAP_VERS p args) =
  Ok (mkCallHeader x PMAP_PROG PMAP_VERS p, args).
Proof.
  intros. apply (call_roundtrip_aux (mkCallHeader x PMAP_PROG PMAP_VERS p)); [|done].
  unfold wf_header; simpl. split_and!; try done; by vm_compute.
Qed.

Lemma zlen_accepted x s : zlen (accepted x s) = 24.
Proof. rewrite <- (app_nil_r (accepted x s)), accepted_wire. autorewrite with zlen. by rewrite zlen_opaque_wire. Qed.

Lemma decode_success x body : in_u32 x -> zlen body <= 100 ->
  decode_reply (ztake 128 (reply_success x body)) x = Ok (Success body) /\
  decode_reply (ztake 512 (reply_success x body)) x = Ok (Success body).
Proof.
  intros Hx Hb. unfold reply_success.
  rewrite !ztake_all by (rewrite zlen_app, zlen_accepted; lia).
  rewrite decode_accepted; [done|done|by vm_compute|]. apply fits_accepted. unfold vec_ok. lia.
Qed.

Lemma dispatch_getport ms w : Mapping_wf w ->
  dispatch (getport_call w) ms = Some (reply_success 3 (encode_getport_reply (find_port ms w))).
Proof.
  intros Hw. unfold dispatch, getport_call. rewrite Mapping_encode_wire, app_nil_l.
  rewrite dispatch_pmap; [|by vm_compute..|apply vec_ok_mapping].
  cbn -[new Mapping_decode reply_success find_port encode_getport_reply].
  assert (Hc : at_rest (new (mapping_wire w)) (mapping_wire w ++ [])).
  { rewrite app_nil_r. apply at_rest_new, vec_ok_fits, vec_ok_mapping. }
  by destruct (Mapping_decode_put w _ [] Hc Hw) as (c & -> & _).
Qed.

Lemma getport_reads p : in_u32 p -> getport (Datagram (reply_success 3 (encode_getport_reply p))) = Ok p.
Proof.
  intros Hp. unfold getport, encode_getport_reply, put_u32. rewrite app_nil_l.
  rewrite (proj1 (decode_success 3 (be_bytes 4 p) ltac:(by vm_compute) ltac:(zlen_solve))).
  assert (Hc : at_rest (new (be_bytes 4 p)) (be_bytes 4 p ++ [])).
  { rewrite app_nil_r. apply at_rest_new. unfold fits. zlen_solve. }
  by xdr_read.
Qed.

Lemma set_answer_reads (b : bool) : set_registration_answer (reply_success 1 (put_bool [] b)) = Ok b.
Proof.
  unfold set_registration_answer, put_bool, put_u32. rewrite app_nil_l.
  rewrite (proj2 (decode_success 1 (be_bytes 4 (if b then 1 else 0)) ltac:(by vm_compute) ltac:(zlen_solve))).
  assert (Hc : at_rest (new (be_bytes 4 (if b then 1 else 0))) (be_bytes 4 (if b then 1 else 0) ++ [])).
  { rewrite app_nil_r. apply at_rest_new. unfold fits. zlen_solve. }
  destruct (bool_put b _ _ Hc) as (c & E & _). by rewrite E.
Qed.

(** ** Properties *)

(** looking a program up through the portmapper gives what its table
    says.  The GETPORT call a client sends, answered by [dispatch], is read
    back by the client as the port of the first matching entry, and as 0 (not
    registered) exactly when no entry has that program, version and
    protocol (no registered port being 0). *)
Theorem getport_end_to_end ms w : Forall Mapping_wf ms -> Mapping_wf w ->
  (forall m, m ∈ ms -> m_port m <> 0) ->
  exists reply, dispatch (getport_call w) ms = Some reply /\
    getport (Datagram reply) = Ok (find_port ms w) /\
    (find_port ms w = 0 <-> forall m, m ∈ ms -> matches w m = false).
Proof.
  intros Hms Hw Hnz. exists (reply_success 3 (encode_getport_reply (find_port ms w))).
  split; [by apply dispatch_getport|]. split; [by apply getport_reads, find_port_u32|].
  unfold find_port. split.
  - destruct (List.find _ _) as [m|] eqn:E.
    + apply List.find_some in E as [Hin _]. rewrite <- list_elem_of_In in Hin.
        intros H0. by destruct (Hnz m Hin).
    + intros _ m Hm. apply (List.find_none _ _ E). by apply list_elem_of_In.
  - intros H. destruct (List.find _ _) as [m|] eqn:E; [|done].
      apply List.find_some in E as [Hin Ht]. rewrite <- list_elem_of_In in Hin.
      by rewrite (H m Hin) in Ht.
Qed.

Lemma getport_end_to_end_witness :
  exists reply,
    dispatch (getport_call (mkMapping 0x0607AF 1 6 0)) [mkMapping 0x0607AF 1 6 9010] = Some reply /\
    getport (Datagram reply) = Ok 9010 /\ 
    (9010 = 0 <-> forall m, m ∈ [mkMapping 0x0607AF 1 6 9010] -> matches (mkMapping 0x0607AF 1 6 0) m = false).
Proof.
  apply (getport_end_to_end [mkMapping 0x0607AF 1 6 9010] (mkMapping 0x0607AF 1 6 0)).
  - repeat constructor; simpl; unfold in_u32; lia.
  - repeat constructor; simpl; unfold in_u32; lia.
  - intros m Hm. apply list_elem_of_singleton in Hm as ->. simpl. lia.
Defined.

(** The fixed table cannot be changed from the network: a SET or UNSET
    sent by [set_registration] to this responder is answered, and the answer
    is read back as a refusal ([false]), whatever the mapping. *)
Theorem set_registration_refused ms m (register : bool) : Mapping_wf m ->
  exists reply, dispatch (set_registration_call m register) ms = Some reply /\
    set_registration [Datagram reply] = Ok false.
Proof.
  intros Hm. unfold dispatch, set_registration_call. rewrite Mapping_encode_wire, app_nil_l.
  rewrite dispatch_pmap;
    [|by vm_compute|by destruct register; vm_compute|apply vec_ok_mapping].
  exists (reply_success 1 (put_bool [] false)). split; [by destruct register|].
  exact (set_answer_reads false).
Qed.

Lemma set_registration_refused_witness :
  exists reply, dispatch (set_registration_call (mkMapping 0x0607AF 1 6 9010) true) [] = Some reply /\
    set_registration [Datagram reply] = Ok false.
Proof.
  apply (set_registration_refused [] (mkMapping 0x0607AF 1 6 9010) true).
  repeat constructor; simpl; unfold in_u32; lia.
Defined.

(** The table listed by DUMP decodes back to the table, entry by entry
    and in order. *)
Theorem dump_roundtrip ms : Forall Mapping_wf ms -> zlen ms < 2 ^ 58 ->
  decode_dump_reply (encode_dump_reply ms) = Some (Ok ms).
Proof.
  intros Hms Hlen. rewrite encode_dump_reply_wire. unfold decode_dump_reply.
  apply (dump_loop_wire _ _ []); [pose proof (length_dump_wire ms); lia|done|].
  apply at_rest_new. unfold fits. rewrite zlen_dump_wire. lia.
Qed.

Lemma dump_roundtrip_witness :
  decode_dump_reply (encode_dump_reply [mkMapping 100000 2 6 111; mkMapping 0x0607AF 1 6 9010]) =
  Some (Ok [mkMapping 100000 2 6 111; mkMapping 0x0607AF 1 6 9010]).
Proof.
  apply dump_roundtrip; [|by vm_compute]. repeat constructor; simpl; unfold in_u32; lia.
Defined.

End Portmap.
