(* ===== verification/RustStr.v ===== *)
(** * Rust strings

    The part of [str] and [String] the sources use.  A string is the list of
    its Unicode scalar values; bytes appear only through UTF-8. *)

From S2P Require Import Prelude.
From Stdlib Require Import Strings.Ascii.

Module RustStr.

(** String literals (ASCII). *)
Definition str (s : string) : list Z :=
  map (fun c => Z.of_N (Ascii.N_of_ascii c)) (String.list_ascii_of_string s).

(** [char::is_whitespace] (the Unicode White_Space property). *)
Definition is_whitespace (c : Z) : bool :=
  ((9 <=? c) && (c <=? 13)) || (c =? 32) || (c =? 0x85) || (c =? 0xA0) || (c =? 0x1680) ||
  ((0x2000 <=? c) && (c <=? 0x200A)) || (c =? 0x2028) || (c =? 0x2029) || (c =? 0x202F) ||
  (c =? 0x205F) || (c =? 0x3000).

Fixpoint trim_start_matches (p : Z -> bool) (s : list Z) : list Z :=
  match s with
  | [] => []
  | c :: s' => if p c then trim_start_matches p s' else s
  end.

Definition trim_end_matches (p : Z -> bool) (s : list Z) : list Z :=
  rev (trim_start_matches p (rev s)).

Definition trim (s : list Z) : list Z :=
  trim_end_matches is_whitespace (trim_start_matches is_whitespace s).

Fixpoint strip_prefix (p s : list Z) : option (list Z) :=
  match p, s with
  | [], _ => Some s
  | a :: p, b :: s => if a =? b then strip_prefix p s else None
  | _, [] => None
  end.

(** [split_once] on the first character satisfying [p]. *)
Fixpoint split_once (p : Z -> bool) (s : list Z) : option (list Z * list Z) :=
  match s with
  | [] => None
  | c :: s =>
      if p c then Some ([], s)
      else match split_once p s with Some (a, b) => Some (c :: a, b) | None => None end
  end.

(** [split(ch)]: always at least one part. *)
Fixpoint split (ch : Z) (s : list Z) : list (list Z) :=
  match s with
  | [] => [[]]
  | c :: s =>
      if c =? ch then [] :: split ch s
      else match split ch s with p :: ps => (c :: p) :: ps | [] => [[c]] end
  end.

Definition to_ascii_lowercase (s : list Z) : list Z :=
  map (fun c => if (65 <=? c) && (c <=? 90) then c + 32 else c) s.

(** [contains] of a literal pattern. *)
Fixpoint contains (pat s : list Z) : bool :=
  match strip_prefix pat s with
  | Some _ => true
  | None => match s with [] => false | _ :: s => contains pat s end
  end.

(** ** Numbers *)

Fixpoint parse_digits (max acc : Z) (s : list Z) : option Z :=
  match s with
  | [] => Some acc
  | c :: s =>
      if (48 <=? c) && (c <=? 57) then
        let acc := acc * 10 + (c - 48) in
        if max <? acc then None else parse_digits max acc s
      else None
  end.

(** [str::parse] of an unsigned type whose largest value is [max]: an empty
    string and a lone sign are errors, one leading [+] is accepted. *)
Definition parse_uint (max : Z) (s : list Z) : option Z :=
  match s with
  | [] => None
  | [c] => if (c =? 43) || (c =? 45) then None else parse_digits max 0 s
  | c :: s' => if c =? 43 then parse_digits max 0 s' else parse_digits max 0 s
  end.

Definition parse_u8 : list Z -> option Z := parse_uint 255.
Definition parse_u32 : list Z -> option Z := parse_uint 4294967295.

Fixpoint digits (fuel : nat) (n : Z) : list Z :=
  match fuel with
  | O => []
  | S fuel => if n <? 10 then [48 + n] else digits fuel (n / 10) ++ [48 + n mod 10]
  end.

(** [to_string] of an unsigned integer of at most 64 bits (20 digits). *)
Definition to_string (n : Z) : list Z := digits 20 n.

(** ** UTF-8 *)

Definition utf8_char (c : Z) : list byte :=
  if c <? 0x80 then [b8 c]
  else if c <? 0x800 then [b8 (0xC0 + c / 64); b8 (0x80 + c mod 64)]
  else if c <? 0x10000 then
    [b8 (0xE0 + c / 4096); b8 (0x80 + (c / 64) mod 64); b8 (0x80 + c mod 64)]
  else
    [b8 (0xF0 + c / 262144); b8 (0x80 + (c / 4096) mod 64);
     b8 (0x80 + (c / 64) mod 64); b8 (0x80 + c mod 64)].

Definition as_bytes (s : list Z) : list byte := concat (map utf8_char s).

Definition is_cont (b : byte) : bool := (0x80 <=? u8 b) && (u8 b <=? 0xBF).

(** The second byte a three- or four-byte sequence may have after [b]. *)
Definition second_ok (b b2 : Z) : bool :=
  let lo := if b =? 0xE0 then 0xA0 else if b =? 0xF0 then 0x90 else 0x80 in
  let hi := if b =? 0xED then 0x9F else if b =? 0xF4 then 0x8F else 0xBF in
  (lo <=? b2) && (b2 <=? hi).

(** One step of [String::from_utf8_lossy]: a character, or U+FFFD for a
    maximal invalid prefix, and what is left. *)
Definition lossy_char (b : byte) (l : list byte) : Z * list byte :=
  let v := u8 b in
  let bad := 0xFFFD in
  if v <? 0x80 then (v, l)
  else if (0xC2 <=? v) && (v <=? 0xDF) then
    match l with
    | b2 :: l' => if is_cont b2 then ((v - 0xC0) * 64 + (u8 b2 - 0x80), l') else (bad, l)
    | [] => (bad, l)
    end
  else if (0xE0 <=? v) && (v <=? 0xEF) then
    match l with
    | b2 :: l' =>
        if second_ok v (u8 b2) then
          match l' with
          | b3 :: l'' =>
              if is_cont b3
              then ((v - 0xE0) * 4096 + (u8 b2 - 0x80) * 64 + (u8 b3 - 0x80), l'')
              else (bad, l')
          | [] => (bad, l')
          end
        else (bad, l)
    | [] => (bad, l)
    end
  else if (0xF0 <=? v) && (v <=? 0xF4) then
    match l with
    | b2 :: l' =>
        if second_ok v (u8 b2) then
          match l' with
          | b3 :: l'' =>
              if is_cont b3 then
                match l'' with
                | b4 :: l3 =>
                    if is_cont b4
                    then ((v - 0xF0) * 262144 + (u8 b2 - 0x80) * 4096 +
                          (u8 b3 - 0x80) * 64 + (u8 b4 - 0x80), l3)
                    else (bad, l'')
                | [] => (bad, l'')
                end
              else (bad, l')
          | [] => (bad, l')
          end
        else (bad, l)
    | [] => (bad, l)
    end
  else (bad, l).

Fixpoint lossy (fuel : nat) (l : list byte) : list Z :=
  match fuel, l with
  | S fuel, b :: l => let '(c, l) := lossy_char b l in c :: lossy fuel l
  | _, _ => []
  end.

Definition from_utf8_lossy (l : list byte) : list Z := lossy (length l) l.

(** [String::from_utf8]: the replacement character's own bytes are valid, so
    the lossy reading re-encodes to the input exactly when the input is valid. *)
Definition from_utf8 (l : list byte) : option (list Z) :=
  let s := from_utf8_lossy l in if bool_decide (as_bytes s = l) then Some s else None.

(** ** Lemmas *)

Lemma parse_digits_app max acc s t :
  parse_digits max acc (s ++ t) =
  match parse_digits max acc s with Some a => parse_digits max a t | None => None end.
Proof.
  revert acc. induction s as [|c s IH]; intros acc; simpl; [done|].
  destruct (_ && _); [|done]. destruct (_ <? _); [done|]. apply IH.
Qed.

Lemma digits_parse max fuel n : 0 <= n <= max -> n < 10 ^ Z.of_nat fuel -> (0 < fuel)%nat ->
  parse_digits max 0 (digits fuel n) = Some n.
Proof.
  revert n. induction fuel as [|fuel IH]; intros n Hn Hf Hpos; [lia|].
  cbn [digits]. destruct (Z.ltb_spec n 10).
  - simpl. rewrite (proj2 (Z.leb_le 48 (48 + n))), (proj2 (Z.leb_le (48 + n) 57)) by lia. simpl.
    rewrite (proj2 (Z.ltb_ge _ _)) by lia. f_equal. lia.
  - assert (0 < fuel)%nat.
    { destruct fuel; [|lia]. simpl in Hf. lia. }
    rewrite Nat2Z.inj_succ, Z.pow_succ_r in Hf by lia.
    pose proof (Z.div_mod n 10 ltac:(lia)). pose proof (Z.mod_pos_bound n 10 ltac:(lia)).
    rewrite parse_digits_app, IH by (try done; nia). simpl.
    rewrite (proj2 (Z.leb_le 48 _)), (proj2 (Z.leb_le _ 57)) by lia. simpl.
    replace (n / 10 * 10 + (48 + n mod 10 - 48)) with n by lia.
    by rewrite (proj2 (Z.ltb_ge _ _)) by lia.
Qed.

Lemma digits_head fuel n : 0 <= n -> (0 < fuel)%nat ->
  exists c s, digits fuel n = c :: s /\ 48 <= c <= 57.
Proof.
  revert n. induction fuel as [|fuel IH]; intros n Hn Hpos; [lia|].
  cbn [digits]. destruct (Z.ltb_spec n 10); [do 2 eexists; split; [done|lia]|].
  destruct fuel as [|fuel].
  - do 2 eexists; split; [done|]. pose proof (Z.mod_pos_bound n 10). lia.
  - destruct (IH (n / 10)) as (c & s & -> & ?); [apply Z.div_pos; lia|lia|].
    do 2 eexists; split; [done|lia].
Qed.

(** Printing then parsing an unsigned integer is the identity. *)
Lemma parse_to_string max n : 0 <= n <= max -> max < 10 ^ 20 ->
  parse_uint max (to_string n) = Some n.
Proof.
  intros Hn Hm. unfold to_string.
  pose proof (digits_parse max 20 n Hn ltac:(lia) ltac:(lia)) as Hp.
  destruct (digits_head 20 n) as (c & s & E & Hc); [lia|lia|]. rewrite E in *.
  unfold parse_uint. destruct s as [|c2 s].
  - destruct (Z.eqb_spec c 43); [lia|]. destruct (Z.eqb_spec c 45); [lia|]. done.
  - destruct (Z.eqb_spec c 43); [lia|]. done.
Qed.

Lemma to_string_inj a b : 0 <= a < 10 ^ 19 -> 0 <= b < 10 ^ 19 -> to_string a = to_string b -> a = b.
Proof.
  intros Ha Hb E. pose proof (parse_to_string (10 ^ 19) a ltac:(lia) ltac:(lia)) as H1.
  pose proof (parse_to_string (10 ^ 19) b ltac:(lia) ltac:(lia)) as H2. rewrite E in H1. congruence.
Qed.

Lemma parse_uint_range max s n : 0 <= max -> parse_uint max s = Some n -> 0 <= n <= max.
Proof.
  intros Hm. assert (H : forall s acc, 0 <= acc <= max -> parse_digits max acc s = Some n -> 0 <= n <= max).
  { clear s. induction s as [|c s IH]; intros acc Ha; simpl; [by intros [= <-]|].
    destruct (Z.leb_spec 48 c), (Z.leb_spec c 57); simpl; try done.
    destruct (Z.ltb_spec max (acc * 10 + (c - 48))); [done|]. apply IH. lia. }
  unfold parse_uint. repeat case_match; try done; apply H; lia.
Qed.

(** ASCII bytes are their own characters. *)
Lemma lossy_ascii fuel l : (length l <= fuel)%nat -> Forall (fun b => u8 b < 128) l ->
  lossy fuel l = map u8 l.
Proof.
  revert l. induction fuel as [|fuel IH]; intros [|b l] Hf Hl; simpl in *; try done; [lia|].
  apply Forall_cons in Hl as [Hb Hl]. unfold lossy_char.
  rewrite (proj2 (Z.ltb_lt _ _)) by done. f_equal. apply IH; [lia|done].
Qed.

(** No digit string contains a colon. *)
Lemma digits_below fuel n : Forall (fun c => c <= 57) (digits fuel n).
Proof.
  revert n. induction fuel as [|fuel IH]; intros n; cbn [digits]; [constructor|].
  pose proof (Z.mod_pos_bound n 10 ltac:(lia)).
  destruct (Z.ltb_spec n 10).
  - apply Forall_singleton. lia.
  - apply Forall_app. split; [done|]. apply Forall_singleton. lia.
Qed.

Lemma digits_ascii fuel n : 0 <= n -> Forall (fun c => 48 <= c <= 57) (digits fuel n).
Proof.
  revert n. induction fuel as [|fuel IH]; intros n Hn; cbn [digits]; [constructor|].
  pose proof (Z.mod_pos_bound n 10 ltac:(lia)).
  destruct (Z.ltb_spec n 10).
  - apply Forall_singleton. lia.
  - apply Forall_app. split; [apply IH, Z.div_pos; lia|]. apply Forall_singleton. lia.
Qed.

(** Text with nothing to trim. *)
Lemma trim_start_none p s : Forall (fun c => p c = false) s -> trim_start_matches p s = s.
Proof. destruct s as [|c s]; [done|]. intros [Hc _]%Forall_cons. simpl. by rewrite Hc. Qed.

Lemma trim_end_none p s : Forall (fun c => p c = false) s -> trim_end_matches p s = s.
Proof.
  intros Hs. unfold trim_end_matches. rewrite trim_start_none; [apply rev_involutive|].
  rewrite Forall_forall in *. intros x Hx. apply Hs. by apply list_elem_of_In, in_rev, list_elem_of_In.
Qed.

Lemma trim_none s : Forall (fun c => is_whitespace c = false) s -> trim s = s.
Proof. intros Hs. unfold trim. rewrite trim_start_none by done. by apply trim_end_none. Qed.

Lemma strip_prefix_app p s : strip_prefix p (p ++ s) = Some s.
Proof. induction p as [|c p IH]; simpl; [done|]. by rewrite Z.eqb_refl. Qed.

Lemma split_once_app p s c t : Forall (fun c => p c = false) s -> p c = true ->
  split_once p (s ++ c :: t) = Some (s, t).
Proof.
  intros Hs Hc. induction s as [|d s IH]; simpl; [by rewrite Hc|].
  apply Forall_cons in Hs as [Hd Hs]. by rewrite Hd, IH.
Qed.

Lemma split_once_none p s : Forall (fun c => p c = false) s -> split_once p s = None.
Proof.
  induction s as [|d s IH]; simpl; [done|]. intros [Hd Hs]%Forall_cons. by rewrite Hd, IH.
Qed.

(** Digits are plain text. *)
Lemma to_string_plain n : 0 <= n -> Forall (fun c => is_whitespace c = false) (to_string n).
Proof.
  intros Hn. eapply Forall_impl; [apply (digits_ascii 20 n Hn)|]. intros c Hc. simpl in Hc. unfold is_whitespace.
  repeat match goal with |- context [?a =? ?b] => destruct (Z.eqb_spec a b); [lia|]
         | |- context [?a <=? ?b] => destruct (Z.leb_spec a b); try lia end; done.
Qed.

Lemma to_string_nonempty n : 0 <= n -> to_string n <> [].
Proof. intros Hn E. destruct (digits_head 20 n Hn ltac:(lia)) as (c & s & H & _). unfold to_string in E. congruence. Qed.

Lemma from_utf8_bytes l s : from_utf8 l = Some s -> as_bytes s = l.
Proof. unfold from_utf8. case_bool_decide; [|done]. by intros [= <-]. Qed.

Lemma as_bytes_ascii s : Forall (fun c => 0 <= c < 128) s -> as_bytes s = map b8 s.
Proof.
  unfold as_bytes. induction 1 as [|c s Hc _ IH]; [done|]. cbn [map concat]. rewrite IH. unfold utf8_char.
  by rewrite (proj2 (Z.ltb_lt c 0x80)) by lia.
Qed.

Lemma from_utf8_ascii s : Forall (fun c => 0 <= c < 128) s -> from_utf8 (as_bytes s) = Some s.
Proof.
  intros Hs. assert (from_utf8_lossy (as_bytes s) = s) as E.
  { rewrite as_bytes_ascii by done. unfold from_utf8_lossy. rewrite lossy_ascii; [|done|].
    - induction Hs as [|c s Hc _ IH]; [done|]. cbn [map]. rewrite IH, u8_b8, as_u8_id; [done|]. cbv beta in *. unfold in_u8. lia.
    - apply Forall_map. eapply Forall_impl; [exact Hs|]. intros c Hc. cbv beta in *. unfold compose. rewrite u8_b8. unfold as_u8. rewrite Z.mod_small; lia. }
  unfold from_utf8. by rewrite E, bool_decide_eq_true_2.
Qed.

End RustStr.
