(* ===== verification/Lock.v ===== *)
(** * The lock registry: [src/frontend/lock.rs]

    One table per instrument, shared by every front-end.  The registry's state
    is its map of tables and a counter of [notify_waiters] calls: a future
    made by [notified()] captures the counter and is ready once it has moved,
    which is all the waiting loops rely on.

    Nesting depths are [u32] and wrap. *)

From S2P Require Import Prelude RustStr.

Module Lock.

Inductive LockResponse : Type := Failure | SuccessExclusive | SuccessShared | Error.

#[export] Instance LockResponse_eq_dec : EqDecision LockResponse.
Proof. solve_decision. Defined.

Definition control_code (r : LockResponse) : Z :=
  match r with Failure => 0 | SuccessExclusive => 1 | SuccessShared => 2 | Error => 3 end.

Definition is_success (r : LockResponse) : bool :=
  match r with SuccessExclusive | SuccessShared => true | _ => false end.

Definition hislip_id (session_id : Z) : Z := Z.lor 0x000100000000 session_id.
Definition vxi11_id (lid : Z) : Z := Z.lor 0x000200000000 (as_u32 lid).

(** ** One table *)

Record LockTable : Type := mkLockTable {
  exclusive : option (Z * Z);           (* holder, depth *)
  shared_name : option (list Z);
  shared : gmap Z Z;                    (* holder -> depth *)
}.

Definition default_table : LockTable := mkLockTable None None ∅.

Definition is_empty (t : LockTable) : bool :=
  match exclusive t with None => bool_decide (shared t = ∅) | Some _ => false end.

Definition holders (t : LockTable) : Z :=
  Z.of_nat (size (shared t)) +
  match exclusive t with
  | Some (id, _) => if bool_decide (is_Some (shared t !! id)) then 0 else 1
  | None => 0
  end.

Definition excl_held_by (t : LockTable) (id : Z) : bool :=
  match exclusive t with Some (holder, _) => holder =? id | None => false end.

Definition table_holds (t : LockTable) (id : Z) : bool :=
  excl_held_by t id || bool_decide (is_Some (shared t !! id)).

Definition grants_access (t : LockTable) (id : Z) : bool := table_holds t id || is_empty t.

(** [HashMap<String, LockTable>]. *)
Abbreviation tables := (gmap (list Z) LockTable).

Record LockRegistry : Type := mkRegistry { tabs : tables; released : Z }.

Definition new_registry : LockRegistry := mkRegistry ∅ 0.

(** The exclusive and the shared arm of [try_request] on the table's entry. *)
Definition try_exclusive (t : LockTable) (id : Z) : option LockResponse * LockTable :=
  match exclusive t with
  | Some (holder, depth) =>
      if holder =? id
      then (Some SuccessExclusive, mkLockTable (Some (holder, as_u32 (depth + 1))) (shared_name t) (shared t))
      else (None, t)
  | None =>
      if existsb (fun p => negb (p.1 =? id)) (map_to_list (shared t)) then (None, t)
      else (Some SuccessExclusive, mkLockTable (Some (id, 1)) (shared_name t) (shared t))
  end.

Definition try_shared (t : LockTable) (id : Z) (lock_string : list Z)
    : option LockResponse * LockTable :=
  let exclusive_elsewhere :=
    match exclusive t with Some (holder, _) => negb (holder =? id) | None => false end in
  let name_clash :=
    match shared_name t with Some name => bool_decide (name <> lock_string) | None => false end in
  if exclusive_elsewhere || name_clash then (None, t)
  else
    let depth := default 0 (shared t !! id) in
    (Some SuccessShared,
     mkLockTable (exclusive t) (Some lock_string) (<[id := as_u32 (depth + 1)]> (shared t))).

Definition try_request (reg : LockRegistry) (resource : list Z) (id : Z) (lock_string : list Z)
    : option LockResponse * LockRegistry :=
  let table := default default_table (tabs reg !! resource) in
  let '(granted, table) :=
    match lock_string with
    | [] => try_exclusive table id
    | _ => try_shared table id lock_string
    end in
  let ts := <[resource := table]> (tabs reg) in
  let ts :=
    match granted with
    | None => if is_empty table then delete resource ts else ts
    | Some _ => ts
    end in
  (granted, mkRegistry ts (released reg)).

(** [release] on the table's entry; [None] is the early [Error] return. *)
Definition release_table (t : LockTable) (id : Z) : option (LockResponse * LockTable) :=
  if excl_held_by t id then
    match exclusive t with
    | Some (holder, depth) =>
        let depth := as_u32 (depth - 1) in
        Some (SuccessExclusive,
              mkLockTable (if depth =? 0 then None else Some (holder, depth)) (shared_name t) (shared t))
    | None => None
    end
  else
    match shared t !! id with
    | Some depth =>
        let depth := as_u32 (depth - 1) in
        Some (SuccessShared,
          if depth =? 0 then
            let sh := delete id (shared t) in
            mkLockTable (exclusive t) (if bool_decide (sh = ∅) then None else shared_name t) sh
          else mkLockTable (exclusive t) (shared_name t) (<[id := depth]> (shared t)))
    | None => None
    end.

Definition release (reg : LockRegistry) (resource : list Z) (id : Z)
    : LockResponse * LockRegistry :=
  match tabs reg !! resource with
  | None => (Error, reg)
  | Some table =>
      match release_table table id with
      | None => (Error, reg)
      | Some (response, table) =>
          let ts := if is_empty table then delete resource (tabs reg)
                    else <[resource := table]> (tabs reg) in
          (response, mkRegistry ts (released reg + 1))
      end
  end.

(** The closure [release_all] retains with: the table without [id]. *)
Definition drop_holder (id : Z) (t : LockTable) : LockTable :=
  let ex := if excl_held_by t id then None else exclusive t in
  match shared t !! id with
  | Some _ =>
      let sh := delete id (shared t) in
      mkLockTable ex (if bool_decide (sh = ∅) then None else shared_name t) sh
  | None => mkLockTable ex (shared_name t) (shared t)
  end.

Definition retain_table (id : Z) (t : LockTable) : option LockTable :=
  let t := drop_holder id t in if is_empty t then None else Some t.

Definition release_all (reg : LockRegistry) (id : Z) : LockRegistry :=
  let freed := existsb (fun p => table_holds p.2 id) (map_to_list (tabs reg)) in
  mkRegistry (omap (retain_table id) (tabs reg))
             (if freed then released reg + 1 else released reg).

Definition info (reg : LockRegistry) (resource : list Z) : bool * Z :=
  match tabs reg !! resource with
  | Some t => (bool_decide (is_Some (exclusive t)), holders t)
  | None => (false, 0)
  end.

Definition has_access (reg : LockRegistry) (resource : list Z) (id : Z) : bool :=
  match tabs reg !! resource with Some t => grants_access t id | None => true end.

Definition holds (reg : LockRegistry) (resource : list Z) (id : Z) : bool :=
  match tabs reg !! resource with Some t => table_holds t id | None => false end.

(** ** Waiting

    A turn of a waiting loop is what the other tasks did to the registry
    before it, and the clock read after the test.  [None]: still waiting when
    the turns run out. *)

Definition turn : Type := (LockRegistry -> LockRegistry) * Z.

Fixpoint request (turns : list turn) (deadline : Z) (resource : list Z) (id : Z)
    (lock_string : list Z) (reg : LockRegistry) : option (LockResponse * LockRegistry) :=
  match turns with
  | [] => None
  | (env, now) :: turns =>
      match try_request (env reg) resource id lock_string with
      | (Some granted, reg) => Some (granted, reg)
      | (None, reg) =>
          if deadline <=? now then Some (Failure, reg)
          else request turns deadline resource id lock_string reg
      end
  end.

Fixpoint wait_for_access_timeout (turns : list turn) (deadline : Z) (resource : list Z) (id : Z)
    (reg : LockRegistry) : option (bool * LockRegistry) :=
  match turns with
  | [] => None
  | (env, now) :: turns =>
      let reg := env reg in
      if has_access reg resource id then Some (true, reg)
      else if deadline <=? now then Some (false, reg)
      else wait_for_access_timeout turns deadline resource id reg
  end.

Fixpoint wait_for_access (turns : list turn) (resource : list Z) (id : Z) (reg : LockRegistry)
    : option LockRegistry :=
  match turns with
  | [] => None
  | (env, _) :: turns =>
      let reg := env reg in
      if has_access reg resource id then Some reg
      else wait_for_access turns resource id reg
  end.

(** ** Operations as steps *)

Inductive Op : Type :=
| OpRequest (resource : list Z) (id : Z) (lock_string : list Z)
| OpRelease (resource : list Z) (id : Z)
| OpReleaseAll (id : Z).

Definition apply_op (reg : LockRegistry) (o : Op) : LockRegistry :=
  match o with
  | OpRequest r id s => (try_request reg r id s).2
  | OpRelease r id => (release reg r id).2
  | OpReleaseAll id => release_all reg id
  end.

Definition op_actor (o : Op) : Z :=
  match o with OpRequest _ id _ | OpRelease _ id | OpReleaseAll id => id end.

(** [reach n reg]: [n] operations after start-up. *)
Inductive reach : nat -> LockRegistry -> Prop :=
| reach_new : reach 0 new_registry
| reach_step n reg o : reach n reg -> reach (S n) (apply_op reg o).

(** ** The invariant *)

Record table_wf (n : Z) (t : LockTable) : Prop := {
  wf_excl : forall id d, exclusive t = Some (id, d) ->
    1 <= d <= n /\ forall id', is_Some (shared t !! id') -> id' = id;
  wf_depth : forall id d, shared t !! id = Some d -> 1 <= d <= n;
  wf_name : shared_name t = None <-> shared t = ∅;
  wf_named : shared_name t <> Some [];
}.

(** After [n] operations: depths are between 1 and [n], an exclusive holder
    has no company, a table has a name exactly while it has shared holders,
    and no empty table is kept. *)
Definition registry_ok (n : Z) (reg : LockRegistry) : Prop :=
  map_Forall (fun _ t => table_wf n t /\ is_empty t = false) (tabs reg).

Lemma registry_ok_new n : registry_ok n new_registry.
Proof. intros r t. simpl. by rewrite lookup_empty. Qed.

Lemma table_wf_mono n m t : n <= m -> table_wf n t -> table_wf m t.
Proof.
  intros Hnm [H1 H2 H3 H4]. split; [| |done|done].
  - intros id d E. destruct (H1 id d E). split; [lia|done].
  - intros id d E. pose proof (H2 id d E). lia.
Qed.

Lemma default_table_wf n : table_wf n default_table.
Proof. split; simpl; [done|intros ??; by rewrite lookup_empty|done|done]. Qed.

Lemma existsb_other (m : gmap Z Z) id :
  existsb (fun p => negb (p.1 =? id)) (map_to_list m) = false <->
  forall id', is_Some (m !! id') -> id' = id.
Proof.
  rewrite <- not_true_iff_false, existsb_exists. split.
  - intros H id' [d Hd]. destruct (Z.eqb_spec id' id); [done|]. exfalso. apply H.
    exists (id', d). split; [by apply list_elem_of_In, elem_of_map_to_list|].
    simpl. by destruct (Z.eqb_spec id' id).
  - intros H ([id' d] & Hin & Hne). apply list_elem_of_In, elem_of_map_to_list in Hin.
    rewrite (H id') in Hne by eauto. simpl in Hne. by rewrite Z.eqb_refl in Hne.
Qed.

Lemma try_exclusive_spec n t id g t' : table_wf n t -> n + 1 < 4294967296 -> 0 <= n ->
  try_exclusive t id = (g, t') ->
  match g with
  | Some r => r = SuccessExclusive /\ table_wf (n + 1) t' /\ is_empty t' = false
  | None => t' = t
  end.
Proof.
  intros Hwf Hn Hn0. unfold try_exclusive. destruct (exclusive t) as [[h d]|] eqn:Ex.
  - destruct (wf_excl n t Hwf h d Ex) as [Hd Hall].
    destruct (Z.eqb_spec h id) as [->|]; intros E; simplify_eq; [|done].
    split_and!; [done| |done]. rewrite as_u32_id by (unfold in_u32; lia).
    apply (table_wf_mono _ (n + 1)) in Hwf as [? ? ? ?]; [|lia]. split; simpl; [|done..].
    intros ? ? [= <- <-]. split; [lia|done].
  - destruct (existsb _ _) eqn:Eo; intros E; simplify_eq; [done|].
    pose proof (proj1 (existsb_other _ _) Eo).
    split_and!; [done| |done].
    apply (table_wf_mono _ (n + 1)) in Hwf as [? ? ? ?]; [|lia]. split; simpl; [|done..].
    intros ? ? [= <- <-]. split; [lia|done].
Qed.

Lemma insert_nonempty (m : gmap Z Z) i x : <[i := x]> m <> ∅.
Proof. apply insert_non_empty. Qed.

Lemma try_shared_spec n t id s g t' : table_wf n t -> n + 1 < 4294967296 -> 0 <= n -> s <> [] ->
  try_shared t id s = (g, t') ->
  match g with
  | Some r => r = SuccessShared /\ table_wf (n + 1) t' /\ is_empty t' = false
  | None => t' = t
  end.
Proof.
  intros Hwf Hn Hn0 Hs. unfold try_shared.
  destruct (_ || _) eqn:Eb; intros E; simplify_eq; [done|].
  apply orb_false_iff in Eb as [Ee _].
  assert (Hd : 0 <= default 0 (shared t !! id) <= n).
  { destruct (shared t !! id) as [d|] eqn:Ed; simpl; [|lia].
    pose proof (wf_depth n t Hwf id d Ed). lia. }
  rewrite as_u32_id by (unfold in_u32; lia). split_and!; [done| |].
  - split; simpl.
    + intros id' d' Ex. destruct (wf_excl n t Hwf id' d' Ex) as [Hd' Hall].
      rewrite Ex in Ee. apply negb_false_iff, Z.eqb_eq in Ee as ->.
      split; [lia|]. intros id'' Hi. destruct (decide (id'' = id)); [done|].
      rewrite lookup_insert_ne in Hi by done. by apply Hall.
    + intros id' d'. rewrite lookup_insert. case_decide; [intros [= <-]; lia|].
      intros Hl. pose proof (wf_depth n t Hwf _ _ Hl). lia.
    + split; [done|]. by intros ?%insert_nonempty.
    + by intros [= ->].
  - unfold is_empty. simpl. destruct (exclusive t); [done|].
    apply bool_decide_eq_false, insert_nonempty.
Qed.

Lemma registry_lookup n reg r t : registry_ok n reg -> tabs reg !! r = Some t ->
  table_wf n t /\ is_empty t = false.
Proof. intros H Ht. by apply (H r). Qed.

Lemma registry_ok_mono n m reg : n <= m -> registry_ok n reg -> registry_ok m reg.
Proof.
  intros Hnm H r t Ht. destruct (H r t Ht). split; [by eapply table_wf_mono|done].
Qed.

(** The effect of one attempt, in one place: a grant changes one table and
    keeps the invariant; a conflict changes nothing. *)
Lemma try_request_spec n reg r id s g reg' : registry_ok n reg -> n + 1 < 4294967296 -> 0 <= n ->
  try_request reg r id s = (g, reg') ->
  match g with
  | Some resp =>
      resp = (if bool_decide (s = []) then SuccessExclusive else SuccessShared) /\
      registry_ok (n + 1) reg' /\ released reg' = released reg
  | None => reg' = reg
  end.
Proof.
  intros Hok Hn Hn0. unfold try_request.
  set (t := default default_table (tabs reg !! r)).
  assert (Ht : table_wf n t).
  { subst t. destruct (tabs reg !! r) eqn:E; simpl; [by apply (Hok r)|apply default_table_wf]. }
  destruct (match s with [] => _ | _ => _ end) as [g0 t'] eqn:Et.
  assert (Hs : match g0 with
    | Some resp => resp = (if bool_decide (s = []) then SuccessExclusive else SuccessShared) /\
        table_wf (n + 1) t' /\ is_empty t' = false
    | None => t' = t end).
  { destruct s as [|c s]; [by apply (try_exclusive_spec n) in Et|].
    apply (try_shared_spec n) in Et; [|done..]. destruct g0; [|done].
    by rewrite bool_decide_eq_false_2. }
  intros E; simplify_eq. destruct g as [resp|].
  - destruct Hs as (-> & Hw & He). split_and!; [done| |done].
    intros r' t''. simpl. rewrite lookup_insert. case_decide; [by intros [= <-]|].
    intros Hl. destruct (Hok r' t'' Hl). split; [eapply table_wf_mono; [|done]; lia|done].
  - subst t'. destruct reg as [ts e]; simpl in *. f_equal. subst t.
    destruct (ts !! r) as [t|] eqn:Etr; simpl.
    + destruct (Hok r t Etr) as [_ ->]. by apply insert_id.
    + change (is_empty default_table) with true. simpl. by apply delete_insert_id.
Qed.

(** The three ways an operation shrinks or re-counts a table. *)

Lemma wf_set_excl n t ex : table_wf n t ->
  (forall id d, ex = Some (id, d) -> 1 <= d <= n /\ exists d', exclusive t = Some (id, d')) ->
  table_wf n (mkLockTable ex (shared_name t) (shared t)).
Proof.
  intros Hwf H. split; simpl; [|apply Hwf..].
  intros id d E. destruct (H id d E) as [Hd [d' Ex]]. split; [done|].
  by apply (wf_excl n t Hwf id d').
Qed.

Lemma wf_set_shared n t id d : table_wf n t -> is_Some (shared t !! id) -> 1 <= d <= n ->
  table_wf n (mkLockTable (exclusive t) (shared_name t) (<[id := d]> (shared t))).
Proof.
  intros Hwf Hid Hd. split; simpl; [| | |apply Hwf].
  - intros id' d' E. destruct (wf_excl n t Hwf _ _ E) as [? Hall]. split; [done|].
    intros id''. rewrite lookup_insert. case_decide; subst; auto.
  - intros id' d'. rewrite lookup_insert. case_decide; [by intros [= <-]|apply (wf_depth n t Hwf)].
  - split; [|by intros ?%insert_nonempty].
    intros E%(wf_name n t Hwf). rewrite E, lookup_empty in Hid. by destruct Hid.
Qed.

Lemma wf_drop_shared n t id : table_wf n t ->
  table_wf n (mkLockTable (exclusive t)
    (if bool_decide (delete id (shared t) = ∅) then None else shared_name t) (delete id (shared t))).
Proof.
  intros Hwf. split; simpl.
  - intros id' d' E. destruct (wf_excl n t Hwf _ _ E) as [? Hall]. split; [done|].
    intros id''. rewrite lookup_delete. case_decide; [by intros []|apply Hall].
  - intros id' d'. rewrite lookup_delete. case_decide; [done|apply (wf_depth n t Hwf)].
  - case_bool_decide as Hd; [done|]. split; [|done].
    intros E%(wf_name n t Hwf). by rewrite E, delete_empty in Hd.
  - case_bool_decide; [done|apply Hwf].
Qed.

Lemma release_table_spec n t id resp t' : table_wf n t -> n < 4294967296 ->
  release_table t id = Some (resp, t') ->
  table_wf n t' /\ is_success resp = true /\ table_holds t id = true.
Proof.
  intros Hwf Hn. unfold release_table, table_holds. destruct (excl_held_by t id) eqn:Eh.
  - destruct (exclusive t) as [[h d]|] eqn:Ex; intros E; simplify_eq.
    destruct (wf_excl n t Hwf _ _ Ex) as [Hd Hall].
    rewrite as_u32_id by (unfold in_u32; lia). split_and!; [|done..].
    apply wf_set_excl; [done|]. intros ? ? E. destruct (Z.eqb_spec (d - 1) 0); simplify_eq.
    split; [lia|eauto].
  - destruct (shared t !! id) as [dp|] eqn:Es; intros E; simplify_eq.
    pose proof (wf_depth n t Hwf _ _ Es) as Hdp.
    rewrite as_u32_id by (unfold in_u32; lia).
    split_and!; [|done|by rewrite bool_decide_eq_true_2 by eauto].
    destruct (Z.eqb_spec (dp - 1) 0); [by apply wf_drop_shared|].
    apply wf_set_shared; [done|eauto|lia].
Qed.

Lemma release_table_None t id : release_table t id = None <-> table_holds t id = false.
Proof.
  unfold release_table, table_holds, excl_held_by.
  destruct (exclusive t) as [[h d]|]; [destruct (h =? id)|];
    destruct (shared t !! id); simpl; naive_solver.
Qed.

Lemma drop_holder_wf n t id : table_wf n t -> table_wf n (drop_holder id t).
Proof.
  intros Hwf. unfold drop_holder.
  set (t1 := mkLockTable (if excl_held_by t id then None else exclusive t) (shared_name t) (shared t)).
  assert (H1 : table_wf n t1).
  { apply wf_set_excl; [done|]. intros id' d'. destruct (excl_held_by t id); [done|].
    intros E. split; [by apply (wf_excl n t Hwf) in E as []|eauto]. }
  destruct (shared t !! id); [by apply (wf_drop_shared n t1)|done].
Qed.

Lemma release_ok n reg r id : registry_ok n reg -> n < 4294967296 ->
  registry_ok n (release reg r id).2.
Proof.
  intros Hok Hn. unfold release. destruct (tabs reg !! r) as [t|] eqn:Et; [|done].
  destruct (release_table t id) as [[resp t']|] eqn:Er; [|done].
  apply (release_table_spec n) in Er as (Hw & _ & _); [|by apply (Hok r)|done].
  destruct (is_empty t') eqn:Ee; simpl.
  - intros r' t''. simpl. rewrite lookup_delete. case_decide; [done|apply Hok].
  - intros r' t''. simpl. rewrite lookup_insert. case_decide; [by intros [= <-]|apply Hok].
Qed.

Lemma release_all_lookup reg id r :
  tabs (release_all reg id) !! r = tabs reg !! r ≫= retain_table id.
Proof. unfold release_all. simpl. apply lookup_omap. Qed.

Lemma release_all_ok n reg id : registry_ok n reg -> registry_ok n (release_all reg id).
Proof.
  intros Hok r t. rewrite release_all_lookup.
  destruct (tabs reg !! r) as [t0|] eqn:Et; [|done]. simpl. unfold retain_table.
  destruct (is_empty (drop_holder id t0)) eqn:Ee; [done|]. intros [= <-].
  split; [apply drop_holder_wf, (Hok r t0 Et)|done].
Qed.

(** Every reachable registry satisfies the invariant. *)
Lemma reach_ok n reg : reach n reg -> Z.of_nat n < 4294967296 -> registry_ok (Z.of_nat n) reg.
Proof.
  induction 1 as [|n reg o Hr IH]; intros Hn.
  - apply registry_ok_new.
  - specialize (IH ltac:(lia)). rewrite Nat2Z.inj_succ in *. destruct o; simpl.
    + destruct (try_request reg resource id lock_string) as [g reg'] eqn:E.
      apply (try_request_spec (Z.of_nat n)) in E; [|done|lia|lia]. destruct g.
      * by destruct E as (_ & ? & _).
      * subst. eapply registry_ok_mono; [|done]. lia.
    + eapply registry_ok_mono; [|apply release_ok; [done|]]; lia.
    + eapply registry_ok_mono; [|by apply release_all_ok]. lia.
Qed.

Lemma hislip_id_add s : in_u16 s -> hislip_id s = 0x100000000 + s.
Proof. unfold in_u16. intros. unfold hislip_id. apply (lor_high_add 1 32); lia. Qed.

Lemma vxi11_id_add lid : vxi11_id lid = 0x200000000 + as_u32 lid.
Proof.
  pose proof (as_u32_range lid) as H. unfold in_u32 in H. unfold vxi11_id.
  apply (lor_high_add 2 32); lia.
Qed.

Lemma as_u32_inj a b : in_i32 a -> in_i32 b -> as_u32 a = as_u32 b -> a = b.
Proof.
  unfold in_i32, as_u32. intros Ha Hb E.
  rewrite <- (as_i32_id a), <- (as_i32_id b) by done. unfold as_i32, as_u32. by rewrite E.
Qed.

Lemma table_holds_excl t id d : exclusive t = Some (id, d) -> table_holds t id = true.
Proof. intros E. unfold table_holds, excl_held_by. by rewrite E, Z.eqb_refl. Qed.

Lemma excl_alone n t id d id' : table_wf n t -> exclusive t = Some (id, d) -> id' <> id ->
  table_holds t id' = false.
Proof.
  intros Hwf Ex Hne. unfold table_holds, excl_held_by. rewrite Ex.
  destruct (Z.eqb_spec id id'); [done|]. simpl. apply bool_decide_eq_false. intros Hs.
  destruct (wf_excl n t Hwf _ _ Ex) as [_ Hall]. by apply Hne, Hall.
Qed.

Lemma grants_access_used t id : is_empty t = false -> grants_access t id = table_holds t id.
Proof. intros E. unfold grants_access. by rewrite E, orb_false_r. Qed.

(** In a well-formed registry, access is: free, or held by the asker. *)
Lemma has_access_iff n reg r id : registry_ok n reg ->
  has_access reg r id = true <-> tabs reg !! r = None \/ holds reg r id = true.
Proof.
  intros Hok. unfold has_access, holds. destruct (tabs reg !! r) as [t|] eqn:Et; [|naive_solver].
  rewrite (grants_access_used t id (proj2 (Hok r t Et))). naive_solver.
Qed.

Lemma try_shared_excl_elsewhere t id id' d s : exclusive t = Some (id, d) -> id' <> id ->
  try_shared t id' s = (None, t).
Proof.
  intros Ex Hne. unfold try_shared. rewrite Ex. by destruct (Z.eqb_spec id id').
Qed.

Lemma try_request_Some_table reg r id s t : tabs reg !! r = Some t ->
  (try_request reg r id s).1 =
  match s with [] => (try_exclusive t id).1 | _ => (try_shared t id s).1 end.
Proof.
  intros Et. unfold try_request. rewrite Et. simpl.
  destruct s; [by destruct (try_exclusive t id)|by destruct (try_shared t id _)].
Qed.

(** What a failed attempt leaves behind. *)
Lemma try_request_None n reg r id s : registry_ok n reg -> 0 <= n -> n + 1 < 4294967296 ->
  (try_request reg r id s).1 = None -> try_request reg r id s = (None, reg).
Proof.
  intros Hok ?? E. destruct (try_request reg r id s) as [g reg'] eqn:Eq. simpl in E. subst g.
  apply (try_request_spec n) in Eq; [|done..]. by subst.
Qed.

Lemma release_try_exclusive n t id resp t' : table_wf n t -> 0 <= n -> n + 1 < 4294967296 ->
  try_exclusive t id = (Some resp, t') -> release_table t' id = Some (resp, t).
Proof.
  intros Hwf ? Hn. unfold try_exclusive. destruct t as [[[h d]|] nm sh]; simpl.
  - destruct (wf_excl n _ Hwf h d eq_refl) as [Hd _].
    destruct (Z.eqb_spec h id) as [->|]; intros E; simplify_eq.
    rewrite as_u32_id by (unfold in_u32; lia).
    unfold release_table, excl_held_by; simpl. rewrite Z.eqb_refl.
    rewrite as_u32_id by (unfold in_u32; lia). replace (d + 1 - 1) with d by lia.
    by destruct (Z.eqb_spec d 0); [lia|].
  - destruct (existsb _ _); intros E; simplify_eq.
    unfold release_table, excl_held_by; simpl. by rewrite Z.eqb_refl.
Qed.

Lemma release_try_shared n t id s resp t' : table_wf n t -> 0 <= n -> n + 1 < 4294967296 ->
  s <> [] -> excl_held_by t id = false ->
  try_shared t id s = (Some resp, t') -> release_table t' id = Some (resp, t).
Proof.
  intros Hwf ? Hn Hs Hex. unfold try_shared.
  destruct (_ || _) eqn:Eb; intros E; simplify_eq. apply orb_false_iff in Eb as [_ Ename].
  unfold release_table. unfold excl_held_by in *. simpl. rewrite Hex, lookup_insert_eq.
  destruct t as [ex nm sh]; simpl in *.
  destruct (sh !! id) as [d|] eqn:Ed; simpl.
  - pose proof (wf_depth n _ Hwf id d Ed) as Hd.
    rewrite !as_u32_id by (unfold in_u32; rewrite ?as_u32_id; unfold in_u32; lia).
    replace (d + 1 - 1) with d by lia. destruct (Z.eqb_spec d 0); [lia|].
    rewrite insert_insert_eq, insert_id by done. do 3 f_equal.
    destruct nm as [nm|].
    + apply bool_decide_eq_false, dec_stable in Ename. by subst.
    + pose proof (proj1 (wf_name n _ Hwf) eq_refl) as Hsh. simpl in Hsh. by subst.
  - change (as_u32 (as_u32 1 - 1) =? 0) with true. cbv iota.
    rewrite delete_insert_id by done. do 3 f_equal.
    case_bool_decide as Hsh.
    + symmetry. by apply (wf_name n _ Hwf).
    + destruct nm as [nm|]; [apply bool_decide_eq_false, dec_stable in Ename; by subst|].
      by pose proof (proj1 (wf_name n _ Hwf) eq_refl).
Qed.

Lemma is_empty_holds t id : is_empty t = true -> table_holds t id = false.
Proof.
  unfold is_empty, table_holds, excl_held_by. destruct (exclusive t) as [[]|]; [done|].
  intros ->%bool_decide_eq_true. simpl. apply bool_decide_eq_false. rewrite lookup_empty. by intros [].
Qed.

Lemma drop_holder_shared t id id' :
  shared (drop_holder id t) !! id' = if decide (id' = id) then None else shared t !! id'.
Proof.
  unfold drop_holder. destruct (shared t !! id) eqn:E; simpl.
  - rewrite lookup_delete. by destruct (decide (id = id')), (decide (id' = id)).
  - by destruct (decide (id' = id)) as [->|].
Qed.

Lemma drop_holder_excl t id :
  exclusive (drop_holder id t) = if excl_held_by t id then None else exclusive t.
Proof. unfold drop_holder. by destruct (shared t !! id). Qed.

Lemma drop_holder_gone t id : table_holds (drop_holder id t) id = false.
Proof.
  unfold table_holds at 1. rewrite drop_holder_shared, decide_True by done.
  unfold excl_held_by. rewrite drop_holder_excl. destruct (excl_held_by t id) eqn:E; simpl; [done|].
  unfold excl_held_by in E. by rewrite E.
Qed.

Lemma drop_holder_other t id id' : id' <> id ->
  table_holds (drop_holder id t) id' = table_holds t id'.
Proof.
  intros Hne. unfold table_holds. rewrite drop_holder_shared, decide_False by done. f_equal.
  unfold excl_held_by at 1. rewrite drop_holder_excl.
  unfold excl_held_by. destruct (exclusive t) as [[h d]|]; [|done].
  destruct (Z.eqb_spec h id); [|done]. subst. symmetry. by apply Z.eqb_neq.
Qed.

Lemma drop_holder_absent t id : table_holds t id = false -> drop_holder id t = t.
Proof.
  unfold table_holds, drop_holder. intros [Hex Hsh]%orb_false_iff. rewrite Hex.
  destruct (shared t !! id) as [d|]; [|by destruct t].
  by apply bool_decide_eq_false in Hsh as []; eauto.
Qed.

(** A request changes what its own holder holds and nothing else. *)
Lemma try_exclusive_other t id id' g t' : id <> id' -> try_exclusive t id' = (Some g, t') ->
  table_holds t' id = table_holds t id.
Proof.
  intros Hne. unfold try_exclusive, table_holds, excl_held_by.
  destruct (exclusive t) as [[h d]|].
  - destruct (Z.eqb_spec h id') as [->|]; intros E; by simplify_eq/=.
  - destruct (existsb _ _); intros E; simplify_eq/=. by destruct (Z.eqb_spec id' id).
Qed.

Lemma try_shared_other t id id' s g t' : id <> id' -> try_shared t id' s = (Some g, t') ->
  table_holds t' id = table_holds t id.
Proof.
  intros Hne. unfold try_shared. destruct (_ || _); intros E; simplify_eq/=.
  unfold table_holds, excl_held_by. simpl. f_equal.
  apply bool_decide_ext. by rewrite lookup_insert_ne.
Qed.

Lemma try_request_lookup_ne reg r r' id s : r <> r' ->
  tabs (try_request reg r' id s).2 !! r = tabs reg !! r.
Proof.
  intros Hne. unfold try_request. destruct (match s with [] => _ | _ => _ end) as [g t]. simpl.
  destruct g; [by rewrite lookup_insert_ne|].
  destruct (is_empty t); rewrite ?lookup_delete_ne, lookup_insert_ne; done.
Qed.

Lemma request_keeps_refusal n reg r r' id id' s : registry_ok n reg -> 0 <= n ->
  n + 1 < 4294967296 -> ~ (r' = r /\ id' = id) ->
  has_access reg r id = false -> has_access (try_request reg r' id' s).2 r id = false.
Proof.
  intros Hok Hn0 Hn Hne Hno.
  destruct (decide (r = r')) as [<-|Hr]; [|unfold has_access in *; by rewrite try_request_lookup_ne].
  assert (id <> id') by naive_solver.
  destruct (try_request reg r id' s) as [[g|] reg'] eqn:E.
  2: { apply (try_request_spec n) in E; [|done..]. by subst. }
  pose proof (try_request_spec n _ _ _ _ _ _ Hok Hn Hn0 E) as (_ & Hok' & _). simpl.
  revert E Hno Hok'. unfold try_request, has_access.
  destruct (tabs reg !! r) as [t|] eqn:Et; [|done]. simpl.
  rewrite (grants_access_used t id (proj2 (Hok r t Et))).
  destruct (match s with [] => _ | _ => _ end) as [g0 t'] eqn:Eg. intros E Hno Hok'.
  assert (g0 = Some g) as -> by (destruct g0; by simplify_eq).
  simplify_eq/=. rewrite lookup_insert_eq.
  rewrite (grants_access_used t' id (proj2 (Hok' r t' (lookup_insert_eq _ _ _)))).
  rewrite <- Hno. destruct s; [by eapply try_exclusive_other|by eapply try_shared_other].
Qed.

Lemma release_all_idle n reg id : registry_ok n reg ->
  existsb (fun p => table_holds p.2 id) (map_to_list (tabs reg)) = false ->
  tabs (release_all reg id) = tabs reg.
Proof.
  intros Hok Hf. apply map_eq. intros r. rewrite release_all_lookup.
  destruct (tabs reg !! r) as [t|] eqn:Et; [|done]. simpl. unfold retain_table.
  rewrite drop_holder_absent.
  - by rewrite (proj2 (Hok r t Et)).
  - apply not_true_is_false. intros Hh. apply not_true_iff_false in Hf. apply Hf.
    apply existsb_exists. exists (r, t). split; [by apply list_elem_of_In, elem_of_map_to_list|done].
Qed.

Lemma holders_count t (ids : gset Z) : (forall id, id ∈ ids <-> table_holds t id = true) ->
  holders t = Z.of_nat (size ids).
Proof.
  intros Hids. unfold holders, table_holds, excl_held_by in *.
  destruct (exclusive t) as [[h d]|].
  - assert (ids = {[h]} ∪ dom (shared t)) as ->.
    { apply set_eq. intros id. rewrite Hids, elem_of_union, elem_of_singleton, elem_of_dom.
      rewrite orb_true_iff, Z.eqb_eq, bool_decide_eq_true. naive_solver. }
    case_bool_decide as Hs.
    + rewrite subseteq_union_1_L by (apply singleton_subseteq_l; by rewrite elem_of_dom).
      rewrite size_dom. lia.
    + rewrite size_union by (apply disjoint_singleton_l; by rewrite elem_of_dom).
      rewrite size_singleton, size_dom. lia.
  - assert (ids = dom (shared t)) as ->.
    { apply set_eq. intros id. rewrite Hids, elem_of_dom. simpl. apply bool_decide_eq_true. }
    rewrite size_dom. lia.
Qed.

Lemma release_undoes_request_aux n reg r id s resp reg' :
  registry_ok n reg -> 0 <= n -> n + 1 < 4294967296 ->
  (s = [] \/ forall t, tabs reg !! r = Some t -> excl_held_by t id = false) ->
  try_request reg r id s = (Some resp, reg') ->
  (release reg' r id).1 = resp /\ tabs (release reg' r id).2 = tabs reg.
Proof.
  intros Hok Hn0 Hn Hcase Hreq.
  set (t := default default_table (tabs reg !! r)) in *.
  assert (Hwf : table_wf n t).
  { subst t. destruct (tabs reg !! r) eqn:E; simpl; [apply (Hok r _ E)|apply default_table_wf]. }
  assert (exists t', reg' = mkRegistry (<[r := t']> (tabs reg)) (released reg) /\
    release_table t' id = Some (resp, t)) as (t' & -> & Hrel).
  { unfold try_request in Hreq. fold t in Hreq. destruct s as [|c s].
    - destruct (try_exclusive t id) as [[g|] t'] eqn:E; simplify_eq.
      eexists; split; [done|]. by eapply release_try_exclusive.
    - destruct (try_shared t id (c :: s)) as [[g|] t'] eqn:E; simplify_eq.
      eexists; split; [done|]. apply (release_try_shared n t id (c :: s)); [done..| |done]. subst t.
      destruct Hcase as [|Hc]; [done|]. destruct (tabs reg !! r); simpl; [by apply Hc|done]. }
  unfold release. simpl. rewrite lookup_insert_eq, Hrel. split; [done|]. simpl. subst t.
  destruct (tabs reg !! r) as [t0|] eqn:E; simpl.
  - rewrite (proj2 (Hok r t0 E)). rewrite insert_insert_eq. by apply insert_id.
  - change (is_empty default_table) with true. simpl. by apply delete_insert_id.
Qed.

Lemma release_all_exact_aux n reg id : registry_ok n reg ->
  (forall r, holds (release_all reg id) r id = false) /\
  (forall r id', id' <> id -> holds (release_all reg id) r id' = holds reg r id') /\
  registry_ok n (release_all reg id).
Proof.
  intros Hok. split_and!; [intros r|intros r id' Hne|by apply release_all_ok].
  all: unfold holds; rewrite release_all_lookup;
    destruct (tabs reg !! r) as [t|] eqn:Et; simpl; [|done]; unfold retain_table.
  - destruct (is_empty (drop_holder id t)); [done|]. apply drop_holder_gone.
  - destruct (is_empty (drop_holder id t)) eqn:Ee.
    + rewrite <- (drop_holder_other t id id' Hne). by rewrite is_empty_holds.
    + by apply drop_holder_other.
Qed.

Lemma try_request_holds reg r id s resp reg' :
  try_request reg r id s = (Some resp, reg') -> holds reg' r id = true.
Proof.
  unfold try_request, holds.
  destruct (match s with [] => _ | _ => _ end) as [g t'] eqn:Eg. intros E; simplify_eq/=.
  rewrite lookup_insert_eq. unfold table_holds. destruct s as [|c s].
  - unfold try_exclusive in Eg. destruct (exclusive _) as [[h d]|].
    + destruct (Z.eqb_spec h id) as [->|]; simplify_eq. unfold excl_held_by. simpl. by rewrite Z.eqb_refl.
    + destruct (existsb _ _); simplify_eq. unfold excl_held_by. simpl. by rewrite Z.eqb_refl.
  - unfold try_shared in Eg. destruct (_ || _); simplify_eq. simpl.
    rewrite lookup_insert_eq. apply orb_true_r.
Qed.

Lemma request_total turns : forall deadline r id s reg, Exists (fun tn : turn => deadline <= tn.2) turns ->
  is_Some (request turns deadline r id s reg).
Proof.
  induction turns as [|[f now] turns IH]; intros deadline r id s reg Hd; [by apply Exists_nil in Hd|].
  cbn [request]. destruct (try_request _ _ _ _) as [[g|] reg1]; [done|].
  destruct (Z.leb_spec deadline now); [done|]. apply IH. apply Exists_cons in Hd as [Hd|]; [simpl in Hd; lia|done].
Qed.

Lemma wait_timeout_total turns : forall deadline r id reg, Exists (fun tn : turn => deadline <= tn.2) turns ->
  is_Some (wait_for_access_timeout turns deadline r id reg).
Proof.
  induction turns as [|[f now] turns IH]; intros deadline r id reg Hd; [by apply Exists_nil in Hd|].
  cbn [wait_for_access_timeout]. destruct (has_access _ _ _); [done|].
  destruct (Z.leb_spec deadline now); [done|]. apply IH. apply Exists_cons in Hd as [Hd|]; [simpl in Hd; lia|done].
Qed.

Lemma request_holds turns : forall deadline r id s reg resp reg',
  request turns deadline r id s reg = Some (resp, reg') -> is_success resp = true ->
  holds reg' r id = true.
Proof.
  induction turns as [|[env now] turns IH]; intros deadline r id s reg resp reg'; [done|].
  cbn [request]. destruct (try_request (env reg) r id s) as [[g|] reg1] eqn:E.
  - intros [= <- <-] _. by eapply try_request_holds.
  - destruct (_ <=? _); [by intros [= <- _]|apply IH].
Qed.

(** ** Properties *)

(** Two protocols' holder identities never collide, and within one
    protocol distinct sessions or links have distinct identities. *)
Theorem holder_ids_distinct s s' lid lid' : in_u16 s -> in_u16 s' -> in_i32 lid -> in_i32 lid' ->
  hislip_id s <> vxi11_id lid /\
  (hislip_id s = hislip_id s' -> s = s') /\ (vxi11_id lid = vxi11_id lid' -> lid = lid').
Proof.
  intros Hs Hs' Hl Hl'. rewrite !hislip_id_add, !vxi11_id_add by done.
  pose proof (as_u32_range lid) as Hr. unfold in_u32, in_u16 in *. split_and!; [lia|lia|].
  intros E. apply as_u32_inj; [done|done|lia].
Qed.

Lemma holder_ids_distinct_witness : hislip_id 7 <> vxi11_id (-1).
Proof. apply (holder_ids_distinct 7 7 (-1) (-1)); unfold in_u16, in_i32; lia. Defined.

(** C1: an exclusive lock excludes.  In every state reachable in fewer than
    2^32 - 1 registry operations, while one holder has the exclusive lock of
    a resource, no other holder has access to it or holds anything on it, and
    every attempt of theirs to lock it, exclusive or shared, conflicts and
    leaves the registry unchanged. *)
Theorem exclusive_lock_excludes n reg r t id d id' s :
  reach n reg -> Z.of_nat n < 4294967295 ->
  tabs reg !! r = Some t -> exclusive t = Some (id, d) -> id' <> id ->
  has_access reg r id = true /\ has_access reg r id' = false /\ holds reg r id' = false /\
  try_request reg r id' s = (None, reg).
Proof.
  intros Hr Hn Et Ex Hne. pose proof (reach_ok n reg Hr ltac:(lia)) as Hok.
  destruct (Hok r t Et) as [Hwf Hem].
  assert (Hh : table_holds t id' = false) by (by eapply excl_alone).
  unfold has_access, holds. rewrite Et, !grants_access_used, Hh by done.
  split_and!; [by eapply table_holds_excl|done..|].
  apply (try_request_None (Z.of_nat n)); [done|lia|lia|].
  rewrite (try_request_Some_table _ _ _ _ t Et). destruct s.
  - unfold try_exclusive. rewrite Ex. by destruct (Z.eqb_spec id id').
  - by erewrite try_shared_excl_elsewhere.
Qed.

Lemma exclusive_lock_excludes_witness :
  let r := RustStr.str "gpib15" in
  let reg := apply_op new_registry (OpRequest r (hislip_id 1) []) in
  has_access reg r (hislip_id 1) = true /\ has_access reg r (vxi11_id 1) = false /\
  holds reg r (vxi11_id 1) = false /\ try_request reg r (vxi11_id 1) [] = (None, reg).
Proof.
  apply (exclusive_lock_excludes 1 _ _ (mkLockTable (Some (hislip_id 1, 1)) None ∅) _ 1).
  - apply reach_step, reach_new.
  - lia.
  - by vm_compute.
  - by vm_compute.
  - by vm_compute.
Defined.

(** releasing undoes a grant.  After a granted request, one release by the
    same holder answers with the matching success and restores every table
    exactly, provided the request was exclusive or the holder does not also
    hold the exclusive lock (which a release gives up first). *)
Theorem release_undoes_request n reg r id s resp reg' :
  registry_ok n reg -> 0 <= n -> n + 1 < 4294967296 ->
  (s = [] \/ forall t, tabs reg !! r = Some t -> excl_held_by t id = false) ->
  try_request reg r id s = (Some resp, reg') ->
  (release reg' r id).1 = resp /\ tabs (release reg' r id).2 = tabs reg.
Proof. apply release_undoes_request_aux. Qed.

Lemma release_undoes_request_witness :
  let r := RustStr.str "gpib3" in
  let req := try_request new_registry r 5 (RustStr.str "bench") in
  (release req.2 r 5).1 = SuccessShared /\ tabs (release req.2 r 5).2 = tabs new_registry.
Proof.
  apply (release_undoes_request 0 new_registry _ _ (RustStr.str "bench")); [apply registry_ok_new|lia|lia| |].
  - right. intros t Ht. simpl in Ht. by rewrite lookup_empty in Ht.
  - by vm_compute.
Defined.

(** [release_all] frees everything its session held and nothing else: the
    session holds nothing on any resource afterwards, every other session
    holds exactly what it held, and the invariant is kept. *)
Theorem release_all_exact n reg id : registry_ok n reg ->
  (forall r, holds (release_all reg id) r id = false) /\
  (forall r id', id' <> id -> holds (release_all reg id) r id' = holds reg r id') /\
  registry_ok n (release_all reg id).
Proof. apply release_all_exact_aux. Qed.

Lemma release_all_exact_witness :
  let r := RustStr.str "gpib15" in
  let reg := apply_op (apply_op new_registry (OpRequest r 1 (RustStr.str "a"))) (OpRequest r 2 (RustStr.str "a")) in
  holds (release_all reg 1) r 1 = false /\ holds (release_all reg 1) r 2 = true.
Proof.
  intros r reg. assert (Hok : registry_ok 2 reg).
  { apply (reach_ok 2); [repeat constructor|lia]. }
  split.
  - apply (release_all_exact 2 reg 1 Hok).
  - destruct (release_all_exact 2 reg 1 Hok) as (_ & H & _). rewrite (H r 2); [by vm_compute|lia].
Defined.

(** [info] reports exactly who holds the resource: whether an exclusive
    lock exists, and the number of distinct sessions that hold any lock. *)
Theorem info_counts_holders reg r (ids : gset Z) :
  (forall id, id ∈ ids <-> holds reg r id = true) ->
  (info reg r).2 = Z.of_nat (size ids) /\
  ((info reg r).1 = true <-> exists t id, tabs reg !! r = Some t /\ excl_held_by t id = true).
Proof.
  intros Hids. unfold info, holds in *. destruct (tabs reg !! r) as [t|]; simpl.
  - split; [by apply holders_count|]. rewrite bool_decide_eq_true. unfold excl_held_by.
    destruct (exclusive t) as [[h d]|] eqn:Ex; simpl.
    + split; [|eauto]. intros _. exists t, h. rewrite Ex. split; [done|apply Z.eqb_refl].
    + split; [by intros []|]. intros (t' & id & [= <-] & H). by rewrite Ex in H.
  - assert (ids = ∅) as -> by (apply set_eq; intros id; rewrite Hids; set_solver).
    split; [done|]. split; [done|]. by intros (? & ? & ? & _).
Qed.

Lemma info_counts_holders_witness :
  let r := RustStr.str "gpib15" in
  let reg := apply_op (apply_op new_registry (OpRequest r 1 (RustStr.str "a"))) (OpRequest r 2 (RustStr.str "a")) in
  (info reg r).2 = 2.
Proof.
  intros r reg. destruct (info_counts_holders reg r ({[1]} ∪ {[2]})) as [H _]; [|by rewrite H].
  assert (E : tabs reg !! r = Some (mkLockTable None (Some (RustStr.str "a")) (<[2 := 1]> {[1 := 1]})))
    by (by vm_compute).
  intros id. unfold holds. rewrite E. unfold table_holds. simpl.
  rewrite bool_decide_eq_true, elem_of_union, !elem_of_singleton.
  rewrite lookup_insert_is_Some, lookup_singleton_is_Some. naive_solver.
Defined.

(** C23: no lost wake-up from a release.  Whenever any operation changes a
    waiting holder's access from refused to granted, the waiters are notified,
    with one exception: the waiting holder's own lock request. *)
Theorem access_gain_notifies n reg o r id : registry_ok n reg -> 0 <= n -> n + 1 < 4294967296 ->
  has_access reg r id = false -> has_access (apply_op reg o) r id = true ->
  released (apply_op reg o) = released reg + 1 \/ exists s, o = OpRequest r id s.
Proof.
  intros Hok Hn0 Hn Hbefore Hafter. destruct o as [r' id' s|r' id'|id']; simpl in *.
  - destruct (decide (r' = r /\ id' = id)) as [[-> ->]|Hne]; [by right; eauto|].
    by rewrite (request_keeps_refusal n) in Hafter.
  - left. revert Hafter. unfold release. destruct (tabs reg !! r') as [t|]; [|simpl; by rewrite Hbefore].
    destruct (release_table t id') as [[resp t']|]; [done|simpl; by rewrite Hbefore].
  - left. unfold release_all. simpl. destruct (existsb _ _) eqn:Ef; [done|].
    unfold has_access in *. rewrite (release_all_idle n) in Hafter by done. by rewrite Hbefore in Hafter.
Qed.

Lemma access_gain_notifies_witness :
  let r := RustStr.str "gpib15" in
  let reg := apply_op new_registry (OpRequest r 1 []) in
  released (apply_op reg (OpReleaseAll 1)) = released reg + 1 \/
  exists s, OpReleaseAll 1 = OpRequest r 2 s.
Proof.
  intros r reg. apply (access_gain_notifies 1 reg (OpReleaseAll 1) r 2); [|lia|lia|by vm_compute..].
  apply (reach_ok 1); [repeat constructor|lia].
Defined.

(** The exception is real.  A session parked because others share the
    instrument under a name gains access the moment its own shared request
    under that name is granted, but the grant notifies nobody: the parked
    message stays parked until some later release. *)
Theorem own_grant_does_not_wake n reg r t id s :
  reach n reg -> Z.of_nat n < 4294967295 -> tabs reg !! r = Some t ->
  exclusive t = None -> shared_name t = Some s -> shared t !! id = None ->
  has_access reg r id = false /\
  (try_request reg r id s).1 = Some SuccessShared /\
  has_access (apply_op reg (OpRequest r id s)) r id = true /\
  released (apply_op reg (OpRequest r id s)) = released reg.
Proof.
  intros Hr Hn Et Ex Hs Hid. pose proof (reach_ok n reg Hr ltac:(lia)) as Hok.
  destruct (Hok r t Et) as [Hwf Hem].
  assert (Hne : s <> []) by (intros ->; by apply (wf_named _ t Hwf)).
  assert (Hg : try_shared t id s = (Some SuccessShared,
            mkLockTable None (Some s) (<[id := 1]> (shared t)))).
  { unfold try_shared. rewrite Ex, Hs, Hid. by rewrite bool_decide_eq_false_2 by naive_solver. }
  split_and!.
  - unfold has_access. rewrite Et, grants_access_used by done.
    unfold table_holds, excl_held_by. rewrite Ex, Hid. by rewrite bool_decide_eq_false_2 by (by intros []).
  - rewrite (try_request_Some_table _ _ _ _ t Et). destruct s; [done|]. by rewrite Hg.
  - unfold apply_op, try_request. rewrite Et. simpl. destruct s; [done|]. rewrite Hg. simpl.
    unfold has_access. simpl. rewrite lookup_insert_eq. unfold grants_access, table_holds. simpl.
    rewrite bool_decide_eq_true_2; [done|]. rewrite lookup_insert_eq. eauto.
  - unfold apply_op, try_request. rewrite Et. simpl. destruct s; [done|]. by rewrite Hg.
Qed.

Lemma own_grant_does_not_wake_witness :
  let r := RustStr.str "gpib15" in
  let s := RustStr.str "bench" in
  let reg := apply_op new_registry (OpRequest r 1 s) in
  has_access reg r 2 = false /\
  (try_request reg r 2 s).1 = Some SuccessShared /\
  has_access (apply_op reg (OpRequest r 2 s)) r 2 = true /\
  released (apply_op reg (OpRequest r 2 s)) = released reg.
Proof.
  apply (own_grant_does_not_wake 1 _ _ (mkLockTable None (Some (RustStr.str "bench")) {[1 := 1]})).
  - repeat constructor.
  - lia.
  - by vm_compute.
  - done.
  - done.
  - by vm_compute.
Defined.

(** a lock request with a timeout answers no later than the first turn at
    or past its deadline, and a request that fails leaves no trace: the
    registry is what the other sessions made of it. *)
Theorem request_times_out n turns deadline r id s reg :
  registry_ok n reg -> 0 <= n -> n + 1 < 4294967296 ->
  Forall (fun tn : turn => forall g, registry_ok n g -> registry_ok n (tn.1 g)) turns ->
  Exists (fun tn : turn => deadline <= tn.2) turns ->
  exists resp reg', request turns deadline r id s reg = Some (resp, reg') /\
    (resp = Failure -> exists k, (k < length turns)%nat /\
       reg' = fold_left (fun g tn => tn.1 g) (take (S k) turns) reg).
Proof.
  intros Hok Hn0 Hn Henv Hdl. revert reg Hok.
  induction turns as [|[env now] turns IH]; intros reg Hok; [by apply Exists_nil in Hdl|].
  apply Forall_cons in Henv as [He Henv]. simpl in *. specialize (He reg Hok).
  destruct (try_request (env reg) r id s) as [[g|] reg1] eqn:E.
  - do 2 eexists; split; [done|]. intros ->.
    apply (try_request_spec n) in E as (Hresp & _); [|done..].
    by case_bool_decide.
  - apply (try_request_spec n) in E; [|done..]. subst reg1.
    destruct (Z.leb_spec deadline now).
    + do 2 eexists; split; [done|]. intros _. exists 0%nat. split; [lia|done].
    + apply Exists_cons in Hdl as [Hdl|Hdl]; [simpl in Hdl; lia|].
      destruct (IH Henv Hdl (env reg) He) as (resp & reg' & -> & Hf).
      do 2 eexists; split; [done|]. intros Hr. destruct (Hf Hr) as (k & Hk & ->).
      exists (S k). split; [lia|done].
Qed.

Lemma request_times_out_witness :
  let r := RustStr.str "gpib15" in
  let held := apply_op new_registry (OpRequest r 1 []) in
  exists resp reg', request [(fun g => g, 0); (fun g => g, 500)] 500 r 2 [] held = Some (resp, reg') /\
    (resp = Failure -> exists k, (k < 2)%nat /\
       reg' = fold_left (fun g (tn : turn) => tn.1 g) (take (S k) [(fun g => g, 0); (fun g => g, 500)]) held).
Proof.
  intros r held. apply (request_times_out 1); [|lia|lia| |].
  - apply (reach_ok 1); [repeat constructor|lia].
  - repeat apply Forall_cons_2; [done|done|apply Forall_nil_2].
  - right. left. simpl. lia.
Defined.

End Lock.
