(* ===== verification/Backend.v ===== *)
(** * The adapter interface: [src/backend/mod.rs], [src/frontend/instrument.rs]

    [GpibBackend] is the trait every adapter implements, as a class over the
    adapter's state.  The state stands for everything on the far side of the
    trait: the adapter, the bus and the instruments on it, and the clock, since
    a bus operation takes time.  [BackendLaws] states what the front-ends rely
    on; their theorems are proved against it.  [Logged] records the calls made
    on any backend, and [Mock] is a small concrete bus. *)

From S2P Require Import Prelude RustStr.

Module Backend.
Import RustStr.

(** ** Bus lines *)

Record BusLines : Type := mkBusLines {
  ren : bool; ifc : bool; srq : bool; eoi : bool;
  nrfd : bool; ndac : bool; dav : bool; atn : bool;
  raw : Z;
}.

Definition LINE_REN : Z := 0x01.
Definition LINE_IFC : Z := 0x02.
Definition LINE_SRQ : Z := 0x04.
Definition LINE_EOI : Z := 0x08.
Definition LINE_NRFD : Z := 0x10.
Definition LINE_NDAC : Z := 0x20.
Definition LINE_DAV : Z := 0x40.
Definition LINE_ATN : Z := 0x80.

Definition from_bsr (raw : Z) : BusLines :=
  mkBusLines (has_flag raw LINE_REN) (has_flag raw LINE_IFC) (has_flag raw LINE_SRQ)
    (has_flag raw LINE_EOI) (has_flag raw LINE_NRFD) (has_flag raw LINE_NDAC)
    (has_flag raw LINE_DAV) (has_flag raw LINE_ATN) raw.

Definition hex_digit (n : Z) : Z := if n <? 10 then 48 + n else 87 + n.

(** [{:#04x}] of a byte. *)
Definition hex_byte (n : Z) : list Z := str "0x" ++ [hex_digit (n / 16); hex_digit (n mod 16)].

Definition fmt_lines (l : BusLines) : list Z :=
  hex_byte (raw l) ++
  concat (map (fun p : bool * list Z => if p.1 then str " " ++ p.2 else [])
    [(atn l, str "ATN"); (dav l, str "DAV"); (ndac l, str "NDAC"); (nrfd l, str "NRFD");
     (eoi l, str "EOI"); (srq l, str "SRQ"); (ifc l, str "IFC"); (ren l, str "REN")]) ++
  (if raw l =? 0 then str " (none asserted)" else []).

(** ** The trait

    An [anyhow::Error] is its [{:#}] rendering. *)

Definition Error : Type := list Z.

Class GpibBackend (B : Type) : Type := {
  gb_init : B -> Z -> result unit Error * B;
  gb_write : B -> Z -> list byte -> bool -> result unit Error * B;
  gb_read : B -> Z -> Z -> result (list byte * bool) Error * B;
  gb_device_clear : B -> Z -> result unit Error * B;
  gb_trigger : B -> Z -> result unit Error * B;
  gb_ifc : B -> result unit Error * B;
  gb_ren : B -> bool -> result unit Error * B;
  gb_go_to_remote : B -> Z -> result unit Error * B;
  gb_go_to_local : B -> Z -> result unit Error * B;
  gb_local_lockout : B -> result unit Error * B;
  gb_serial_poll : B -> Z -> result Z Error * B;
  gb_srq_asserted : B -> result bool Error * B;
  gb_bus_lines : B -> result BusLines Error * B;
  gb_set_listen_only : B -> bool -> result unit Error * B;
  gb_listen_only : B -> bool;
  gb_set_device_mode : B -> option Z -> result unit Error * B;
  gb_device_address : B -> option Z;
  gb_send_bus_command : B -> list byte -> result unit Error * B;
  gb_set_atn : B -> bool -> result unit Error * B;
  gb_controller_pad : B -> Z;
  gb_set_controller_pad : B -> Z -> result unit Error * B;
  gb_send_data_unaddressed : B -> list byte -> bool -> result unit Error * B;
  gb_read_unaddressed : B -> Z -> result (list byte * bool) Error * B;
  gb_set_eos : B -> Z -> bool -> B;
  gb_eos : B -> Z * bool;
  gb_set_timeout : B -> Z -> B;
  gb_read_slice_ms : B -> option Z;
  gb_name : B -> list Z;
  (* the clock, in nanoseconds, and a sleep *)
  now : B -> Z;
  sleep : B -> Z -> B;
}.

(** The trait's default bodies: a backend that cannot do it says so. *)
Definition default_srq_asserted {B} `{GpibBackend B} (b : B) : result bool Error * B :=
  (Err (gb_name b ++ str " cannot read the SRQ line"), b).
Definition default_bus_lines {B} `{GpibBackend B} (b : B) : result BusLines Error * B :=
  (Err (gb_name b ++ str " cannot read the GPIB control lines"), b).
Definition default_set_listen_only {B} `{GpibBackend B} (b : B) (enable : bool) : result unit Error * B :=
  (Err (gb_name b ++ str " cannot enter listen-only mode"), b).
Definition default_set_device_mode {B} `{GpibBackend B} (b : B) (a : option Z) : result unit Error * B :=
  (Err (gb_name b ++ str " cannot act as a GPIB device"), b).
Definition default_send_bus_command {B} `{GpibBackend B} (b : B) (c : list byte) : result unit Error * B :=
  (Err (gb_name b ++ str " cannot send raw bus commands"), b).
Definition default_set_atn {B} `{GpibBackend B} (b : B) (a : bool) : result unit Error * B :=
  (Err (gb_name b ++ str " cannot drive ATN directly"), b).

(** ** What the front-ends rely on

    [timeout_of] is the timeout the adapter is currently set to, which the
    trait can set but not read back. *)
Class BackendLaws (B : Type) `{GpibBackend B} : Type := {
  timeout_of : B -> Z;
  set_timeout_get : forall b t, timeout_of (gb_set_timeout b t) = t;
  set_timeout_eos : forall b t, gb_eos (gb_set_timeout b t) = gb_eos b;
  set_timeout_now : forall b t, now (gb_set_timeout b t) = now b;
  set_eos_get : forall b c e, gb_eos (gb_set_eos b c e) = (c, e);
  set_eos_timeout : forall b c e, timeout_of (gb_set_eos b c e) = timeout_of b;
  set_eos_now : forall b c e, now (gb_set_eos b c e) = now b;
  read_slice : forall b s, gb_read_slice_ms b = Some s -> 1 <= s;
  read_bound : forall b pad n d e b', 0 < n ->
    gb_read b pad n = (Ok (d, e), b') -> zlen d <= n;
  read_unaddressed_bound : forall b n d e b', 0 < n ->
    gb_read_unaddressed b n = (Ok (d, e), b') -> zlen d <= n;
  read_now : forall b pad n, now b <= now (gb_read b pad n).2;
  read_unaddressed_now : forall b n, now b <= now (gb_read_unaddressed b n).2;
  read_eos : forall b pad n, gb_eos (gb_read b pad n).2 = gb_eos b;
  read_unaddressed_eos : forall b n, gb_eos (gb_read_unaddressed b n).2 = gb_eos b;
  write_now : forall b pad d e, now b <= now (gb_write b pad d e).2;
  send_data_now : forall b d e, now b <= now (gb_send_data_unaddressed b d e).2;
  serial_poll_now : forall b pad, now b <= now (gb_serial_poll b pad).2;
  srq_asserted_now : forall b, now b <= now (gb_srq_asserted b).2;
  sleep_now : forall b d, 0 <= d -> now b + d <= now (sleep b d);
  sleep_eos : forall b d, gb_eos (sleep b d) = gb_eos b;
}.

(** ** [frontend::instrument] *)

Definition MAX_READ : Z := 65536.

Definition resource_key (pad : Z) : list Z := str "gpib" ++ to_string pad.

Section Held.
Context {B : Type} `{GpibBackend B}.

Definition held_read (b : B) (pad max_len : Z) : result (list byte * bool) Error * B :=
  gb_read b pad (Z.min max_len MAX_READ).
Definition held_read_unaddressed (b : B) (max_len : Z) : result (list byte * bool) Error * B :=
  gb_read_unaddressed b (Z.min max_len MAX_READ).
Definition held_write (b : B) (pad : Z) (d : list byte) (send_eoi : bool) : result unit Error * B :=
  gb_write b pad d send_eoi.

End Held.

(** ** A log of the data-path calls on any backend *)

Inductive Call : Type :=
| CWrite (pad : Z) (d : list byte) (send_eoi : bool)
| CSend (d : list byte) (send_eoi : bool)
| CRead (pad max_len : Z)
| CReadUnaddressed (max_len : Z)
| CGot (d : list byte) (end_ : bool)
| CPoll (pad : Z)
| CCommand (cmds : list byte)
| COther (what : string) (pad : option Z).

#[export] Instance Call_eq_dec : EqDecision Call.
Proof. solve_decision. Defined.

Record Logged (B : Type) : Type := mkLogged { bus : B; calls : list Call }.
Arguments mkLogged {B} bus calls.
Arguments bus {B} l.
Arguments calls {B} l.

Definition log_op {B A} (l : Logged B) (c : Call) (r : result A Error * B)
    : result A Error * Logged B :=
  (r.1, mkLogged r.2 (calls l ++ [c])).

(** A read also records what the bus delivered. *)
Definition log_read {B} (l : Logged B) (c : Call) (r : result (list byte * bool) Error * B)
    : result (list byte * bool) Error * Logged B :=
  (r.1, mkLogged r.2 (calls l ++ c :: match r.1 with Ok (d, e) => [CGot d e] | Err _ => [] end)).

Definition log_map {B} (l : Logged B) (b : B) : Logged B := mkLogged b (calls l).

#[export] Instance Logged_backend (B : Type) `{GpibBackend B} : GpibBackend (Logged B) := {|
  gb_init l p := log_op l (COther "init" (Some p)) (gb_init (bus l) p);
  gb_write l p d e := log_op l (CWrite p d e) (gb_write (bus l) p d e);
  gb_read l p n := log_read l (CRead p n) (gb_read (bus l) p n);
  gb_device_clear l p := log_op l (COther "device_clear" (Some p)) (gb_device_clear (bus l) p);
  gb_trigger l p := log_op l (COther "trigger" (Some p)) (gb_trigger (bus l) p);
  gb_ifc l := log_op l (COther "ifc" None) (gb_ifc (bus l));
  gb_ren l e := log_op l (COther "ren" None) (gb_ren (bus l) e);
  gb_go_to_remote l p := log_op l (COther "go_to_remote" (Some p)) (gb_go_to_remote (bus l) p);
  gb_go_to_local l p := log_op l (COther "go_to_local" (Some p)) (gb_go_to_local (bus l) p);
  gb_local_lockout l := log_op l (COther "local_lockout" None) (gb_local_lockout (bus l));
  gb_serial_poll l p := log_op l (CPoll p) (gb_serial_poll (bus l) p);
  gb_srq_asserted l := log_op l (COther "srq_asserted" None) (gb_srq_asserted (bus l));
  gb_bus_lines l := log_op l (COther "bus_lines" None) (gb_bus_lines (bus l));
  gb_set_listen_only l e := log_op l (COther "set_listen_only" None) (gb_set_listen_only (bus l) e);
  gb_listen_only l := gb_listen_only (bus l);
  gb_set_device_mode l a := log_op l (COther "set_device_mode" a) (gb_set_device_mode (bus l) a);
  gb_device_address l := gb_device_address (bus l);
  gb_send_bus_command l c := log_op l (CCommand c) (gb_send_bus_command (bus l) c);
  gb_set_atn l a := log_op l (COther "set_atn" None) (gb_set_atn (bus l) a);
  gb_controller_pad l := gb_controller_pad (bus l);
  gb_set_controller_pad l p := log_op l (COther "set_controller_pad" (Some p)) (gb_set_controller_pad (bus l) p);
  gb_send_data_unaddressed l d e := log_op l (CSend d e) (gb_send_data_unaddressed (bus l) d e);
  gb_read_unaddressed l n := log_read l (CReadUnaddressed n) (gb_read_unaddressed (bus l) n);
  gb_set_eos l c e := log_map l (gb_set_eos (bus l) c e);
  gb_eos l := gb_eos (bus l);
  gb_set_timeout l t := log_map l (gb_set_timeout (bus l) t);
  gb_read_slice_ms l := gb_read_slice_ms (bus l);
  gb_name l := gb_name (bus l);
  now l := now (bus l);
  sleep l d := log_map l (sleep (bus l) d);
|}.

#[export] Instance Logged_laws (B : Type) `{BackendLaws B} : BackendLaws (Logged B).
Proof.
  refine {| timeout_of l := timeout_of (bus l) |}; simpl; intros;
    auto using set_timeout_get, set_timeout_eos, set_timeout_now, set_eos_get, set_eos_timeout,
      set_eos_now, read_now, read_unaddressed_now, read_eos, read_unaddressed_eos,
      write_now, send_data_now, serial_poll_now, srq_asserted_now, sleep_now, sleep_eos.
  - by eapply read_slice.
  - unfold log_read in *. destruct (gb_read (bus b) pad n) as [r b1] eqn:E; simplify_eq/=.
    by eapply read_bound.
  - unfold log_read in *. destruct (gb_read_unaddressed (bus b) n) as [r b1] eqn:E; simplify_eq/=.
    by eapply read_unaddressed_bound.
Defined.

(** ** A concrete bus

    One scripted instrument: each read answers with the next entry of a
    script and takes the time it says; everything else succeeds in no time. *)

Record Mock : Type := mkMock {
  m_script : list (result (list byte * bool) Error * Z);
  m_clock : Z; m_eos : Z * bool; m_timeout : Z; m_slice : option Z; m_stb : Z; m_srq : bool;
}.

Definition mock_read (m : Mock) (n : Z) : result (list byte * bool) Error * Mock :=
  match m_script m with
  | [] => (Ok ([], false), m)
  | (r, dt) :: s =>
      (match r with
       | Ok (d, e) => Ok (ztake n d, e && (zlen d <=? n))
       | Err e => Err e
       end,
       mkMock s (m_clock m + Z.max 0 dt) (m_eos m) (m_timeout m) (m_slice m) (m_stb m) (m_srq m))
  end.

Definition mock_set_eos (m : Mock) (c : Z) (e : bool) : Mock :=
  mkMock (m_script m) (m_clock m) (c, e) (m_timeout m) (m_slice m) (m_stb m) (m_srq m).
Definition mock_set_timeout (m : Mock) (t : Z) : Mock :=
  mkMock (m_script m) (m_clock m) (m_eos m) t (m_slice m) (m_stb m) (m_srq m).
Definition mock_sleep (m : Mock) (d : Z) : Mock :=
  mkMock (m_script m) (m_clock m + Z.max 0 d) (m_eos m) (m_timeout m) (m_slice m) (m_stb m) (m_srq m).

#[export] Instance Mock_backend : GpibBackend Mock := {|
  gb_init m _ := (Ok tt, m);
  gb_write m _ _ _ := (Ok tt, m);
  gb_read m _ n := mock_read m n;
  gb_device_clear m _ := (Ok tt, m);
  gb_trigger m _ := (Ok tt, m);
  gb_ifc m := (Ok tt, m);
  gb_ren m _ := (Ok tt, m);
  gb_go_to_remote m _ := (Ok tt, m);
  gb_go_to_local m _ := (Ok tt, m);
  gb_local_lockout m := (Ok tt, m);
  gb_serial_poll m _ := (Ok (m_stb m), m);
  gb_srq_asserted m := (Ok (m_srq m), m);
  gb_bus_lines m := (Ok (from_bsr 0x29), m);
  gb_set_listen_only m _ := (Ok tt, m);
  gb_listen_only _ := false;
  gb_set_device_mode m _ := (Ok tt, m);
  gb_device_address _ := None;
  gb_send_bus_command m _ := (Ok tt, m);
  gb_set_atn m _ := (Ok tt, m);
  gb_controller_pad _ := 0;
  gb_set_controller_pad m _ := (Ok tt, m);
  gb_send_data_unaddressed m _ _ := (Ok tt, m);
  gb_read_unaddressed m n := mock_read m n;
  gb_set_eos := mock_set_eos;
  gb_eos := m_eos;
  gb_set_timeout := mock_set_timeout;
  gb_read_slice_ms m := match m_slice m with Some s => Some (Z.max 1 s) | None => None end;
  gb_name _ := str "mock";
  now := m_clock;
  sleep := mock_sleep;
|}.

Lemma mock_read_facts m n :
  m_clock m <= m_clock (mock_read m n).2 /\ m_eos (mock_read m n).2 = m_eos m /\
  (forall d e, 0 <= n -> (mock_read m n).1 = Ok (d, e) -> zlen d <= n).
Proof.
  unfold mock_read. destruct (m_script m) as [|[[[d0 e0]|] dt] s]; simpl; split_and!;
    try lia; try done.
  - intros d e Hn [= <- <-]. done.
  - intros d e Hn [= <- <-]. unfold zlen, ztake. rewrite length_take. lia.
Qed.

#[export] Instance Mock_laws : BackendLaws Mock.
Proof.
  refine {| timeout_of := m_timeout |}; simpl; intros; try done; try lia;
    try apply mock_read_facts.
  - destruct (m_slice b); simplify_eq; lia.
  - eapply (mock_read_facts b n); [lia|]. by match goal with E : mock_read _ _ = _ |- _ => rewrite E end.
  - eapply (mock_read_facts b n); [lia|]. by match goal with E : mock_read _ _ = _ |- _ => rewrite E end.
Defined.

(** ** Lemmas *)

Lemma resource_key_inj a b : in_u8 a -> in_u8 b -> resource_key a = resource_key b -> a = b.
Proof.
  unfold resource_key, in_u8. intros Ha Hb E%app_inv_head. apply to_string_inj in E; lia.
Qed.

End Backend.
