(* ===== verification/Bus.v ===== *)
(** * The bus as its command bytes leave it

    Which instrument may talk and which listen follows from the interface
    messages sent with ATN asserted (IEEE 488.1).  The drivers' proofs fold this
    over what they sent to an adapter.  [None] is not known. *)

From S2P Require Import Prelude.

Module Bus.

Record Bus : Type := mkBus { atn_line : option bool; talks : option (option Z); listens : option (list Z) }.
Definition unknown : Bus := mkBus None None None.

Definition UNL : Z := 0x3f.
Definition UNT : Z := 0x5f.
Definition mla (p : Z) : Z := Z.lor 0x20 (Z.land p 0x1f).
Definition mta (p : Z) : Z := Z.lor 0x40 (Z.land p 0x1f).

Definition command_byte (k : Bus) (c : byte) : Bus :=
  let c := u8 c in
  if c =? UNL then mkBus (atn_line k) (talks k) (Some [])
  else if c =? UNT then mkBus (atn_line k) (Some None) (listens k)
  else if (0x20 <=? c) && (c <? 0x40) then
    mkBus (atn_line k) (talks k) (option_map (fun l => l ++ [c - 0x20]) (listens k))
  else if (0x40 <=? c) && (c <? 0x60) then mkBus (atn_line k) (Some (Some (c - 0x40))) (listens k)
  else k.

(** Primary addresses. *)
Definition in_range (p : Z) : Prop := 0 <= p <= 30.

Lemma address_bytes p : in_range p -> u8 (b8 (mla p)) = 32 + p /\ u8 (b8 (mta p)) = 64 + p.
Proof.
  intros Hp. unfold in_range in Hp. assert (Hin : In p (map Z.of_nat (seq 0 31))).
  { apply in_map_iff. exists (Z.to_nat p). split; [lia|]. apply in_seq. lia. }
  vm_compute in Hin. repeat destruct Hin as [<-|Hin]; try done.
Qed.

Lemma mla_byte k p : in_range p ->
  command_byte k (b8 (mla p)) = mkBus (atn_line k) (talks k) (option_map (fun l => l ++ [p]) (listens k)).
Proof.
  intros Hp. unfold command_byte. destruct (address_bytes p Hp) as [-> _]. unfold in_range, UNL, UNT in *.
  destruct (Z.eqb_spec (32 + p) 63); [lia|]. destruct (Z.eqb_spec (32 + p) 95); [lia|].
  rewrite (proj2 (Z.leb_le _ _)), (proj2 (Z.ltb_lt _ _)) by lia. cbn [andb]. by replace (32 + p - 32) with p by lia.
Qed.
Lemma mta_byte k p : in_range p -> command_byte k (b8 (mta p)) = mkBus (atn_line k) (Some (Some p)) (listens k).
Proof.
  intros Hp. unfold command_byte. destruct (address_bytes p Hp) as [_ ->]. unfold in_range, UNL, UNT in *.
  destruct (Z.eqb_spec (64 + p) 63); [lia|]. destruct (Z.eqb_spec (64 + p) 95); [lia|].
  rewrite (proj2 (Z.ltb_ge (64 + p) 64)), andb_false_r by lia.
  rewrite (proj2 (Z.leb_le _ _)), (proj2 (Z.ltb_lt _ _)) by lia. cbn [andb]. by replace (64 + p - 64) with p by lia.
Qed.

End Bus.
