(* ===== verification/Vxi11Ops.v ===== *)
(** * VXI-11 device operations: [src/vxi11/mod.rs], [src/vxi11/server.rs]

    The core channel's state (links, lock registry) and the handler of every
    device procedure, against the adapter interface [GpibBackend].

    Links are [Arc]s: the table maps a link id to a cell, and a handler that
    found a link keeps its cell even if another connection destroys the link
    meanwhile.  A handler runs alone except where it awaits; what other tasks
    do there is an argument ([Env]): the turns of a lock wait, what happened
    to the bus before this handler got to hold it, and what happened to the
    server state before each look at the abort flag.

    A handler's result is [None] when a loop ran out of fuel, a lock wait
    outlived its turns, or the code panicked. *)

From S2P Require Import Prelude RustStr Lock Backend Xdr Messages.

Module Vxi11Ops.
Import RustStr Backend Messages.

(** ** Constants *)

Definition DEVICE_CORE_PROG : Z := 0x0607AF.
Definition DEVICE_CORE_VERS : Z := 1.
Definition DEVICE_ASYNC_PROG : Z := 0x0607B0.
Definition DEVICE_ASYNC_VERS : Z := 1.
Definition DEVICE_INTR_PROG : Z := 0x0607B1.
Definition DEVICE_INTR_VERS : Z := 1.

Definition CREATE_LINK : Z := 10.
Definition DEVICE_WRITE : Z := 11.
Definition DEVICE_READ : Z := 12.
Definition DEVICE_READSTB : Z := 13.
Definition DEVICE_TRIGGER : Z := 14.
Definition DEVICE_CLEAR : Z := 15.
Definition DEVICE_REMOTE : Z := 16.
Definition DEVICE_LOCAL : Z := 17.
Definition DEVICE_LOCK : Z := 18.
Definition DEVICE_UNLOCK : Z := 19.
Definition DEVICE_ENABLE_SRQ : Z := 20.
Definition DEVICE_DOCMD : Z := 22.
Definition DESTROY_LINK : Z := 23.
Definition CREATE_INTR_CHAN : Z := 25.
Definition DESTROY_INTR_CHAN : Z := 26.
Definition DEVICE_ABORT : Z := 1.
Definition DEVICE_INTR_SRQ : Z := 30.

Inductive ErrorCode : Type :=
| NoError | SyntaxError | DeviceNotAccessible | InvalidLinkIdentifier | ParameterError
| ChannelNotEstablished | OperationNotSupported | OutOfResources | DeviceLockedByAnotherLink
| NoLockHeldByThisLink | IoTimeout | IoError | InvalidAddress | Abort | ChannelAlreadyEstablished.

Definition error_as_u32 (e : ErrorCode) : Z :=
  match e with
  | NoError => 0
  | SyntaxError => 1
  | DeviceNotAccessible => 3
  | InvalidLinkIdentifier => 4
  | ParameterError => 5
  | ChannelNotEstablished => 6
  | OperationNotSupported => 8
  | OutOfResources => 9
  | DeviceLockedByAnotherLink => 11
  | NoLockHeldByThisLink => 12
  | IoTimeout => 15
  | IoError => 17
  | InvalidAddress => 21
  | Abort => 23
  | ChannelAlreadyEstablished => 29
  end.

#[export] Instance ErrorCode_eq_dec : EqDecision ErrorCode.
Proof. solve_decision. Defined.

Definition OP_FLAG_WAITLOCK : Z := 1.
Definition OP_FLAG_END : Z := 8.
Definition OP_FLAG_TERMCHRSET : Z := 128.
Definition RX_REQCNT : Z := 1.
Definition RX_CHR : Z := 2.
Definition RX_END : Z := 4.
Definition DEVICE_TCP : Z := 0.
Definition DEVICE_UDP : Z := 1.
Definition STB_RQS : Z := 0x40.
Definition GPIB_DCL : Z := 0x14.
Definition GPIB_GET : Z := 0x08.

(** ** Server state *)

Record Config : Type := mkConfig {
  max_recv_size : Z;
  max_links : Z;
  default_io_timeout_ms : Z;
  default_pad : Z;
}.

Definition default_config : Config := mkConfig 65536 64 3000 0.

Inductive DeviceAddr : Type := Pad (pad : Z) | Interface.

#[export] Instance DeviceAddr_eq_dec : EqDecision DeviceAddr.
Proof. solve_decision. Defined.

Definition parse_device_name (name : list Z) (default_pad : Z) : result DeviceAddr ErrorCode :=
  let name := to_ascii_lowercase (trim name) in
  if bool_decide (name = str "inst0") then Ok (Pad default_pad)
  else if bool_decide (name = str "gpib0") then Ok Interface
  else
    match strip_prefix (str "gpib") name with
    | None => Err SyntaxError
    | Some rest =>
        let parts := split 44 rest in
        match parse_u8 (default [] (head parts)) with
        | None => Err SyntaxError
        | Some interface =>
            if negb (interface =? 0) then Err DeviceNotAccessible
            else
              match tail parts with
              | [] => Err SyntaxError
              | pad_str :: more =>
                  match parse_u8 pad_str with
                  | None => Err SyntaxError
                  | Some pad =>
                      if 30 <? pad then Err InvalidAddress
                      else match more with
                           | _ :: _ => Err InvalidAddress
                           | [] => Ok (Pad pad)
                           end
                  end
              end
        end
    end.

(** [permit] is the one [abort_notify] can hold. *)
Record Link : Type := mkLink {
  lid : Z;
  kind : DeviceAddr;
  instrument : Z;                       (* its primary address *)
  in_flight : bool;
  aborted : bool;
  permit : bool;
  srq_handle : option (list byte);
  consumed_stb : option Z;
}.

#[export] Instance Link_eq_dec : EqDecision Link.
Proof. solve_decision. Defined.

Definition holder (l : Link) : Z := Lock.vxi11_id (lid l).
Definition resource (l : Link) : list Z :=
  match kind l with
  | Interface => str "gpib0:intf"
  | Pad _ => resource_key (instrument l)
  end.
Definition is_interface (l : Link) : bool :=
  match kind l with Interface => true | Pad _ => false end.

Record Shared : Type := mkShared {
  config : Config;
  links : gmap Z nat;                   (* link id -> cell *)
  cells : gmap nat Link;
  next_cell : nat;
  next_lid : Z;
  abort_port : Z;
  locks : Lock.LockRegistry;
}.

Definition set_links (s : Shared) ls := mkShared (config s) ls (cells s) (next_cell s) (next_lid s) (abort_port s) (locks s).
Definition set_locks (s : Shared) r := mkShared (config s) (links s) (cells s) (next_cell s) (next_lid s) (abort_port s) r.
Definition set_cells (s : Shared) cs := mkShared (config s) (links s) cs (next_cell s) (next_lid s) (abort_port s) (locks s).

Definition set_flags (inf ab pm : bool) (l : Link) : Link :=
  mkLink (lid l) (kind l) (instrument l) inf ab pm (srq_handle l) (consumed_stb l).
Definition set_srq_handle (h : option (list byte)) (l : Link) : Link :=
  mkLink (lid l) (kind l) (instrument l) (in_flight l) (aborted l) (permit l) h (consumed_stb l).
Definition set_consumed_stb (o : option Z) (l : Link) : Link :=
  mkLink (lid l) (kind l) (instrument l) (in_flight l) (aborted l) (permit l) (srq_handle l) o.

(** Write a field of the cell [a]. *)
Definition update (s : Shared) (a : nat) (f : Link -> Link) : Shared :=
  set_cells s (alter f a (cells s)).
#[global] Arguments update : simpl never.

Definition link_for (s : Shared) (id : Z) : option (nat * Link) :=
  a ← links s !! id; l ← cells s !! a; Some (a, l).

(** ** The abort window *)

(** Everything another task does to the server between two points of a
    handler. *)
Definition step : Type := Shared -> Shared.

Definition window_open (s : Shared) (a : nat) : Shared :=
  update s a (fun l => set_flags true (aborted l) (permit l) l).

(** What the other tasks did during the last await. *)
Definition others (checks : list step) (s : Shared) : Shared :=
  match checks with f :: _ => f s | [] => s end.

(** [OpWindow::take_abort], after whatever the other tasks did first. *)
Definition take_abort (checks : list step) (s : Shared) (a : nat) : bool * list step * Shared :=
  let s := others checks s in
  (match cells s !! a with Some l => aborted l | None => false end,
   tail checks,
   update s a (fun l => set_flags (in_flight l) false (permit l) l)).

Definition window_drop (s : Shared) (a : nat) : Shared :=
  update s a (fun l => set_flags false false (permit l) l).

(** What the abort channel does to a link it found. *)
Definition deliver_abort (s : Shared) (a : nat) : Shared :=
  match cells s !! a with
  | Some l => if in_flight l then update s a (fun l => set_flags (in_flight l) true true l) else s
  | None => s
  end.

(** ** The bus *)

Definition ms (t : Z) : Z := t * 1000000.
Definition WRITE_CHUNK : Z := 4096.

Definition effective_timeout (c : Config) (io_timeout_ms : Z) : Z :=
  if io_timeout_ms =? 0 then default_io_timeout_ms c else io_timeout_ms.

Definition STEPS : list Z := [300000; 100000; 30000; 10000; 3000; 1000; 300; 100; 30; 10; 3; 1].

Fixpoint first_step (steps : list Z) (remaining_ms : Z) : Z :=
  match steps with
  | [] => 1
  | step :: steps => if step <=? remaining_ms then step else first_step steps remaining_ms
  end.

Definition adapter_floor_ms (remaining_ms : Z) : Z := first_step STEPS remaining_ms.

Record Env (B : Type) : Type := mkEnv {
  e_turns : list Lock.turn;             (* turns of a lock wait *)
  e_hold : B -> B;                      (* the bus, until [hold()] got it *)
  e_checks : list step;                 (* before each look at the abort flag *)
}.
Arguments mkEnv {B} e_turns e_hold e_checks.
Arguments e_turns {B} e.
Arguments e_hold {B} e.
Arguments e_checks {B} e.

(** Nobody else is there. *)
Definition quiet {B} : Env B := mkEnv [] id [].

Section Ops.
Context {B : Type} `{GpibBackend B}.
Variable env : Env B.

Definition acquire_access (s : Shared) (b : B) (l : Link) (flags lock_timeout_ms : Z)
    : option (result unit ErrorCode * Shared) :=
  if Lock.has_access (locks s) (resource l) (holder l) then Some (Ok tt, s)
  else if negb (has_flag flags OP_FLAG_WAITLOCK) then Some (Err DeviceLockedByAnotherLink, s)
  else
    '(granted, reg) ← Lock.wait_for_access_timeout (e_turns env) (now b + ms lock_timeout_ms)
                        (resource l) (holder l) (locks s);
    Some (if (granted : bool) then Ok tt else Err DeviceLockedByAnotherLink, set_locks s reg).

(** ** [device_write] *)

Definition says (what : string) (e : Error) : bool := contains (str what) (to_ascii_lowercase e).

Fixpoint write_loop (fuel : nat) (l : Link) (a : nat) (send_eoi : bool) (deadline : Z)
    (data : list byte) (checks : list step) (s : Shared) (b : B) (written : Z)
    : option (ErrorCode * Z * list step * Shared * B) :=
  match fuel with
  | O => None
  | S fuel =>
      let '(abort, checks, s) := take_abort checks s a in
      if (abort : bool) then Some (Abort, written, checks, s, b)
      else
        let remaining := Z.max 0 (deadline - now b) in
        if remaining =? 0 then Some (IoTimeout, written, checks, s, b)
        else
          let b := gb_set_timeout b (adapter_floor_ms (remaining / 1000000)) in
          let total := zlen data in
          let end_ := Z.min (written + WRITE_CHUNK) total in
          let chunk := ztake (end_ - written) (zdrop written data) in
          let last := end_ =? total in
          let '(sent, b) :=
            if is_interface l then gb_send_data_unaddressed b chunk (send_eoi && last)
            else if written =? 0 then held_write b (instrument l) chunk (send_eoi && last)
            else gb_send_data_unaddressed b chunk (send_eoi && last) in
          match sent with
          | Ok _ =>
              if last then Some (NoError, end_, checks, s, b)
              else write_loop fuel l a send_eoi deadline data checks s b end_
          | Err e => Some (if says "timeout" e then IoTimeout else IoError, written, checks, others checks s, b)
          end
  end.

Definition device_write (fuel : nat) (s : Shared) (b : B) (parms : DeviceWriteParms)
    : option (DeviceWriteResp * Shared * B) :=
  let cfg := config s in
  match link_for s (dwp_lid parms) with
  | None => Some (mkDeviceWriteResp (error_as_u32 InvalidLinkIdentifier) 0, s, b)
  | Some (a, l) =>
      '(access, s) ← acquire_access s b l (dwp_flags parms) (dwp_lock_timeout_ms parms);
      match access with
      | Err e => Some (mkDeviceWriteResp (error_as_u32 e) 0, s, b)
      | Ok _ =>
          let s := update s a (set_consumed_stb None) in
          let s := window_open s a in
          let send_eoi := has_flag (dwp_flags parms) OP_FLAG_END in
          let deadline := now b + ms (effective_timeout cfg (dwp_io_timeout_ms parms)) in
          let b := e_hold env b in
          '(outcome, written, checks, s, b) ←
            write_loop fuel l a send_eoi deadline (dwp_data parms) (e_checks env) s b 0;
          let b := gb_set_timeout b (default_io_timeout_ms cfg) in
          (* a transfer that ended well is followed by one more look *)
          let '(outcome, s) :=
            if bool_decide (outcome = NoError)
            then let '(abort, _, s) := take_abort checks s a in
                 ((if (abort : bool) then Abort else outcome), s)
            else (outcome, s) in
          Some (mkDeviceWriteResp (error_as_u32 outcome) (as_u32 written), window_drop s a, b)
      end
  end.

(** ** [device_read] *)

Inductive ReadEnd : Type :=
| Terminated (reason : Z)
| Deadline
| Aborted
| Bus (e : Error).

(** [u32::clamp(1, s)] panics when [s < 1]. *)
Definition slice_of (slice_ms : option Z) (remaining : Z) : option Z :=
  let r := as_u32 (remaining / 1000000) in
  match slice_ms with
  | Some s => if s <? 1 then None else Some (Z.max 1 (Z.min r s))
  | None => Some (Z.max r 1)
  end.

(** Sleep until [len] nanoseconds after [started]. *)
Definition pace (b : B) (started len : Z) : B :=
  if now b - started <? len then sleep b (len - (now b - started)) else b.

Definition read_reason (termchr : option Z) (request_size : Z) (data : list byte) (end_ : bool) : Z :=
  let reason := 0 in
  let reason := if end_ then Z.lor reason RX_END else reason in
  let reason :=
    match termchr with
    | Some ch => if bool_decide (last data = Some (b8 ch)) then Z.lor reason RX_CHR else reason
    | None => reason
    end in
  if zlen data =? request_size then Z.lor reason RX_REQCNT else reason.

(** The subtraction wraps, as it does in a release build. *)
Definition read_attempt (l : Link) (b : B) (clamped : Z) (data : list byte)
    : result (list byte * bool) Error * B :=
  let n := (clamped - zlen data) mod 18446744073709551616 in
  if is_interface l then held_read_unaddressed b n else held_read b (instrument l) n.

Fixpoint read_loop (fuel : nat) (l : Link) (a : nat) (termchr : option Z) (request_size : Z)
    (deadline : Z) (slice_ms : option Z) (checks : list step) (s : Shared) (b : B)
    (data : list byte) : option (ReadEnd * list byte * Shared * B) :=
  match fuel with
  | O => None
  | S fuel =>
      let clamped := Z.min request_size MAX_READ in
      let '(abort, checks, s) := take_abort checks s a in
      if (abort : bool) then Some (Aborted, data, s, b)
      else
        let remaining := Z.max 0 (deadline - now b) in
        if remaining =? 0 then Some (Deadline, data, s, b)
        else
          slice ← slice_of slice_ms remaining;
          let b := gb_set_timeout b slice in
          let started := now b in
          let '(attempt, b) := read_attempt l b clamped data in
          match attempt with
          | Ok (chunk, end_) =>
              let b := match chunk with [] => pace b started (ms slice) | _ => b end in
              let data := data ++ chunk in
              let reason := read_reason termchr request_size data end_ in
              if negb (reason =? 0) || (zlen data =? clamped)
              then Some (Terminated reason, data, others checks s, b)
              else read_loop fuel l a termchr request_size deadline slice_ms checks s b data
          | Err e =>
              if says "timed out" e || says "timeout" e
              then read_loop fuel l a termchr request_size deadline slice_ms checks s
                     (pace b started (ms 50)) data
              else Some (Bus e, data, others checks s, b)
          end
  end.

Definition read_resp (outcome : ReadEnd) (data : list byte) : DeviceReadResp :=
  match outcome with
  | Terminated reason => mkDeviceReadResp (error_as_u32 NoError) reason data
  | Deadline => mkDeviceReadResp (error_as_u32 IoTimeout) 0 data
  | Aborted => mkDeviceReadResp (error_as_u32 Abort) 0 data
  | Bus _ => mkDeviceReadResp (error_as_u32 IoError) 0 []
  end.

Definition termchr_of (parms : DeviceReadParms) : option Z :=
  if has_flag (drp_flags parms) OP_FLAG_TERMCHRSET then Some (as_u8 (drp_term_char parms)) else None.

Definition device_read (fuel : nat) (s : Shared) (b : B) (parms : DeviceReadParms)
    : option (DeviceReadResp * Shared * B) :=
  let cfg := config s in
  match link_for s (drp_lid parms) with
  | None => Some (mkDeviceReadResp (error_as_u32 InvalidLinkIdentifier) 0 [], s, b)
  | Some (a, l) =>
      if drp_request_size parms =? 0
      then Some (mkDeviceReadResp (error_as_u32 NoError) RX_REQCNT [], s, b)
      else
        '(access, s) ← acquire_access s b l (drp_flags parms) (drp_lock_timeout_ms parms);
        match access with
        | Err e => Some (mkDeviceReadResp (error_as_u32 e) 0 [], s, b)
        | Ok _ =>
            let termchr := termchr_of parms in
            let s := window_open s a in
            let b := e_hold env b in
            let saved_eos := gb_eos b in
            let b := match termchr with
                     | Some ch => gb_set_eos b ch true
                     | None => gb_set_eos b saved_eos.1 false
                     end in
            let deadline := now b + ms (effective_timeout cfg (drp_io_timeout_ms parms)) in
            '(outcome, data, s, b) ←
              read_loop fuel l a termchr (drp_request_size parms) deadline (gb_read_slice_ms b)
                (e_checks env) s b [];
            let b := gb_set_eos b saved_eos.1 saved_eos.2 in
            let b := gb_set_timeout b (default_io_timeout_ms cfg) in
            Some (read_resp outcome data, window_drop s a, b)
        end
  end.

(** ** Status, trigger, clear, remote, local *)

Definition device_readstb (s : Shared) (b : B) (parms : DeviceGenericParms)
    : option (DeviceReadStbResp * Shared * B) :=
  let cfg := config s in
  match link_for s (dgp_lid parms) with
  | None => Some (mkDeviceReadStbResp (error_as_u32 InvalidLinkIdentifier) 0, s, b)
  | Some (a, l) =>
      if is_interface l
      then Some (mkDeviceReadStbResp (error_as_u32 OperationNotSupported) 0, s, b)
      else
        '(access, s) ← acquire_access s b l (dgp_flags parms) (dgp_lock_timeout_ms parms);
        match access with
        | Err e => Some (mkDeviceReadStbResp (error_as_u32 e) 0, s, b)
        | Ok _ =>
            match (l ← cells s !! a; consumed_stb l) with
            | Some stb =>
                Some (mkDeviceReadStbResp (error_as_u32 NoError) stb,
                      update s a (set_consumed_stb None), b)
            | None =>
                let s := window_open s a in
                let b := e_hold env b in
                let b := gb_set_timeout b (effective_timeout cfg (dgp_io_timeout_ms parms)) in
                let '(polled, b) := gb_serial_poll b (instrument l) in
                let b := gb_set_timeout b (default_io_timeout_ms cfg) in
                let '(abort, _, s) := take_abort (e_checks env) s a in
                let s := window_drop s a in
                if (abort : bool) then Some (mkDeviceReadStbResp (error_as_u32 Abort) 0, s, b)
                else
                  match polled with
                  | Ok stb => Some (mkDeviceReadStbResp (error_as_u32 NoError) stb, s, b)
                  | Err _ => Some (mkDeviceReadStbResp (error_as_u32 IoError) 0, s, b)
                  end
            end
        end
  end.

(** [None] also where the code is [unreachable!]. *)
Definition simple_bus (proc : Z) (l : Link) (b : B) : option (result (result unit Error) ErrorCode * B) :=
  let done p := Some (Ok p.1, p.2) in
  let held := e_hold env b in
  if is_interface l then
    if proc =? DEVICE_TRIGGER then done (gb_send_bus_command held [b8 GPIB_GET])
    else if proc =? DEVICE_CLEAR then done (gb_send_bus_command held [b8 GPIB_DCL])
    else if (proc =? DEVICE_REMOTE) || (proc =? DEVICE_LOCAL) then Some (Err OperationNotSupported, b)
    else None
  else
    if proc =? DEVICE_TRIGGER then done (gb_trigger held (instrument l))
    else if proc =? DEVICE_CLEAR then done (gb_device_clear held (instrument l))
    else if proc =? DEVICE_REMOTE then done (gb_go_to_remote held (instrument l))
    else if proc =? DEVICE_LOCAL then done (gb_go_to_local held (instrument l))
    else None.

Definition device_simple (s : Shared) (b : B) (proc : Z) (parms : DeviceGenericParms)
    : option (Z * Shared * B) :=
  match link_for s (dgp_lid parms) with
  | None => Some (error_as_u32 InvalidLinkIdentifier, s, b)
  | Some (a, l) =>
      '(access, s) ← acquire_access s b l (dgp_flags parms) (dgp_lock_timeout_ms parms);
      match access with
      | Err e => Some (error_as_u32 e, s, b)
      | Ok _ =>
          let s := window_open s a in
          '(outcome, b) ← simple_bus proc l b;
          match outcome with
          | Err e => Some (error_as_u32 e, window_drop s a, b)
          | Ok outcome =>
              let '(abort, _, s) := take_abort (e_checks env) s a in
              let s := window_drop s a in
              Some (if (abort : bool) then error_as_u32 Abort
                    else match outcome with
                         | Ok _ => error_as_u32 NoError
                         | Err _ => error_as_u32 IoError
                         end, s, b)
          end
      end
  end.

(** ** [device_docmd] *)

Fixpoint uint_of (value : Z) (bytes : list byte) : Z :=
  match bytes with
  | [] => value
  | b :: bytes => uint_of (Z.lor (as_u32 (Z.shiftl value 8)) (u8 b)) bytes
  end.

Definition uint_in (parms : DeviceDocmdParms) : Z :=
  uint_of 0 (if ddp_network_order parms then ddp_data_in parms else rev (ddp_data_in parms)).

Definition uint_out (value : Z) (datasize : nat) (network_order : bool) : list byte :=
  let out := map (fun i => b8 (Z.shiftr value (8 * (Z.of_nat datasize - 1 - Z.of_nat i)))) (seq 0 datasize) in
  if network_order then out else rev out.

Definition sizes_ok (parms : DeviceDocmdParms) (lo hi datasize : Z) : bool :=
  (lo <=? zlen (ddp_data_in parms)) && (zlen (ddp_data_in parms) <=? hi) &&
  (ddp_datasize parms =? datasize).

Definition bus_status (l : Link) (b : B) (selector : Z) : result Z ErrorCode * B :=
  let live (x : bool) := if x then 1 else 0 in
  if (1 <=? selector) && (selector <=? 3) then
    let '(r, b) := gb_bus_lines (e_hold env b) in
    (match r with
     | Ok lines =>
         Ok (if selector =? 1 then live (ren lines)
             else if selector =? 2 then live (srq lines) else live (ndac lines))
     | Err _ => Err OperationNotSupported
     end, b)
  else if (selector =? 4) || (selector =? 5) then (Ok 1, b)
  else if (selector =? 6) || (selector =? 7) then (Ok 0, b)
  else if selector =? 8 then let b := e_hold env b in (Ok (gb_controller_pad b), b)
  else (Err ParameterError, b).

(** The match on [cmd]: [inl] is an early return, [inr] the [result] that
    passes the abort check after it. *)
Definition docmd_command (l : Link) (b : B) (parms : DeviceDocmdParms)
    : (DeviceDocmdResp + DeviceDocmdResp) * B :=
  let fail e := mkDeviceDocmdResp (error_as_u32 e) [] in
  let ok d := mkDeviceDocmdResp (error_as_u32 NoError) d in
  let reply (p : result unit Error * B) good err :=
    (inr (match p.1 with Ok _ => good | Err _ => fail err end), p.2) in
  let echo := ok (ddp_data_in parms) in
  let cmd := ddp_cmd parms in
  if cmd =? 0x020000 then
    if negb (sizes_ok parms 0 128 1) then (inl (fail ParameterError), b)
    else reply (gb_send_bus_command (e_hold env b) (ddp_data_in parms)) echo IoError
  else if cmd =? 0x020001 then
    if negb (sizes_ok parms 2 2 2) then (inl (fail ParameterError), b)
    else
      match bus_status l b (uint_in parms) with
      | (Ok v, b) => (inr (ok (uint_out v 2 (ddp_network_order parms))), b)
      | (Err code, b) => (inl (fail code), b)
      end
  else if cmd =? 0x020002 then
    if negb (sizes_ok parms 2 2 2) then (inl (fail ParameterError), b)
    else reply (gb_set_atn (e_hold env b) (negb (uint_in parms =? 0))) echo OperationNotSupported
  else if cmd =? 0x020003 then
    if negb (sizes_ok parms 2 2 2) then (inl (fail ParameterError), b)
    else reply (gb_ren (e_hold env b) (negb (uint_in parms =? 0))) echo IoError
  else if cmd =? 0x020004 then
    if negb (sizes_ok parms 4 4 4) then (inl (fail ParameterError), b)
    else (inr (fail OperationNotSupported), b)
  else if cmd =? 0x02000A then
    if negb (sizes_ok parms 4 4 4) then (inl (fail ParameterError), b)
    else
      let pad := uint_in parms in
      if 30 <? pad then (inl (fail ParameterError), b)
      else reply (gb_set_controller_pad (e_hold env b) (as_u8 pad)) echo IoError
  else if cmd =? 0x020010 then
    if negb (bool_decide (ddp_data_in parms = [])) then (inl (fail ParameterError), b)
    else reply (gb_ifc (e_hold env b)) (ok []) IoError
  else (inr (fail OperationNotSupported), b).

Definition device_docmd (s : Shared) (b : B) (parms : DeviceDocmdParms)
    : option (DeviceDocmdResp * Shared * B) :=
  let fail e := mkDeviceDocmdResp (error_as_u32 e) [] in
  match link_for s (ddp_lid parms) with
  | None => Some (fail InvalidLinkIdentifier, s, b)
  | Some (a, l) =>
      if negb (is_interface l) then Some (fail OperationNotSupported, s, b)
      else
        '(access, s) ← acquire_access s b l (ddp_flags parms) (ddp_lock_timeout_ms parms);
        match access with
        | Err e => Some (fail e, s, b)
        | Ok _ =>
            let s := window_open s a in
            match docmd_command l b parms with
            | (inl early, b) => Some (early, window_drop s a, b)
            | (inr result, b) =>
                let '(abort, _, s) := take_abort (e_checks env) s a in
                Some (if (abort : bool) then fail Abort else result, window_drop s a, b)
            end
        end
  end.

(** ** Locks *)

(** One wake-up of [device_lock]'s [select!]: the pending request is polled
    again, or the abort notification is. *)
Inductive Wake : Type :=
| Poll (t : Lock.turn)
| Notified (f : step).

Fixpoint lock_wait (wakes : list Wake) (deadline : Z) (l : Link) (a : nat) (s : Shared)
    : option (ErrorCode * Shared) :=
  match wakes with
  | [] => None
  | Poll (f, now) :: wakes =>
      match Lock.try_request (f (locks s)) (resource l) (holder l) [] with
      | (Some granted, reg) =>
          Some (if Lock.is_success granted then NoError else DeviceLockedByAnotherLink, set_locks s reg)
      | (None, reg) =>
          if deadline <=? now then Some (DeviceLockedByAnotherLink, set_locks s reg)
          else lock_wait wakes deadline l a (set_locks s reg)
      end
  | Notified f :: wakes =>
      let s := f s in
      match cells s !! a with
      | Some c =>
          if permit c then
            let s := update s a (fun c => set_flags (in_flight c) (aborted c) false c) in
            let '(abort, _, s) := take_abort [] s a in
            if (abort : bool) then Some (Abort, s) else lock_wait wakes deadline l a s
          else lock_wait wakes deadline l a s
      | None => lock_wait wakes deadline l a s
      end
  end.

Definition device_lock (wakes : list Wake) (s : Shared) (b : B) (parms : DeviceLockParms)
    : option (ErrorCode * Shared) :=
  match link_for s (dlp_lid parms) with
  | None => Some (InvalidLinkIdentifier, s)
  | Some (a, l) =>
      if Lock.holds (locks s) (resource l) (holder l) then Some (DeviceLockedByAnotherLink, s)
      else
        let timeout := if has_flag (dlp_flags parms) OP_FLAG_WAITLOCK
                       then ms (dlp_lock_timeout_ms parms) else 0 in
        let s := window_open s a in
        '(code, s) ← lock_wait wakes (now b + timeout) l a s;
        Some (code, window_drop s a)
  end.

Definition device_unlock (s : Shared) (id : Z) : ErrorCode * Shared :=
  match link_for s id with
  | None => (InvalidLinkIdentifier, s)
  | Some (_, l) =>
      if Lock.holds (locks s) (resource l) (holder l)
      then (NoError, set_locks s (Lock.release (locks s) (resource l) (holder l)).2)
      else (NoLockHeldByThisLink, s)
  end.

End Ops.

(** ** Lemmas: the read loop *)

Section ReadLoop.
Context {B : Type} `{BackendLaws B}.

Lemma pace_now (b : B) started len :
  now b <= now (pace b started len) /\ started + len <= now (pace b started len).
Proof.
  unfold pace. destruct (Z.ltb_spec (now b - started) len) as [Hl|]; [|lia].
  assert (Hs : 0 <= len - (now b - started)) by lia.
  pose proof (sleep_now b _ Hs). lia.
Qed.

Lemma pace_eos (b : B) started len : gb_eos (pace b started len) = gb_eos b.
Proof. unfold pace. destruct (_ <? _); [apply sleep_eos|done]. Qed.

Lemma slice_of_pos sm rem : (forall s, sm = Some s -> 1 <= s) ->
  exists sl, slice_of sm rem = Some sl /\ 1 <= sl.
Proof.
  intros Hs. unfold slice_of. destruct sm as [s|]; [|eexists; split; [done|lia]].
  specialize (Hs s eq_refl). destruct (Z.ltb_spec s 1); [lia|]. eexists; split; [done|lia].
Qed.

Lemma read_attempt_facts l (b : B) clamped data r b' :
  zlen data < clamped -> clamped <= MAX_READ -> read_attempt l b clamped data = (r, b') ->
  gb_eos b' = gb_eos b /\ now b <= now b' /\
  forall chunk e, r = Ok (chunk, e) -> zlen data + zlen chunk <= clamped.
Proof.
  unfold read_attempt, MAX_READ. intros Hd Hc.
  pose proof (zlen_nonneg data) as Hz. rewrite Z.mod_small by lia.
  unfold held_read, held_read_unaddressed, MAX_READ. rewrite Z.min_l by lia.
  destruct (is_interface l).
  - pose proof (read_unaddressed_eos b (clamped - zlen data)) as He.
    pose proof (read_unaddressed_now b (clamped - zlen data)) as Hn.
    intros E; rewrite E in He, Hn. split_and!; [done..|].
    intros chunk e ->. apply read_unaddressed_bound in E; lia.
  - pose proof (read_eos b (instrument l) (clamped - zlen data)) as He.
    pose proof (read_now b (instrument l) (clamped - zlen data)) as Hn.
    intros E; rewrite E in He, Hn. split_and!; [done..|].
    intros chunk e ->. apply read_bound in E; lia.
Qed.

(** How a finished read relates to its data. *)
Definition read_end_ok (termchr : option Z) (request_size : Z) (o : ReadEnd) (data : list byte) : Prop :=
  match o with
  | Terminated reason =>
      (exists e, reason = read_reason termchr request_size data e) /\
      (reason <> 0 \/ zlen data = Z.min request_size MAX_READ)
  | _ => True
  end.

(** Milliseconds of budget left, rounded up. *)
Definition ms_left (deadline t : Z) : Z := (Z.max 0 (deadline - t) + 999999) / 1000000.

Lemma ms_left_mono d t t' : t <= t' -> ms_left d t' <= ms_left d t.
Proof. intros. unfold ms_left. apply Z.div_le_mono; lia. Qed.

Lemma ms_left_step d t t' : t < d -> t + 1000000 <= t' -> ms_left d t' < ms_left d t.
Proof.
  intros. unfold ms_left. destruct (Z.le_gt_cases d t').
  - rewrite Z.max_l by lia. change ((0 + 999999) / 1000000) with 0.
    apply Z.div_str_pos. lia.
  - assert ((Z.max 0 (d - t') + 999999) / 1000000 + 1 <= (Z.max 0 (d - t) + 999999) / 1000000); [|lia].
    rewrite <- Z.div_add by lia. apply Z.div_le_mono; lia.
Qed.

Lemma ms_left_nonneg d t : 0 <= ms_left d t.
Proof. unfold ms_left. apply Z.div_pos; lia. Qed.

(** The loop ends: a byte arrives, or a millisecond passes. *)
Lemma ms_left_budget t T : ms_left (t + ms T) t = Z.max 0 T.
Proof.
  unfold ms_left, ms. replace (t + T * 1000000 - t) with (T * 1000000) by lia.
  replace (Z.max 0 (T * 1000000) + 999999) with (999999 + Z.max 0 T * 1000000) by lia.
  by rewrite Z.div_add by lia.
Qed.

Lemma read_loop_total fuel : forall l a termchr rs deadline sm checks s (b : B) data,
  (forall x, sm = Some x -> 1 <= x) -> zlen data < Z.min rs MAX_READ ->
  Z.min rs MAX_READ - zlen data + ms_left deadline (now b) < Z.of_nat fuel ->
  exists o data' s' b',
    read_loop fuel l a termchr rs deadline sm checks s b data = Some (o, data', s', b') /\
    gb_eos b' = gb_eos b /\ zlen data' <= Z.min rs MAX_READ /\ read_end_ok termchr rs o data'.
Proof.
  induction fuel as [|fuel IH]; intros l a termchr rs deadline sm checks s b data Hsm Hd Hf;
    [pose proof (ms_left_nonneg deadline (now b)); lia|].
  cbn [read_loop]. destruct (take_abort checks s a) as [[abort checks'] s'].
  destruct abort; [eexists _, _, _, _; split_and!; [done..|lia|done]|].
  destruct (Z.eqb_spec (Z.max 0 (deadline - now b)) 0) as [|Hrem];
    [eexists _, _, _, _; split_and!; [done..|lia|done]|].
  destruct (slice_of_pos sm (Z.max 0 (deadline - now b)) Hsm) as (sl & -> & Hsl). cbn [mbind option_bind].
  pose proof (set_timeout_now b sl) as Hn0. pose proof (set_timeout_eos b sl) as He0.
  set (b0 := gb_set_timeout b sl) in *.
  destruct (read_attempt l b0 (Z.min rs MAX_READ) data) as [r b1] eqn:Er.
  apply read_attempt_facts in Er as (He1 & Hn1 & Hb1); [|done|lia].
  destruct r as [[chunk e]|e].
  - specialize (Hb1 chunk e eq_refl).
    set (b2 := match chunk with [] => _ | _ => _ end).
    assert (He2 : gb_eos b2 = gb_eos b).
    { subst b2. destruct chunk; [rewrite pace_eos|]; congruence. }
    assert (Hn2 : now b <= now b2 /\ (chunk = [] -> now b + 1000000 <= now b2)).
    { subst b2. destruct chunk; [|split; [lia|done]].
      pose proof (pace_now b1 (now b0) (ms sl)). unfold ms in *. lia. }
    destruct (negb _ || _) eqn:Et.
    + eexists _, _, _, _. split_and!; [done|done|rewrite zlen_app; lia|].
      split; [by eexists|]. apply orb_true_iff in Et as [Et|Et].
      * left. by apply negb_true_iff, Z.eqb_neq in Et.
      * right. by apply Z.eqb_eq in Et.
    + apply orb_false_iff in Et as [_ Et%Z.eqb_neq]. rewrite zlen_app in Et.
      destruct (IH l a termchr rs deadline sm checks' s' b2 (data ++ chunk))
        as (o & d' & s1 & b' & E & He & Hl & Ho); [done|rewrite zlen_app; lia| |].
      { rewrite zlen_app. destruct chunk as [|c chunk].
        - assert (ms_left deadline (now b2) < ms_left deadline (now b)).
          { apply ms_left_step; [lia|by apply Hn2]. }
          rewrite zlen_nil. lia.
        - assert (ms_left deadline (now b2) <= ms_left deadline (now b)) by (apply ms_left_mono; lia).
          rewrite zlen_cons. pose proof (zlen_nonneg chunk). lia. }
      eexists _, _, _, _. split_and!; [done|congruence|done..].
  - destruct (says _ _ || says _ _).
    + destruct (pace_now b1 (now b0) (ms 50)) as [Hp1 Hp2].
      destruct (IH l a termchr rs deadline sm checks' s' (pace b1 (now b0) (ms 50)) data)
        as (o & d' & s1 & b' & E & He & Hl & Ho); [done..| |].
      { assert (ms_left deadline (now (pace b1 (now b0) (ms 50))) < ms_left deadline (now b)).
        { apply ms_left_step; [lia|]. unfold ms in *. lia. }
        lia. }
      eexists _, _, _, _. split_and!; [done| |done..]. rewrite He, pace_eos. congruence.
    + eexists _, _, _, _. split_and!; [done|congruence|lia|done].
Qed.

End ReadLoop.

Definition ends_in (data : list byte) (ch : Z) : bool := bool_decide (last data = Some (b8 ch)).

Lemma read_reason_bits termchr rs data e :
  has_flag (read_reason termchr rs data e) RX_END = e /\
  has_flag (read_reason termchr rs data e) RX_CHR =
    match termchr with Some ch => ends_in data ch | None => false end /\
  has_flag (read_reason termchr rs data e) RX_REQCNT = (zlen data =? rs).
Proof.
  unfold read_reason, ends_in. destruct e, (zlen data =? rs), termchr as [ch|];
    try case_bool_decide; done.
Qed.

Lemma read_reason_end termchr rs data e : read_reason termchr rs data e = 0 -> e = false.
Proof. intros E. destruct (read_reason_bits termchr rs data e) as [<- _]. by rewrite E. Qed.

(** What a log of bus calls received, and whether any of it carried END. *)
Definition received (cs : list Call) : list byte :=
  concat (omap (fun c => match c with CGot d _ => Some d | _ => None end) cs).
Definition no_end (cs : list Call) : Prop :=
  Forall (fun c => match c with CGot _ e => e = false | _ => True end) cs.
(** The calls are reads of the link's own instrument, or of whoever talks on the
    interface link, each asking for what is still missing of [n] bytes. *)
Fixpoint asks (l : Link) (n : Z) (cs : list Call) : Prop :=
  match cs with
  | [] => True
  | CGot d _ :: cs => asks l (n - zlen d) cs
  | CRead pad max_len :: cs => is_interface l = false /\ pad = instrument l /\ max_len = n /\ asks l n cs
  | CReadUnaddressed max_len :: cs => is_interface l = true /\ max_len = n /\ asks l n cs
  | _ => False
  end.
(** The transactions among the calls. *)
Definition attempts (cs : list Call) : nat :=
  length (List.filter (fun c => match c with CGot _ _ => false | _ => true end) cs).

(** What the [k]th look at the abort flag finds, from 0. *)
Fixpoint look (k : nat) (checks : list step) (s : Shared) (a : nat) : bool :=
  let '(abort, checks, s) := take_abort checks s a in
  match k with O => abort | S k => look k checks s a end.

Lemma received_app cs cs' : received (cs ++ cs') = received cs ++ received cs'.
Proof. unfold received. by rewrite omap_app, concat_app. Qed.

Section ReadLog.
Context {B : Type} `{BackendLaws B}.

Lemma pace_calls (b : Logged B) t n : calls (pace b t n) = calls b.
Proof. unfold pace. by destruct (_ <? _). Qed.

Lemma read_attempt_log l (b : Logged B) clamped data r b' : zlen data < clamped -> clamped <= MAX_READ ->
  read_attempt l b clamped data = (r, b') ->
  exists c, calls b' = calls b ++ c :: match r with Ok (d, e) => [CGot d e] | Err _ => [] end /\
    received [c] = [] /\ no_end [c] /\ attempts [c] = 1%nat /\
    forall cs, asks l (clamped - zlen data) (c :: cs) <-> asks l (clamped - zlen data) cs.
Proof.
  unfold read_attempt, MAX_READ. intros Hd Hc. pose proof (zlen_nonneg data). rewrite Z.mod_small by lia.
  unfold held_read, held_read_unaddressed, MAX_READ. rewrite Z.min_l by lia.
  destruct (is_interface l) eqn:Ei; intros [= <- <-]; eexists; (split; [done|]); split_and!; try done;
    try (by repeat constructor); intros cs; cbn [asks]; rewrite Ei; tauto.
Qed.

Lemma attempts_app cs cs' : attempts (cs ++ cs') = (attempts cs + attempts cs')%nat.
Proof. unfold attempts. by rewrite List.filter_app, length_app. Qed.

(** How a finished read relates to its calls, to the looks at the abort flag and
    to the clock. *)
Definition read_ended (l : Link) (termchr : option Z) (rs deadline : Z) (checks : list step) (s : Shared) (a : nat)
    (cs : list Call) (data : list byte) (b' : Logged B) (o : ReadEnd) : Prop :=
  (forall j, (j < attempts cs)%nat -> look j checks s a = false) /\
  match o with
  | Terminated r => exists cs0 d e, cs = cs0 ++ [CGot d e] /\ no_end cs0 /\
      r = read_reason termchr rs data e /\ (r <> 0 \/ zlen data = Z.min rs MAX_READ)
  | Deadline => no_end cs /\ look (attempts cs) checks s a = false /\ deadline <= now b'
  | Aborted => no_end cs /\ look (attempts cs) checks s a = true
  | Bus e => no_end cs /\ says "timed out" e || says "timeout" e = false /\
      exists b1, read_attempt l b1 (Z.min rs MAX_READ) data = (Err e, b')
  end.

(** One more transaction in front: [pre] is the call and what it delivered. *)
Lemma read_ended_cons l termchr rs deadline checks s a ck s1 pre cs data b' o :
  take_abort checks s a = (false, ck, s1) -> attempts pre = 1%nat -> no_end pre ->
  read_ended l termchr rs deadline ck s1 a cs data b' o ->
  read_ended l termchr rs deadline checks s a (pre ++ cs) data b' o.
Proof.
  intros Et Hp Hn [Hj Ho]. unfold read_ended. rewrite attempts_app, Hp. cbn [Nat.add]. split.
  - intros [|j] Hlt; cbn [look]; rewrite Et; [done|]. apply Hj. lia.
  - cbn [look]. rewrite Et. destruct o as [r| | |e].
    + destruct Ho as (cs0 & d & e & -> & Hn0 & Hr). exists (pre ++ cs0), d, e. rewrite <- app_assoc.
      split_and!; [done|by apply Forall_app|apply Hr..].
    + destruct Ho as (Hn0 & Hrest). split; [by apply Forall_app|done].
    + destruct Ho as (Hn0 & Hrest). split; [by apply Forall_app|done].
    + destruct Ho as (Hn0 & Hrest). split; [by apply Forall_app|done].
Qed.

(** The bytes returned are the bytes received, in order, and only the last
    read can have ended a message. *)
Lemma read_loop_log fuel : forall l a termchr rs deadline sm checks s (b : Logged B) data o data' s' b',
  zlen data < Z.min rs MAX_READ ->
  read_loop fuel l a termchr rs deadline sm checks s b data = Some (o, data', s', b') ->
  exists cs, calls b' = calls b ++ cs /\ data' = data ++ received cs /\ asks l (Z.min rs MAX_READ - zlen data) cs /\
    read_ended l termchr rs deadline checks s a cs data' b' o.
Proof.
  induction fuel as [|fuel IH]; intros l a termchr rs deadline sm checks s b data o data' s' b' Hd; [done|].
  cbn [read_loop]. destruct (take_abort checks s a) as [[abort checks'] s1] eqn:Et.
  assert (E0 : look 0 checks s a = abort) by (cbn [look]; by rewrite Et).
  destruct abort.
  { intros [= <- <- <- <-]. exists []. rewrite !app_nil_r. split_and!; [done..|].
    split; [by intros j ?%Nat.nlt_0_r|]. split; [constructor|done]. }
  destruct (Z.eqb_spec (Z.max 0 (deadline - now b)) 0) as [Hz|].
  { intros [= <- <- <- <-]. exists []. rewrite !app_nil_r. split_and!; [done..|].
    split; [by intros j ?%Nat.nlt_0_r|]. split_and!; [constructor|done|lia]. }
  destruct (slice_of sm _) as [sl|]; [|done]. cbn [mbind option_bind].
  destruct (read_attempt l (gb_set_timeout b sl) _ data) as [r b1] eqn:Er. pose proof Er as Er'.
  apply read_attempt_log in Er as (c & Hc & Hrec & Hne & Hat & Hask); [|done|lia].
  change (calls (gb_set_timeout b sl)) with (calls b) in Hc. destruct r as [[chunk e]|e].
  - apply read_attempt_facts in Er' as (_ & _ & Hb); [|done|lia]. specialize (Hb chunk e eq_refl).
    set (b2 := match chunk with [] => _ | _ => _ end).
    assert (Hc2 : calls b2 = calls b ++ [c; CGot chunk e]).
    { subst b2. destruct chunk; [by rewrite pace_calls|done]. }
    assert (Hrec2 : received [c; CGot chunk e] = chunk).
    { change [c; CGot chunk e] with ([c] ++ [CGot chunk e]). rewrite received_app, Hrec. apply app_nil_r. }
    assert (Hat2 : attempts [c; CGot chunk e] = 1%nat).
    { change [c; CGot chunk e] with ([c] ++ [CGot chunk e]). by rewrite attempts_app, Hat. }
    destruct (negb _ || _) eqn:Ex.
    + intros [= <- <- <- <-]. exists [c; CGot chunk e]. rewrite Hrec2.
      split_and!; [done..|by apply Hask|]. split.
      { rewrite Hat2. intros [|j] Hj; [done|lia]. }
      exists [c], chunk, e. split_and!; [done..|].
      apply orb_true_iff in Ex as [Ex%negb_true_iff%Z.eqb_neq|Ex%Z.eqb_eq]; [by left|by right].
    + apply orb_false_iff in Ex as [Ex%negb_false_iff%Z.eqb_eq%read_reason_end Hlt%Z.eqb_neq]. subst e.
      rewrite zlen_app in Hlt. intros (cs & E1 & E2 & E3 & E4)%IH; [|rewrite zlen_app; lia].
      exists ([c; CGot chunk false] ++ cs). rewrite received_app, Hrec2. split_and!.
      * by rewrite E1, Hc2, <- app_assoc.
      * by rewrite E2, <- app_assoc.
      * cbn [app]. apply Hask. cbn [asks]. rewrite zlen_app in E3. by rewrite <- Z.sub_add_distr.
      * eapply read_ended_cons; [done|done| |done]. constructor; [by inversion Hne|by repeat constructor].
  - destruct (says "timed out" e || says "timeout" e) eqn:Es.
    + intros (cs & E1 & E2 & E3 & E4)%IH; [|done]. rewrite pace_calls in E1. exists ([c] ++ cs).
      rewrite received_app, Hrec. split_and!.
      * by rewrite E1, Hc, <- app_assoc.
      * done.
      * by apply Hask.
      * by eapply read_ended_cons.
    + intros [= <- <- <- <-]. exists [c]. rewrite Hrec, app_nil_r.
      split_and!; [done..|by apply Hask|]. split.
      { rewrite Hat. intros [|j] Hj; [done|lia]. }
      split_and!; [done|done|by eexists].
Qed.

End ReadLog.

(** ** Lemmas: the write loop *)

(** The calls that carry a message: chunks of 4096 bytes, the first one
    addressed on a device link, END with the last byte of the last. *)
Definition write_call (l : Link) (first : bool) (d : list byte) (send_eoi : bool) : Call :=
  if is_interface l then CSend d send_eoi
  else if first then CWrite (instrument l) d send_eoi else CSend d send_eoi.

Fixpoint write_plan (n : nat) (l : Link) (first send_eoi : bool) (data : list byte) : list Call :=
  match n with
  | O => []
  | S n =>
      if zlen data <=? WRITE_CHUNK then [write_call l first data send_eoi]
      else write_call l first (ztake WRITE_CHUNK data) false ::
           write_plan n l false send_eoi (zdrop WRITE_CHUNK data)
  end.

Definition plan_of (l : Link) (send_eoi : bool) (data : list byte) : list Call :=
  write_plan (S (length data)) l true send_eoi data.

Definition sent (cs : list Call) : list byte :=
  concat (map (fun c => match c with CWrite _ d _ | CSend d _ => d | _ => [] end) cs).

Lemma zlen_sent_nil : zlen (sent []) = 0.
Proof. done. Qed.
#[export] Hint Rewrite zlen_sent_nil : zlen.

Lemma sent_write_call l f d e cs : sent (write_call l f d e :: cs) = d ++ sent cs.
Proof. unfold sent, write_call. by destruct (is_interface l), f. Qed.

Lemma write_plan_sent n : forall l f e data, zlen data <= WRITE_CHUNK * Z.of_nat n -> (0 < n)%nat ->
  sent (write_plan n l f e data) = data.
Proof.
  unfold WRITE_CHUNK. induction n as [|n IH]; intros l f e data Hl Hn; [lia|]. cbn [write_plan].
  unfold WRITE_CHUNK. destruct (Z.leb_spec (zlen data) 4096).
  - by rewrite sent_write_call, app_nil_r.
  - rewrite sent_write_call, IH, ztake_zdrop; [done| |lia]. rewrite zlen_zdrop by lia. lia.
Qed.

Section WriteLog.
Context {B : Type} `{GpibBackend B}.

(** A call of a plan, on the bus. *)
Definition perform (c : Call) (b : Logged B) : result unit Error * Logged B :=
  match c with
  | CWrite pad d send_eoi => gb_write b pad d send_eoi
  | CSend d send_eoi => gb_send_data_unaddressed b d send_eoi
  | _ => (Ok tt, b)
  end.

Lemma write_step_log l (b : Logged B) first chunk e :
  exists r b',
    (if is_interface l then gb_send_data_unaddressed b chunk e
     else if (first : bool) then held_write b (instrument l) chunk e
     else gb_send_data_unaddressed b chunk e) = (r, b') /\
    perform (write_call l first chunk e) b = (r, b') /\ calls b' = calls b ++ [write_call l first chunk e].
Proof. unfold write_call. destruct (is_interface l), first; eexists _, _; done. Qed.

(** How a write ends after [k] calls of its plan, [m] of them accepted: [ck] and
    [s'] are what is left for the look that follows a whole plan. *)
Definition write_ended (deadline : Z) (plan : list Call) (checks : list step) (s : Shared) (a : nat) (m k : nat)
    (o : ErrorCode) (ck : list step) (s' : Shared) (b' : Logged B) : Prop :=
  (forall j, (j < k)%nat -> look j checks s a = false) /\
  ((o = NoError /\ m = length plan /\ k = m /\ (take_abort ck s' a).1.1 = look k checks s a) \/
   (o = Abort /\ k = m /\ (m < length plan)%nat /\ look k checks s a = true) \/
   (o = IoTimeout /\ k = m /\ (m < length plan)%nat /\ look k checks s a = false /\ deadline <= now b') \/
   (k = S m /\ exists c b1 e, plan !! m = Some c /\ perform c b1 = (Err e, b') /\
      o = if says "timeout" e then IoTimeout else IoError)).

(** The loop ends before a chunk. *)
Lemma write_ended_before deadline plan checks s a abort ck s1 o (b : Logged B) :
  take_abort checks s a = (abort, ck, s1) -> (0 < length plan)%nat ->
  (abort = true /\ o = Abort \/ abort = false /\ o = IoTimeout /\ deadline <= now b) ->
  write_ended deadline plan checks s a 0 0 o ck s1 b.
Proof.
  intros Et Hp Ho. split; [by intros j ?%Nat.nlt_0_r|]. cbn [look]. rewrite Et.
  destruct Ho as [[-> ->]|(-> & -> & Hd)]; [by right; left|by right; right; left].
Qed.
(** It ends with its first chunk. *)
Lemma write_ended_first deadline c cs checks s a ck s1 r (b1 b' : Logged B) ck' s' o :
  take_abort checks s a = (false, ck, s1) -> perform c b1 = (r, b') ->
  (r = Ok tt /\ cs = [] /\ o = NoError /\ ck' = ck /\ s' = s1 \/
   exists e, r = Err e /\ o = if says "timeout" e then IoTimeout else IoError) ->
  write_ended deadline (c :: cs) checks s a (match r with Ok _ => 1 | Err _ => 0 end) 1 o ck' s' b'.
Proof.
  intros Et Hp Ho. split.
  { intros [|j] Hj; [|lia]. cbn [look]. by rewrite Et. }
  destruct Ho as [(-> & -> & -> & -> & ->)|(e & -> & ->)].
  - left. split_and!; [done..|]. cbn [look]. rewrite Et. by destruct (take_abort ck s1 a) as [[] ?].
  - right; right; right. split; [done|]. by exists c, b1, e.
Qed.
(** A chunk that was accepted, in front. *)
Lemma write_ended_cons deadline c plan checks s a ck s1 m k o ck' s' b' :
  take_abort checks s a = (false, ck, s1) -> write_ended deadline plan ck s1 a m k o ck' s' b' ->
  write_ended deadline (c :: plan) checks s a (S m) (S k) o ck' s' b'.
Proof.
  intros Et [Hj Ho]. split.
  { intros [|j] Hlt; cbn [look]; rewrite Et; [done|]. apply Hj. lia. }
  cbn [look]. rewrite Et. destruct Ho as [(-> & -> & -> & Hl)|[(-> & -> & Hl & Ha)|[(-> & -> & Hl & Ha & Hd)|(-> & Hr)]]].
  - by left.
  - right; left. split_and!; try done. simpl. lia.
  - right; right; left. split_and!; try done. simpl. lia.
  - by right; right; right.
Qed.

Lemma write_loop_log fuel : forall n l a send_eoi deadline data checks s (b : Logged B) written,
  0 <= written <= zlen data ->
  zlen data - written <= WRITE_CHUNK * Z.of_nat fuel -> (0 < fuel)%nat ->
  zlen data - written <= WRITE_CHUNK * Z.of_nat n -> (0 < n)%nat ->
  let plan := write_plan n l (written =? 0) send_eoi (zdrop written data) in
  exists o w checks' s' b' m k,
    write_loop fuel l a send_eoi deadline data checks s b written = Some (o, w, checks', s', b') /\
    calls b' = calls b ++ take k plan /\ w = written + zlen (sent (take m plan)) /\ w <= zlen data /\
    write_ended deadline plan checks s a m k o checks' s' b'.
Proof.
  induction fuel as [|fuel IH]; intros n l a send_eoi deadline data checks s b written Hw Hf Hf0 Hn Hn0 plan;
    [lia|].
  assert (Hplan : (0 < length plan)%nat).
  { subst plan. destruct n; [lia|]. cbn [write_plan]. destruct (_ <=? _); simpl; lia. }
  cbn [write_loop]. destruct (take_abort checks s a) as [[abort checks'] s1] eqn:Et.
  destruct abort.
  { eexists _, _, _, _, _, 0%nat, 0%nat. rewrite take_0, app_nil_r. split_and!; [done|done|zlen_solve|zlen_solve|].
    eapply write_ended_before; [done|done|by left]. }
  destruct (Z.eqb_spec (Z.max 0 (deadline - now b)) 0) as [Hz|].
  { eexists _, _, _, _, _, 0%nat, 0%nat. rewrite take_0, app_nil_r. split_and!; [done|done|zlen_solve|zlen_solve|].
    eapply write_ended_before; [done|done|right; split_and!; [done|done|lia]]. }
  set (b0 := gb_set_timeout b _). set (end_ := Z.min (written + WRITE_CHUNK) (zlen data)).
  destruct (write_step_log l b0 (written =? 0) (ztake (end_ - written) (zdrop written data))
    (send_eoi && (end_ =? zlen data))) as (r & b1 & -> & Hp1 & Hc1).
  change (calls b0) with (calls b) in Hc1. unfold WRITE_CHUNK in *.
  assert (Hzd : zlen (zdrop written data) = zlen data - written) by (apply zlen_zdrop; lia).
  destruct n as [|n]; [lia|]. subst plan. cbn [write_plan] in Hplan |- *. unfold WRITE_CHUNK in *.
  rewrite Hzd in Hplan |- *.
  destruct (Z.leb_spec (zlen data - written) 4096) as [Hlast|Hmore].
  - assert (end_ = zlen data) as Ee by lia. rewrite Ee, Z.eqb_refl in Hc1, Hp1 |- *. rewrite andb_true_r in Hc1, Hp1.
    rewrite <- Hzd, ztake_all in Hc1, Hp1 by lia. destruct r as [[]|e].
    + eexists _, _, _, _, _, 1%nat, 1%nat. split_and!; [done|done| | |].
      * cbn [take]. rewrite sent_write_call, zlen_app, Hzd. zlen_solve.
      * lia.
      * by eapply (write_ended_first _ _ _ _ _ _ _ _ (Ok tt)); [..|left].
    + eexists _, _, _, _, _, 0%nat, 1%nat. split_and!; [done|done|cbn [take]; zlen_solve|lia|].
      by eapply (write_ended_first _ _ _ _ _ _ _ _ (Err e)); [..|right; eexists].
  - assert (end_ = written + 4096) as Ee by lia.
    assert (end_ =? zlen data = false) as Ef by (apply Z.eqb_neq; lia).
    rewrite Ef in Hc1, Hp1 |- *. rewrite andb_false_r in Hc1, Hp1. replace (end_ - written) with 4096 in Hc1, Hp1 by lia.
    destruct r as [[]|e].
    + destruct (IH n l a send_eoi deadline data checks' s1 b1 end_) as
        (o & w & ck & s' & b' & m & k & E & Hc & Hsz & Hle & He); try lia.
      rewrite Ee in E, Hc, Hsz, He.
      replace (written + 4096 =? 0) with false in Hc, Hsz, He by (symmetry; apply Z.eqb_neq; lia).
      rewrite zdrop_zdrop by lia.
      eexists _, _, _, _, _, (S m), (S k). split_and!; [by rewrite Ee| | | |].
      * by rewrite Hc, Hc1, <- app_assoc.
      * cbn [take]. rewrite sent_write_call, zlen_app, zlen_ztake by lia. lia.
      * lia.
      * by eapply write_ended_cons.
    + eexists _, _, _, _, _, 0%nat, 1%nat. split_and!; [done|done|cbn [take]; zlen_solve|lia|].
      by eapply (write_ended_first _ _ _ _ _ _ _ _ (Err e)); [..|right; eexists].
Qed.

End WriteLog.

(** ** Lemmas: windows, gates, integers *)

Lemma cells_update s a f a' :
  cells (update s a f) !! a' = if decide (a' = a) then f <$> cells s !! a else cells s !! a'.
Proof.
  unfold update, set_cells. simpl. case_decide; subst; [apply lookup_alter_eq|by apply lookup_alter_ne].
Qed.

(** A closed window: nothing in flight, no abort pending. *)
Definition idle (s : Shared) (a : nat) : Prop :=
  forall l, cells s !! a = Some l -> in_flight l = false /\ aborted l = false.

Lemma window_drop_idle s a : idle (window_drop s a) a.
Proof.
  intros l. unfold window_drop. rewrite cells_update, decide_True by done.
  destruct (cells s !! a); [|done]. by intros [= <-].
Qed.

Lemma deliver_abort_idle s a : idle s a -> deliver_abort s a = s.
Proof.
  intros Hi. unfold deliver_abort. destruct (cells s !! a) as [l|] eqn:E; [|done].
  by rewrite (proj1 (Hi l E)).
Qed.

Lemma link_for_Some s id a l : link_for s id = Some (a, l) ->
  links s !! id = Some a /\ cells s !! a = Some l.
Proof.
  unfold link_for. destruct (links s !! id) as [a'|]; [|done]. simpl.
  destruct (cells s !! a') as [l'|] eqn:E; [|done]. simpl. by intros [= <- <-].
Qed.

Lemma take_abort_delivered s a l rest : cells s !! a = Some l ->
  (take_abort ((fun s => deliver_abort s a) :: rest) (window_open s a) a).1.1 = true.
Proof.
  intros E. unfold take_abort, others, deliver_abort, window_open. cbn [fst].
  rewrite cells_update, decide_True, E by done. cbn [fmap option_fmap option_map in_flight set_flags].
  by rewrite !cells_update, !decide_True, E by done.
Qed.

(** No access and no leave to wait. *)
Definition shut_out (s : Shared) (l : Link) (flags : Z) : Prop :=
  Lock.has_access (locks s) (resource l) (holder l) = false /\
  has_flag flags OP_FLAG_WAITLOCK = false.

Lemma acquire_shut_out {B} `{GpibBackend B} env s (b : B) l flags t : shut_out s l flags ->
  acquire_access env s b l flags t = Some (Err DeviceLockedByAnotherLink, s).
Proof. intros [H1 H2]. unfold acquire_access. by rewrite H1, H2. Qed.

Lemma vxi11_id_inj i j : in_i32 i -> in_i32 j -> Lock.vxi11_id i = Lock.vxi11_id j -> i = j.
Proof.
  intros Hi Hj. rewrite !Lock.vxi11_id_add. intros. apply Lock.as_u32_inj; [done..|lia].
Qed.

(** Another link's exclusive lock on the same resource shuts a link out. *)
Lemma exclusive_shuts_out n s l l' t d flags :
  Lock.registry_ok n (locks s) -> Lock.tabs (locks s) !! resource l' = Some t ->
  Lock.exclusive t = Some (holder l, d) -> in_i32 (lid l) -> in_i32 (lid l') -> lid l' <> lid l ->
  has_flag flags OP_FLAG_WAITLOCK = false -> shut_out s l' flags.
Proof.
  intros Hok Et Ex Hi Hi' Hne Hf. split; [|done]. destruct (Hok _ _ Et) as [Hwf Hem].
  unfold Lock.has_access. rewrite Et, Lock.grants_access_used by done.
  eapply Lock.excl_alone; [done..|]. unfold holder. by intros ?%vxi11_id_inj.
Qed.

Lemma parse_device_name_Err name dp e : parse_device_name name dp = Err e -> e <> NoError.
Proof.
  unfold parse_device_name. intros E ->.
  repeat match type of E with
  | context [if ?c then _ else _] => destruct c
  | context [match ?x with _ => _ end] => destruct x
  end; discriminate.
Qed.

Lemma has_access_false_request n reg r id : Lock.registry_ok n reg -> 0 <= n < 4294967295 ->
  Lock.has_access reg r id = false -> Lock.try_request reg r id [] = (None, reg).
Proof.
  intros Hok Hn Ha. apply (Lock.try_request_None n); [done|lia|lia|].
  unfold Lock.has_access in Ha. destruct (Lock.tabs reg !! r) as [t|] eqn:Et; [|done].
  rewrite (Lock.try_request_Some_table _ _ _ _ t Et). destruct (Hok r t Et) as [Hwf He].
  rewrite Lock.grants_access_used in Ha by done. unfold Lock.table_holds in Ha.
  apply orb_false_iff in Ha as [Hex Hsh]. unfold Lock.try_exclusive, Lock.excl_held_by in *.
  destruct (Lock.exclusive t) as [[h d]|] eqn:Ex; [by rewrite Hex|].
  destruct (existsb _ _) eqn:Eo; [done|]. exfalso.
  unfold Lock.is_empty in He. rewrite Ex in He. apply bool_decide_eq_false in He. apply He.
  apply map_eq. intros i. rewrite lookup_empty. destruct (Lock.shared t !! i) as [x|] eqn:Ei; [|done].
  assert (i = id) as -> by (eapply Lock.existsb_other; eauto).
  apply bool_decide_eq_false in Hsh as []. eauto.
Qed.

Lemma device_lock_shut_out {B} `{GpibBackend B} n s (b : B) id a l flags lk t0 wakes :
  Lock.registry_ok n (locks s) -> 0 <= n < 4294967295 -> link_for s id = Some (a, l) ->
  shut_out s l flags -> now b <= t0 ->
  exists s', device_lock (Poll (fun g => g, t0) :: wakes) s b (mkDeviceLockParms id flags lk) =
    Some (DeviceLockedByAnotherLink, s') /\ locks s' = locks s.
Proof.
  intros Hok Hn Hl [Ha Hf] Ht. unfold device_lock. cbn [dlp_lid]. rewrite Hl.
  destruct (Lock.holds (locks s) (resource l) (holder l)); [by eexists|].
  cbn [lock_wait]. change (locks (window_open s a)) with (locks s).
  rewrite (has_access_false_request n) by done. cbn [dlp_flags].
  rewrite Hf.
  rewrite (proj2 (Z.leb_le _ _)) by lia. cbn [mbind option_bind]. by eexists.
Qed.

Lemma uint_of_val l : forall v, 0 <= v -> v * 256 ^ zlen l + be_val l < 4294967296 ->
  uint_of v l = v * 256 ^ zlen l + be_val l.
Proof.
  induction l as [|b l IH]; intros v Hv Hr; [by rewrite Z.mul_1_r, Z.add_0_r|].
  cbn [uint_of]. change (be_val (b :: l)) with (u8 b * 256 ^ Z.of_nat (length l) + be_val l) in *.
  fold (zlen l) in *. rewrite zlen_cons, Z.pow_add_r in Hr |- * by zlen_solve.
  pose proof (u8_range b). pose proof (be_val_range l). fold (zlen l) in *.
  assert (0 < 256 ^ zlen l) by (apply Z.pow_pos_nonneg; zlen_solve).
  assert (v * 256 + u8 b < 4294967296) by nia.
  rewrite Z.shiftl_mul_pow2 by lia. change (2 ^ 8) with 256. rewrite as_u32_id by (unfold in_u32; lia).
  rewrite (lor_high_add v 8) by (change (2 ^ 8) with 256; lia). change (2 ^ 8) with 256.
  rewrite IH; [lia|lia|nia].
Qed.

Lemma uint_out_be v n : uint_out v n true = be_bytes n v.
Proof.
  unfold uint_out. induction n as [|n IH]; [done|]. simpl seq. rewrite map_cons, <- seq_shift, map_map.
  change (be_bytes (S n) v) with (b8 (v / 256 ^ Z.of_nat n) :: be_bytes n v). f_equal.
  - f_equal. rewrite Z.shiftr_div_pow2, Z.pow_mul_r by lia. f_equal. f_equal. lia.
  - rewrite <- IH. apply map_ext. intros i. do 3 f_equal. lia.
Qed.

Lemma adapter_floor_spec r : 1 <= r ->
  adapter_floor_ms r ∈ STEPS /\ adapter_floor_ms r <= r /\
  forall x, x ∈ STEPS -> x <= r -> x <= adapter_floor_ms r.
Proof.
  intros Hr. unfold adapter_floor_ms, STEPS. cbn [first_step].
  repeat match goal with |- context [?x <=? r] => destruct (Z.leb_spec x r) end;
    (split_and!; [set_solver|lia|]); intros x Hx ?;
    repeat (apply elem_of_cons in Hx as [->|Hx]; [lia|]); by apply elem_of_nil in Hx.
Qed.

Lemma device_lock_first_poll {B} `{GpibBackend B} s (b : B) id a l flags lk t0 s1 :
  link_for s id = Some (a, l) ->
  device_lock [Poll (fun g => g, t0)] s b (mkDeviceLockParms id flags lk) = Some (NoError, s1) ->
  exists g reg, Lock.holds (locks s) (resource l) (holder l) = false /\
    Lock.try_request (locks s) (resource l) (holder l) [] = (Some g, reg) /\
    s1 = window_drop (set_locks (window_open s a) reg) a.
Proof.
  intros Hl. unfold device_lock. cbn [dlp_lid]. rewrite Hl.
  destruct (Lock.holds (locks s) (resource l) (holder l)); [done|].
  cbn [lock_wait]. change (locks (window_open s a)) with (locks s).
  destruct (Lock.try_request (locks s) (resource l) (holder l) []) as [[g|] reg].
  - cbn [mbind option_bind]. intros [= _ <-]. by exists g, reg.
  - by destruct (_ <=? t0).
Qed.

Lemma link_for_window s a id l reg : link_for s id = Some (a, l) ->
  exists l', link_for (window_drop (set_locks (window_open s a) reg) a) id = Some (a, l') /\
    resource l' = resource l /\ holder l' = holder l.
Proof.
  intros [Hi Hc]%link_for_Some. unfold link_for.
  change (links (window_drop _ _)) with (links s). rewrite Hi. cbn [mbind option_bind].
  unfold window_drop. rewrite cells_update, decide_True by done.
  change (cells (set_locks ?x reg)) with (cells x). unfold window_open.
  rewrite cells_update, decide_True, Hc by done. by eexists.
Qed.

(** A read that finds the abort flag set at its first look stops there. *)
Lemma device_read_aborted {B} `{GpibBackend B} env fuel s (b : B) parms a l s1 :
  link_for s (drp_lid parms) = Some (a, l) -> drp_request_size parms <> 0 ->
  acquire_access env s b l (drp_flags parms) (drp_lock_timeout_ms parms) = Some (Ok tt, s1) ->
  (take_abort (e_checks env) (window_open s1 a) a).1.1 = true ->
  exists s' b', device_read env (S fuel) s b parms =
    Some (mkDeviceReadResp (error_as_u32 Abort) 0 [], s', b') /\ idle s' a /\
    exists c1 c2 t, b' = gb_set_timeout (gb_set_eos (gb_set_eos (e_hold env b) c1 t) c2.1 c2.2)
                           (default_io_timeout_ms (config s)).
Proof.
  intros Hl Hrs Hacc Hab. unfold device_read. rewrite Hl.
  rewrite (proj2 (Z.eqb_neq _ _)) by done. rewrite Hacc. cbn [mbind option_bind read_loop].
  destruct (take_abort _ _ _) as [[ab ck] s2]. simpl in Hab. subst ab. cbn [mbind option_bind].
  eexists _, _. split_and!; [done|apply window_drop_idle|].
  destruct (termchr_of parms); eexists _, (gb_eos (e_hold env b)), _; done.
Qed.

(** The end of every device operation past the lock gate leaves its window
    closed. *)
Lemma device_read_closes {B} `{GpibBackend B} env fuel s (b : B) parms a l s1 resp s' b' :
  link_for s (drp_lid parms) = Some (a, l) -> drp_request_size parms <> 0 ->
  acquire_access env s b l (drp_flags parms) (drp_lock_timeout_ms parms) = Some (Ok tt, s1) ->
  device_read env fuel s b parms = Some (resp, s', b') -> idle s' a.
Proof.
  intros Hl Hrs Hacc. unfold device_read. rewrite Hl.
  rewrite (proj2 (Z.eqb_neq _ _)) by done. rewrite Hacc. cbn [mbind option_bind].
  destruct (read_loop _ _ _ _ _ _ _ _ _ _ _) as [[[[o d] s2] b2]|]; [|done].
  cbn [mbind option_bind]. intros [= <- <- <-]. apply window_drop_idle.
Qed.

Lemma device_write_closes {B} `{GpibBackend B} env fuel s (b : B) parms a l s1 resp s' b' :
  link_for s (dwp_lid parms) = Some (a, l) ->
  acquire_access env s b l (dwp_flags parms) (dwp_lock_timeout_ms parms) = Some (Ok tt, s1) ->
  device_write env fuel s b parms = Some (resp, s', b') -> idle s' a.
Proof.
  intros Hl Hacc. unfold device_write. rewrite Hl, Hacc. cbn [mbind option_bind].
  destruct (write_loop _ _ _ _ _ _ _ _ _ _) as [[[[[o w] ck] s2] b2]|]; [|done].
  cbn [mbind option_bind]. destruct (if bool_decide _ then _ else _) as [o' s3].
  intros [= <- <- <-]. apply window_drop_idle.
Qed.

(** No abort pending, and nobody to deliver one. *)
Definition unaborted (s : Shared) (a : nat) : Prop := forall l, cells s !! a = Some l -> aborted l = false.

Lemma unaborted_look s a ab ck s' : unaborted s a -> take_abort [] s a = (ab, ck, s') ->
  ab = false /\ ck = [] /\ unaborted s' a.
Proof.
  intros Hu [= <- <- <-]. split_and!; [|done|].
  - cbn [others]. destruct (cells s !! a) as [l|] eqn:E; [by apply Hu|done].
  - intros l'. rewrite cells_update, decide_True by done. destruct (cells _ !! a); [|done]. by intros [= <-].
Qed.
Lemma unaborted_update s a f : (forall l, aborted (f l) = aborted l) -> unaborted s a -> unaborted (update s a f) a.
Proof.
  intros Hf Hu l'. rewrite cells_update, decide_True by done. destruct (cells s !! a) as [l|] eqn:E; [|done].
  intros [= <-]. rewrite Hf. by apply Hu.
Qed.
Lemma unaborted_gate {B} `{GpibBackend B} env s (b : B) l f t r s' a : acquire_access env s b l f t = Some (r, s') ->
  unaborted s a -> unaborted s' a.
Proof.
  unfold acquire_access. destruct (Lock.has_access _ _ _); [by intros [= <- <-]|]. destruct (negb _); [by intros [= <- <-]|].
  destruct (Lock.wait_for_access_timeout _ _ _ _ _) as [[g reg]|]; [|done]. by intros [= <- <-].
Qed.

Lemma read_loop_unaborted {B} `{GpibBackend B} fuel : forall l a tc rs d sm s (b : B) data o data' s' b',
  unaborted s a -> read_loop fuel l a tc rs d sm [] s b data = Some (o, data', s', b') -> o <> Aborted.
Proof.
  induction fuel as [|fuel IH]; intros l a tc rs d sm s b data o data' s' b' Hu; [done|].
  cbn [read_loop]. destruct (take_abort [] s a) as [[ab ck] s1] eqn:Et.
  apply unaborted_look in Et as (-> & -> & Hu1); [|done]. destruct (_ =? 0); [by intros [= <- <- <- <-]|].
  destruct (slice_of _ _) as [sl|]; [|done]. cbn [mbind option_bind].
  destruct (read_attempt _ _ _ _) as [[[chunk e]|e] b1].
  - destruct (negb _ || _); [by intros [= <- <- <- <-]|by apply IH].
  - destruct (says _ _ || says _ _); [by apply IH|by intros [= <- <- <- <-]].
Qed.
Lemma write_loop_unaborted {B} `{GpibBackend B} fuel : forall l a e d data s (b : B) w o w' ck s' b',
  unaborted s a -> write_loop fuel l a e d data [] s b w = Some (o, w', ck, s', b') -> o <> Abort /\ ck = [] /\ unaborted s' a.
Proof.
  induction fuel as [|fuel IH]; intros l a e d data s b w o w' ck s' b' Hu; [done|].
  cbn [write_loop]. destruct (take_abort [] s a) as [[ab c1] s1] eqn:Et.
  apply unaborted_look in Et as (-> & -> & Hu1); [|done]. destruct (_ =? 0); [by intros [= <- <- <- <- <-]|].
  destruct (if is_interface l then _ else _) as [[[]|err] b1].
  - destruct (_ =? _); [by intros [= <- <- <- <- <-]|by apply IH].
  - intros [= <- <- <- <- <-]. by destruct (says _ _).
Qed.

(** A call on a link with no abort pending, with nobody to deliver one, is not
    aborted. *)
Lemma device_read_unaborted {B} `{GpibBackend B} turns hold fuel s (b : B) parms a l resp s' b' :
  link_for s (drp_lid parms) = Some (a, l) -> unaborted s a ->
  device_read (mkEnv turns hold []) fuel s b parms = Some (resp, s', b') -> drr_error resp <> error_as_u32 Abort.
Proof.
  intros Hl Hu. unfold device_read. rewrite Hl. destruct (_ =? 0); [by intros [= <- <- <-]|].
  destruct (acquire_access _ _ _ _ _ _) as [[[[]|e] s1]|] eqn:Ea; cbn [mbind option_bind]; [| |done].
  2: { intros [= <- <- <-]. revert Ea. unfold acquire_access. destruct (Lock.has_access _ _ _); [done|].
       destruct (negb _); [by intros [= <- <-]|]. destruct (Lock.wait_for_access_timeout _ _ _ _ _) as [[[] reg]|]; [done| |done].
       by intros [= <- <-]. }
  destruct (read_loop _ _ _ _ _ _ _ _ _ _ _) as [[[[o d] s2] b2]|] eqn:E; [|done].
  apply read_loop_unaborted in E; [|apply unaborted_update; [done|by eapply unaborted_gate]].
  cbn [mbind option_bind]. intros [= <- <- <-]. by destruct o.
Qed.
Lemma device_write_unaborted {B} `{GpibBackend B} turns hold fuel s (b : B) parms a l resp s' b' :
  link_for s (dwp_lid parms) = Some (a, l) -> unaborted s a ->
  device_write (mkEnv turns hold []) fuel s b parms = Some (resp, s', b') -> dwr_error resp <> error_as_u32 Abort.
Proof.
  intros Hl Hu. unfold device_write. rewrite Hl.
  destruct (acquire_access _ _ _ _ _ _) as [[[[]|e] s1]|] eqn:Ea; cbn [mbind option_bind]; [| |done].
  2: { intros [= <- <- <-]. revert Ea. unfold acquire_access. destruct (Lock.has_access _ _ _); [done|].
       destruct (negb _); [by intros [= <- <-]|]. destruct (Lock.wait_for_access_timeout _ _ _ _ _) as [[[] reg]|]; [done| |done].
       by intros [= <- <-]. }
  destruct (write_loop _ _ _ _ _ _ _ _ _ _) as [[[[[o w] ck] s2] b2]|] eqn:E; [|done].
  apply write_loop_unaborted in E as (Ho & -> & Hu2);
    [|apply unaborted_update; [done|apply unaborted_update; [done|by eapply unaborted_gate]]].
  cbn [mbind option_bind]. case_bool_decide; [|intros [= <- <- <-]; by destruct o].
  destruct (take_abort [] s2 a) as [[ab ck] s3] eqn:Et. apply unaborted_look in Et as (-> & _ & _); [|done].
  intros [= <- <- <-]. by destruct o.
Qed.

(** ** Properties *)

(** A server with one device link (id 1, PAD 18) and one on the same
    instrument (id 2), for concrete runs. *)
Definition demo_link (id : Z) : Link := mkLink id (Pad 18) 18 false false false None None.
Definition demo : Shared :=
  mkShared default_config (<[1 := 0%nat]> {[2 := 1%nat]}) (<[0%nat := demo_link 1]> {[1%nat := demo_link 2]})
    2 3 0 Lock.new_registry.
Definition demo_bus (script : list (result (list byte * bool) Error * Z)) : Mock :=
  mkMock script 0 (10, true) 3000 (Some 250) 0 false.

(** C3: [device_read] always answers.  Past the lock gate, for every adapter,
    every behaviour of the instrument and every abort pattern, the read loop
    returns within one turn per requested byte plus one per millisecond of
    io_timeout; the reply never carries more than was asked for (nor more
    than 64 KiB); and the adapter's end-of-string setting and timeout are put
    back as the next user of the bus expects them. *)
Theorem device_read_answers {B} `{BackendLaws B} env s (b : B) parms a l s1 fuel :
  link_for s (drp_lid parms) = Some (a, l) -> 0 < drp_request_size parms ->
  acquire_access env s b l (drp_flags parms) (drp_lock_timeout_ms parms) = Some (Ok tt, s1) ->
  Z.min (drp_request_size parms) MAX_READ +
    Z.max 0 (effective_timeout (config s) (drp_io_timeout_ms parms)) < Z.of_nat fuel ->
  exists resp s' b', device_read env fuel s b parms = Some (resp, s', b') /\
    zlen (drr_data resp) <= Z.min (drp_request_size parms) MAX_READ /\
    gb_eos b' = gb_eos (e_hold env b) /\ timeout_of b' = default_io_timeout_ms (config s).
Proof.
  intros Hl Hrs Hacc Hfuel. unfold device_read. rewrite Hl.
  rewrite (proj2 (Z.eqb_neq _ _)) by lia. rewrite Hacc. cbn [mbind option_bind].
  set (b0 := match termchr_of parms with Some _ => _ | None => _ end).
  set (T := effective_timeout (config s) (drp_io_timeout_ms parms)) in *.
  pose proof (ms_left_budget (now b0) T) as Hleft.
  destruct (read_loop_total fuel l a (termchr_of parms) (drp_request_size parms) (now b0 + ms T)
    (gb_read_slice_ms b0) (e_checks env) (window_open s1 a) b0 []) as (o & d & s' & b' & E & _ & Hd & _).
  - intros x Hx. by eapply read_slice.
  - unfold MAX_READ in *. zlen_solve.
  - rewrite Hleft. zlen_solve.
  - rewrite E. cbn [mbind option_bind]. eexists _, _, _. split_and!; [done| | |].
    + destruct o; simpl; try done. unfold MAX_READ in *. zlen_solve.
    + rewrite set_timeout_eos, set_eos_get. by destruct (gb_eos _).
    + by rewrite set_timeout_get.
Qed.

Lemma device_read_answers_witness :
  exists resp s' b',
    device_read quiet 4000 demo (demo_bus [(Ok ([], false), 0); (Ok ([x31; x0a], true), 40)])
      (mkDeviceReadParms 1 100 0 0 0 0) = Some (resp, s', b') /\
    zlen (drr_data resp) <= Z.min 100 MAX_READ /\ gb_eos b' = (10, true) /\ timeout_of b' = 3000.
Proof.
  destruct (device_read_answers quiet demo (demo_bus [(Ok ([], false), 0); (Ok ([x31; x0a], true), 40)])
    (mkDeviceReadParms 1 100 0 0 0 0) 0 (demo_link 1) demo 4000) as (resp & s' & b' & E & H1 & H2 & H3);
    [by vm_compute|simpl; lia|by vm_compute|by vm_compute|].
  exists resp, s', b'. split_and!; [exact E|exact H1|by rewrite H2|by rewrite H3].
Defined.

(** What a read that got to the bus answers, from its calls [cs], what each look
    at the abort flag found, and the clock at its end. *)
Definition told {B} `{GpibBackend B} (parms : DeviceReadParms) (l : Link) (looked : nat -> bool) (deadline : Z)
    (cs : list Call) (b' : Logged B) (resp : DeviceReadResp) : Prop :=
  (forall j, (j < attempts cs)%nat -> looked j = false) /\
  ((drr_error resp = error_as_u32 NoError /\ drr_data resp = received cs /\
    (exists cs0 d e, cs = cs0 ++ [CGot d e] /\ no_end cs0 /\ has_flag (drr_reason resp) RX_END = e) /\
    has_flag (drr_reason resp) RX_CHR =
      match termchr_of parms with Some ch => ends_in (drr_data resp) ch | None => false end /\
    has_flag (drr_reason resp) RX_REQCNT = (zlen (drr_data resp) =? drp_request_size parms) /\
    (drr_reason resp = 0 -> zlen (drr_data resp) = Z.min (drp_request_size parms) MAX_READ)) \/
   (resp = mkDeviceReadResp (error_as_u32 IoTimeout) 0 (received cs) /\ no_end cs /\
    looked (attempts cs) = false /\ deadline <= now b') \/
   (resp = mkDeviceReadResp (error_as_u32 Abort) 0 (received cs) /\ no_end cs /\ looked (attempts cs) = true) \/
   (resp = mkDeviceReadResp (error_as_u32 IoError) 0 [] /\ no_end cs /\
    exists e b1 b2, read_attempt l b1 (Z.min (drp_request_size parms) MAX_READ) (received cs) = (Err e, b2) /\
      says "timed out" e || says "timeout" e = false /\ calls b2 = calls b')).

(** C2: what a [device_read] reply means.  An unknown link is error 4, an empty
    request ends at once with REQCNT, a lock that is not granted is the gate's
    error; none of these touches the bus.  Past the gate every bus call is a read
    of the link's own instrument (an unaddressed one on an interface link) that
    asks for the bytes still missing.  On success the data is exactly what the
    bus delivered, in order, and the reason bits are the truth: END iff the last
    transfer ended a message (and no earlier one did), CHR iff the requested
    terminator is the last byte, REQCNT iff the requested count was reached; no
    reason is given only when the 64 KiB buffer is full.  Error 15 comes with
    the data so far when the deadline has passed, error 23 with it when the look
    at the abort flag after the last transfer found it set, and no earlier one
    did, error 17 with nothing when the adapter failed other than by a timeout;
    the reason is zero then.  The terminator and the timeout of the bus are put
    back in every case. *)
Theorem device_read_reply {B} `{BackendLaws B} env fuel s (b : Logged B) parms resp s' b' :
  0 <= drp_request_size parms -> device_read env fuel s b parms = Some (resp, s', b') ->
  match link_for s (drp_lid parms) with
  | None => (resp, s', b') = (mkDeviceReadResp (error_as_u32 InvalidLinkIdentifier) 0 [], s, b)
  | Some (a, l) =>
      if drp_request_size parms =? 0
      then (resp, s', b') = (mkDeviceReadResp (error_as_u32 NoError) RX_REQCNT [], s, b)
      else
        match acquire_access env s b l (drp_flags parms) (drp_lock_timeout_ms parms) with
        | None => False
        | Some (Err e, s1) => (resp, s', b') = (mkDeviceReadResp (error_as_u32 e) 0 [], s1, b)
        | Some (Ok _, s1) =>
            exists cs, calls b' = calls (e_hold env b) ++ cs /\ asks l (Z.min (drp_request_size parms) MAX_READ) cs /\
              gb_eos b' = gb_eos (e_hold env b) /\ timeout_of b' = default_io_timeout_ms (config s) /\
              told parms l (fun k => look k (e_checks env) (window_open s1 a) a)
                (now (e_hold env b) + ms (effective_timeout (config s) (drp_io_timeout_ms parms))) cs b' resp
        end
  end.
Proof.
  intros Hrs Hrun. unfold device_read in Hrun. destruct (link_for s _) as [[a l]|]; [|by simplify_eq].
  destruct (Z.eqb_spec (drp_request_size parms) 0) as [|Hne]; [by simplify_eq|].
  destruct (acquire_access _ _ _ _ _ _) as [[[[]|e] s1]|]; cbn [mbind option_bind] in Hrun; [|by simplify_eq|done].
  set (b0 := match termchr_of parms with Some _ => _ | None => _ end) in Hrun.
  assert (Hb0 : calls b0 = calls (e_hold env b) /\ now b0 = now (e_hold env b)).
  { unfold b0. destruct (termchr_of parms); (split; [done|apply set_eos_now]). }
  destruct (read_loop _ _ _ _ _ _ _ _ _ _ _) as [[[[o d] s2] b2]|] eqn:E; [|done].
  apply read_loop_log in E as (cs & Hc & Hd & Hask & Hj & Ho); [|unfold MAX_READ; zlen_solve].
  cbn [mbind option_bind] in Hrun. simplify_eq. rewrite app_nil_l in *. rewrite zlen_nil, Z.sub_0_r in Hask.
  rewrite (proj2 Hb0) in Ho. exists cs. split_and!; [|done| | |].
  - change (calls b2 = calls (e_hold env b) ++ cs). by rewrite Hc, (proj1 Hb0).
  - rewrite set_timeout_eos, set_eos_get. by destruct (gb_eos _).
  - by rewrite set_timeout_get.
  - split; [done|]. rewrite set_timeout_now, set_eos_now. destruct o as [r| | |e].
    + left. destruct Ho as (cs0 & d & e & -> & Hn & -> & Hz). cbn [read_resp drr_error drr_data drr_reason].
      destruct (read_reason_bits (termchr_of parms) (drp_request_size parms) (received (cs0 ++ [CGot d e])) e)
        as (H1 & H2 & H3).
      split_and!; [done|done|by exists cs0, d, e|done..|by intros; destruct Hz].
    + by right; left.
    + by right; right; left.
    + right; right; right. destruct Ho as (Hn & Hs & b1 & Hb). split_and!; [done|done|]. by exists e, b1, b2.
Qed.

Lemma device_read_reply_witness :
  let b := mkLogged (demo_bus [(Ok ([x31; x0a], true), 40)]) [] in
  exists cs resp s' b',
    device_read quiet 9 demo b (mkDeviceReadParms 1 100 0 0 0 0) = Some (resp, s', b') /\
    calls b' = [] ++ cs /\ gb_eos b' = (10, true) /\ drr_data resp = [x31; x0a] /\ drr_error resp = 0.
Proof.
  intros b.
  destruct (device_read quiet 9 demo b (mkDeviceReadParms 1 100 0 0 0 0)) as [[[resp s'] b']|] eqn:E;
    [|by vm_compute in E].
  destruct (device_read_reply quiet 9 demo b (mkDeviceReadParms 1 100 0 0 0 0) resp s' b')
    as (cs & Hc & _ & He & _); [done|exact E|].
  exists cs, resp, s', b'. split_and!; [done|done|exact He|by vm_compute in E; simplify_eq..].
Defined.

(** C7: what [device_write] puts on the bus.  Past the lock gate the handler
    always answers, and its calls on the bus are an initial part of the plan
    for the message: 4096-byte chunks whose bytes are together the message,
    only the first one addressing the instrument (none on an interface link),
    END with the last byte of the last chunk alone, and only if asked for.
    The reported size counts the chunks the adapter accepted.  Success means
    that is the whole plan and no look at the abort flag found it set; error 23
    that the look after the last chunk sent did; error 15 without a refused
    chunk that the deadline has passed; and otherwise exactly one chunk more
    than counted was attempted, which the adapter refused, and the code is 15
    when its message says timeout and 17 when it does not.  The timeout of the
    bus is put back. *)
Theorem device_write_delivers {B} `{BackendLaws B} env fuel s (b : Logged B) parms a l s1 :
  link_for s (dwp_lid parms) = Some (a, l) ->
  acquire_access env s b l (dwp_flags parms) (dwp_lock_timeout_ms parms) = Some (Ok tt, s1) ->
  zlen (dwp_data parms) <= WRITE_CHUNK * Z.of_nat fuel -> (0 < fuel)%nat -> in_u32 (zlen (dwp_data parms)) ->
  let plan := plan_of l (has_flag (dwp_flags parms) OP_FLAG_END) (dwp_data parms) in
  let looked k := look k (e_checks env) (window_open (update s1 a (set_consumed_stb None)) a) a in
  sent plan = dwp_data parms /\
  exists resp s' b' m k, device_write env fuel s b parms = Some (resp, s', b') /\
    calls b' = calls (e_hold env b) ++ take k plan /\ timeout_of b' = default_io_timeout_ms (config s) /\
    dwr_size resp = zlen (sent (take m plan)) /\ (forall j, (j < k)%nat -> looked j = false) /\
    ((dwr_error resp = error_as_u32 NoError /\ m = length plan /\ k = m /\ looked k = false) \/
     (dwr_error resp = error_as_u32 Abort /\ k = m /\ looked k = true) \/
     (dwr_error resp = error_as_u32 IoTimeout /\ k = m /\ (m < length plan)%nat /\ looked k = false /\
      now b + ms (effective_timeout (config s) (dwp_io_timeout_ms parms)) <= now b') \/
     (k = S m /\ exists c b1 e b2, plan !! m = Some c /\ perform c b1 = (Err e, b2) /\ calls b2 = calls b' /\
        dwr_error resp = error_as_u32 (if says "timeout" e then IoTimeout else IoError))).
Proof.
  intros Hl Hacc Hf Hf0 Hu plan looked.
  assert (Hlen : zlen (dwp_data parms) <= WRITE_CHUNK * Z.of_nat (S (length (dwp_data parms))))
    by (unfold WRITE_CHUNK, zlen; lia).
  assert (Hplan : sent plan = dwp_data parms) by (apply write_plan_sent; [done|lia]).
  split; [done|]. unfold device_write. rewrite Hl, Hacc. cbn [mbind option_bind].
  set (deadline := now b + _). set (s2 := window_open _ a).
  destruct (write_loop_log fuel (S (length (dwp_data parms))) l a (has_flag (dwp_flags parms) OP_FLAG_END)
    deadline (dwp_data parms) (e_checks env) s2 (e_hold env b) 0)
    as (o & w & ck & s' & b' & m & k & E & Hc & Hw & Hle & Hj & Ho);
    [pose proof (zlen_nonneg (dwp_data parms)); lia|lia|done|lia|lia|].
  change (write_plan _ l (0 =? 0) _ (zdrop 0 (dwp_data parms))) with plan in *.
  rewrite E. cbn [mbind option_bind]. rewrite Z.add_0_l in Hw.
  assert (Hsz : as_u32 w = zlen (sent (take m plan))).
  { rewrite as_u32_id; [done|]. pose proof (zlen_nonneg (sent (take m plan))). unfold in_u32 in *. lia. }
  destruct (if bool_decide (o = NoError) then _ else _) as [o' s3] eqn:Eo.
  eexists _, _, _, m, k. split_and!; [done|done|apply set_timeout_get|done|done|].
  cbn [dwr_error]. rewrite set_timeout_now. destruct Ho as [(-> & -> & -> & Hla)|Ho].
  { rewrite bool_decide_eq_true_2 in Eo by done. fold (looked (length plan)) in Hla.
    destruct (take_abort ck s' a) as [[[] ck'] s4]; simplify_eq/=; [right; left|left]; done. }
  assert (o' = o) as ->.
  { rewrite bool_decide_eq_false_2 in Eo; [by simplify_eq|].
    destruct Ho as [(-> & _)|[(-> & _)|(_ & c & b1 & e & _ & _ & ->)]]; [done..|by destruct (says _ _)]. }
  right. destruct Ho as [(-> & Hk & _ & Hla)|[(-> & Hk & Hm & Hla & Hd)|(-> & c & b1 & e & Hp & Hpe & ->)]].
  - by left.
  - by right; left.
  - right; right. split; [done|]. by exists c, b1, e, b'.
Qed.

Lemma device_write_delivers_witness :
  let b := mkLogged (demo_bus []) [] in
  let parms := mkDeviceWriteParms 1 0 0 OP_FLAG_END (replicate 5000 x41) in
  exists resp s' b' m k, device_write quiet 2 demo b parms = Some (resp, s', b') /\
    calls b' = [] ++ take k [CWrite 18 (replicate 4096 x41) false; CSend (replicate 904 x41) true] /\
    dwr_error resp = 0 /\ dwr_size resp = 5000 /\ (k = m \/ k = S m).
Proof.
  intros b parms.
  destruct (device_write_delivers quiet 2 demo b parms 0 (demo_link 1) demo)
    as (_ & resp & s' & b' & m & k & E & Hc & _ & _ & _ & Ho);
    [by vm_compute|by vm_compute|by vm_compute|lia|by vm_compute|].
  exists resp, s', b', m, k. split_and!; [exact E|rewrite Hc; by vm_compute|by vm_compute in E; simplify_eq..|].
  destruct Ho as [(_ & _ & ? & _)|[(_ & ? & _)|[(_ & ? & _)|[? _]]]]; auto.
Defined.



(** A server after a call, whose link [a] is closed to aborts: one delivered now
    changes nothing, and no later read or write on the link is aborted unless
    one is delivered while it runs. *)
Definition abort_over {B} `{GpibBackend B} (s : Shared) (a : nat) : Prop :=
  idle s a /\ deliver_abort s a = s /\
  (forall turns hold fuel (b : B) parms l resp s' b', link_for s (drp_lid parms) = Some (a, l) ->
     device_read (mkEnv turns hold []) fuel s b parms = Some (resp, s', b') -> drr_error resp <> error_as_u32 Abort) /\
  (forall turns hold fuel (b : B) parms l resp s' b', link_for s (dwp_lid parms) = Some (a, l) ->
     device_write (mkEnv turns hold []) fuel s b parms = Some (resp, s', b') -> dwr_error resp <> error_as_u32 Abort).

Lemma idle_abort_over {B} `{GpibBackend B} s a : idle s a -> abort_over (B := B) s a.
Proof.
  intros Hi. assert (Hu : unaborted s a) by (intros l Hl; by apply (Hi l Hl)).
  split_and!; [done|by apply deliver_abort_idle|intros; by eapply device_read_unaborted|intros; by eapply device_write_unaborted].
Qed.

(** C19: an abort reaches the call it names and no other.  An abort delivered
    while a [device_read] or a [device_write] waits for the bus stops it with
    error 23 before any bus transaction.  Whatever happens during a call - an
    abort that comes too late to be seen, too - once it has answered, no abort is
    pending on its link: one delivered then changes nothing, and no later read or
    write on the link is aborted unless one is delivered while it runs. *)
Theorem abort_confined_to_call {B} `{GpibBackend B} fuel s (b : Logged B) a l rp wp hold rest :
  link_for s (drp_lid rp) = Some (a, l) -> drp_request_size rp <> 0 -> dwp_lid wp = drp_lid rp ->
  Lock.has_access (locks s) (resource l) (holder l) = true ->
  let aborted := mkEnv [] hold ((fun s => deliver_abort s a) :: rest) in
  (exists s' b', device_read aborted (S fuel) s b rp =
     Some (mkDeviceReadResp (error_as_u32 Abort) 0 [], s', b') /\ calls b' = calls (hold b)) /\
  (exists s' b', device_write aborted (S fuel) s b wp =
     Some (mkDeviceWriteResp (error_as_u32 Abort) 0, s', b') /\ calls b' = calls (hold b)) /\
  (forall env fuel resp s' b', device_read env fuel s b rp = Some (resp, s', b') -> abort_over (B := Logged B) s' a) /\
  (forall env fuel resp s' b', device_write env fuel s b wp = Some (resp, s', b') -> abort_over (B := Logged B) s' a).
Proof.
  intros Hl Hrs Hid Ha aborted.
  assert (Hacc : forall env f t, acquire_access env s b l f t = Some (Ok tt, s)).
  { intros. unfold acquire_access. by rewrite Ha. }
  pose proof Hl as [_ Hcell]%link_for_Some. split_and!.
  - destruct (device_read_aborted aborted fuel s b rp a l s)
      as (s' & b' & E & _ & c1 & c2 & t & ->); [done..|by eapply take_abort_delivered|].
    by eexists _, _.
  - unfold device_write. rewrite Hid, Hl, Hacc. cbn [mbind option_bind write_loop].
    pose proof (take_abort_delivered (update s a (set_consumed_stb None)) a (set_consumed_stb None l) rest) as Hab.
    rewrite cells_update, decide_True, Hcell in Hab by done. specialize (Hab eq_refl). cbn [e_checks aborted].
    destruct (take_abort _ _ _) as [[ab ck] s2]. simpl in Hab. subst ab. cbn [mbind option_bind].
    by eexists _, _.
  - intros env f resp s' b' E. apply idle_abort_over.
    exact (device_read_closes env f s b rp a l s resp s' b' Hl Hrs (Hacc _ _ _) E).
  - intros env f resp s' b' E. apply idle_abort_over. rewrite <- Hid in Hl.
    exact (device_write_closes env f s b wp a l s resp s' b' Hl (Hacc _ _ _) E).
Qed.

(** An abort that comes during the last transaction of a read. *)
Lemma abort_confined_to_call_witness :
  let b := mkLogged (demo_bus [(Ok ([x31], true), 0)]) [] in
  let env := mkEnv [] id [id; fun s => deliver_abort s 0] in
  exists resp s' b', device_read env 1 demo b (mkDeviceReadParms 1 10 0 0 0 0) = Some (resp, s', b') /\
    drr_data resp = [x31] /\ abort_over (B := Logged Mock) s' 0.
Proof.
  intros b env.
  destruct (device_read env 1 demo b (mkDeviceReadParms 1 10 0 0 0 0)) as [[[resp s'] b']|] eqn:E; [|by vm_compute in E].
  exists resp, s', b'. split_and!; [done|by vm_compute in E; simplify_eq|].
  apply (abort_confined_to_call 0 demo b 0 (demo_link 1)
    (mkDeviceReadParms 1 10 0 0 0 0) (mkDeviceWriteParms 1 0 0 0 []) id []) with (env := env) (fuel := 1%nat) (resp := resp) (b' := b');
    [by vm_compute|done|done|by vm_compute|exact E].
Defined.

(** Device names.  [gpib0,<pad>] names exactly the device at that primary
    address, for each of the 31 addresses and whatever the default; every
    name that resolves to a device resolves to the default or to an address
    on the bus; and a well-formed name of another interface is 3, not 1. *)
Theorem device_names pad dp : 0 <= pad <= 30 ->
  parse_device_name (str "gpib0," ++ to_string pad) dp = Ok (Pad pad) /\
  parse_device_name (str "gpib1," ++ to_string pad) dp = Err DeviceNotAccessible /\
  parse_device_name (str "gpib0," ++ to_string pad ++ str ",3") dp = Err InvalidAddress /\
  (forall name p, parse_device_name name dp = Ok (Pad p) -> p = dp \/ 0 <= p <= 30).
Proof.
  intros Hp. split_and!.
  1-3: assert (Hin : pad ∈ map Z.of_nat (seq 0 31))
    by (apply list_elem_of_fmap; exists (Z.to_nat pad); split; [lia|apply elem_of_seq; lia]);
    cbn [map seq] in Hin;
    repeat (apply elem_of_cons in Hin as [->|Hin]; [by vm_compute|]); by apply elem_of_nil in Hin.
  intros name p. unfold parse_device_name. case_bool_decide; [intros [= <-]; by left|].
  case_bool_decide; [done|]. destruct (strip_prefix _ _) as [rest|]; [|done].
  destruct (parse_u8 (default _ _)) as [i|]; [|done]. destruct (negb _); [done|].
  destruct (tail _) as [|ps more]; [done|]. destruct (parse_u8 ps) as [q|] eqn:Eq; [|done].
  destruct (Z.ltb_spec 30 q); [done|]. destruct more; [|done]. intros [= <-]. right.
  apply parse_uint_range in Eq; lia.
Qed.

Lemma device_names_witness : parse_device_name (str "gpib0,18") 5 = Ok (Pad 18).
Proof. apply (device_names 18 5). lia. Defined.

(** [device_docmd] integers.  A value encoded for the wire in a declared
    width of at most 4 bytes and byte order decodes to itself, so a client
    reads back the bus status the server computed, in either order. *)
Theorem docmd_uint_roundtrip v n order parms : 0 <= v < 256 ^ Z.of_nat n -> (n <= 4)%nat ->
  ddp_data_in parms = uint_out v n order -> ddp_network_order parms = order ->
  zlen (ddp_data_in parms) = Z.of_nat n /\ uint_in parms = v.
Proof.
  intros Hv Hn Hd Ho. unfold uint_in. rewrite Hd, Ho.
  assert (Hbe : (if order then uint_out v n order else rev (uint_out v n order)) = be_bytes n v).
  { rewrite <- uint_out_be. unfold uint_out. destruct order; [done|]. by rewrite rev_involutive. }
  rewrite Hbe. split.
  - rewrite <- (zlen_be_bytes n v), <- Hbe. unfold zlen. destruct order; [done|by rewrite length_rev].
  - assert (256 ^ Z.of_nat n <= 256 ^ 4) by (apply Z.pow_le_mono_r; lia).
    change (256 ^ 4) with 4294967296 in *.
    assert (Hval : be_val (be_bytes n v) = v) by (rewrite be_val_be_bytes; by apply Z.mod_small).
    rewrite uint_of_val; [lia|done|lia].
Qed.

Lemma docmd_uint_roundtrip_witness :
  uint_in (mkDeviceDocmdParms 1 0 0 0 0x020001 false 2 [x08; x00]) = 8.
Proof. apply (docmd_uint_roundtrip 8 2 false); [by vm_compute|lia|by vm_compute|done]. Defined.

(** VXI-11 locks do not nest and undo exactly.  After a granted
    [device_lock], a second one on the same link is refused with 11 and
    changes nothing, and [device_unlock] succeeds, restores every lock table
    to what it was, and leaves a further [device_unlock] with 12. *)
Theorem lock_unlock_roundtrip {B} `{GpibBackend B} n s (b : B) id a l flags lk t0 wakes s1 :
  Lock.registry_ok n (locks s) -> 0 <= n < 4294967295 -> link_for s id = Some (a, l) ->
  device_lock [Poll (fun g => g, t0)] s b (mkDeviceLockParms id flags lk) = Some (NoError, s1) ->
  Lock.holds (locks s1) (resource l) (holder l) = true /\
  device_lock wakes s1 b (mkDeviceLockParms id flags lk) = Some (DeviceLockedByAnotherLink, s1) /\
  exists s2, device_unlock s1 id = (NoError, s2) /\ Lock.tabs (locks s2) = Lock.tabs (locks s) /\
    (device_unlock s2 id).1 = NoLockHeldByThisLink.
Proof.
  intros Hok Hn Hl Hlock.
  apply (device_lock_first_poll s b id a l flags lk t0 s1 Hl) in Hlock as (g & reg & Hh & Er & ->).
  destruct (link_for_window s a id l reg Hl) as (l1 & Hl1 & Hres & Hhold).
  set (s1 := window_drop (set_locks (window_open s a) reg) a) in *.
  change (locks s1) with reg.
  pose proof (Lock.try_request_holds _ _ _ _ _ _ Er) as Hgot.
  destruct (Lock.release_undoes_request_aux n _ _ _ _ _ _ Hok ltac:(lia) ltac:(lia) (or_introl eq_refl) Er)
    as [_ Hrel].
  split_and!; [done| |].
  - unfold device_lock. cbn [dlp_lid]. rewrite Hl1, Hres, Hhold. change (locks s1) with reg. by rewrite Hgot.
  - exists (set_locks s1 (Lock.release reg (resource l) (holder l)).2). split_and!.
    + unfold device_unlock. rewrite Hl1, Hres, Hhold. change (locks s1) with reg. by rewrite Hgot.
    + done.
    + unfold device_unlock. change (link_for (set_locks s1 _) id) with (link_for s1 id).
      rewrite Hl1, Hres, Hhold. cbn [locks set_locks]. unfold Lock.holds in *. by rewrite Hrel, Hh.
Qed.

Lemma lock_unlock_roundtrip_witness :
  exists s1, device_lock [Poll (fun g => g, 0)] demo (demo_bus []) (mkDeviceLockParms 1 0 0) = Some (NoError, s1) /\
    exists s2, device_unlock s1 1 = (NoError, s2) /\ Lock.tabs (locks s2) = ∅.
Proof.
  destruct (device_lock [Poll (fun g => g, 0)] demo (demo_bus []) (mkDeviceLockParms 1 0 0)) as [[c s1]|] eqn:E;
    [|by vm_compute in E].
  assert (c = NoError) as -> by (by vm_compute in E; simplify_eq).
  exists s1. split; [done|].
  destruct (lock_unlock_roundtrip 0 demo (demo_bus []) 1 0 (demo_link 1) 0 0 0 [] s1) as (_ & _ & s2 & H2 & H3 & _);
    [apply Lock.registry_ok_new|lia|by vm_compute|exact E|].
  by exists s2.
Defined.

End Vxi11Ops.
