(* ===== verification/Vxi11Server.v ===== *)
(** * The VXI-11 server: [src/vxi11/server.rs]

    Link creation and destruction, the interrupt channel with its SRQ
    forwarder, the abort channel, the dispatch of a decoded call and the
    connection loop, on top of the device operations of [Vxi11Ops]. *)

From S2P Require Import Prelude RustStr Lock Backend Xdr Rpc Messages Vxi11Ops.

Module Vxi11Server.
Import RustStr Backend Messages Rpc.Io Vxi11Ops.

(** The interrupt channel is the handles sent through its [tx] so far. *)
Record ConnState : Type := mkConn {
  owned : list Z;
  intr : option (list (list byte));
}.

(** ** Links *)

Definition retain_ne (id : Z) (l : list Z) : list Z := filter (fun x => x <> id) l.

Section CreateLink.
Variable instrument_for : Z -> Z.

Definition refuse (e : ErrorCode) : CreateLinkResp := mkCreateLinkResp (error_as_u32 e) 0 0 0.

Definition new_link (id : Z) (k : DeviceAddr) (instr : Z) : Link :=
  mkLink id k instr false false false None None.

(** Insert a link under the next id. *)
Definition insert_link (s : Shared) (k : DeviceAddr) (instr : Z) : Shared :=
  let id := next_lid s in
  mkShared (config s) (<[id := next_cell s]> (links s))
    (<[next_cell s := new_link id k instr]> (cells s)) (S (next_cell s))
    (as_i32 (id + 1)) (abort_port s) (locks s).

Definition create_link (turns : list Lock.turn) (t : Z) (s : Shared) (conn : ConnState)
    (parms : CreateLinkParms) : option (CreateLinkResp * Shared * ConnState) :=
  let name := from_utf8_lossy (clp_device parms) in
  match parse_device_name name (default_pad (config s)) with
  | Err e => Some (refuse e, s, conn)
  | Ok k =>
      let instr := instrument_for (match k with Pad pad => pad | Interface => default_pad (config s) end) in
      if max_links (config s) <=? Z.of_nat (size (links s))
      then Some (refuse OutOfResources, s, conn)
      else
        let id := next_lid s in
        let s := insert_link s k instr in
        let conn := mkConn (owned conn ++ [id]) (intr conn) in
        let done := mkCreateLinkResp (error_as_u32 NoError) id (abort_port s) (max_recv_size (config s)) in
        if clp_lock_device parms then
          '(_, l) ← link_for s id;
          '(granted, reg) ← Lock.request turns (t + ms (clp_lock_timeout_ms parms)) (resource l) (holder l) []
                              (locks s);
          let s := set_locks s reg in
          if negb (Lock.is_success granted)
          then Some (refuse DeviceLockedByAnotherLink, set_links s (delete id (links s)),
                     mkConn (retain_ne id (owned conn)) (intr conn))
          else Some (done, s, conn)
        else Some (done, s, conn)
  end.

End CreateLink.

Definition destroy_link (s : Shared) (conn : ConnState) (id : Z) : ErrorCode * Shared * ConnState :=
  match link_for s id with
  | Some (_, l) =>
      (NoError, set_locks (set_links s (delete id (links s))) (Lock.release_all (locks s) (holder l)),
       mkConn (retain_ne id (owned conn)) (intr conn))
  | None => (InvalidLinkIdentifier, s, conn)
  end.

(** ** Service requests *)

Section Server.
Context {B : Type} `{GpibBackend B}.
Variable instrument_for : Z -> Z.

Definition device_enable_srq (env : Env B) (s : Shared) (conn : ConnState) (b : B)
    (parms : DeviceEnableSrqParms) : ErrorCode * Shared * ConnState * B :=
  match link_for s (dep_lid parms) with
  | None => (InvalidLinkIdentifier, s, conn, b)
  | Some (a, l) =>
      let was_enabled := bool_decide (is_Some (srq_handle l)) in
      let s := update s a (set_srq_handle (if dep_enable parms then Some (dep_handle parms) else None)) in
      if dep_enable parms && negb was_enabled then
        match intr conn with
        | Some sent =>
            let '(r, b) := gb_srq_asserted (e_hold env b) in
            let high := match r with Ok x => x | Err _ => false end in
            (NoError, s,
             if (high : bool) then mkConn (owned conn) (Some (sent ++ [dep_handle parms])) else conn, b)
        | None => (NoError, s, conn, b)
        end
      else (NoError, s, conn, b)
  end.

(** [connected]: whether the TCP connection to the client was established. *)
Definition create_intr_chan (connected : bool) (conn : ConnState) (parms : DeviceRemoteFunc)
    : ErrorCode * ConnState :=
  if negb (drf_prog_family parms =? DEVICE_TCP) then (OperationNotSupported, conn)
  else if negb (drf_prog_num parms =? DEVICE_INTR_PROG) || negb (drf_prog_vers parms =? DEVICE_INTR_VERS)
  then (OperationNotSupported, conn)
  else if bool_decide (is_Some (intr conn)) then (ChannelAlreadyEstablished, conn)
  else if negb connected then (ChannelNotEstablished, conn)
  else (NoError, mkConn (owned conn) (Some [])).

Definition destroy_intr_chan (conn : ConnState) : ErrorCode * ConnState :=
  match intr conn with
  | Some _ => (NoError, mkConn (owned conn) None)
  | None => (ChannelNotEstablished, conn)
  end.

(** The sender task: one [device_intr_srq] call per handle. *)
Fixpoint sender (xid : Z) (handles : list (list byte)) : list (list byte) :=
  match handles with
  | [] => []
  | handle :: handles =>
      let xid := as_u32 (xid + 1) in
      Rpc.encode_call xid DEVICE_INTR_PROG DEVICE_INTR_VERS DEVICE_INTR_SRQ
        (DeviceSrqParms_encode (mkDeviceSrqParms handle)) :: sender xid handles
  end.

(** The enabled links of a connection. *)
Definition srq_targets (s : Shared) (own : list Z) : list (nat * Link) :=
  filter (fun p => is_Some (srq_handle p.2)) (omap (link_for s) own).

(** One link of the forwarder's pass over its targets. *)
Definition forward_one (p : nat * Link) (polled : gmap (list Z) bool) (stash : gmap (list Z) Z)
    (s : Shared) (b : B) (tx : list (list byte))
    : gmap (list Z) bool * gmap (list Z) Z * Shared * B * list (list byte) :=
  let '(a, l) := p in
  let r := resource l in
  let '(requesting, polled, stash, b) :=
    if is_interface l then (true, polled, stash, b)
    else
      match polled !! r with
      | Some x => (x, polled, stash, b)
      | None =>
          let '(poll, b) := gb_serial_poll b (instrument l) in
          let '(x, taken) :=
            match poll with Ok stb => (has_flag stb STB_RQS, Some stb) | Err _ => (false, None) end in
          let stash := match x, taken with true, Some stb => <[r := stb]> stash | _, _ => stash end in
          (x, <[r := x]> polled, stash, b)
      end in
  if (requesting : bool) then
    let s := match stash !! r with Some stb => update s a (set_consumed_stb (Some stb)) | None => s end in
    let tx := match (l ← cells s !! a; srq_handle l) with Some h => tx ++ [h] | None => tx end in
    (polled, stash, s, b, tx)
  else (polled, stash, s, b, tx).

Fixpoint forward (targets : list (nat * Link)) (polled : gmap (list Z) bool) (stash : gmap (list Z) Z)
    (s : Shared) (b : B) (tx : list (list byte)) : Shared * B * list (list byte) :=
  match targets with
  | [] => (s, b, tx)
  | p :: targets =>
      let '(polled, stash, s, b, tx) := forward_one p polled stash s b tx in
      forward targets polled stash s b tx
  end.

Definition srq_pass (s : Shared) (own : list Z) (b : B) (tx : list (list byte))
    : Shared * B * list (list byte) :=
  forward (srq_targets s own) ∅ ∅ s b tx.

(** The forwarder's loop; a [Lagged] receive counts as an edge. *)
Inductive Event : Type := Shutdown | Edge | Closed.

Fixpoint srq_forwarder (events : list Event) (initial_pass : bool) (s : Shared) (own : list Z) (b : B)
    (tx : list (list byte)) : Shared * B * list (list byte) :=
  let '(s, b, tx) := if initial_pass then srq_pass s own b tx else (s, b, tx) in
  match events with
  | Edge :: events => srq_forwarder events true s own b tx
  | _ => (s, b, tx)
  end.

(** ** Dispatch *)

Record CallEnv : Type := mkCallEnv {
  c_env : Env B;
  c_wakes : list Wake;
  c_connect : bool;
  c_fuel : nat;
}.

Definition dispatch (ce : CallEnv) (s : Shared) (conn : ConnState) (b : B) (header : Rpc.CallHeader)
    (args : list byte) : option (result (list byte) Z * Shared * ConnState * B) :=
  let xid := Rpc.xid header in
  let proc := Rpc.proc header in
  let env := c_env ce in
  let success res := Ok (E := Z) (Rpc.reply_success xid res) in
  if negb (Rpc.prog header =? DEVICE_CORE_PROG) then Some (Ok (Rpc.reply_prog_unavail xid), s, conn, b)
  else if negb (Rpc.vers header =? DEVICE_CORE_VERS)
  then Some (Ok (Rpc.reply_prog_mismatch xid DEVICE_CORE_VERS DEVICE_CORE_VERS), s, conn, b)
  else if proc =? CREATE_LINK then
    match CreateLinkParms_decode args with
    | Err _ => Some (Err xid, s, conn, b)
    | Ok parms =>
        '(resp, s, conn) ← create_link instrument_for (e_turns env) (now b) s conn parms;
        Some (success (CreateLinkResp_encode resp), s, conn, b)
    end
  else if proc =? DEVICE_WRITE then
    match DeviceWriteParms_decode args (max_recv_size (config s)) with
    | Ok parms =>
        '(resp, s, b) ← device_write env (c_fuel ce) s b parms;
        Some (success (DeviceWriteResp_encode resp), s, conn, b)
    | Err (Xdr.TooLong _ _) =>
        Some (success (DeviceWriteResp_encode (mkDeviceWriteResp (error_as_u32 ParameterError) 0)), s, conn, b)
    | Err _ => Some (Err xid, s, conn, b)
    end
  else if proc =? DEVICE_READ then
    match DeviceReadParms_decode args with
    | Err _ => Some (Err xid, s, conn, b)
    | Ok parms =>
        '(resp, s, b) ← device_read env (c_fuel ce) s b parms;
        Some (success (DeviceReadResp_encode resp), s, conn, b)
    end
  else if proc =? DEVICE_READSTB then
    match DeviceGenericParms_decode args with
    | Err _ => Some (Err xid, s, conn, b)
    | Ok parms =>
        '(resp, s, b) ← device_readstb env s b parms;
        Some (success (DeviceReadStbResp_encode resp), s, conn, b)
    end
  else if (proc =? DEVICE_TRIGGER) || (proc =? DEVICE_CLEAR) || (proc =? DEVICE_REMOTE) || (proc =? DEVICE_LOCAL) then
    match DeviceGenericParms_decode args with
    | Err _ => Some (Err xid, s, conn, b)
    | Ok parms =>
        '(error, s, b) ← device_simple env s b proc parms;
        Some (success (encode_device_error error), s, conn, b)
    end
  else if proc =? DESTROY_LINK then
    match Xdr.i32 (Xdr.new args) with
    | Err _ => Some (Err xid, s, conn, b)
    | Ok (id, _) =>
        let '(error, s, conn) := destroy_link s conn id in
        Some (success (encode_device_error (error_as_u32 error)), s, conn, b)
    end
  else if proc =? DEVICE_LOCK then
    match DeviceLockParms_decode args with
    | Err _ => Some (Err xid, s, conn, b)
    | Ok parms =>
        '(error, s) ← device_lock (c_wakes ce) s b parms;
        Some (success (encode_device_error (error_as_u32 error)), s, conn, b)
    end
  else if proc =? DEVICE_UNLOCK then
    match Xdr.i32 (Xdr.new args) with
    | Err _ => Some (Err xid, s, conn, b)
    | Ok (id, _) =>
        let '(error, s) := device_unlock s id in
        Some (success (encode_device_error (error_as_u32 error)), s, conn, b)
    end
  else if proc =? DEVICE_ENABLE_SRQ then
    match DeviceEnableSrqParms_decode args with
    | Err _ => Some (Err xid, s, conn, b)
    | Ok parms =>
        let '(error, s, conn, b) := device_enable_srq env s conn b parms in
        Some (success (encode_device_error (error_as_u32 error)), s, conn, b)
    end
  else if proc =? CREATE_INTR_CHAN then
    match DeviceRemoteFunc_decode args with
    | Err _ => Some (Err xid, s, conn, b)
    | Ok parms =>
        let '(error, conn) := create_intr_chan (c_connect ce) conn parms in
        Some (success (encode_device_error (error_as_u32 error)), s, conn, b)
    end
  else if proc =? DESTROY_INTR_CHAN then
    let '(error, conn) := destroy_intr_chan conn in
    Some (success (encode_device_error (error_as_u32 error)), s, conn, b)
  else if proc =? DEVICE_DOCMD then
    match DeviceDocmdParms_decode args with
    | Err _ => Some (Err xid, s, conn, b)
    | Ok parms =>
        '(resp, s, b) ← device_docmd env s b parms;
        Some (success (DeviceDocmdResp_encode resp), s, conn, b)
    end
  else Some (Ok (Rpc.reply_proc_unavail xid), s, conn, b).

Definition abort_dispatch (s : Shared) (header : Rpc.CallHeader) (args : list byte) : list byte * Shared :=
  let xid := Rpc.xid header in
  if negb (Rpc.prog header =? DEVICE_ASYNC_PROG) then (Rpc.reply_prog_unavail xid, s)
  else if negb (Rpc.vers header =? DEVICE_ASYNC_VERS)
  then (Rpc.reply_prog_mismatch xid DEVICE_ASYNC_VERS DEVICE_ASYNC_VERS, s)
  else if negb (Rpc.proc header =? DEVICE_ABORT) then (Rpc.reply_proc_unavail xid, s)
  else
    match Xdr.i32 (Xdr.new args) with
    | Err _ => (Rpc.reply_garbage_args xid, s)
    | Ok (id, _) =>
        match link_for s id with
        | Some (a, _) => (Rpc.reply_success xid (encode_device_error (error_as_u32 NoError)), deliver_abort s a)
        | None => (Rpc.reply_success xid (encode_device_error (error_as_u32 InvalidLinkIdentifier)), s)
        end
    end.

(** ** The connection

    [peers]: what the environment does around each call, and whether the
    reply could be written. *)

(** The reply to one record, if it gets one. *)
Definition answer (ce : CallEnv) (s : Shared) (conn : ConnState) (b : B) (record : list byte)
    : option (option (list byte) * Shared * ConnState * B) :=
  match Rpc.decode_call record with
  | Ok (header, args) =>
      '(r, s, conn, b) ← dispatch ce s conn b header args;
      Some (Some (match r with Ok reply => reply | Err xid => Rpc.reply_garbage_args xid end), s, conn, b)
  | Err (Rpc.RpcVersion xid _) => Some (Some (Rpc.reply_rpc_mismatch xid), s, conn, b)
  | Err (Rpc.NotACall _) => Some (None, s, conn, b)
  | Err (Rpc.Garbled _) => Some (None, s, conn, b)
  end.

(** The end of [serve_connection] after the loop broke. *)
Fixpoint remove_links (own : list Z) (s : Shared) : list Link * Shared :=
  match own with
  | [] => ([], s)
  | id :: own =>
      let removed := link_for s id in
      let '(rest, s) := remove_links own (set_links s (delete id (links s))) in
      (match removed with Some (_, l) => l :: rest | None => rest end, s)
  end.

Definition cleanup (s : Shared) (conn : ConnState) : Shared :=
  let '(removed, s) := remove_links (owned conn) s in
  set_locks s (fold_left (fun reg l => Lock.release_all reg (holder l)) removed (locks s)).

Fixpoint serve_connection (peers : list (CallEnv * option Io.IoError)) (rd : Reader) (s : Shared)
    (conn : ConnState) (b : B) : option (result unit Io.IoError * Shared * ConnState * B * list (list byte)) :=
  match peers with
  | [] => None
  | (ce, write_error) :: peers =>
      let max_record := max_recv_size (config s) * 2 + 1024 in
      record ← Rpc.read_record rd max_record;
      match record with
      | Err e => Some (Err e, s, conn, b, [])
      | Ok (None, _) => Some (Ok tt, cleanup s conn, conn, b, [])
      | Ok (Some r, rd) =>
          '(reply, s, conn, b) ← answer ce s conn b r;
          match reply with
          | None => serve_connection peers rd s conn b
          | Some reply =>
              match Rpc.write_record reply, write_error with
              | Err e, _ => Some (Err e, s, conn, b, [])
              | Ok wire, Some e => Some (Err e, s, conn, b, [])
              | Ok wire, None =>
                  '(res, s, conn, b, out) ← serve_connection peers rd s conn b;
                  Some (res, s, conn, b, wire :: out)
              end
          end
      end
  end.

(** One connection of the abort channel.  [peers]: what other tasks did to the
    server while a record was awaited, and whether the reply could be written. *)
Fixpoint abort_connection (peers : list (step * option Io.IoError)) (rd : Reader) (s : Shared) : option (Shared * list (list byte)) :=
  match peers with
  | [] => None
  | (other, write_error) :: peers =>
      record ← Rpc.read_record rd 4096;
      let s := other s in
      match record with
      | Err _ | Ok (None, _) => Some (s, [])
      | Ok (Some r, rd) =>
          let reply :=
            match Rpc.decode_call r with
            | Ok (header, args) => Some (abort_dispatch s header args)
            | Err (Rpc.RpcVersion xid _) => Some (Rpc.reply_rpc_mismatch xid, s)
            | Err _ => None
            end in
          match reply with
          | None => Some (s, [])
          | Some (reply, s) =>
              match Rpc.write_record reply, write_error with
              | Ok wire, None => '(s, out) ← abort_connection peers rd s; Some (s, wire :: out)
              | _, _ => Some (s, [])
              end
          end
      end
  end.

End Server.

(** ** The invariant *)

(** Every link id leads to a cell of that id, cells are allocated in order,
    and the table respects the configured cap. *)
Record server_ok (s : Shared) : Prop := {
  ok_links : forall id a, links s !! id = Some a -> exists l, cells s !! a = Some l /\ lid l = id;
  ok_cells : forall a, is_Some (cells s !! a) -> (a < next_cell s)%nat;
  ok_cap : Z.of_nat (size (links s)) <= max_links (config s);
}.

(** Other tasks keep it. *)
Definition step_keeps (P : Shared -> Prop) (f : step) : Prop := forall s, P s -> P (f s).
Definition env_keeps {B} (P : Shared -> Prop) (ce : CallEnv (B := B)) : Prop :=
  Forall (step_keeps P) (e_checks (c_env ce)) /\
  Forall (fun w => match w with Notified f => step_keeps P f | Poll _ => True end) (c_wakes ce).
Definition step_ok : step -> Prop := step_keeps server_ok.
Definition env_ok {B} : CallEnv (B := B) -> Prop := env_keeps server_ok.

Create HintDb srv.

Lemma ok_set_locks s r : server_ok s -> server_ok (set_locks s r).
Proof. intros []. by split. Qed.

Lemma ok_update s a f : (forall l, lid (f l) = lid l) -> server_ok s -> server_ok (update s a f).
Proof.
  intros Hf [H1 H2 H3]. split; [| |done].
  - intros id a' Hi. destruct (H1 id a' Hi) as (l & Hl & Hid). rewrite cells_update.
    case_decide; [subst; rewrite Hl; eexists; split; [done|by rewrite Hf]|eauto].
  - intros a'. rewrite cells_update. change (next_cell (update s a f)) with (next_cell s).
    case_decide; [subst; rewrite fmap_is_Some|]; auto.
Qed.

Lemma ok_delete_link s id : server_ok s -> server_ok (set_links s (delete id (links s))).
Proof.
  intros [H1 H2 H3]. split; [|done|].
  - intros id' a. simpl. rewrite lookup_delete. case_decide; [done|apply H1].
  - simpl. rewrite map_size_delete. destruct (links s !! id); simpl; lia.
Qed.

Lemma ok_insert_link s k i : server_ok s -> Z.of_nat (size (links s)) < max_links (config s) ->
  server_ok (insert_link s k i).
Proof.
  intros [H1 H2 H3] Hcap. split; simpl.
  - intros id a. rewrite lookup_insert. case_decide.
    + intros [= <-]. subst. rewrite lookup_insert_eq. by eexists.
    + intros Hi. destruct (H1 id a Hi) as (l & Hl & Hid). exists l. split; [|done].
      rewrite lookup_insert_ne; [done|]. intros <-.
      specialize (H2 (next_cell s) ltac:(eauto)). lia.
  - intros a. rewrite lookup_insert. case_decide; [lia|]. intros ?%H2. lia.
  - rewrite map_size_insert. destruct (links s !! next_lid s); simpl; lia.
Qed.

(** *** Predicates the calls on a link keep

    Everything but making and removing links writes locks and fields of cells
    only: whatever is insensitive to those is kept, if the other tasks keep it
    too. *)
Section Keep.
Context {B : Type} `{GpibBackend B}.
Variable P : Shared -> Prop.
Hypothesis keep_locks : forall s r, P s -> P (set_locks s r).
Hypothesis keep_update : forall s a f, (forall l, lid (f l) = lid l) -> P s -> P (update s a f).

Lemma keep_others checks s : Forall (step_keeps P) checks -> P s -> P (others checks s).
Proof. intros Hc Hs. destruct Hc as [|f checks Hf _]; [done|by apply Hf]. Qed.

Lemma keep_take_abort checks s a r : Forall (step_keeps P) checks -> P s -> take_abort checks s a = r ->
  Forall (step_keeps P) r.1.2 /\ P r.2.
Proof.
  intros Hc Hs <-. unfold take_abort. destruct checks as [|f checks]; simpl.
  - split; [done|]. by apply keep_update.
  - apply Forall_cons in Hc as [Hf Hc]. split; [done|]. apply keep_update; [done|by apply Hf].
Qed.

Lemma keep_window_open s a : P s -> P (window_open s a).
Proof. by apply keep_update. Qed.
Lemma keep_window_drop s a : P s -> P (window_drop s a).
Proof. by apply keep_update. Qed.
#[local] Hint Resolve keep_locks keep_update keep_window_open keep_window_drop : srv.

Lemma keep_acquire env s (b : B) l f t r s' : P s ->
  acquire_access env s b l f t = Some (r, s') -> P s'.
Proof.
  intros Hs. unfold acquire_access. destruct (Lock.has_access _ _ _); [by intros [= _ <-]|].
  destruct (negb _); [by intros [= _ <-]|].
  destruct (Lock.wait_for_access_timeout _ _ _ _ _) as [[g reg]|]; [|done].
  cbn [mbind option_bind]. intros [= _ <-]. auto with srv.
Qed.

Lemma keep_write_loop fuel : forall l a e d data checks s (b : B) w o w' ck s' b',
  Forall (step_keeps P) checks -> P s ->
  write_loop fuel l a e d data checks s b w = Some (o, w', ck, s', b') -> Forall (step_keeps P) ck /\ P s'.
Proof.
  induction fuel as [|fuel IH]; intros l a e d data checks s b w o w' ck s' b' Hc Hs; [done|].
  cbn [write_loop]. destruct (take_abort checks s a) as [[ab c1] s1] eqn:Et.
  apply keep_take_abort in Et as [Hc1 Hs1]; [|done..]. simpl in *.
  destruct ab; [by intros; simplify_eq|]. destruct (_ =? 0); [by intros; simplify_eq|].
  destruct (if is_interface l then _ else _) as [[[]|err] b1];
    [|intros; simplify_eq; split; [done|by apply keep_others]].
  destruct (_ =? _); [by intros; simplify_eq|]. by apply IH.
Qed.

Lemma keep_read_loop fuel : forall l a tc rs d sm checks s (b : B) data o data' s' b',
  Forall (step_keeps P) checks -> P s ->
  read_loop fuel l a tc rs d sm checks s b data = Some (o, data', s', b') -> P s'.
Proof.
  induction fuel as [|fuel IH]; intros l a tc rs d sm checks s b data o data' s' b' Hc Hs; [done|].
  cbn [read_loop]. destruct (take_abort checks s a) as [[ab c1] s1] eqn:Et.
  apply keep_take_abort in Et as [Hc1 Hs1]; [|done..]. simpl in *.
  destruct ab; [by intros; simplify_eq|]. destruct (_ =? 0); [by intros; simplify_eq|].
  destruct (slice_of _ _) as [sl|]; [|done]. cbn [mbind option_bind].
  destruct (read_attempt _ _ _ _) as [[[chunk e]|e] b1].
  - destruct (negb _ || _); [intros; simplify_eq; by apply keep_others|]. by apply IH.
  - destruct (says _ _ || says _ _); [by apply IH|intros; simplify_eq; by apply keep_others].
Qed.

Lemma keep_lock_wait wakes : forall d l a s c s',
  Forall (fun w => match w with Notified f => step_keeps P f | Poll _ => True end) wakes -> P s ->
  lock_wait wakes d l a s = Some (c, s') -> P s'.
Proof.
  induction wakes as [|w wakes IH]; intros d l a s c s' Hw Hs; [done|].
  apply Forall_cons in Hw as [Hf Hw]. cbn [lock_wait]. destruct w as [[f t]|f].
  - destruct (Lock.try_request _ _ _ _) as [[g|] reg].
    + intros [= _ <-]. auto with srv.
    + destruct (_ <=? _); [intros [= _ <-]; auto with srv|]. apply IH; auto with srv.
  - specialize (Hf s Hs). destruct (cells (f s) !! a) as [cl|]; [|by apply IH].
    destruct (permit cl); [|by apply IH].
    destruct (take_abort [] _ a) as [[ab c1] s1] eqn:Et.
    apply keep_take_abort in Et as [_ Hs1]; [|constructor|by apply keep_update]. simpl in *.
    destruct ab; [by intros [= _ <-]|by apply IH].
Qed.

(** Split the lock gate of a handler. *)
Ltac gate Hs :=
  match goal with
  | |- context [acquire_access ?e ?s ?b ?l ?f ?t] =>
      let E := fresh "Eacc" in let Hs1 := fresh "Hs" in
      destruct (acquire_access e s b l f t) as [[[[]|?] ?]|] eqn:E; cbn [mbind option_bind];
      [pose proof (keep_acquire _ _ _ _ _ _ _ _ Hs E) as Hs1
      |pose proof (keep_acquire _ _ _ _ _ _ _ _ Hs E); by intros; simplify_eq
      |done]
  end.

Lemma keep_device_write env fuel s (b : B) p r s' b' : Forall (step_keeps P) (e_checks env) -> P s ->
  device_write env fuel s b p = Some (r, s', b') -> P s'.
Proof.
  intros Hc Hs. unfold device_write. destruct (link_for s _) as [[a l]|]; [|by intros; simplify_eq].
  gate Hs. destruct (write_loop _ _ _ _ _ _ _ _ _ _) as [[[[[o w] ck] s2] b2]|] eqn:E; [|done].
  apply keep_write_loop in E as [Hck Hs2]; [|done|auto with srv].
  cbn [mbind option_bind]. case_bool_decide.
  - destruct (take_abort ck s2 a) as [[ab c3] s3] eqn:Et.
    apply keep_take_abort in Et as [_ Hs3]; [|done..]. intros [= _ <- _]. auto with srv.
  - intros [= _ <- _]. auto with srv.
Qed.

Lemma keep_device_read env fuel s (b : B) p r s' b' : Forall (step_keeps P) (e_checks env) -> P s ->
  device_read env fuel s b p = Some (r, s', b') -> P s'.
Proof.
  intros Hc Hs. unfold device_read. destruct (link_for s _) as [[a l]|]; [|by intros; simplify_eq].
  destruct (_ =? 0); [by intros; simplify_eq|]. gate Hs.
  destruct (read_loop _ _ _ _ _ _ _ _ _ _ _) as [[[[o d] s2] b2]|] eqn:E; [|done].
  apply keep_read_loop in E; [|done|auto with srv].
  cbn [mbind option_bind]. intros [= _ <- _]. auto with srv.
Qed.

Lemma keep_device_readstb env s (b : B) p r s' b' : Forall (step_keeps P) (e_checks env) -> P s ->
  device_readstb env s b p = Some (r, s', b') -> P s'.
Proof.
  intros Hc Hs. unfold device_readstb. destruct (link_for s _) as [[a l]|]; [|by intros; simplify_eq].
  destruct (is_interface l); [by intros; simplify_eq|]. gate Hs.
  destruct (_ ≫= _) as [stb|]; [intros [= _ <- _]; auto with srv|].
  destruct (gb_serial_poll _ _) as [polled b1].
  destruct (take_abort _ _ a) as [[ab ck] s2] eqn:Et.
  apply keep_take_abort in Et as [_ Hs2]; [|done|auto with srv]. simpl in *.
  destruct ab; [|destruct polled]; intros [= _ <- _]; auto with srv.
Qed.

Lemma keep_device_simple env s (b : B) proc p r s' b' : Forall (step_keeps P) (e_checks env) -> P s ->
  device_simple env s b proc p = Some (r, s', b') -> P s'.
Proof.
  intros Hc Hs. unfold device_simple. destruct (link_for s _) as [[a l]|]; [|by intros; simplify_eq].
  gate Hs. destruct (simple_bus _ _ _ _) as [[[o|e] b1]|]; [| |done]; cbn [mbind option_bind].
  - destruct (take_abort _ _ a) as [[ab ck] s2] eqn:Et.
    apply keep_take_abort in Et as [_ Hs2]; [|done|auto with srv]. intros [= _ <- _]. auto with srv.
  - intros [= _ <- _]. auto with srv.
Qed.

Lemma keep_device_docmd env s (b : B) p r s' b' : Forall (step_keeps P) (e_checks env) -> P s ->
  device_docmd env s b p = Some (r, s', b') -> P s'.
Proof.
  intros Hc Hs. unfold device_docmd. destruct (link_for s _) as [[a l]|]; [|by intros; simplify_eq].
  destruct (negb _); [by intros; simplify_eq|]. gate Hs.
  destruct (docmd_command _ _ _ _) as [[early|res] b1].
  - intros [= _ <- _]. auto with srv.
  - destruct (take_abort _ _ a) as [[ab ck] s2] eqn:Et.
    apply keep_take_abort in Et as [_ Hs2]; [|done|auto with srv]. intros [= _ <- _]. auto with srv.
Qed.

Lemma keep_device_lock wakes s (b : B) p c s' :
  Forall (fun w => match w with Notified f => step_keeps P f | Poll _ => True end) wakes -> P s ->
  device_lock wakes s b p = Some (c, s') -> P s'.
Proof.
  intros Hw Hs. unfold device_lock. destruct (link_for s _) as [[a l]|]; [|by intros; simplify_eq].
  destruct (Lock.holds _ _ _); [by intros; simplify_eq|].
  destruct (lock_wait _ _ _ _ _) as [[c1 s1]|] eqn:E; [|done]. cbn [mbind option_bind].
  apply keep_lock_wait in E; [|done|auto with srv]. intros [= _ <-]. auto with srv.
Qed.

Lemma keep_device_unlock s id e s' : P s -> device_unlock s id = (e, s') -> P s'.
Proof.
  intros Hs. unfold device_unlock. destruct (link_for s id) as [[a l]|]; [|by intros; simplify_eq].
  destruct (Lock.holds _ _ _); intros; simplify_eq; auto with srv.
Qed.

Lemma keep_enable_srq env s conn (b : B) p e s' conn' b' : P s ->
  device_enable_srq env s conn b p = (e, s', conn', b') -> P s'.
Proof.
  intros Hs. unfold device_enable_srq. destruct (link_for s _) as [[a l]|]; [|by intros; simplify_eq].
  destruct (_ && _); [|intros; simplify_eq; auto with srv].
  destruct (intr conn); [|intros; simplify_eq; auto with srv].
  destruct (gb_srq_asserted _) as [r b1]. intros; simplify_eq; auto with srv.
Qed.

End Keep.

#[export] Hint Resolve ok_set_locks ok_update ok_delete_link : srv.

Section Preserve.
Context {B : Type} `{GpibBackend B}.

Lemma ok_create_link ifor turns t s conn p r s' conn' : server_ok s ->
  create_link ifor turns t s conn p = Some (r, s', conn') -> server_ok s'.
Proof.
  intros Hs. unfold create_link. destruct (parse_device_name _ _) as [k|e]; [|by intros; simplify_eq].
  destruct (Z.leb_spec (max_links (config s)) (Z.of_nat (size (links s)))); [by intros; simplify_eq|].
  set (i := ifor _).
  pose proof (ok_insert_link s k i Hs ltac:(lia)) as Hi.
  destruct (clp_lock_device p); [|by intros; simplify_eq].
  destruct (link_for _ _) as [[a l]|]; [|done]. cbn [mbind option_bind].
  destruct (Lock.request _ _ _ _ _ _) as [[g reg]|]; [|done]. cbn [mbind option_bind].
  destruct (negb _); intros [= _ <- _]; auto with srv.
Qed.

Lemma ok_destroy_link s conn id e s' conn' : server_ok s ->
  destroy_link s conn id = (e, s', conn') -> server_ok s'.
Proof.
  intros Hs. unfold destroy_link. destruct (link_for s id) as [[a l]|]; intros; simplify_eq; [|done].
  auto with srv.
Qed.

(** A reply in answer to the call [x]. *)
Definition reply_to (x : Z) (reply : list byte) : Prop :=
  exists stat results, reply = Rpc.accepted x stat ++ results.

Lemma reply_to_success x res : reply_to x (Rpc.reply_success x res).
Proof. by exists Rpc.SUCCESS, res. Qed.
Lemma reply_to_accepted x stat : reply_to x (Rpc.accepted x stat).
Proof. exists stat, []. by rewrite app_nil_r. Qed.
Lemma reply_to_mismatch x lo hi : reply_to x (Rpc.reply_prog_mismatch x lo hi).
Proof.
  unfold Rpc.reply_prog_mismatch. eexists Rpc.PROG_MISMATCH, _. Xdr.xdr_wire. by rewrite <- ?app_assoc.
Qed.
#[local] Hint Resolve reply_to_success reply_to_accepted reply_to_mismatch : srv.

Definition reply_of (r : result (list byte) Z) : list byte :=
  match r with Ok reply => reply | Err x => Rpc.reply_garbage_args x end.

Lemma dispatch_sound ifor ce s conn (b : B) h args r s' conn' b' : env_ok ce -> server_ok s ->
  dispatch ifor ce s conn b h args = Some (r, s', conn', b') ->
  server_ok s' /\ reply_to (Rpc.xid h) (reply_of r).
Proof.
  intros [Hc Hw] Hs. unfold dispatch.
  assert (Hgarb : Some (Err (Rpc.xid h), s, conn, b) = Some (r, s', conn', b') ->
    server_ok s' /\ reply_to (Rpc.xid h) (reply_of r)).
  { intros; simplify_eq. split; [done|]. apply reply_to_accepted. }
  repeat match goal with
  | |- (if ?c then _ else _) = _ -> _ => destruct c
  | |- Some (Ok _, s, conn, b) = _ -> _ => intros; simplify_eq; split; [done|]; simpl; eauto with srv
  | |- match ?d with Ok _ => _ | Err _ => _ end = _ -> _ => destruct d as [?p|?e]; [|try exact Hgarb]
  end.
  - destruct (create_link _ _ _ _ _ _) as [[[resp s1] c1]|] eqn:E; [|done]. cbn [mbind option_bind].
    apply ok_create_link in E; [|done]. intros; simplify_eq. eauto with srv.
  - destruct (device_write _ _ _ _ _) as [[[resp s1] b1]|] eqn:E; [|done]. cbn [mbind option_bind].
    apply (keep_device_write server_ok ok_set_locks ok_update) in E; [|done..]. intros; simplify_eq. eauto with srv.
  - destruct e; [exact Hgarb| |exact Hgarb]. intros; simplify_eq. eauto with srv.
  - destruct (device_read _ _ _ _ _) as [[[resp s1] b1]|] eqn:E; [|done]. cbn [mbind option_bind].
    apply (keep_device_read server_ok ok_set_locks ok_update) in E; [|done..]. intros; simplify_eq. eauto with srv.
  - destruct (device_readstb _ _ _ _) as [[[resp s1] b1]|] eqn:E; [|done]. cbn [mbind option_bind].
    apply (keep_device_readstb server_ok ok_set_locks ok_update) in E; [|done..]. intros; simplify_eq. eauto with srv.
  - destruct (device_simple _ _ _ _ _) as [[[resp s1] b1]|] eqn:E; [|done]. cbn [mbind option_bind].
    apply (keep_device_simple server_ok ok_set_locks ok_update) in E; [|done..]. intros; simplify_eq. eauto with srv.
  - destruct p as [id c]. destruct (destroy_link _ _ _) as [[e s1] c1] eqn:E.
    apply ok_destroy_link in E; [|done]. intros; simplify_eq. eauto with srv.
  - destruct (device_lock _ _ _ _) as [[e s1]|] eqn:E; [|done]. cbn [mbind option_bind].
    apply (keep_device_lock server_ok ok_set_locks ok_update) in E; [|done..]. intros; simplify_eq. eauto with srv.
  - destruct p as [id c]. destruct (device_unlock _ _) as [e s1] eqn:E.
    apply (keep_device_unlock server_ok ok_set_locks) in E; [|done]. intros; simplify_eq. eauto with srv.
  - destruct (device_enable_srq _ _ _ _ _) as [[[e s1] c1] b1] eqn:E.
    apply (keep_enable_srq server_ok ok_update) in E; [|done]. intros; simplify_eq. eauto with srv.
  - destruct (create_intr_chan _ _ _) as [e c1]. intros; simplify_eq. eauto with srv.
  - destruct (destroy_intr_chan _) as [e c1]. intros; simplify_eq. eauto with srv.
  - destruct (device_docmd _ _ _ _) as [[[resp s1] b1]|] eqn:E; [|done]. cbn [mbind option_bind].
    apply (keep_device_docmd server_ok ok_set_locks ok_update) in E; [|done..]. intros; simplify_eq. eauto with srv.
Qed.

End Preserve.

(** ** Every call is answered

    The longest wait a call can ask for is 2^32 - 1 ms, for a lock or for the
    bus: the other tasks get turns until then, and the loops that many. *)

Definition config_ok (c : Config) : Prop := in_u32 (max_recv_size c) /\ in_u32 (default_io_timeout_ms c).

Definition turns_until (t : Z) (turns : list Lock.turn) : Prop := Exists (fun tn : Lock.turn => t <= tn.2) turns.
Definition wakes_until (t : Z) (wakes : list Wake) : Prop :=
  Exists (fun w => match w with Poll tn => t <= tn.2 | Notified _ => False end) wakes.

Definition timely {B} (ce : CallEnv (B := B)) (t : Z) : Prop :=
  turns_until (t + ms 4294967295) (e_turns (c_env ce)) /\ wakes_until (t + ms 4294967295) (c_wakes ce) /\
  4294967295 + MAX_READ < Z.of_nat (c_fuel ce).

Section Total.
Context {B : Type} `{BackendLaws B}.
Variable env : Env B.

Lemma acquire_total s (b : B) l flags t : in_u32 t -> turns_until (now b + ms 4294967295) (e_turns env) ->
  is_Some (acquire_access env s b l flags t).
Proof.
  intros Ht Hturns. unfold acquire_access. destruct (Lock.has_access _ _ _); [done|].
  destruct (negb _); [done|].
  destruct (Lock.wait_timeout_total (e_turns env) (now b + ms t) (resource l) (holder l) (locks s)) as [[g reg] ->];
    [|done]. eapply Exists_impl; [exact Hturns|]. unfold ms, in_u32 in *. intros tn. simpl. lia.
Qed.

Lemma lock_wait_total wakes : forall deadline l a s, wakes_until deadline wakes ->
  is_Some (lock_wait wakes deadline l a s).
Proof.
  induction wakes as [|[[f u]|f] wakes IH]; intros deadline l a s Hw; [by apply Exists_nil in Hw|..];
    cbn [lock_wait]; apply Exists_cons in Hw.
  - destruct (Lock.try_request _ _ _ _) as [[g|] reg]; [done|].
    destruct (Z.leb_spec deadline u); [done|]. apply IH. destruct Hw as [Hw|]; [simpl in Hw; lia|done].
  - destruct Hw as [[]|Hw]. destruct (cells (f s) !! a) as [c|]; [|by apply IH].
    destruct (permit c); [|by apply IH]. destruct (take_abort _ _ _) as [[[|] ?] ?]; [done|by apply IH].
Qed.

Lemma write_loop_total fuel : forall l a eoi deadline data checks s (b : B) written,
  0 <= written <= zlen data -> zlen data - written <= WRITE_CHUNK * Z.of_nat fuel -> (0 < fuel)%nat ->
  is_Some (write_loop fuel l a eoi deadline data checks s b written).
Proof.
  induction fuel as [|fuel IH]; intros l a eoi deadline data checks s b written Hw Hf Hf0; [lia|].
  cbn [write_loop]. destruct (take_abort checks s a) as [[[|] checks'] s']; [done|]. destruct (_ =? 0); [done|].
  destruct (if is_interface l then _ else _) as [[u|e] b']; [|done].
  destruct (Z.eqb_spec (Z.min (written + WRITE_CHUNK) (zlen data)) (zlen data)); [done|].
  apply IH; unfold WRITE_CHUNK in *; [lia|lia|]. destruct fuel; [|lia]. lia.
Qed.

Lemma device_write_total fuel s (b : B) p : DeviceWriteParms_wf (max_recv_size (config s)) p ->
  config_ok (config s) -> turns_until (now b + ms 4294967295) (e_turns env) -> 4294967295 + MAX_READ < Z.of_nat fuel ->
  is_Some (device_write env fuel s b p).
Proof.
  intros Hp [Hmax _] Ht Hf. unfold DeviceWriteParms_wf in Hp. destruct_and? Hp. unfold device_write.
  destruct (link_for s _) as [[a l]|]; [|done].
  destruct (acquire_total s b l (dwp_flags p) (dwp_lock_timeout_ms p)) as [[[u|e] s1] ->]; [done..| |done].
  cbn [mbind option_bind].
  destruct (write_loop_total fuel l a (has_flag (dwp_flags p) OP_FLAG_END)
    (now b + ms (effective_timeout (config s) (dwp_io_timeout_ms p))) (dwp_data p) (e_checks env)
    (window_open (update s1 a (set_consumed_stb None)) a) (e_hold env b) 0) as [[[[[o w] c] s2] b2] ->];
    [split; [done|apply zlen_nonneg]|unfold in_u32, WRITE_CHUNK, MAX_READ in *; lia|unfold MAX_READ in *; lia|].
  cbn [mbind option_bind]. by destruct (if bool_decide (o = NoError) then _ else _) as [? ?].
Qed.

Lemma device_read_total fuel s (b : B) p : DeviceReadParms_wf p -> config_ok (config s) ->
  turns_until (now b + ms 4294967295) (e_turns env) -> 4294967295 + MAX_READ < Z.of_nat fuel ->
  is_Some (device_read env fuel s b p).
Proof.
  intros Hp [_ Hdef] Ht Hf. unfold DeviceReadParms_wf in Hp. destruct_and? Hp. unfold device_read.
  destruct (link_for s _) as [[a l]|]; [|done].
  destruct (Z.eqb_spec (drp_request_size p) 0); [done|].
  destruct (acquire_total s b l (drp_flags p) (drp_lock_timeout_ms p)) as [[[u|e] s1] ->]; [done..| |done].
  cbn [mbind option_bind]. set (b0 := match termchr_of p with Some _ => _ | None => _ end).
  assert (HT : in_u32 (effective_timeout (config s) (drp_io_timeout_ms p)))
    by (unfold effective_timeout; by destruct (_ =? 0)).
  destruct (read_loop_total fuel l a (termchr_of p) (drp_request_size p)
    (now b0 + ms (effective_timeout (config s) (drp_io_timeout_ms p))) (gb_read_slice_ms b0) (e_checks env)
    (window_open s1 a) b0 []) as (o & d & s' & b' & -> & _).
  - intros x Hx. by eapply read_slice.
  - unfold in_u32, MAX_READ in *. zlen_solve.
  - rewrite ms_left_budget. unfold in_u32, MAX_READ in *. zlen_solve.
  - done.
Qed.

Lemma device_readstb_total s (b : B) p : DeviceGenericParms_wf p ->
  turns_until (now b + ms 4294967295) (e_turns env) -> is_Some (device_readstb env s b p).
Proof.
  intros Hp Ht. unfold DeviceGenericParms_wf in Hp. destruct_and? Hp. unfold device_readstb.
  destruct (link_for s _) as [[a l]|]; [|done]. destruct (is_interface l); [done|].
  destruct (acquire_total s b l (dgp_flags p) (dgp_lock_timeout_ms p)) as [[[u|e] s1] ->]; [done..| |done].
  cbn [mbind option_bind]. destruct (cells s1 !! a ≫= _); [done|]. destruct (gb_serial_poll _ _) as [polled b1].
  destruct (take_abort _ _ _) as [[[|] ?] ?]; [done|]. by destruct polled.
Qed.

Lemma device_simple_total s (b : B) proc p : DeviceGenericParms_wf p ->
  turns_until (now b + ms 4294967295) (e_turns env) ->
  (proc =? DEVICE_TRIGGER) || (proc =? DEVICE_CLEAR) || (proc =? DEVICE_REMOTE) || (proc =? DEVICE_LOCAL) = true ->
  is_Some (device_simple env s b proc p).
Proof.
  intros Hp Ht Hproc. unfold DeviceGenericParms_wf in Hp. destruct_and? Hp. unfold device_simple.
  destruct (link_for s _) as [[a l]|]; [|done].
  destruct (acquire_total s b l (dgp_flags p) (dgp_lock_timeout_ms p)) as [[[u|e] s1] ->]; [done..| |done].
  cbn [mbind option_bind].
  assert (Hbus : is_Some (simple_bus env proc l b)).
  { unfold simple_bus. destruct (is_interface l), (proc =? DEVICE_TRIGGER), (proc =? DEVICE_CLEAR),
      (proc =? DEVICE_REMOTE), (proc =? DEVICE_LOCAL); done. }
  destruct Hbus as [[[o|e] b1] ->]; [|done]. cbn [mbind option_bind].
  by destruct (take_abort _ _ _) as [[? ?] ?].
Qed.

Lemma device_docmd_total s (b : B) p : DeviceDocmdParms_wf p ->
  turns_until (now b + ms 4294967295) (e_turns env) -> is_Some (device_docmd env s b p).
Proof.
  intros Hp Ht. unfold DeviceDocmdParms_wf in Hp. destruct_and? Hp. unfold device_docmd.
  destruct (link_for s _) as [[a l]|]; [|done]. destruct (negb _); [done|].
  destruct (acquire_total s b l (ddp_flags p) (ddp_lock_timeout_ms p)) as [[[u|e] s1] ->]; [done..| |done].
  cbn [mbind option_bind]. destruct (docmd_command _ _ _ _) as [[?|?] b1]; [done|].
  by destruct (take_abort _ _ _) as [[? ?] ?].
Qed.

Lemma device_lock_total wakes s (b : B) p : DeviceLockParms_wf p -> wakes_until (now b + ms 4294967295) wakes ->
  is_Some (device_lock wakes s b p).
Proof.
  intros Hp Hw. unfold DeviceLockParms_wf in Hp. destruct_and? Hp. unfold device_lock.
  destruct (link_for s _) as [[a l]|]; [|done]. destruct (Lock.holds _ _ _); [done|].
  destruct (lock_wait_total wakes (now b + (if has_flag (dlp_flags p) OP_FLAG_WAITLOCK
    then ms (dlp_lock_timeout_ms p) else 0)) l a (window_open s a)) as [[c s1] ->]; [|done].
  eapply Exists_impl; [exact Hw|]. intros [tn|f]; [|done]. unfold in_u32, ms in *. destruct (has_flag _ _); lia.
Qed.

Lemma link_for_insert s k i :
  link_for (insert_link s k i) (next_lid s) = Some (next_cell s, new_link (next_lid s) k i).
Proof.
  unfold link_for, insert_link. cbn [links cells]. rewrite lookup_insert_eq. cbn [mbind option_bind].
  by rewrite lookup_insert_eq.
Qed.

Lemma create_link_total ifor turns t s conn p : CreateLinkParms_wf p -> turns_until (t + ms 4294967295) turns ->
  is_Some (create_link ifor turns t s conn p).
Proof.
  intros Hp Ht. unfold CreateLinkParms_wf in Hp. destruct_and? Hp. unfold create_link.
  destruct (parse_device_name _ _) as [k|]; [|done]. destruct (_ <=? _); [done|].
  destruct (clp_lock_device p); [|done]. rewrite link_for_insert. cbn [mbind option_bind].
  match goal with |- context [Lock.request ?ts ?d ?r ?h ?n ?g] =>
    destruct (Lock.request_total ts d r h n g) as [[gr reg] ->] end.
  - eapply Exists_impl; [exact Ht|]. intros tn. unfold in_u32, ms in *. lia.
  - cbn [mbind option_bind]. by destruct (negb _).
Qed.

End Total.

Lemma dispatch_total {B} `{BackendLaws B} ifor ce s conn (b : B) h args :
  config_ok (config s) -> timely ce (now b) -> is_Some (dispatch ifor ce s conn b h args).
Proof.
  intros Hc (Ht & Hw & Hf). unfold dispatch.
  repeat match goal with
  | |- is_Some (if ?c then _ else _) => destruct c eqn:?; [try done|]; try done
  | |- is_Some (match ?d with Ok _ => _ | Err _ => _ end) =>
      let E := fresh "E" in destruct d as [?p|?e] eqn:E; [|try done]
  end.
  - apply xdr_decode_wf in E. by destruct (create_link_total ifor _ _ s conn p E Ht) as [[[? ?] ?] ->].
  - pose proof (DeviceWriteParms_xdr _ (proj2 (proj1 Hc))) as Hx. apply (xdr_decode_wf (XdrStruct := Hx)) in E.
    by destruct (device_write_total _ _ s b p E Hc Ht Hf) as [[[? ?] ?] ->].
  - by destruct e.
  - apply xdr_decode_wf in E. by destruct (device_read_total _ _ s b p E Hc Ht Hf) as [[[? ?] ?] ->].
  - apply xdr_decode_wf in E. by destruct (device_readstb_total _ s b p E Ht) as [[[? ?] ?] ->].
  - apply xdr_decode_wf in E. by edestruct (device_simple_total (c_env ce) s b (Rpc.proc h) p E Ht) as [[[? ?] ?] ->].
  - destruct p. by destruct (destroy_link _ _ _) as [[? ?] ?].
  - apply xdr_decode_wf in E. by destruct (device_lock_total _ s b p E Hw) as [[? ?] ->].
  - destruct p. by destruct (device_unlock _ _) as [? ?].
  - by destruct (device_enable_srq _ _ _ _ _) as [[[? ?] ?] ?].
  - by destruct (create_intr_chan _ _ _) as [? ?].
  - by destruct (destroy_intr_chan _) as [? ?].
  - apply xdr_decode_wf in E. by destruct (device_docmd_total _ s b p E Ht) as [[[? ?] ?] ->].
Qed.

(** ** The forwarder's pass *)

Section Forward.
Context {B : Type} `{GpibBackend B}.

(** The maps agree: a resource is requesting iff its status byte was taken,
    with RQS in it. *)
Definition maps_ok (polled : gmap (list Z) bool) (stash : gmap (list Z) Z) : Prop :=
  forall r, match stash !! r with
            | Some stb => polled !! r = Some true /\ has_flag stb STB_RQS = true
            | None => polled !! r <> Some true
            end.

Lemma maps_polled polled stash r x : maps_ok polled stash -> polled !! r = Some x ->
  x = bool_decide (is_Some (stash !! r)).
Proof.
  intros Hm Ep. specialize (Hm r). rewrite Ep in Hm. destruct (stash !! r) as [stb|].
  - destruct Hm as [[= ->] _]. by rewrite bool_decide_eq_true_2 by eauto.
  - rewrite bool_decide_eq_false_2 by (by intros []). destruct x; naive_solver.
Qed.

Lemma maps_unpolled polled stash r : maps_ok polled stash -> polled !! r = None -> stash !! r = None.
Proof. intros Hm Ep. specialize (Hm r). rewrite Ep in Hm. destruct (stash !! r); naive_solver. Qed.

Definition requesting (stash : gmap (list Z) Z) (p : nat * Link) : bool :=
  is_interface p.2 || bool_decide (is_Some (stash !! resource p.2)).

Definition notified (stash : gmap (list Z) Z) (targets : list (nat * Link)) : list (list byte) :=
  omap (fun p => if requesting stash p then srq_handle p.2 else None) targets.

(** The targets are snapshots of live cells. *)
Definition snapshot (s : Shared) (p : nat * Link) : Prop :=
  exists c, cells s !! p.1 = Some c /\ srq_handle c = srq_handle p.2.

(** The instruments are polled in turn; what those with RQS answered is noted. *)
Fixpoint poll_all (pads : list Z) (b : Logged B) (asking : gmap (list Z) Z) : gmap (list Z) Z * Logged B :=
  match pads with
  | [] => (asking, b)
  | pad :: pads =>
      let '(r, b) := gb_serial_poll b pad in
      poll_all pads b (match r with
                       | Ok stb => if has_flag stb STB_RQS then <[resource_key pad := stb]> asking else asking
                       | Err _ => asking
                       end)
  end.

Lemma poll_all_calls pads : forall (b : Logged B) asking asking' b',
  poll_all pads b asking = (asking', b') -> calls b' = calls b ++ map CPoll pads.
Proof.
  induction pads as [|pad pads IH]; intros b asking asking' b'; cbn [poll_all]; [intros [= _ <-]; by rewrite app_nil_r|].
  destruct (gb_serial_poll b pad) as [r b1] eqn:E. intros ->%IH. injection E as _ <-. simpl. by rewrite <- app_assoc.
Qed.

Lemma poll_all_app pads pads' : forall (b : Logged B) asking asking' b',
  poll_all pads b asking = (asking', b') -> poll_all (pads ++ pads') b asking = poll_all pads' b' asking'.
Proof.
  induction pads as [|pad pads IH]; intros b asking asking' b'; cbn [poll_all app]; [by intros [= <- <-]|].
  destruct (gb_serial_poll b pad) as [r b1]. apply IH.
Qed.

Lemma device_key l : is_interface l = false -> resource l = resource_key (instrument l).
Proof. unfold resource, is_interface. by destruct (kind l). Qed.

Lemma forward_one_spec p polled stash s (b : Logged B) tx polled' stash' s' b' tx' :
  maps_ok polled stash -> snapshot s p -> (is_interface p.2 = true -> stash !! resource p.2 = None) ->
  forward_one p polled stash s b tx = (polled', stash', s', b', tx') ->
  maps_ok polled' stash' /\ polled ⊆ polled' /\ stash ⊆ stash' /\
  (exists pads, poll_all pads b stash = (stash', b') /\
     (pads = [] /\ polled' = polled /\ (is_interface p.2 = true \/ is_Some (polled !! resource p.2)) \/
      pads = [instrument p.2] /\ is_interface p.2 = false /\ polled !! resource p.2 = None /\
        exists x, polled' = <[resource p.2 := x]> polled)) /\
  (is_interface p.2 = false -> is_Some (polled' !! resource p.2)) /\
  tx' = tx ++ notified stash' [p] /\
  (forall r, r <> resource p.2 \/ is_interface p.2 = true -> stash' !! r = stash !! r) /\
  (forall r, is_Some (polled !! r) -> stash' !! r = stash !! r) /\
  s' = (if requesting stash' p then match stash' !! resource p.2 with
          | Some stb => update s p.1 (set_consumed_stb (Some stb)) | None => s end else s).
Proof.
  destruct p as [a l]. intros Hm (c & Hc & Hh) Hi. cbn [fst snd] in *. unfold forward_one, notified, requesting.
  cbn [fst snd]. destruct (is_interface l) eqn:Ei.
  - rewrite Hi by done. rewrite Hc. cbn [mbind option_bind]. rewrite Hh. intros [= <- <- <- <- <-].
    cbn [orb omap list_omap]. rewrite Hi by done. split_and!; try done.
    + exists []. split; [done|left; split_and!; [done|done|rewrite ?Ep; eauto]].
    + simpl. rewrite Ei. simpl. by destruct (srq_handle l); rewrite ?app_nil_r.
  - cbn [orb]. destruct (polled !! resource l) as [x|] eqn:Ep.
    + rewrite (maps_polled _ _ _ _ Hm Ep). destruct (stash !! resource l) as [stb|] eqn:Es; simpl; rewrite ?Ei.
      * rewrite lookup_alter_eq, Hc. simpl. rewrite Hh. intros [= <- <- <- <- <-].
        rewrite Es. simpl. split_and!; try done.
        -- exists []. split; [done|left; split_and!; [done|done|rewrite ?Ep; eauto]].
        -- by destruct (srq_handle l); rewrite ?app_nil_r.
      * intros [= <- <- <- <- <-]. rewrite Es. simpl. rewrite app_nil_r. split_and!; try done.
        exists []. split; [done|left; split_and!; [done|done|rewrite ?Ep; eauto]].
    + pose proof (maps_unpolled _ _ _ Hm Ep) as Es.
      destruct (gb_serial_poll b (instrument l)) as [poll b1] eqn:Epoll.
      assert (Hno : forall x, x = false \/ x = true -> polled ⊆ <[resource l := x]> polled)
        by (intros; by apply insert_subseteq).
      destruct (match poll with Ok stb => _ | Err _ => _ end) as [x taken] eqn:Et.
      destruct x.
      * assert (exists stb, poll = Ok stb /\ taken = Some stb /\ has_flag stb STB_RQS = true) as (stb & -> & -> & Hf).
        { destruct poll as [stb|]; simplify_eq. eauto. }
        rewrite lookup_insert_eq. rewrite cells_update, decide_True, Hc by done. simpl. rewrite Hh, Ei.
        intros [= <- <- <- <- <-]. rewrite lookup_insert_eq. simpl. split_and!.
        -- intros r. rewrite !lookup_insert. case_decide; [done|apply Hm].
        -- auto.
        -- by apply insert_subseteq.
        -- exists [instrument l]. cbn [poll_all]. rewrite Epoll, Hf, <- (device_key _ Ei). split; [done|].
           right. split_and!; [done|done|done|by eexists].
        -- rewrite ?lookup_insert_eq. eauto.
        -- rewrite ?lookup_insert_eq. cbn. by destruct (srq_handle l); rewrite ?app_nil_r.
        -- intros r [Hr|]; [|done]. by rewrite lookup_insert_ne.
        -- intros r Hr. destruct (decide (r = resource l)) as [->|]; [rewrite Ep in Hr; by destruct Hr|].
           by rewrite lookup_insert_ne.
        -- by rewrite ?lookup_insert_eq.
      * intros [= <- <- <- <- <-]. simpl. rewrite Ei, Es. simpl. rewrite app_nil_r. split_and!; try done.
        -- intros r. specialize (Hm r). rewrite lookup_insert. case_decide; [|done].
           subst r. by rewrite Es.
        -- auto.
        -- exists [instrument l]. cbn [poll_all]. rewrite Epoll. split.
           { destruct poll as [stb|]; [injection Et as E _; by rewrite E|done]. }
           right. split_and!; [done|done|done|by eexists].
        -- rewrite ?lookup_insert_eq. eauto.
Qed.

Lemma interface_key_distinct l l' : is_interface l = true -> is_interface l' = false ->
  resource l <> resource l'.
Proof.
  unfold resource, is_interface. destruct (kind l), (kind l'); try done. intros _ _.
  unfold resource_key. change (str "gpib0:intf") with (str "gpib" ++ [48; 58; 105; 110; 116; 102]).
  intros E%app_inv_head. pose proof (digits_below 20 (instrument l')) as Hd.
  change (digits 20 (instrument l')) with (to_string (instrument l')) in Hd. rewrite <- E in Hd.
  apply Forall_cons in Hd as [_ Hd]. apply Forall_cons in Hd as [Hd _]. lia.
Qed.

Definition stash_device (stash : gmap (list Z) Z) : Prop :=
  forall l, is_interface l = true -> stash !! resource l = None.

Lemma snapshot_update s p a f : (forall c, srq_handle (f c) = srq_handle c) ->
  snapshot s p -> snapshot (update s a f) p.
Proof.
  intros Hf (c & Hc & Hh). unfold snapshot. rewrite cells_update. case_decide; [|by exists c].
  subst. rewrite Hc. eexists. split; [done|]. by rewrite Hf.
Qed.

(** A notified device link's cell holds the status byte that was taken. *)
Definition holds_stb (s : Shared) (stash : gmap (list Z) Z) (p : nat * Link) : Prop :=
  is_interface p.2 = false -> forall stb, stash !! resource p.2 = Some stb ->
  exists c, cells s !! p.1 = Some c /\ consumed_stb c = Some stb.

(** The cells change in their status byte only. *)
Definition same_links (s s' : Shared) : Prop :=
  links s' = links s /\ locks s' = locks s /\ config s' = config s /\
  forall a c, cells s !! a = Some c -> exists o, cells s' !! a = Some (set_consumed_stb o c).

Lemma same_links_refl s : same_links s s.
Proof. split_and!; [done..|]. intros a c Hc. exists (consumed_stb c). by destruct c. Qed.

Lemma same_links_update s s' a o : same_links (update s a (set_consumed_stb o)) s' -> same_links s s'.
Proof.
  intros (H1 & H2 & H3 & H4). split_and!; [done..|]. intros a' c Hc.
  destruct (H4 a' (if decide (a' = a) then set_consumed_stb o c else c)) as [o' Ho'].
  - rewrite cells_update. case_decide; [subst; by rewrite Hc|done].
  - exists o'. rewrite Ho'. by case_decide.
Qed.

(** What the next link's step starts from. *)
Lemma forward_one_next p polled stash s (b : Logged B) tx polled' stash' s' b' tx' targets :
  maps_ok polled stash -> stash_device stash -> snapshot s p -> Forall (snapshot s) targets ->
  forward_one p polled stash s b tx = (polled', stash', s', b', tx') ->
  maps_ok polled' stash' /\ stash_device stash' /\ Forall (snapshot s') targets.
Proof.
  intros Hm Hd Hp Hsn E.
  apply forward_one_spec in E as (Hm1 & _ & _ & _ & _ & _ & Hst & _ & ->); [|done|done|by apply Hd].
  split_and!; [done| |].
  - intros l Hl. destruct (is_interface p.2) eqn:Ei; rewrite Hst; [by apply Hd|by right|by apply Hd|].
    left. by apply interface_key_distinct.
  - destruct (requesting _ _); [|done]. destruct (stash' !! _); [|done].
    eapply Forall_impl; [exact Hsn|]. intros q. by apply snapshot_update.
Qed.

Lemma forward_polls targets : forall polled stash s (b : Logged B) tx s' b' tx',
  maps_ok polled stash -> stash_device stash -> Forall (snapshot s) targets ->
  forward targets polled stash s b tx = (s', b', tx') ->
  exists pads, calls b' = calls b ++ map CPoll pads /\ NoDup (map resource_key pads) /\
    (forall r, r ∈ map resource_key pads -> polled !! r = None) /\
    (forall p, p ∈ targets -> is_interface p.2 = false -> polled !! resource p.2 = None ->
       resource p.2 ∈ map resource_key pads) /\
    (forall pad, pad ∈ pads -> exists p, p ∈ targets /\ is_interface p.2 = false /\ instrument p.2 = pad).
Proof.
  induction targets as [|p targets IH]; intros polled stash s b tx s' b' tx' Hm Hd Hsn Hf; cbn [forward] in Hf.
  { simplify_eq. exists []. rewrite app_nil_r. split_and!; [done|constructor|by intros ? ?%elem_of_nil..]. }
  apply Forall_cons in Hsn as [Hp Hsn].
  destruct (forward_one p polled stash s b tx) as [[[[pl st] s1] b1] tx1] eqn:E1.
  destruct (forward_one_next p polled stash s b tx pl st s1 b1 tx1 targets) as (Hm1 & Hd1 & Hsn1); [done..|].
  apply forward_one_spec in E1 as (_ & _ & _ & (pads1 & Hc1 & Hpads1) & _); [|done|done|by apply Hd].
  apply poll_all_calls in Hc1. apply IH in Hf as (pads & Hc & Hnd & Hnone & Hcov & Hof); [|done..]. clear IH.
  destruct Hpads1 as [(-> & -> & Hpi)|(-> & Hi & Hn & x & ->)].
  - exists pads. split_and!; [by rewrite Hc, Hc1, app_nil_r|done|done| |].
    + intros q [->|Hq]%elem_of_cons Hqi Hqn; [|by apply Hcov].
      destruct Hpi as [Hpi|[y Hy]]; congruence.
    + intros pad (q & Hq & Hq')%Hof. exists q. split; [by right|done].
  - assert (Hfresh : resource p.2 ∉ map resource_key pads).
    { intros Hr%Hnone. by rewrite lookup_insert_eq in Hr. }
    exists (instrument p.2 :: pads). cbn [map]. rewrite <- (device_key _ Hi). split_and!.
    + by rewrite Hc, Hc1, <- app_assoc.
    + by apply NoDup_cons.
    + intros r [->|Hr]%elem_of_cons; [done|]. apply Hnone in Hr.
      eapply lookup_weaken_None; [exact Hr|]. by apply insert_subseteq.
    + intros q [->|Hq]%elem_of_cons Hqi Hqn; apply elem_of_cons; [by left|].
      destruct (decide (resource q.2 = resource p.2)) as [->|]; [by left|]. right.
      apply Hcov; [done..|]. by rewrite lookup_insert_ne.
    + intros pad [->|Hpad]%elem_of_cons; [exists p; split; [by left|done]|].
      destruct (Hof pad Hpad) as (q & Hq & Hq'). exists q. split; [by right|done].
Qed.

Lemma forward_notifies targets : forall polled stash s (b : Logged B) tx s' b' tx',
  maps_ok polled stash -> stash_device stash -> Forall (snapshot s) targets ->
  forward targets polled stash s b tx = (s', b', tx') ->
  exists stash', (exists pads, poll_all pads b stash = (stash', b')) /\
    (forall r, is_Some (polled !! r) -> stash' !! r = stash !! r) /\
    tx' = tx ++ notified stash' targets /\ same_links s s' /\
    (forall p, p ∈ targets \/ holds_stb s stash' p ->
       (forall q, q ∈ targets -> q.1 = p.1 -> q = p) -> holds_stb s' stash' p).
Proof.
  induction targets as [|p targets IH]; intros polled stash s b tx s' b' tx' Hm Hd Hsn Hf; cbn [forward] in Hf.
  { simplify_eq. exists stash. rewrite app_nil_r. split_and!; [by exists []|done|done|apply same_links_refl|].
    by intros p [Hp%elem_of_nil|]. }
  apply Forall_cons in Hsn as [Hp Hsn].
  destruct (forward_one p polled stash s b tx) as [[[[pl st] s1] b1] tx1] eqn:E1.
  destruct (forward_one_next p polled stash s b tx pl st s1 b1 tx1 targets) as (Hm1 & Hd1 & Hsn1); [done..|].
  apply forward_one_spec in E1 as (_ & Hpl & _ & (pads1 & Hp1 & _) & Hdev & Htx1 & _ & Hst & Hs1); [|done|done|by apply Hd].
  apply IH in Hf as (st' & (pads & Hpads) & Hfr & Htx & Hsame & Hholds); [|done..]. clear IH.
  assert (Hreq : requesting st' p = requesting st p).
  { unfold requesting. destruct (is_interface p.2) eqn:Ei; [done|]. simpl. by rewrite Hfr by (by apply Hdev). }
  exists st'. split_and!; [exists (pads1 ++ pads); by rewrite (poll_all_app _ _ _ _ _ _ Hp1)| | | |].
  - intros r Hr. rewrite Hfr, Hst; [done..|]. destruct Hr as [x Hx].
    exists x. by eapply lookup_weaken.
  - rewrite Htx, Htx1, <- app_assoc. f_equal. change (p :: targets) with ([p] ++ targets).
    unfold notified. rewrite omap_app. f_equal. simpl. by rewrite Hreq.
  - subst s1. destruct (requesting st p); [|done]. destruct (st !! _); [|done].
    by eapply same_links_update.
  - intros q Hq Hu. apply Hholds; [|intros; apply Hu; [by right|done]].
    destruct (decide (q ∈ targets)) as [|Hnq]; [by left|]. right.
    intros Hqi stb Hstb. subst s1. destruct (decide (q = p)) as [->|Hne].
    + rewrite Hfr in Hstb by (by apply Hdev). destruct Hp as (c & Hc & _).
      unfold requesting. rewrite Hqi, Hstb. simpl. rewrite lookup_alter_eq, Hc. by eexists.
    + assert (p.1 <> q.1) as Hpq by (intros E; apply Hne; symmetry; apply Hu; [by left|done]).
      destruct Hq as [Hq|Hq]; [apply elem_of_cons in Hq as [?|?]; done|].
      destruct (Hq Hqi stb Hstb) as (c & Hc & Hcs). exists c. split; [|done].
      destruct (requesting st p); [|done]. destruct (st !! resource p.2); [|done].
      by rewrite cells_update, decide_False.
Qed.

End Forward.

(** ** The end of a connection *)

Lemma link_for_delete s id id' :
  link_for (set_links s (delete id (links s))) id' = if decide (id' = id) then None else link_for s id'.
Proof.
  unfold link_for. simpl. rewrite lookup_delete. by destruct (decide (id = id')), (decide (id' = id)).
Qed.

Lemma remove_links_spec own : forall s removed s', remove_links own s = (removed, s') ->
  cells s' = cells s /\ locks s' = locks s /\ config s' = config s /\
  (forall id, links s' !! id = if decide (id ∈ own) then None else links s !! id) /\
  (forall l, l ∈ removed <-> exists id a, id ∈ own /\ link_for s id = Some (a, l)).
Proof.
  induction own as [|id own IH]; intros s removed s'; cbn [remove_links].
  { intros; simplify_eq. split_and!; [done..| |].
    - intros id. by rewrite decide_False by apply not_elem_of_nil.
    - intros l. split; [by intros ?%elem_of_nil|by intros (? & ? & ?%elem_of_nil & _)]. }
  destruct (remove_links own _) as [rest s1] eqn:E. apply IH in E as (Hc & Hk & Hg & Hl & Hr).
  intros [= <- <-]. split_and!; [done..| |].
  - intros id'. rewrite Hl. simpl. destruct (decide (id' ∈ own)) as [Hin|Hin].
    + by rewrite decide_True by (by right).
    + rewrite lookup_delete. destruct (decide (id = id')) as [->|Hne].
      * by rewrite decide_True by (by left).
      * by rewrite decide_False by (intros [?|?]%elem_of_cons; congruence).
  - intros l. assert (Hrest : l ∈ rest <-> exists id' a, id' ∈ own /\ id' <> id /\ link_for s id' = Some (a, l)).
    { rewrite Hr. setoid_rewrite link_for_delete. split.
      - intros (id' & a & Hin & Ha). destruct (decide (id' = id)); [done|]. by exists id', a.
      - intros (id' & a & Hin & Hne & Ha). exists id', a. by rewrite decide_False. }
    destruct (link_for s id) as [[a0 l0]|] eqn:E0.
    + rewrite elem_of_cons, Hrest. split.
      * intros [->|(id' & a & ? & ? & ?)]; [exists id, a0; split; [by left|done]|].
        exists id', a. split; [by right|done].
      * intros (id' & a & [->|Hin]%elem_of_cons & Ha); [left; congruence|].
        destruct (decide (id' = id)) as [->|]; [left; congruence|right]. by exists id', a.
    + rewrite Hrest. split.
      * intros (id' & a & ? & ? & ?). exists id', a. split; [by right|done].
      * intros (id' & a & [->|Hin]%elem_of_cons & Ha); [congruence|].
        destruct (decide (id' = id)) as [->|]; [congruence|]. by exists id', a.
Qed.

Lemma release_links_spec n ls : forall reg, Lock.registry_ok n reg ->
  let reg' := fold_left (fun reg l => Lock.release_all reg (holder l)) ls reg in
  (forall r h, (exists l, l ∈ ls /\ holder l = h) -> Lock.holds reg' r h = false) /\
  (forall r h, (forall l, l ∈ ls -> holder l <> h) -> Lock.holds reg' r h = Lock.holds reg r h).
Proof.
  induction ls as [|l ls IH]; intros reg Hok; simpl.
  { split; [by intros r h (l & ?%elem_of_nil & _)|done]. }
  destruct (Lock.release_all_exact_aux n reg (holder l) Hok) as (H1 & H2 & H3).
  destruct (IH (Lock.release_all reg (holder l)) H3) as [IH1 IH2]. split.
  - intros r h (l' & [->|Hl']%elem_of_cons & Hh); [|by apply IH1; eauto].
    destruct (decide (Exists (fun l2 => holder l2 = h) ls)) as [Hex|Hno].
    + apply IH1. by apply Exists_exists in Hex.
    + rewrite IH2; [subst; apply H1|]. intros l2 Hl2 E. apply Hno, Exists_exists. by exists l2.
  - intros r h Hne. rewrite IH2 by (intros; apply Hne; by right).
    apply H2. intros ->. by apply (Hne l); [left|].
Qed.

Section Close.
Context {B : Type} `{GpibBackend B}.

(** A connection up to the client's hang-up between two records: the state
    its last call left, and the replies written. *)
Inductive served (ifor : Z -> Z) : list (CallEnv * option Io.IoError) -> Reader -> Shared -> ConnState -> B ->
    Shared -> ConnState -> B -> list (list byte) -> Prop :=
| served_hangup p peers rd rd' s conn b :
    Rpc.read_record rd (max_recv_size (config s) * 2 + 1024) = Some (Ok (None, rd')) ->
    served ifor (p :: peers) rd s conn b s conn b []
| served_silent ce we peers rd rd' s conn b r s1 conn1 b1 s0 conn' b' out :
    Rpc.read_record rd (max_recv_size (config s) * 2 + 1024) = Some (Ok (Some r, rd')) ->
    answer ifor ce s conn b r = Some (None, s1, conn1, b1) ->
    served ifor peers rd' s1 conn1 b1 s0 conn' b' out ->
    served ifor ((ce, we) :: peers) rd s conn b s0 conn' b' out
| served_reply ce peers rd rd' s conn b r reply wire s1 conn1 b1 s0 conn' b' out :
    Rpc.read_record rd (max_recv_size (config s) * 2 + 1024) = Some (Ok (Some r, rd')) ->
    answer ifor ce s conn b r = Some (Some reply, s1, conn1, b1) -> Rpc.write_record reply = Ok wire ->
    served ifor peers rd' s1 conn1 b1 s0 conn' b' out ->
    served ifor ((ce, None) :: peers) rd s conn b s0 conn' b' (wire :: out).

Lemma answer_ok ifor ce s conn (b : B) r reply s1 conn1 b1 : env_ok ce -> server_ok s ->
  answer ifor ce s conn b r = Some (reply, s1, conn1, b1) -> server_ok s1.
Proof.
  intros He Hs Ea. unfold answer in Ea. destruct (Rpc.decode_call r) as [[h args]|[]]; [|by simplify_eq..].
  destruct (dispatch _ _ _ _ _ _ _) as [[[[r0 s2] c2] b2]|] eqn:Ed; [|done]. simpl in Ea. simplify_eq.
  by eapply dispatch_sound.
Qed.

Lemma served_ok ifor peers rd s conn (b : B) s0 conn' b' out : served ifor peers rd s conn b s0 conn' b' out ->
  Forall (fun p => env_ok p.1) peers -> server_ok s -> server_ok s0.
Proof.
  induction 1 as [|??????????????????? IH|????????????????????? IH]; intros He Hs; [done|..];
    apply Forall_cons in He as [He Hes]; (apply IH; [done|by eapply answer_ok]).
Qed.

(** The handler returns [Ok] after exactly such a run, with its clean-up. *)
Lemma serve_run ifor peers : forall rd s conn (b : B) s' conn' b' out,
  serve_connection ifor peers rd s conn b = Some (Ok tt, s', conn', b', out) <->
  exists s0, served ifor peers rd s conn b s0 conn' b' out /\ s' = cleanup s0 conn'.
Proof.
  intros. split.
  - revert rd s conn b s' conn' b' out. induction peers as [|[ce we] peers IH]; intros rd s conn b s' conn' b' out; [done|].
    cbn [serve_connection].
    destruct (Rpc.read_record _ _) as [[[[r|] rd']|e]|] eqn:Er; cbn [mbind option_bind]; [| |done..].
    + destruct (answer ifor ce s conn b r) as [[[[reply s1] conn1] b1]|] eqn:Ea; [|done]. cbn [mbind option_bind].
      destruct reply as [reply|].
      * destruct (Rpc.write_record reply) as [wire|] eqn:Ew; [|done]. destruct we; [done|].
        destruct (serve_connection _ _ _ _ _ _) as [[[[[res2 s2] conn2] b2] out2]|] eqn:E; [|done].
        cbn [mbind option_bind]. intros; simplify_eq. apply IH in E as (s0 & Hr & ->).
        exists s0. split; [by eapply served_reply|done].
      * intros (s0 & Hr & ->)%IH. exists s0. split; [by eapply served_silent|done].
    + intros; simplify_eq. exists s. split; [by eapply served_hangup|done].
  - intros (s0 & Hr & ->). induction Hr as [p peers rd rd' s conn b Er|???????????????? Er Ea _ IH|????????????????? Er Ea Ew _ IH].
    + destruct p. cbn [serve_connection]. by rewrite Er.
    + cbn [serve_connection]. rewrite Er. cbn [mbind option_bind]. rewrite Ea. exact IH.
    + cbn [serve_connection]. rewrite Er. cbn [mbind option_bind]. rewrite Ea. cbn [mbind option_bind].
      by rewrite Ew, IH.
Qed.

End Close.

Lemma retain_ne_new id l : id ∉ l -> retain_ne id (l ++ [id]) = l.
Proof.
  intros Hid. unfold retain_ne. rewrite filter_app.
  rewrite (filter_cons_False _ id []) by naive_solver. rewrite filter_nil, app_nil_r.
  induction l as [|x l IH]; [done|]. apply not_elem_of_cons in Hid as [Hx Hl].
  rewrite filter_cons_True by done. f_equal. by apply IH.
Qed.

(** ** Properties *)

(** C4: every core call is answered, and the server stays consistent.  For any
    call, any state and any interference that itself keeps the invariant (link
    ids lead to their own cells, the link cap holds), with time for the
    longest wait a client can ask for, the handler returns an RPC reply to
    that call's xid, whatever the procedure and however garbled its
    arguments, and the invariant holds afterwards. *)
Theorem dispatch_keeps_server {B} `{BackendLaws B} ifor ce s conn (b : B) h args :
  env_ok ce -> server_ok s -> config_ok (config s) -> timely ce (now b) ->
  exists r s' conn' b', dispatch ifor ce s conn b h args = Some (r, s', conn', b') /\
    server_ok s' /\ reply_to (Rpc.xid h) (reply_of r).
Proof.
  intros He Hs Hc Ht. destruct (dispatch_total ifor ce s conn b h args Hc Ht) as [[[[r s'] conn'] b'] E].
  exists r, s', conn', b'. split; [done|]. by apply (dispatch_sound ifor ce s conn b h args r s' conn' b').
Qed.

Lemma demo_ok : server_ok demo.
Proof.
  split.
  - intros id a. unfold demo. cbn [links cells]. rewrite !lookup_insert, lookup_singleton.
    intros Hl. repeat case_decide; simplify_eq; by eexists.
  - intros a. unfold demo. cbn [cells next_cell]. rewrite lookup_insert, lookup_singleton.
    intros [x Hx]. repeat case_decide; simplify_eq; lia.
  - by vm_compute.
Qed.

(** An environment with time for everything. *)
Definition patient : CallEnv (B := Mock) :=
  mkCallEnv (mkEnv [(fun g => g, 5000000000000000)] id []) [Poll (fun g => g, 5000000000000000)] false
    (Z.to_nat 5000000000).

Lemma dispatch_keeps_server_witness :
  exists r s' conn' b',
    dispatch (fun p => p) patient demo (mkConn [1; 2] None) (demo_bus [])
      (Rpc.mkCallHeader 7 DEVICE_CORE_PROG DEVICE_CORE_VERS DESTROY_LINK) [x00; x00; x00; x01]
      = Some (r, s', conn', b') /\ server_ok s' /\ reply_to 7 (reply_of r).
Proof.
  apply (dispatch_keeps_server (fun p => p) patient demo (mkConn [1; 2] None) (demo_bus [])
    (Rpc.mkCallHeader 7 DEVICE_CORE_PROG DEVICE_CORE_VERS DESTROY_LINK) [x00; x00; x00; x01]).
  - by repeat constructor.
  - apply demo_ok.
  - by split.
  - split_and!; [by constructor|by constructor|]. unfold patient, c_fuel. rewrite Z2Nat.id by lia. by vm_compute.
Defined.

(** C12: what [create_link] leaves behind.  With a fresh id to give out: on
    success the reply names a link that was not there before, is now in the
    table for the device its name means, belongs to the connection and, if
    the client asked, holds the device's lock; no other link is touched.  On
    any error, a refused lock included, the table and the connection's links
    are exactly as before, and the reply's other fields are zero.  A full
    table refuses every well-formed name with error 9. *)
Theorem create_link_outcomes ifor turns t s conn p resp s' conn' :
  links s !! next_lid s = None -> next_lid s ∉ owned conn ->
  create_link ifor turns t s conn p = Some (resp, s', conn') ->
  let id := next_lid s in
  let named := parse_device_name (from_utf8_lossy (clp_device p)) (default_pad (config s)) in
  (clr_error resp = error_as_u32 NoError ->
     resp = mkCreateLinkResp 0 id (abort_port s) (max_recv_size (config s)) /\
     owned conn' = owned conn ++ [id] /\ delete id (links s') = links s /\
     exists a l k, link_for s' id = Some (a, l) /\ named = Ok k /\ kind l = k /\ lid l = id /\
       (clp_lock_device p = true -> Lock.holds (locks s') (resource l) (holder l) = true)) /\
  (clr_error resp <> error_as_u32 NoError ->
     resp = mkCreateLinkResp (clr_error resp) 0 0 0 /\ links s' = links s /\ owned conn' = owned conn) /\
  (max_links (config s) <= Z.of_nat (size (links s)) -> is_ok named = true ->
     clr_error resp = error_as_u32 OutOfResources).
Proof.
  intros Hfresh Hown. unfold create_link.
  destruct (parse_device_name _ _) as [k|e] eqn:Ek.
  2: { apply parse_device_name_Err in Ek. intros [= <- <- <-]. simpl. split_and!; [by destruct e|done|done]. }
  set (i := ifor _). destruct (Z.leb_spec (max_links (config s)) (Z.of_nat (size (links s)))).
  { intros [= <- <- <-]. simpl. split_and!; done. }
  pose proof (link_for_insert s k i) as Hl.
  assert (Hdel : delete (next_lid s) (links (insert_link s k i)) = links s) by (simpl; by apply delete_insert_id).
  destruct (clp_lock_device p).
  - rewrite Hl. cbn [mbind option_bind].
    destruct (Lock.request _ _ _ _ _ _) as [[g reg]|] eqn:Er; [|done]. cbn [mbind option_bind].
    destruct (Lock.is_success g) eqn:Eg; simpl; intros [= <- <- <-].
    + apply Lock.request_holds in Er; [|done]. simpl. split_and!; [|done|lia].
      intros _. split_and!; [done..|]. eexists _, _, k. split_and!; [exact Hl|done..].
    + simpl. split_and!; [done| |lia]. intros _. split_and!; [done|by apply delete_insert_id|].
      by apply retain_ne_new.
  - intros [= <- <- <-]. simpl. split_and!; [|done|lia].
    intros _. split_and!; [done..|]. by eexists _, _, k.
Qed.

Lemma create_link_outcomes_witness :
  exists resp s' conn',
    create_link (fun p => p) [(fun g => g, 0)] 0 demo (mkConn [1; 2] None)
      (mkCreateLinkParms 0 true 0 (as_bytes (str "gpib0,5"))) = Some (resp, s', conn') /\
    owned conn' = [1; 2] ++ [3].
Proof.
  destruct (create_link (fun p => p) [(fun g => g, 0)] 0 demo (mkConn [1; 2] None)
      (mkCreateLinkParms 0 true 0 (as_bytes (str "gpib0,5")))) as [[[resp s'] conn']|] eqn:E;
    [|by vm_compute in E].
  exists resp, s', conn'. split; [done|].
  destruct (create_link_outcomes (fun p => p) [(fun g => g, 0)] 0 demo (mkConn [1; 2] None)
    (mkCreateLinkParms 0 true 0 (as_bytes (str "gpib0,5"))) resp s' conn') as (Hok & _ & _);
    [by vm_compute|simpl; set_solver|exact E|].
  apply Hok. by vm_compute in E; simplify_eq.
Defined.

(** C13: a connection that closes cleanly gives everything back.
    [serve_connection] ends without an I/O error exactly when the client hangs
    up between two records; then, against the state [s0] its last call left:
    none of the links its connection owned is left, every other link is
    untouched, no owned link's identity holds any lock on any instrument, and
    every other holder holds exactly what it did. *)
Theorem clean_close_releases {B} `{GpibBackend B} ifor n peers rd s conn (b : B) s' conn' b' out :
  Forall (fun p => env_ok p.1) peers -> server_ok s ->
  serve_connection ifor peers rd s conn b = Some (Ok tt, s', conn', b', out) ->
  exists s0, served ifor peers rd s conn b s0 conn' b' out /\ server_ok s0 /\
    (forall id, links s' !! id = if decide (id ∈ owned conn') then None else links s0 !! id) /\
    (Lock.registry_ok n (locks s0) -> forall r,
       (forall id a l, id ∈ owned conn' -> link_for s0 id = Some (a, l) ->
          Lock.holds (locks s') r (holder l) = false) /\
       (forall h, (forall id a l, id ∈ owned conn' -> link_for s0 id = Some (a, l) -> holder l <> h) ->
          Lock.holds (locks s') r h = Lock.holds (locks s0) r h)).
Proof.
  intros He Hs (s0 & Hrun & ->)%serve_run. exists s0. split; [done|]. split; [by eapply served_ok|]. unfold cleanup.
  destruct (remove_links (owned conn') s0) as [removed s1] eqn:E.
  apply remove_links_spec in E as (_ & Hk & _ & Hl & Hr). split; [done|].
  intros Hok r. cbn [locks set_locks]. rewrite Hk.
  destruct (release_links_spec n removed (locks s0) Hok) as [H1 H2]. split.
  - intros id a l Hid Ha. apply H1. exists l. split; [|done]. apply Hr. by exists id, a.
  - intros h Hne. apply H2. intros l (id & a & Hid & Ha)%Hr. by eapply Hne.
Qed.

(** A client locks [gpib0,18] on link 1 and hangs up. *)
Definition lock_call : list byte :=
  match Rpc.write_record (Rpc.encode_call 5 DEVICE_CORE_PROG DEVICE_CORE_VERS DEVICE_LOCK
          (DeviceLockParms_encode (mkDeviceLockParms 1 0 0) [])) with
  | Ok wire => wire
  | Err _ => []
  end.

Definition polling : CallEnv (B := Mock) := mkCallEnv quiet [Poll (fun g => g, 0)] false 0.

Lemma clean_close_releases_witness :
  exists s' conn' b' out s0,
    serve_connection (fun p => p) [(polling, None); (polling, None)] (mkReader lock_call None) demo
      (mkConn [1] None) (demo_bus []) = Some (Ok tt, s', conn', b', out) /\
    served (fun p => p) [(polling, None); (polling, None)] (mkReader lock_call None) demo (mkConn [1] None)
      (demo_bus []) s0 conn' b' out /\
    (forall id, links s' !! id = if decide (id ∈ owned conn') then None else links s0 !! id).
Proof.
  destruct (serve_connection (fun p => p) [(polling, None); (polling, None)] (mkReader lock_call None) demo
      (mkConn [1] None) (demo_bus [])) as [[[[[[[]|e] s'] conn'] b'] out]|] eqn:E;
    [|by vm_compute in E..].
  destruct (clean_close_releases (fun p => p) 1 [(polling, None); (polling, None)] (mkReader lock_call None) demo
    (mkConn [1] None) (demo_bus []) s' conn' b' out) as (s0 & H0 & _ & H1 & _).
  - by repeat constructor.
  - apply demo_ok.
  - exact E.
  - exists s', conn', b', out, s0. exact (conj eq_refl (conj H0 H1)).
Defined.

(** a connection that breaks gives nothing back.  When the client
    disappears inside a record, anywhere after its 4-byte header, the handler
    returns without its cleanup: every link of the connection is still in the
    table and every lock is still held, by links nobody can use again. *)
Theorem broken_connection_keeps_locks {B} `{GpibBackend B} ifor ce we peers payload wire k e s conn (b : B) :
  Rpc.write_record payload = Ok wire -> 4 <= k < zlen wire ->
  zlen payload <= max_recv_size (config s) * 2 + 1024 -> in_u32 (max_recv_size (config s)) ->
  serve_connection ifor ((ce, we) :: peers) (mkReader (ztake k wire) e) s conn b =
  Some (Err (end_error (mkReader [] e)), s, conn, b, []).
Proof.
  intros Hw Hk Hm Hmax. cbn [serve_connection].
  unfold in_u32 in Hmax. by rewrite (Rpc.read_record_cut payload wire k e _ Hw Hk Hm) by lia.
Qed.

Lemma broken_connection_keeps_locks_witness :
  let locked := set_locks demo (Lock.try_request (locks demo) (resource_key 18) (Lock.vxi11_id 1) []).2 in
  serve_connection (fun p => p) [(polling, None)] (mkReader (ztake 20 lock_call) None) locked
    (mkConn [1] None) (demo_bus []) = Some (Err UnexpectedEof, locked, mkConn [1] None, demo_bus [], []) /\
  Lock.holds (locks locked) (resource_key 18) (Lock.vxi11_id 1) = true.
Proof.
  intros locked. split; [|by vm_compute].
  apply (broken_connection_keeps_locks (fun p => p) polling None []
    (Rpc.encode_call 5 DEVICE_CORE_PROG DEVICE_CORE_VERS DEVICE_LOCK
          (DeviceLockParms_encode (mkDeviceLockParms 1 0 0) []))); by vm_compute.
Defined.

(** C17: what one pass of the SRQ forwarder does.  It polls every instrument of
    an enabled device link, once, however many enabled links point at it, and
    does nothing else on the bus; [asking] has exactly the instruments whose
    answer had RQS set, with that answer.  The handles sent are, in the order the
    links were created, those of the interface links and of exactly the device
    links whose instrument is asking; and the byte the poll consumed is not
    lost: the link's next [device_readstb] returns it without touching the
    bus. *)
Theorem srq_pass_notifies {B} `{GpibBackend B} s own (b : Logged B) tx s' b' tx' :
  srq_pass s own b tx = (s', b', tx') ->
  let targets := srq_targets s own in
  exists pads asking, poll_all pads b ∅ = (asking, b') /\ NoDup pads /\
    (forall pad, pad ∈ pads -> exists p, p ∈ targets /\ is_interface p.2 = false /\ instrument p.2 = pad) /\
    (forall p, p ∈ targets -> is_interface p.2 = false -> resource p.2 ∈ map resource_key pads) /\
    tx' = tx ++ notified asking targets /\
    forall id a l stb env flags lk io, (a, l) ∈ targets -> link_for s id = Some (a, l) ->
      is_interface l = false -> asking !! resource l = Some stb ->
      Lock.has_access (locks s) (resource l) (holder l) = true ->
      exists s2, device_readstb env s' b' (mkDeviceGenericParms id flags lk io) =
        Some (mkDeviceReadStbResp (error_as_u32 NoError) stb, s2, b').
Proof.
  intros Hf targets. unfold srq_pass in Hf. fold targets in Hf.
  assert (Hlive : forall p, p ∈ targets -> cells s !! p.1 = Some p.2).
  { intros [a l] [_ Hin]%list_elem_of_filter. apply list_elem_of_omap in Hin as (id & _ & Hid).
    by apply link_for_Some in Hid as [_ ?]. }
  assert (Hm : maps_ok ∅ ∅) by (intros r; by rewrite !lookup_empty).
  assert (Hd : stash_device ∅) by (intros l _; apply lookup_empty).
  assert (Hsn : Forall (snapshot s) targets).
  { apply Forall_forall. intros p Hp. exists p.2. split; [by apply Hlive|done]. }
  destruct (forward_polls _ _ _ _ _ _ _ _ _ Hm Hd Hsn Hf) as (pads & Hc & Hnd & _ & Hcov & Hof).
  destruct (forward_notifies _ _ _ _ _ _ _ _ _ Hm Hd Hsn Hf) as (stash & (pads' & Hpoll) & _ & Htx & Hsame & Hholds).
  assert (pads' = pads) as ->.
  { apply poll_all_calls in Hpoll. rewrite Hpoll in Hc. apply app_inv_head in Hc. assert (Inj (=) (=) CPoll) by (by intros ?? [=]). by apply (inj (fmap CPoll)) in Hc. }
  exists pads, stash. split_and!; [done|by apply NoDup_fmap_1 in Hnd|done| |done|].
  - intros p Hp Hi. apply Hcov; [done..|apply lookup_empty].
  - clear Hc. intros id a l stb env flags lk io Hin Hid Hi Hst Ha.
    destruct (Hholds (a, l)) with (stb := stb) as (c & Hc & Hcs); [by left| |done..|].
    { intros q Hq Eq. apply Hlive in Hq. apply Hlive in Hin. simpl in *. rewrite Eq, Hin in Hq.
      destruct q; simpl in *. congruence. }
    destruct Hsame as (Hl1 & Hl2 & Hl3 & Hl4). apply link_for_Some in Hid as [Hid1 Hid2].
    destruct (Hl4 a l Hid2) as [o Ho]. simpl in Hc. rewrite Ho in Hc. injection Hc as <-. simpl in Hcs. subst o.
    unfold device_readstb. cbn [dgp_lid].
    assert (link_for s' id = Some (a, set_consumed_stb (Some stb) l)) as ->.
    { unfold link_for. by rewrite Hl1, Hid1; simpl; rewrite Ho. }
    change (is_interface (set_consumed_stb (Some stb) l)) with (is_interface l). rewrite Hi.
    unfold acquire_access. rewrite Hl2.
    change (resource (set_consumed_stb (Some stb) l)) with (resource l).
    change (holder (set_consumed_stb (Some stb) l)) with (holder l). rewrite Ha.
    cbn [mbind option_bind]. rewrite Ho. by eexists.
Qed.

Lemma srq_pass_notifies_witness :
  let s := update (update demo 0 (set_srq_handle (Some [x61]))) 1 (set_srq_handle (Some [x62])) in
  let b := mkLogged (mkMock [] 0 (10, true) 3000 None 0x41 true) [] in
  let r := srq_pass s [1; 2] b [] in
  r.2 = [[x61]; [x62]] /\ calls r.1.2 = [CPoll 18] /\
  exists pads asking, poll_all pads b ∅ = (asking, r.1.2) /\ NoDup pads /\ r.2 = [] ++ notified asking (srq_targets s [1; 2]).
Proof.
  intros s b r. split_and!; [by vm_compute..|].
  destruct (srq_pass_notifies s [1; 2] b [] r.1.1 r.1.2 r.2) as (pads & asking & Hp & Hnd & _ & _ & Htx & _).
  - by vm_compute.
  - by exists pads, asking.
Defined.

End Vxi11Server.
