(* ===== verification/Vxi11Run.v ===== *)
(** * The VXI-11 server as a whole: [run] and [serve_connection] of [src/vxi11/server.rs]

    The core connections and the abort channel over one shared state.  An event is
    one task's turn: a connection accepted, one call answered, a connection that
    ends between records or breaks, an abort, a pass of a service-request
    forwarder.  What the other tasks do inside a call is its [CallEnv]; as a call
    that neither makes nor removes links leaves the table alone, the events of
    other connections on the table can be placed before or after it.
    [orphans] is an auxiliary variable: the links of connections that broke. *)

From S2P Require Import Prelude RustStr Xdr Rpc Messages Lock Backend Vxi11Ops Vxi11Server.

Module Vxi11Run.
Import RustStr Backend Rpc.Io Messages Vxi11Ops Vxi11Server.

Record Vxi11 (B : Type) : Type := mkVxi11 { shared : Shared; conns : gmap Z ConnState; bus : B; orphans : gset Z }.
Arguments mkVxi11 {B}.
Arguments shared {B}.
Arguments conns {B}.
Arguments bus {B}.
Arguments orphans {B}.

Inductive Turn (B : Type) : Type :=
| Connect (c : Z)
| Call (c : Z) (ce : CallEnv (B := B)) (record : list byte) (write_error : option Io.IoError)
| Hangup (c : Z)
| Break (c : Z)
| AbortCall (record : list byte)
| Forward (c : Z).
Arguments Connect {B} c.
Arguments Call {B} c ce record write_error.
Arguments Hangup {B} c.
Arguments Break {B} c.
Arguments AbortCall {B} record.
Arguments Forward {B} c.

Section Run.
Context {B : Type} `{GpibBackend B}.
Variable instrument_for : Z -> Z.
Notation St := (Vxi11 B).

(** The state [run] starts from, once both listeners are bound. *)
Definition start (c : Config) (abort_port : Z) (b : B) : St :=
  mkVxi11 (mkShared c ∅ ∅ 0 1 abort_port Lock.new_registry) ∅ b ∅.

(** An I/O error leaves [serve_connection] by [?]: the connection's own state
    goes, its interrupt channel with it, and nothing else is touched. *)
Definition broken (c : Z) (conn : ConnState) (s : Shared) (b : B) (st : St) : St :=
  mkVxi11 s (delete c (conns st)) b (list_to_set (owned conn) ∪ orphans st).

Definition handle (t : Turn B) (st : St) : option St :=
  match t with
  | Connect c =>
      match conns st !! c with
      | None => Some (mkVxi11 (shared st) (<[c := mkConn [] None]> (conns st)) (bus st) (orphans st))
      | Some _ => None
      end
  | Call c ce record write_error =>
      conn ← conns st !! c;
      '(reply, s, conn, b) ← answer instrument_for ce (shared st) conn (bus st) record;
      let go_on := mkVxi11 s (<[c := conn]> (conns st)) b (orphans st) in
      Some (match reply with
            | None => go_on
            | Some reply =>
                match Rpc.write_record reply, write_error with
                | Ok _, None => go_on
                | _, _ => broken c conn s b st
                end
            end)
  | Hangup c =>
      conn ← conns st !! c;
      Some (mkVxi11 (cleanup (shared st) conn) (delete c (conns st)) (bus st) (orphans st))
  | Break c =>
      conn ← conns st !! c; Some (broken c conn (shared st) (bus st) st)
  | AbortCall record =>
      match Rpc.decode_call record with
      | Ok (header, args) =>
          Some (mkVxi11 (abort_dispatch (shared st) header args).2 (conns st) (bus st) (orphans st))
      | Err _ => Some st
      end
  | Forward c =>
      conn ← conns st !! c;
      tx ← intr conn;
      let '(s, b, tx) := srq_pass (shared st) (owned conn) (bus st) tx in
      Some (mkVxi11 s (<[c := mkConn (owned conn) (Some tx)]> (conns st)) b (orphans st))
  end.

Fixpoint run (ts : list (Turn B)) (st : St) : option St :=
  match ts with
  | [] => Some st
  | t :: ts => st ← handle t st; run ts st
  end.

(** ** Lemmas *)

(** Other tasks keep the server consistent and, inside a call, leave the table
    of links alone. *)
Definition polite (t : Turn B) : Prop :=
  match t with Call _ ce _ _ => env_ok ce /\ forall L, env_keeps (fun s => links s = L) ce | _ => True end.

(** A call on a link keeps the table; making and removing links keep what the
    connection owns in step with it. *)
Definition in_step (s : Shared) (conn : ConnState) (s' : Shared) (conn' : ConnState) : Prop :=
  forall id, is_Some (links s' !! id) -> id ∈ owned conn' \/ (is_Some (links s !! id) /\ id ∉ owned conn).

Lemma in_step_same s conn s' conn' : links s' = links s -> owned conn' = owned conn -> in_step s conn s' conn'.
Proof. intros E1 E2 id. rewrite E1, E2. destruct (decide (id ∈ owned conn)); auto. Qed.

Lemma retain_ne_elem id x l : x ∈ retain_ne id l <-> x ∈ l /\ x <> id.
Proof. unfold retain_ne. rewrite list_elem_of_filter. tauto. Qed.

Lemma in_step_removed s conn s' conn' id : links s' = delete id (links s) ->
  (forall x, x ∈ owned conn -> x <> id -> x ∈ owned conn') -> in_step s conn s' conn'.
Proof.
  intros E1 E2 x. rewrite E1. destruct (decide (x = id)) as [->|Hne]; [rewrite lookup_delete_eq; by intros []|].
  rewrite lookup_delete_ne by done. destruct (decide (x ∈ owned conn)); auto.
Qed.

Lemma create_link_in_step turns t s conn p r s' conn' :
  create_link instrument_for turns t s conn p = Some (r, s', conn') -> in_step s conn s' conn'.
Proof.
  unfold create_link. destruct (parse_device_name _ _) as [k|]; [|intros [= <- <- <-]; by apply in_step_same].
  destruct (_ <=? _); [intros [= <- <- <-]; by apply in_step_same|].
  set (i := instrument_for _). assert (Hnew : forall x, x ∈ owned (mkConn (owned conn ++ [next_lid s]) (intr conn)) <->
    x ∈ owned conn \/ x = next_lid s) by (intros x; cbn; rewrite elem_of_app, list_elem_of_singleton; done).
  assert (Hins : in_step s conn (insert_link s k i) (mkConn (owned conn ++ [next_lid s]) (intr conn))).
  { intros x. rewrite Hnew. cbn. destruct (decide (x = next_lid s)) as [->|Hne]; [auto|].
    rewrite lookup_insert_ne by done. destruct (decide (x ∈ owned conn)); auto. }
  destruct (clp_lock_device p); [|by intros [= <- <- <-]].
  destruct (link_for _ _) as [[a l]|]; [|done]. cbn [mbind option_bind].
  destruct (Lock.request _ _ _ _ _ _) as [[g reg]|]; [|done]. cbn [mbind option_bind].
  destruct (negb _); intros [= <- <- <-]; [|exact Hins].
  apply in_step_removed with (id := next_lid s); [cbn; by rewrite delete_insert_eq|].
  intros x Hx Hne. cbn. rewrite retain_ne_elem, elem_of_app. auto.
Qed.

Lemma destroy_link_in_step s conn id e s' conn' : destroy_link s conn id = (e, s', conn') -> in_step s conn s' conn'.
Proof.
  unfold destroy_link. destruct (link_for s id) as [[a l]|]; intros [= <- <- <-]; [|by apply in_step_same].
  apply in_step_removed with (id := id); [done|]. intros x Hx Hne. cbn. by rewrite retain_ne_elem.
Qed.

Lemma links_locks L s r : links s = L -> links (set_locks s r) = L.
Proof. done. Qed.
Lemma links_update L s a (f : Link -> Link) : (forall l, lid (f l) = lid l) -> links s = L -> links (update s a f) = L.
Proof. done. Qed.

Lemma enable_srq_owned env s conn (b : B) p e s' conn' b' :
  device_enable_srq env s conn b p = (e, s', conn', b') -> owned conn' = owned conn.
Proof.
  unfold device_enable_srq. destruct (link_for s _) as [[a l]|]; [|by intros [= <- <- <- <-]].
  destruct (_ && _); [|by intros [= <- <- <- <-]]. destruct (intr conn); [|by intros [= <- <- <- <-]].
  destruct (gb_srq_asserted _) as [[[]|] b1]; by intros [= <- <- <- <-].
Qed.

Lemma create_intr_owned ok conn p e conn' : create_intr_chan ok conn p = (e, conn') -> owned conn' = owned conn.
Proof.
  unfold create_intr_chan. destruct (negb _); [by intros [= <- <-]|]. destruct (_ || _); [by intros [= <- <-]|].
  destruct (bool_decide _); [by intros [= <- <-]|]. destruct (negb ok); by intros [= <- <-].
Qed.

Lemma dispatch_in_step ce s conn (b : B) h args r s' conn' b' : (forall L, env_keeps (fun s => links s = L) ce) ->
  dispatch instrument_for ce s conn b h args = Some (r, s', conn', b') -> in_step s conn s' conn'.
Proof.
  intros Hce. destruct (Hce (links s)) as [Hc Hw]. unfold dispatch.
  repeat match goal with
  | |- (if ?c then _ else _) = _ -> _ => destruct c
  | |- Some (_, s, conn, b) = _ -> _ => intros; simplify_eq; by apply in_step_same
  | |- match ?d with Ok _ => _ | Err _ => _ end = _ -> _ => destruct d as [?p|?e]
  end.
  - destruct (create_link _ _ _ _ _ _) as [[[resp s1] c1]|] eqn:E; [|done]. cbn [mbind option_bind].
    apply create_link_in_step in E. by intros; simplify_eq.
  - destruct (device_write _ _ _ _ _) as [[[resp s1] b1]|] eqn:E; [|done]. cbn [mbind option_bind]. apply (keep_device_write (fun x => links x = links s) (links_locks _) (links_update _)) in E; [|done..].
    intros; simplify_eq. by apply in_step_same.
  - destruct e; intros; simplify_eq; by apply in_step_same.
  - destruct (device_read _ _ _ _ _) as [[[resp s1] b1]|] eqn:E; [|done]. cbn [mbind option_bind]. apply (keep_device_read (fun x => links x = links s) (links_locks _) (links_update _)) in E; [|done..].
    intros; simplify_eq. by apply in_step_same.
  - destruct (device_readstb _ _ _ _) as [[[resp s1] b1]|] eqn:E; [|done]. cbn [mbind option_bind]. apply (keep_device_readstb (fun x => links x = links s) (links_locks _) (links_update _)) in E; [|done..].
    intros; simplify_eq. by apply in_step_same.
  - destruct (device_simple _ _ _ _ _) as [[[resp s1] b1]|] eqn:E; [|done]. cbn [mbind option_bind]. apply (keep_device_simple (fun x => links x = links s) (links_locks _) (links_update _)) in E; [|done..].
    intros; simplify_eq. by apply in_step_same.
  - destruct p as [id c]. destruct (destroy_link _ _ _) as [[e s1] c1] eqn:E. apply destroy_link_in_step in E. by intros; simplify_eq.
  - destruct (device_lock _ _ _ _) as [[e s1]|] eqn:E; [|done]. cbn [mbind option_bind]. apply (keep_device_lock (fun x => links x = links s) (links_locks _) (links_update _)) in E; [|done..].
    intros; simplify_eq. by apply in_step_same.
  - destruct p as [id c]. destruct (device_unlock _ _) as [e s1] eqn:E.
    apply (keep_device_unlock (fun x => links x = links s) (links_locks _)) in E; [|done]. intros; simplify_eq. by apply in_step_same.
  - destruct (device_enable_srq _ _ _ _ _) as [[[e s1] c1] b1] eqn:E. pose proof (enable_srq_owned _ _ _ _ _ _ _ _ _ E).
    apply (keep_enable_srq (fun x => links x = links s) (links_update _)) in E; [|done]. intros; simplify_eq. by apply in_step_same.
  - destruct (create_intr_chan _ _ _) as [e c1] eqn:E. apply create_intr_owned in E. intros; simplify_eq. by apply in_step_same.
  - unfold destroy_intr_chan. destruct (intr conn); intros; simplify_eq; by apply in_step_same.
  - destruct (device_docmd _ _ _ _) as [[[resp s1] b1]|] eqn:E; [|done]. cbn [mbind option_bind]. apply (keep_device_docmd (fun x => links x = links s) (links_locks _) (links_update _)) in E; [|done..].
    intros; simplify_eq. by apply in_step_same.
Qed.

Lemma answer_in_step ce s conn (b : B) r reply s' conn' b' : (forall L, env_keeps (fun s => links s = L) ce) ->
  answer instrument_for ce s conn b r = Some (reply, s', conn', b') -> in_step s conn s' conn'.
Proof.
  intros Hce. unfold answer. destruct (Rpc.decode_call r) as [[h args]|[]]; try (intros [= <- <- <- <-]; by apply in_step_same).
  destruct (dispatch _ _ _ _ _ _ _) as [[[[res s1] c1] b1]|] eqn:E; [|done]. cbn [mbind option_bind].
  intros [= <- <- <- <-]. by eapply dispatch_in_step.
Qed.

Lemma remove_links_ok own : forall s, server_ok s -> server_ok (remove_links own s).2.
Proof.
  induction own as [|id own IH]; intros s Hs; cbn [remove_links]; [done|].
  specialize (IH (set_links s (delete id (links s))) (ok_delete_link _ _ Hs)). by destruct (remove_links own _).
Qed.
Lemma cleanup_ok s conn : server_ok s -> server_ok (cleanup s conn).
Proof. intros Hs. unfold cleanup. pose proof (remove_links_ok (owned conn) s Hs). destruct (remove_links _ s). by apply ok_set_locks. Qed.
Lemma cleanup_links s conn id : links (cleanup s conn) !! id = if decide (id ∈ owned conn) then None else links s !! id.
Proof.
  unfold cleanup. destruct (remove_links (owned conn) s) as [removed s1] eqn:E.
  apply remove_links_spec in E as (_ & _ & _ & Hl & _). apply Hl.
Qed.

Lemma abort_dispatch_kept s h args : server_ok s ->
  server_ok (abort_dispatch s h args).2 /\ links (abort_dispatch s h args).2 = links s.
Proof.
  intros Hs. unfold abort_dispatch. destruct (negb _); [done|]. destruct (negb _); [done|]. destruct (negb _); [done|].
  destruct (Xdr.i32 _) as [[id c]|]; [|done]. destruct (link_for s id) as [[a l]|]; [|done]. cbn [snd].
  unfold deliver_abort. destruct (cells s !! a) as [x|]; [|done]. destruct (in_flight x); [|done].
  split; [by apply ok_update|done].
Qed.

Lemma forward_kept targets : forall polled stash s (b : B) tx s' b' tx',
  server_ok s -> forward targets polled stash s b tx = (s', b', tx') -> server_ok s' /\ links s' = links s.
Proof.
  induction targets as [|[a l] targets IH]; intros polled stash s b tx s' b' tx' Hs; cbn [forward]; [by intros [= <- <- <-]|].
  destruct (forward_one (a, l) polled stash s b tx) as [[[[p1 st1] s1] b1] tx1] eqn:E1.
  assert (H1 : server_ok s1 /\ links s1 = links s).
  { unfold forward_one in E1.
    destruct (if is_interface l then _ else _) as [[[[] p2] st2] b2]; injection E1 as <- <- <- <- <-; [|done].
    destruct (st2 !! resource l); [|done]. split; [by apply ok_update|done]. }
  destruct H1 as [Hs1 <-]. by apply IH.
Qed.

(** *** The invariant *)

Definition covered (st : St) : Prop := forall id, is_Some (links (shared st) !! id) ->
  (exists c conn, conns st !! c = Some conn /\ id ∈ owned conn) \/ id ∈ orphans st.

Lemma covered_conn (st : St) c conn s' b' conn' : conns st !! c = Some conn -> covered st -> in_step (shared st) conn s' conn' ->
  covered (mkVxi11 s' (<[c := conn']> (conns st)) b' (orphans st)) /\ covered (broken c conn' s' b' st).
Proof.
  intros Hc Hcov Hst. split; intros id Hid; cbn in *; destruct (Hst id Hid) as [Hin|[Hl Hnot]].
  - left. exists c, conn'. by rewrite lookup_insert_eq.
  - destruct (Hcov id Hl) as [(c0 & k & Hk & Hin)|]; [|by right]. left. exists c0, k.
    rewrite lookup_insert_ne; [done|]. intros <-. congruence.
  - right. set_solver.
  - destruct (Hcov id Hl) as [(c0 & k & Hk & Hin)|]; [|right; set_solver]. left. exists c0, k.
    rewrite lookup_delete_ne; [done|]. intros <-. congruence.
Qed.

Lemma handle_keeps (st st' : St) t : polite t -> server_ok (shared st) -> covered st -> handle t st = Some st' ->
  server_ok (shared st') /\ covered st'.
Proof.
  intros Hp Hs Hcov. destruct t; cbn [handle polite] in *.
  - destruct (conns st !! c) eqn:Hc; [done|]. intros [= <-]. split; [done|]. intros id [(c0 & k & Hk & Hin)|]%Hcov; [left|by right].
    exists c0, k. cbn. rewrite lookup_insert_ne; [done|]. intros <-. congruence.
  - destruct (conns st !! c) as [conn|] eqn:Hc; [|done]. cbn [mbind option_bind].
    destruct (answer _ _ _ _ _ _) as [[[[reply s] conn'] b]|] eqn:Ea; [|done]. cbn [mbind option_bind].
    destruct Hp as [Henv Htab]. pose proof (answer_ok _ _ _ _ _ _ _ _ _ _ Henv Hs Ea) as Hs'.
    apply answer_in_step in Ea; [|done]. destruct (covered_conn st c conn s b conn' Hc Hcov Ea) as [H1 H2].
    destruct reply as [reply|]; [destruct (Rpc.write_record reply), write_error|]; intros [= <-]; done.
  - destruct (conns st !! c) as [conn|] eqn:Hc; [|done]. intros [= <-]. split; [by apply cleanup_ok|].
    intros id. cbn. rewrite cleanup_links. destruct (decide (id ∈ owned conn)) as [|Hn]; [by intros []|].
    intros [(c0 & k & Hk & Hin)|]%Hcov; [left|by right]. exists c0, k. rewrite lookup_delete_ne; [done|]. intros <-. congruence.
  - destruct (conns st !! c) as [conn|] eqn:Hc; [|done]. intros [= <-]. split; [done|].
    by apply (covered_conn st c conn (shared st) (bus st) conn Hc Hcov), in_step_same.
  - destruct (Rpc.decode_call record) as [[h args]|]; intros [= <-]; [|done].
    destruct (abort_dispatch_kept (shared st) h args Hs) as [H1 H2]. split; [done|]. intros id. cbn. rewrite H2. apply Hcov.
  - destruct (conns st !! c) as [conn|] eqn:Hc; [|done]. cbn [mbind option_bind]. destruct (intr conn) as [tx|]; [|done].
    cbn [mbind option_bind]. destruct (srq_pass _ _ _ _) as [[s b] tx'] eqn:Ef. intros [= <-].
    apply forward_kept in Ef as [H1 H2]; [|done]. split; [done|].
    by apply (covered_conn st c conn s b (mkConn (owned conn) (Some tx')) Hc Hcov), in_step_same.
Qed.

Lemma run_keeps ts : forall st st' : St, Forall polite ts -> server_ok (shared st) -> covered st -> run ts st = Some st' ->
  server_ok (shared st') /\ covered st'.
Proof.
  induction ts as [|t ts IH]; intros st st' Hp Hs Hc; cbn [run]; [by intros [= <-]|].
  apply Forall_cons in Hp as [Ht Hp]. destruct (handle t st) as [st1|] eqn:E; [|done]. cbn [mbind option_bind].
  destruct (handle_keeps st st1 t Ht Hs Hc E) as [H1 H2]. by apply IH.
Qed.

End Run.

(** ** Properties *)

(** C24: links and connections.  Whatever connections come and go, call each
    other's links, break or are aborted: the server's tables stay consistent and
    every link of the table belongs to a connection that is open or is one that a
    broken connection left behind; so once every connection is closed and none
    of them broke, no link is left. *)
Theorem links_follow_connections {B} `{GpibBackend B} ifor config port (b : B) ts st :
  0 <= max_links config -> Forall polite ts -> run ifor ts (start config port b) = Some st ->
  server_ok (shared st) /\
  (forall id, is_Some (links (shared st) !! id) ->
     (exists c conn, conns st !! c = Some conn /\ id ∈ owned conn) \/ id ∈ orphans st) /\
  (conns st = ∅ -> orphans st = ∅ -> links (shared st) = ∅).
Proof.
  intros Hm Hp Hr. destruct (run_keeps ifor ts (start config port b) st Hp) as [H1 H2]; [| |exact Hr|].
  - split; cbn; [by setoid_rewrite lookup_empty|intros a []; by rewrite lookup_empty in *|rewrite map_size_empty; lia].
  - intros id [a Ha]. cbn in Ha. by rewrite lookup_empty in Ha.
  - split_and!; [done|done|]. intros Hc Ho. apply map_empty. intros id. destruct (links (shared st) !! id) eqn:E; [|done].
    destruct (H2 id ltac:(by rewrite E)) as [(c & conn & Hk & _)|Hin]; [by rewrite Hc, lookup_empty in Hk|].
    rewrite Ho in Hin. set_solver.
Qed.

(** *** Runs *)

Definition create_record (name : list Z) : list byte :=
  Rpc.encode_call 7 DEVICE_CORE_PROG DEVICE_CORE_VERS CREATE_LINK (CreateLinkParms_encode (mkCreateLinkParms 1 false 0 (as_bytes name)) []).
Definition desk_run (ts : list (Turn Mock)) : option (Vxi11 Mock) :=
  run (fun p => p) ts (start default_config 1024 (demo_bus [])).

Lemma polling_polite c r e : polite (Call c polling r e).
Proof. repeat constructor. Qed.

(** Two clients with a link each; the first hangs up, the second breaks. *)
Lemma links_follow_connections_witness :
  let ts := [Connect 1; Call 1 polling (create_record (str "gpib0,18")) None; Connect 2;
             Call 2 polling (create_record (str "gpib0,5")) None; Hangup 1; Break 2] in
  exists st, desk_run ts = Some st /\ server_ok (shared st) /\ map_to_list (links (shared st)) = [(2, 1%nat)] /\ 2 ∈ orphans st.
Proof.
  intros ts. destruct (desk_run ts) as [st|] eqn:E; [|by vm_compute in E]. exists st. split; [done|].
  destruct (links_follow_connections (fun p => p) default_config 1024 (demo_bus []) ts st) as [Hok _].
  - by vm_compute.
  - unfold ts. repeat (apply List.Forall_cons; [lazymatch goal with |- polite (Call _ _ _ _) => apply polling_polite | |- _ => exact I end|]).
    apply List.Forall_nil.
  - exact E.
  - split; [exact Hok|]. vm_compute in E. injection E as <-. split; by vm_compute.
Defined.

(** links nobody owns.  Sixty-four connections that break after making a
    link, and with none open every further client is told the server is out of
    resources. *)
Theorem broken_connections_exhaust :
  let breaks c := [Connect c; Call c polling (create_record (str "gpib0,18")) None; Break c] in
  exists st, desk_run (concat (map breaks (seqZ 0 64))) = Some st /\ conns st = ∅ /\
    forall conn turns t p, exists e, create_link (fun p => p) turns t (shared st) conn p = Some (refuse e, shared st, conn).
Proof.
  intros breaks. destruct (desk_run (concat (map breaks (seqZ 0 64)))) as [st|] eqn:E; [|by vm_compute in E].
  exists st. split; [done|].
  assert (Hst : conns st = ∅ /\ (max_links (config (shared st)) <=? Z.of_nat (size (links (shared st)))) = true).
  { vm_compute in E. injection E as <-. split; by vm_compute. }
  split; [apply Hst|]. intros conn turns t p. unfold create_link. destruct (parse_device_name _ _); [|by eexists].
  rewrite (proj2 Hst). by eexists.
Qed.

End Vxi11Run.
