(* ===== verification/Prologix.v ===== *)
(** * The Prologix front-end: [src/prologix.rs], [src/server.rs]

    The line interpreter with its per-connection state, and the connection
    loop that carries out what a line asks for on the bus. *)

From S2P Require Import Prelude RustStr Backend Rpc.

Module Prologix.
Import RustStr Backend Rpc.Io.

(** ** The interpreter *)

Inductive LineResult : Type :=
| LOk
| Response (r : list Z)
| LError (e : list Z)
| SerialPoll (pad : Z)
| Trigger (pad : Z)
| Srq
| ListenOnly (o : option bool)
| DeviceMode (o : option (option Z))
| BusLines
| Forward (pad : Z) (data : list byte) (send_eoi auto_read : bool)
| Read (until_eoi : bool) (until_char : option Z)
| DeviceClear (pad : Z)
| GoToLocal (pad : Z)
| LocalLockout
| Ifc
| Reset.

Definition parse_optional_pad (args : list Z) (default : Z) : result Z (list Z) :=
  match args with
  | [] => Ok default
  | _ =>
      match parse_u8 args with
      | Some n => if n <=? 30 then Ok n else Err (str "invalid address: " ++ args)
      | None => Err (str "invalid address: " ++ args)
      end
  end.

Record PrologixState : Type := mkState {
  addr : Z;
  auto_read : bool;
  eoi : bool;
  eos_mode : Z;
  eot_enable : bool;
  eot_char : Z;
  read_tmo_ms : Z;
}.

Definition default_state : PrologixState := mkState 0 false true 0 false 0 3000.
Definition with_addr (a : Z) : PrologixState := mkState a false true 0 false 0 3000.

(** The arms that share a shape: a flag with arguments 0, 1 or none. *)
Definition flag_arm (args : list Z) (cur : bool) (set : bool -> PrologixState) (st : PrologixState)
    (msg : string) : LineResult * PrologixState :=
  if bool_decide (args = str "0") then (LOk, set false)
  else if bool_decide (args = str "1") then (LOk, set true)
  else if bool_decide (args = []) then (Response (if cur then str "1" else str "0"), st)
  else (LError (str msg), st).

Definition pad_arm (args : list Z) (st : PrologixState) (k : Z -> LineResult) : LineResult * PrologixState :=
  match parse_optional_pad args (addr st) with
  | Ok pad => (k pad, st)
  | Err e => (LError e, st)
  end.

Definition split_command (cmd : list Z) : list Z * list Z :=
  match split_once is_whitespace cmd with
  | Some (n, a) => (trim n, trim a)
  | None => (trim cmd, [])
  end.

Definition handle_command (st : PrologixState) (line : list Z) : LineResult * PrologixState :=
  let '(name, args) := split_command line in
  let cmd w := bool_decide (name = str w) in
  let '(mkState a au eo em ee ec tm) := st in
  if cmd "addr"%string then
    match args with
    | [] => (Response (to_string a), st)
    | _ =>
        match parse_u8 args with
        | Some n => if n <=? 30 then (LOk, mkState n au eo em ee ec tm)
                    else (LError (str "invalid address: " ++ args), st)
        | None => (LError (str "invalid address: " ++ args), st)
        end
    end
  else if cmd "auto"%string then
    flag_arm args au (fun v => mkState a v eo em ee ec tm) st "++auto requires 0 or 1"
  else if cmd "eoi"%string then
    flag_arm args eo (fun v => mkState a au v em ee ec tm) st "++eoi requires 0 or 1"
  else if cmd "eos"%string then
    if bool_decide (args = str "0") || bool_decide (args = str "1") ||
       bool_decide (args = str "2") || bool_decide (args = str "3")
    then match parse_u8 args with
         | Some n => (LOk, mkState a au eo n ee ec tm)
         | None => (LOk, st)             (* unwrap of a single digit *)
         end
    else if bool_decide (args = []) then (Response (to_string em), st)
    else (LError (str "++eos requires 0-3"), st)
  else if cmd "eot_enable"%string then
    flag_arm args ee (fun v => mkState a au eo em v ec tm) st "++eot_enable requires 0 or 1"
  else if cmd "eot_char"%string then
    match args with
    | [] => (Response (to_string ec), st)
    | _ =>
        match parse_u8 args with
        | Some n => (LOk, mkState a au eo em ee n tm)
        | None => (LError (str "++eot_char requires 0-255"), st)
        end
    end
  else if cmd "read_tmo_ms"%string then
    match args with
    | [] => (Response (to_string tm), st)
    | _ =>
        match parse_u32 args with
        | Some n => (LOk, mkState a au eo em ee ec n)
        | None => (LError (str "++read_tmo_ms requires integer"), st)
        end
    end
  else if cmd "read"%string then
    if bool_decide (args = str "eoi") || bool_decide (args = []) then (Read true None, st)
    else
      match parse_u8 args with
      | Some n => (Read true (Some n), st)
      | None => (LError (str "++read invalid arg: " ++ args), st)
      end
  else if cmd "clr"%string then (DeviceClear a, st)
  else if cmd "ifc"%string then (Ifc, st)
  else if cmd "rst"%string then (Reset, st)
  else if cmd "ver"%string then (Response (str "Prologix GPIB-USB Controller version 6.107"), st)
  else if cmd "mode"%string then
    if bool_decide (args = str "1") then (LOk, st)
    else if bool_decide (args = str "0")
    then (LError (str "device mode not supported (hardware is controller-only)"), st)
    else (LError (str "++mode requires 0 or 1"), st)
  else if cmd "srq"%string then (Srq, st)
  else if cmd "lines"%string then (BusLines, st)
  else if cmd "dev"%string then
    if bool_decide (args = []) then (DeviceMode None, st)
    else if bool_decide (args = str "off") then (DeviceMode (Some None), st)
    else
      match parse_u8 args with
      | Some n => if n <=? 30 then (DeviceMode (Some (Some n)), st)
                  else (LError (str "++dev requires an address 0-30, or off"), st)
      | None => (LError (str "++dev requires an address 0-30, or off"), st)
      end
  else if cmd "lon"%string then
    if bool_decide (args = []) then (ListenOnly None, st)
    else if bool_decide (args = str "0") then (ListenOnly (Some false), st)
    else if bool_decide (args = str "1") then (ListenOnly (Some true), st)
    else (LError (str "++lon requires 0 or 1"), st)
  else if cmd "spoll"%string then pad_arm args st SerialPoll
  else if cmd "trg"%string then pad_arm args st Trigger
  else if cmd "llo"%string then (LocalLockout, st)
  else if cmd "loc"%string then pad_arm args st GoToLocal
  else if cmd "status"%string || cmd "savecfg"%string then (LOk, st)
  else (LError (str "unknown command: " ++ name), st).

Definition terminator (eos_mode : Z) : list byte :=
  if eos_mode =? 0 then [x0d; x0a]
  else if eos_mode =? 1 then [x0d]
  else if eos_mode =? 2 then [x0a]
  else [].

Definition handle_data (st : PrologixState) (line : list Z) : LineResult :=
  Forward (addr st) (as_bytes line ++ terminator (eos_mode st)) (eoi st) (auto_read st).

Definition is_line_end (c : Z) : bool := (c =? 13) || (c =? 10).

Definition handle_line (st : PrologixState) (line : list Z) : LineResult * PrologixState :=
  let line := trim_end_matches is_line_end line in
  match strip_prefix (str "++") line with
  | Some rest => handle_command st rest
  | None => (handle_data st line, st)
  end.

Definition apply_eot (st : PrologixState) (data : list byte) : list byte :=
  if eot_enable st then data ++ [b8 (eot_char st)] else data.

(** ** The connection *)

(** The socket's write half: what the client received, and after how many
    more writes it will be gone. *)
Record Writer : Type := mkWriter { written : list byte; room : option nat }.

Definition write_all (w : Writer) (d : list byte) : result unit IoError * Writer :=
  match room w with
  | None => (Ok tt, mkWriter (written w ++ d) None)
  | Some (S n) => (Ok tt, mkWriter (written w ++ d) (Some n))
  | Some O => (Err (Transport 32), w)
  end.

(** [Lines::next_line]: up to a newline, which is stripped with one carriage
    return before it; a last line needs no newline; the text is UTF-8. *)
Fixpoint until_newline (l : list byte) : list byte * option (list byte) :=
  match l with
  | [] => ([], None)
  | c :: l =>
      if bool_decide (c = x0a) then ([], Some l)
      else let '(line, rest) := until_newline l in (c :: line, rest)
  end.

Definition strip_cr (l : list byte) : list byte :=
  match last l with Some x0d => take (length l - 1) l | _ => l end.

Definition next_line (rd : Reader) : result (option (list Z) * Reader) IoError :=
  let '(line, rest) := until_newline (avail rd) in
  match rest, ending rd with
  | None, Some e => Err (Transport e)
  | None, None =>
      match line with
      | [] => Ok (None, rd)
      | _ => match from_utf8 line with
             | Some s => Ok (Some s, mkReader [] None)
             | None => Err InvalidData
             end
      end
  | Some rest, e =>
      match from_utf8 (strip_cr line) with
      | Some s => Ok (Some s, mkReader rest e)
      | None => Err InvalidData
      end
  end.

Section Connection.
Context {B : Type} `{GpibBackend B}.
(** The [{e}] rendering of an error: its outermost message. *)
Variable display : Error -> list Z.

Definition say (w : Writer) (t : list Z) : result unit IoError * Writer := write_all w (as_bytes (t ++ [10])).

(** The match on what a line asks for: the bus, the reply and the new state. *)
Definition serve_line (default_pad : Z) (st : PrologixState) (r : LineResult) (b : B) (w : Writer)
    : PrologixState * B * (result unit IoError * Writer) :=
  let quietly (p : result unit Error * B) := (st, p.2, (Ok tt, w)) in
  let loudly (p : result unit Error * B) :=
    (st, p.2, match p.1 with Ok _ => (Ok tt, w) | Err e => say w (str "error: " ++ display e) end) in
  match r with
  | LOk => (st, b, (Ok tt, w))
  | Response t =>
      (st, b, match write_all w (as_bytes t) with
              | (Ok _, w) => write_all w [x0a]
              | bad => bad
              end)
  | LError e => (st, b, say w (str "error: " ++ e))
  | Forward pad data send_eoi auto_read =>
      match gb_write b pad data send_eoi with
      | (Err _, b) => (st, b, (Ok tt, w))
      | (Ok _, b) =>
          if auto_read then
            match gb_read b pad 65536 with
            | (Ok (resp, _), b) => (st, b, write_all w (apply_eot st resp))
            | (Err _, b) => (st, b, (Ok tt, w))
            end
          else (st, b, (Ok tt, w))
      end
  | Read _ _ =>
      match gb_read b (addr st) 65536 with
      | (Ok (resp, _), b) => (st, b, write_all w (apply_eot st resp))
      | (Err _, b) => (st, b, (Ok tt, w))
      end
  | SerialPoll pad =>
      match gb_serial_poll b pad with
      | (Ok stb, b) => (st, b, say w (to_string stb))
      | (Err _, b) => (st, b, (Ok tt, w))
      end
  | Trigger pad => quietly (gb_trigger b pad)
  | Srq =>
      match gb_srq_asserted b with
      | (Ok asserted, b) => (st, b, say w (to_string (if asserted : bool then 1 else 0)))
      | (Err _, b) => (st, b, (Ok tt, w))
      end
  | ListenOnly None => (st, b, say w (to_string (if gb_listen_only b then 1 else 0)))
  | ListenOnly (Some enable) => loudly (gb_set_listen_only b enable)
  | DeviceMode None =>
      (st, b, say w (match gb_device_address b with Some a => to_string a | None => str "off" end))
  | DeviceMode (Some target) => loudly (gb_set_device_mode b target)
  | BusLines =>
      match gb_bus_lines b with
      | (Ok lines, b) => (st, b, say w (fmt_lines lines))
      | (Err _, b) => (st, b, (Ok tt, w))
      end
  | DeviceClear pad => quietly (gb_device_clear b pad)
  | GoToLocal pad => quietly (gb_go_to_local b pad)
  | LocalLockout => quietly (gb_local_lockout b)
  | Ifc => quietly (gb_ifc b)
  | Reset => (with_addr default_pad, (gb_init b 0).2, (Ok tt, w))
  end.

Fixpoint serve_lines (fuel : nat) (default_pad : Z) (st : PrologixState) (rd : Reader) (b : B) (w : Writer)
    : option (result unit IoError * B * Writer) :=
  match fuel with
  | O => None
  | S fuel =>
      match next_line rd with
      | Err e => Some (Err e, b, w)
      | Ok (None, _) => Some (Ok tt, b, w)
      | Ok (Some line, rd) =>
          let '(r, st) := handle_line st line in
          match serve_line default_pad st r b w with
          | (_, b, (Err e, w)) => Some (Err e, b, w)
          | (st, b, (Ok _, w)) => serve_lines fuel default_pad st rd b w
          end
      end
  end.

Definition handle_connection (rd : Reader) (b : B) (w : Writer) (default_pad : Z)
    : option (result unit IoError * B * Writer) :=
  serve_lines (S (length (avail rd))) default_pad (with_addr default_pad) rd b w.

(** [run]: the clients one after the other, each to the end of its connection
    whatever that end was, and each with settings of its own. *)
Fixpoint run (clients : list (Reader * Writer)) (b : B) (default_pad : Z)
    : option (list (result unit IoError * Writer) * B) :=
  match clients with
  | [] => Some ([], b)
  | (rd, w) :: clients =>
      '(res, b, w) ← handle_connection rd b w default_pad;
      '(rest, b) ← run clients b default_pad;
      Some ((res, w) :: rest, b)
  end.

End Connection.

(** ** Lemmas *)

(** An address on the bus, or the one the daemon was started with. *)
Definition legal (dp pad : Z) : Prop := 0 <= pad <= 30 \/ pad = dp.

Definition state_wf (dp : Z) (st : PrologixState) : Prop :=
  legal dp (addr st) /\ 0 <= eos_mode st <= 3 /\ in_u8 (eot_char st) /\ in_u32 (read_tmo_ms st).

(** The addresses a line's request names. *)
Definition result_wf (dp : Z) (r : LineResult) : Prop :=
  match r with
  | SerialPoll pad | Trigger pad | DeviceClear pad | GoToLocal pad | Forward pad _ _ _
  | DeviceMode (Some (Some pad)) => legal dp pad
  | _ => True
  end.

Lemma flag_arm_wf dp args cur set st msg : state_wf dp st -> (forall v, state_wf dp (set v)) ->
  result_wf dp (flag_arm args cur set st msg).1 /\ state_wf dp (flag_arm args cur set st msg).2.
Proof. intros Hst Hset. unfold flag_arm. repeat case_bool_decide; simpl; auto. Qed.

Lemma pad_arm_wf dp args st k : state_wf dp st -> (forall pad, legal dp pad -> result_wf dp (k pad)) ->
  result_wf dp (pad_arm args st k).1 /\ state_wf dp (pad_arm args st k).2.
Proof.
  intros Hst Hk. unfold pad_arm, parse_optional_pad. destruct args as [|c args].
  - split; [apply Hk, Hst|done].
  - destruct (parse_u8 (c :: args)) as [n|] eqn:E; [|done].
    apply parse_uint_range in E; [|lia]. destruct (Z.leb_spec n 30); simpl; [|done].
    split; [apply Hk; left; lia|done].
Qed.

Lemma eos_digit args :
  bool_decide (args = str "0") || bool_decide (args = str "1") ||
  bool_decide (args = str "2") || bool_decide (args = str "3") = true ->
  exists n, parse_u8 args = Some n /\ 0 <= n <= 3.
Proof.
  intros E. repeat (apply orb_true_iff in E as [E|E]); apply bool_decide_eq_true in E as ->;
    eexists; (split; [by vm_compute|lia]).
Qed.

Lemma handle_command_wf dp st line : state_wf dp st ->
  result_wf dp (handle_command st line).1 /\ state_wf dp (handle_command st line).2.
Proof.
  intros Hst. pose proof Hst as (Ha & He & Hc & Ht). unfold handle_command.
  destruct (split_command line) as [name args]. destruct st as [a au eo em ee ec tm]. simpl in Ha, He, Hc, Ht.
  repeat (match goal with |- context [if bool_decide (name = ?w) then _ else _] =>
            destruct (bool_decide (name = w)) end);
    try (apply flag_arm_wf; [done|by intros]); try (apply pad_arm_wf; [done|by intros]); try done.
  all: try (destruct args as [|c args]; [done|]);
    try (match goal with |- context [parse_u8 ?x] => destruct (parse_u8 x) as [n|] eqn:E end);
    try (match goal with |- context [parse_u32 ?x] => destruct (parse_u32 x) as [n|] eqn:E end);
    try (pose proof (parse_uint_range 255 _ _ ltac:(lia) E) as Hr);
    try (pose proof (parse_uint_range 4294967295 _ _ ltac:(lia) E) as Hr);
    repeat match goal with |- context [if ?b then _ else _] =>
             let Hb := fresh "Hb" in destruct b eqn:Hb end; try done;
    repeat match goal with
           | Hb : (_ <=? _) = true |- _ => apply Z.leb_le in Hb
           | Hb : _ || _ = true |- _ => apply eos_digit in Hb as (m & Hm & ?); rewrite E in Hm; injection Hm as ->
           end;
    unfold state_wf, legal, in_u8, in_u32 in *; simpl in *; split_and!; try done; try lia; try (left; lia).
Qed.

Lemma handle_line_wf dp st line : state_wf dp st ->
  result_wf dp (handle_line st line).1 /\ state_wf dp (handle_line st line).2.
Proof.
  intros Hst. unfold handle_line. destruct (strip_prefix _ _); [by apply handle_command_wf|].
  split; [apply Hst|done].
Qed.

(** A command line with one plain argument. *)
Definition plain (s : list Z) : Prop := Forall (fun c => is_whitespace c = false) s.

Lemma not_whitespace_line_end c : is_whitespace c = false -> is_line_end c = false.
Proof.
  unfold is_whitespace, is_line_end. destruct (Z.eqb_spec c 13) as [->|]; [done|].
  by destruct (Z.eqb_spec c 10) as [->|].
Qed.

Lemma trim_line_end s a : plain a -> a <> [] -> trim_end_matches is_line_end (s ++ a) = s ++ a.
Proof.
  intros Ha Hne. unfold trim_end_matches. rewrite rev_app_distr.
  destruct (rev a) as [|c r] eqn:E.
  - exfalso. apply Hne. rewrite <- (rev_involutive a), E. done.
  - assert (Hc : is_line_end c = false).
    { apply not_whitespace_line_end. unfold plain in Ha. rewrite Forall_forall in Ha. apply Ha.
      apply list_elem_of_In, in_rev. rewrite E. by left. }
    cbn [app trim_start_matches]. rewrite Hc.
    change (c :: r ++ rev s) with ((c :: r) ++ rev s). rewrite <- E.
    by rewrite <- rev_app_distr, rev_involutive.
Qed.

Lemma handle_line_set st name arg : plain name -> plain arg -> arg <> [] ->
  handle_line st (str "++" ++ name ++ [32] ++ arg) = handle_command st (name ++ [32] ++ arg).
Proof.
  intros Hn Ha Hne. unfold handle_line.
  rewrite !app_assoc. rewrite trim_line_end by done. rewrite <- !app_assoc. by rewrite strip_prefix_app.
Qed.

Lemma handle_line_query st name : plain name -> name <> [] ->
  handle_line st (str "++" ++ name) = handle_command st name.
Proof. intros Hn Hne. unfold handle_line. rewrite trim_line_end by done. by rewrite strip_prefix_app. Qed.

Lemma split_command_set name arg : plain name -> plain arg -> split_command (name ++ [32] ++ arg) = (name, arg).
Proof.
  intros Hn Ha. unfold split_command. change ([32] ++ arg) with (32 :: arg).
  rewrite split_once_app by done. by rewrite !trim_none.
Qed.

Lemma split_command_query name : plain name -> split_command name = (name, []).
Proof. intros Hn. unfold split_command. rewrite split_once_none by done. by rewrite trim_none. Qed.

(** Resolve the comparisons of literal command names. *)
Ltac cmd_literals :=
  repeat match goal with
         | |- context [bool_decide (str ?x = str ?y)] =>
             let v := eval vm_compute in (bool_decide (str x = str y)) in
             change (bool_decide (str x = str y)) with v
         end; cbv iota beta.

Lemma addr_arm st line args : split_command line = (str "addr", args) ->
  handle_command st line =
  match args with
  | [] => (Response (to_string (addr st)), st)
  | _ => match parse_u8 args with
         | Some n => if n <=? 30
             then (LOk, mkState n (auto_read st) (eoi st) (eos_mode st) (eot_enable st) (eot_char st) (read_tmo_ms st))
             else (LError (str "invalid address: " ++ args), st)
         | None => (LError (str "invalid address: " ++ args), st)
         end
  end.
Proof. intros E. unfold handle_command. rewrite E. destruct st. cbv beta zeta. by cmd_literals. Qed.

Lemma eot_char_arm st line args : split_command line = (str "eot_char", args) ->
  handle_command st line =
  match args with
  | [] => (Response (to_string (eot_char st)), st)
  | _ => match parse_u8 args with
         | Some n => (LOk, mkState (addr st) (auto_read st) (eoi st) (eos_mode st) (eot_enable st) n (read_tmo_ms st))
         | None => (LError (str "++eot_char requires 0-255"), st)
         end
  end.
Proof. intros E. unfold handle_command. rewrite E. destruct st. cbv beta zeta. by cmd_literals. Qed.

Lemma read_tmo_ms_arm st line args : split_command line = (str "read_tmo_ms", args) ->
  handle_command st line =
  match args with
  | [] => (Response (to_string (read_tmo_ms st)), st)
  | _ => match parse_u32 args with
         | Some n => (LOk, mkState (addr st) (auto_read st) (eoi st) (eos_mode st) (eot_enable st) (eot_char st) n)
         | None => (LError (str "++read_tmo_ms requires integer"), st)
         end
  end.
Proof. intros E. unfold handle_command. rewrite E. destruct st. cbv beta zeta. by cmd_literals. Qed.

(** Setting and querying one setting, in terms of the command's arm. *)
Lemma set_line st name n : plain (str name) -> 0 <= n ->
  exists line c cs, handle_line st (str "++" ++ str name ++ [32] ++ to_string n) = handle_command st line /\
    split_command line = (str name, to_string n) /\ to_string n = c :: cs.
Proof.
  intros Hp Hn. destruct (to_string n) as [|c cs] eqn:E; [by apply to_string_nonempty in E|]. rewrite <- E.
  exists (str name ++ [32] ++ to_string n), c, cs. split_and!; [|by apply split_command_set, to_string_plain|done].
  apply handle_line_set; [done|by apply to_string_plain|by rewrite E].
Qed.

Lemma ask_line st name : plain (str name) -> str name <> [] ->
  exists line, handle_line st (str "++" ++ str name) = handle_command st line /\
    split_command line = (str name, []).
Proof. intros. exists (str name). split; [by apply handle_line_query|by apply split_command_query]. Qed.

(** The bus as the log of a connection sees it: only such addresses, reads of the
    fixed size, and nothing that is not addressed. *)
Definition on_bus (dp : Z) (c : Call) : Prop :=
  match c with
  | CWrite pad _ _ | CPoll pad | COther _ (Some pad) => legal dp pad
  | CRead pad max_len => legal dp pad /\ max_len = 65536
  | CGot _ _ | COther _ None => True
  | CSend _ _ | CReadUnaddressed _ | CCommand _ => False
  end.

Ltac calls_ok := simpl; repeat (apply Forall_cons_2; [done|]); apply Forall_nil_2.

Lemma serve_line_calls {B} `{GpibBackend B} display dp st r (b : Logged B) w :
  state_wf dp st -> result_wf dp r ->
  state_wf dp (serve_line display dp st r b w).1.1 /\
  exists cs, calls (serve_line display dp st r b w).1.2 = calls b ++ cs /\ Forall (on_bus dp) cs.
Proof.
  intros Hst Hr. unfold serve_line.
  assert (Hnil : forall st', state_wf dp st' -> state_wf dp st' /\ exists cs, calls b = calls b ++ cs /\ Forall (on_bus dp) cs).
  { intros st' H'. split; [done|]. exists []. by rewrite app_nil_r. }
  destruct r as [| | |pad|pad| |[en|]|[[t|]|]| |pad data e ar|ue uc|pad|pad| | |];
    try (by apply Hnil); simpl in Hr.
  - destruct (gb_serial_poll b pad) as [[stb|e] b'] eqn:E; injection E as E <-; simpl;
      (split; [done|]); eexists; (split; [done|]); calls_ok.
  - split; [done|]. eexists; split; [done|]. calls_ok.
  - destruct (gb_srq_asserted b) as [[x|e] b'] eqn:E; injection E as E <-; simpl;
      (split; [done|]); eexists; (split; [done|]); calls_ok.
  - split; [done|]. eexists; split; [done|]. calls_ok.
  - split; [done|]. eexists; split; [done|]. calls_ok.
  - split; [done|]. eexists; split; [done|]. calls_ok.
  - destruct (gb_bus_lines b) as [[x|e] b'] eqn:E; injection E as E <-; simpl;
      (split; [done|]); eexists; (split; [done|]); calls_ok.
  - destruct (gb_write b pad data e) as [[[]|err] b1] eqn:E; injection E as E <-; simpl.
    2: { split; [done|]. eexists; split; [done|]. calls_ok. }
    destruct ar; simpl; [|split; [done|]; eexists; split; [done|]; calls_ok].
    destruct (gb_read (gb_write (bus b) pad data e).2 pad 65536) as [[[resp eom]|err] b2]; simpl;
      (split; [done|]); rewrite <- app_assoc; eexists; (split; [done|]); calls_ok.
  - destruct Hst as [Ha Hst']. pose proof (conj Ha Hst' : state_wf dp st) as Hst.
    destruct (gb_read b (addr st) 65536) as [[[resp eom]|err] b2] eqn:E; injection E as E <-; simpl;
      (split; [done|]); rewrite E; eexists; (split; [done|]); calls_ok.
  - split; [done|]. eexists; split; [done|]. calls_ok.
  - split; [done|]. eexists; split; [done|]. calls_ok.
  - split; [done|]. eexists; split; [done|]. calls_ok.
  - split; [done|]. eexists; split; [done|]. calls_ok.
  - simpl. split; [|eexists; split; [done|]; apply Forall_singleton; simpl; unfold legal; lia].
    unfold state_wf, legal, in_u8, in_u32. simpl. lia.
Qed.

Lemma until_newline_length l : match until_newline l with
  | (line, Some rest) => (length rest < length l)%nat
  | (line, None) => line = l
  end.
Proof.
  induction l as [|c l IH]; cbn [until_newline]; [done|]. case_bool_decide; [simpl; lia|].
  destruct (until_newline l) as [line [rest|]]; simpl; [lia|by subst].
Qed.

Lemma next_line_shorter rd line rd' : next_line rd = Ok (Some line, rd') ->
  (length (avail rd') < length (avail rd))%nat.
Proof.
  unfold next_line. pose proof (until_newline_length (avail rd)) as Hl.
  destruct (until_newline (avail rd)) as [l [rest|]].
  - destruct (from_utf8 _); [|done]. by intros [= _ <-].
  - subst l. destruct (ending rd); [done|]. destruct (avail rd) as [|c l]; [done|].
    destruct (from_utf8 _); [|done]. intros [= _ <-]. simpl. lia.
Qed.

Lemma serve_lines_calls {B} `{GpibBackend B} display dp fuel : forall st rd (b : Logged B) w,
  state_wf dp st -> (length (avail rd) < fuel)%nat ->
  exists res b' w' cs, serve_lines display fuel dp st rd b w = Some (res, b', w') /\
    calls b' = calls b ++ cs /\ Forall (on_bus dp) cs.
Proof.
  induction fuel as [|fuel IH]; intros st rd b w Hst Hf; [lia|]. cbn [serve_lines].
  destruct (next_line rd) as [[[line|] rd']|e] eqn:En.
  - apply next_line_shorter in En. destruct (handle_line_wf dp st line Hst) as [Hr Hst1].
    destruct (handle_line st line) as [r st1]. simpl in Hr, Hst1.
    destruct (serve_line_calls display dp st1 r b w Hst1 Hr) as (Hst2 & cs & Hc & Hon).
    destruct (serve_line display dp st1 r b w) as [[st2 b2] [[[]|e] w2]]; simpl in *.
    + destruct (IH st2 rd' b2 w2) as (res & b' & w' & cs' & E & Hc' & Hon'); [done|lia|].
      exists res, b', w', (cs ++ cs'). split_and!; [done|by rewrite Hc', Hc, app_assoc|by apply Forall_app].
    + by exists (Err e), b2, w2, cs.
  - exists (Ok tt), b, w, []. by rewrite app_nil_r.
  - exists (Err e), b, w, []. by rewrite app_nil_r.
Qed.

(** ** Properties *)

(** One connection. *)
Lemma connection_calls {B} `{GpibBackend B} display rd (b : Logged B) w dp :
  exists res b' w' cs, handle_connection display rd b w dp = Some (res, b', w') /\
    calls b' = calls b ++ cs /\ Forall (on_bus dp) cs.
Proof.
  apply serve_lines_calls; [|lia].
  unfold state_wf, legal, in_u8, in_u32, with_addr. simpl. lia.
Qed.

(** C14: the server serves every client to its end and never steps off the
    bus.  For every sequence of clients, whatever bytes they send and however
    their connections end, and for every bus, each client in turn gets its
    connection served, and every call made on the adapter names a primary
    address from 0 to 30 or the one the daemon was started with, every read asks
    for 65536 bytes, and nothing is sent or read unaddressed. *)
Theorem server_stays_on_bus {B} `{GpibBackend B} display clients (b : Logged B) dp :
  exists outs b' cs, run display clients b dp = Some (outs, b') /\ length outs = length clients /\
    calls b' = calls b ++ cs /\ Forall (on_bus dp) cs.
Proof.
  revert b. induction clients as [|[rd w] clients IH]; intros b; cbn [run].
  { exists [], b, []. by rewrite app_nil_r. }
  destruct (connection_calls display rd b w dp) as (res & b1 & w1 & cs1 & -> & E1 & H1). cbn [mbind option_bind].
  destruct (IH b1) as (outs & b2 & cs2 & -> & Hl & E2 & H2). cbn [mbind option_bind].
  exists ((res, w1) :: outs), b2, (cs1 ++ cs2). rewrite E2, E1, app_assoc. split_and!; [done|cbn; lia|done|by apply Forall_app].
Qed.

Lemma server_stays_on_bus_witness :
  let first := mkReader (as_bytes (str "++addr 5" ++ [13; 10] ++ str "*IDN?" ++ [10] ++ str "++addr 31")) None in
  let second := mkReader (as_bytes (str "*RST" ++ [10])) (Some 104) in
  exists outs b' cs,
    run (fun e => e) [(first, mkWriter [] None); (second, mkWriter [] None)]
        (mkLogged (mkMock [] 0 (10, true) 3000 None 0 false) []) 0 = Some (outs, b') /\
    length outs = 2%nat /\ calls b' = [] ++ cs /\ Forall (on_bus 0) cs.
Proof.
  intros first second. apply (server_stays_on_bus (fun e => e) [(first, mkWriter [] None); (second, mkWriter [] None)]
    (mkLogged (mkMock [] 0 (10, true) 3000 None 0 false) []) 0).
Defined.

(** settings read back what was set.  Setting the address, the terminator
    mode, the EOT character or the read timeout to any value of its range
    succeeds, changes that setting alone, and the query then answers that
    value in decimal; an address beyond 30 is refused and changes nothing. *)
Theorem settings_read_back a au eo em ee ec tm n : 0 <= n ->
  let st := mkState a au eo em ee ec tm in
  let set name := handle_line st (str "++" ++ str name ++ [32] ++ to_string n) in
  let ask name st := handle_line st (str "++" ++ str name) in
  let sets name st' := set name = (LOk, st') /\ ask name st' = (Response (to_string n), st') in
  (n <= 30 -> sets "addr"%string (mkState n au eo em ee ec tm)) /\
  (30 < n <= 255 -> (set "addr"%string).2 = st) /\
  (n <= 3 -> sets "eos"%string (mkState a au eo n ee ec tm)) /\
  (n <= 255 -> sets "eot_char"%string (mkState a au eo em ee n tm)) /\
  (n <= 4294967295 -> sets "read_tmo_ms"%string (mkState a au eo em ee ec n)).
Proof.
  intros Hn st set ask sets.
  assert (H8 : n <= 255 -> parse_u8 (to_string n) = Some n) by (intros; apply parse_to_string; lia).
  assert (H32 : n <= 4294967295 -> parse_u32 (to_string n) = Some n) by (intros; apply parse_to_string; lia).
  assert (Hp : plain (str "addr") /\ plain (str "eot_char") /\ plain (str "read_tmo_ms"))
    by (split_and!; by repeat constructor).
  destruct Hp as (Hp1 & Hp2 & Hp3). split_and!; intros Hle; subst sets set ask; cbv beta; try split.
  - destruct (set_line st "addr" n Hp1 Hn) as (line & c & cs & -> & Es & Ec).
    rewrite (addr_arm _ _ _ Es), H8 by lia. rewrite Ec. by rewrite (proj2 (Z.leb_le _ _)) by lia.
  - destruct (ask_line (mkState n au eo em ee ec tm) "addr" Hp1) as (line & -> & Es); [done|].
    by rewrite (addr_arm _ _ _ Es).
  - destruct (set_line st "addr" n Hp1 Hn) as (line & c & cs & -> & Es & Ec).
    rewrite (addr_arm _ _ _ Es), H8 by lia. rewrite Ec. by rewrite (proj2 (Z.leb_gt _ _)) by lia.
  - assert (n = 0 \/ n = 1 \/ n = 2 \/ n = 3) as [-> | [-> | [-> | ->]]] by lia; by vm_compute.
  - assert (n = 0 \/ n = 1 \/ n = 2 \/ n = 3) as [-> | [-> | [-> | ->]]] by lia; by vm_compute.
  - destruct (set_line st "eot_char" n Hp2 Hn) as (line & c & cs & -> & Es & Ec).
    rewrite (eot_char_arm _ _ _ Es), H8 by lia. by rewrite Ec.
  - destruct (ask_line (mkState a au eo em ee n tm) "eot_char" Hp2) as (line & -> & Es); [done|].
    by rewrite (eot_char_arm _ _ _ Es).
  - destruct (set_line st "read_tmo_ms" n Hp3 Hn) as (line & c & cs & -> & Es & Ec).
    rewrite (read_tmo_ms_arm _ _ _ Es), H32 by lia. by rewrite Ec.
  - destruct (ask_line (mkState a au eo em ee ec n) "read_tmo_ms" Hp3) as (line & -> & Es); [done|].
    by rewrite (read_tmo_ms_arm _ _ _ Es).
Qed.

Lemma settings_read_back_witness :
  handle_line (with_addr 0) (str "++addr 22") = (LOk, with_addr 22).
Proof. apply (settings_read_back 0 false true 0 false 0 3000 22); lia. Defined.

(** a data line reaches the instrument as typed.  A line that does not
    start with [++] and carries no line end is one bus write to the current
    address: the line's UTF-8 bytes, then the terminator of the mode, END iff
    enabled.  With auto-read, and only if the write succeeded, exactly one
    read of the same instrument follows, and the client receives exactly what
    it delivered plus the EOT character if enabled; without auto-read the
    client receives nothing. *)
Theorem data_line_as_typed {B} `{GpibBackend B} display dp st line (b : Logged B) out :
  strip_prefix (str "++") line = None -> Forall (fun c => is_line_end c = false) line ->
  handle_line st line = (handle_data st line, st) /\
  let '(st', b', (res, w')) := serve_line display dp st (handle_data st line) b (mkWriter out None) in
  let write := CWrite (addr st) (as_bytes line ++ terminator (eos_mode st)) (eoi st) in
  st' = st /\ res = Ok tt /\
  if auto_read st && is_ok (gb_write b (addr st) (as_bytes line ++ terminator (eos_mode st)) (eoi st)).1
  then (exists d e, calls b' = calls b ++ [write; CRead (addr st) 65536; CGot d e] /\
          written w' = out ++ d ++ (if eot_enable st then [b8 (eot_char st)] else [])) \/
       (calls b' = calls b ++ [write; CRead (addr st) 65536] /\ written w' = out)
  else calls b' = calls b ++ [write] /\ written w' = out.
Proof.
  intros Hpre Hend. split.
  - unfold handle_line. by rewrite trim_end_none, Hpre.
  - unfold serve_line, handle_data.
    set (data := as_bytes line ++ terminator (eos_mode st)).
    destruct (gb_write b (addr st) data (eoi st)) as [[[]|err] b1] eqn:Ew; cbn [fst is_ok].
    2: { rewrite andb_false_r. injection Ew as _ <-. done. }
    rewrite andb_true_r. assert (Hc1 : calls b1 = calls b ++ [CWrite (addr st) data (eoi st)])
      by (injection Ew as _ <-; done).
    destruct (auto_read st); [|by simpl].
    destruct (gb_read b1 (addr st) 65536) as [[[d e]|err] b2] eqn:Er; simpl.
    + assert (Hc2 : calls b2 = calls b1 ++ [CRead (addr st) 65536; CGot d e]).
      { simpl in Er. unfold log_read in Er. injection Er as E1 <-. simpl. by rewrite E1. }
      split_and!; [done..|]. left. exists d, e. rewrite Hc2, Hc1, <- app_assoc. split; [done|].
      unfold apply_eot. by destruct (eot_enable st); rewrite ?app_nil_r.
    + assert (Hc2 : calls b2 = calls b1 ++ [CRead (addr st) 65536]).
      { simpl in Er. unfold log_read in Er. injection Er as E1 <-. simpl. by rewrite E1. }
      split_and!; [done..|]. right. by rewrite Hc2, Hc1, <- app_assoc.
Qed.

Lemma data_line_as_typed_witness :
  handle_line (with_addr 9) (str "*IDN?") = (Forward 9 (as_bytes (str "*IDN?") ++ [x0d; x0a]) true false, with_addr 9).
Proof.
  apply (data_line_as_typed (fun e => e) 0 (with_addr 9) (str "*IDN?")
    (mkLogged (mkMock [] 0 (10, true) 3000 None 0 false) []) []); [done|by repeat constructor].
Defined.

End Prologix.
