(* ===== verification/HislipMsg.v ===== *)
(** * HiSLIP messages: [src/hislip/messages.rs], [errors.rs], [protocol.rs]

    The 16-byte message header with its payload, both directions, the message
    and error code tables, and the bit fields packed into the header. *)

From S2P Require Import Prelude RustStr Rpc.

Module HislipMsg.
Import RustStr Rpc.Io.

(** ** Protocol versions *)

Definition PROTOCOL_1_0 : Z := 0x0100.
Definition PROTOCOL_1_1 : Z := 0x0101.
Definition PROTOCOL_2_0 : Z := 0x0200.
Definition SUPPORTED_PROTOCOL : Z := PROTOCOL_2_0.

(** Bit ranges of a [bitfield!] structure. *)
Definition bits (v hi lo : Z) : Z := Z.land (Z.shiftr v lo) (Z.ones (hi - lo + 1)).
Definition set_bits (v hi lo x : Z) : Z :=
  let mask := Z.shiftl (Z.ones (hi - lo + 1)) lo in
  Z.lor (Z.land v (Z.lnot mask)) (Z.land (Z.shiftl x lo) mask).

Definition major (p : Z) : Z := bits p 15 8.
Definition minor (p : Z) : Z := bits p 7 0.
Definition as_parameter (p session_id : Z) : Z := Z.lor (as_u32 (Z.shiftl p 16)) session_id.

(** ** Errors *)

Inductive FatalErrorCode : Type :=
| FUnidentifiedError | PoorlyFormattedMessageHeader | AttemptUseWithoutBothChannels
| InvalidInitialization | MaximumClientsExceeded | SecureConnectionFailed
| FExtension (x : Z) | FDeviceDefined (x : Z) | FIoError | LockError.

Definition fatal_error_code (e : FatalErrorCode) : Z :=
  match e with
  | FUnidentifiedError => 0
  | PoorlyFormattedMessageHeader => 1
  | AttemptUseWithoutBothChannels => 2
  | InvalidInitialization => 3
  | MaximumClientsExceeded => 4
  | SecureConnectionFailed => 5
  | FExtension x => x
  | FDeviceDefined x => x
  | FIoError => 128
  | LockError => 129
  end.

Definition fatal_from_error_code (code : Z) : FatalErrorCode :=
  if code =? 0 then FUnidentifiedError
  else if code =? 1 then PoorlyFormattedMessageHeader
  else if code =? 2 then AttemptUseWithoutBothChannels
  else if code =? 3 then InvalidInitialization
  else if code =? 4 then MaximumClientsExceeded
  else if code =? 5 then SecureConnectionFailed
  else if (6 <=? code) && (code <=? 127) then FExtension code
  else FDeviceDefined code.

Inductive NonFatalErrorCode : Type :=
| NUnidentifiedError | UnrecognizedMessageType | UnrecognizedControlCode
| UnrecognizedVendorDefinedMessage | MessageTooLarge | AuthenticationFailed
| NExtension (x : Z) | NDeviceDefined (x : Z).

Definition nonfatal_error_code (e : NonFatalErrorCode) : Z :=
  match e with
  | NUnidentifiedError => 0
  | UnrecognizedMessageType => 1
  | UnrecognizedControlCode => 2
  | UnrecognizedVendorDefinedMessage => 3
  | MessageTooLarge => 4
  | AuthenticationFailed => 5
  | NExtension x => x
  | NDeviceDefined x => x
  end.

Definition nonfatal_from_error_code (code : Z) : NonFatalErrorCode :=
  if code =? 0 then NUnidentifiedError
  else if code =? 1 then UnrecognizedMessageType
  else if code =? 2 then UnrecognizedControlCode
  else if code =? 3 then UnrecognizedVendorDefinedMessage
  else if code =? 4 then MessageTooLarge
  else if code =? 5 then AuthenticationFailed
  else if (6 <=? code) && (code <=? 127) then NExtension code
  else NDeviceDefined code.

Inductive Error : Type :=
| Fatal (code : FatalErrorCode) (msg : list Z)
| NonFatal (code : NonFatalErrorCode) (msg : list Z).

Definition is_fatal (e : Error) : bool := match e with Fatal _ _ => true | NonFatal _ _ => false end.

(** ** Message types *)

Inductive MessageType : Type :=
  | Initialize | InitializeResponse | FatalError | ErrorMessage | AsyncLock
  | AsyncLockResponse | Data | DataEnd | DeviceClearComplete | DeviceClearAcknowledge
  | AsyncRemoteLocalControl | AsyncRemoteLocalResponse | TriggerMessage | Interrupted
  | AsyncInterrupted | AsyncMaximumMessageSize | AsyncMaximumMessageSizeResponse
  | AsyncInitialize | AsyncInitializeResponse | AsyncDeviceClear | AsyncServiceRequest
  | AsyncStatusQuery | AsyncStatusResponse | AsyncDeviceClearAcknowledge | AsyncLockInfo
  | AsyncLockInfoResponse | GetDescriptors | GetDescriptorsResponse | StartTLS
  | AsyncStartTLS | AsyncStartTLSResponse | EndTLS | AsyncEndTLS | AsyncEndTLSResponse
  | GetSaslMechanismList | GetSaslMechanismListResponse | AuthenticationStart
  | AuthenticationExchange | AuthenticationResult
  | VendorSpecific (x : Z).

#[export] Instance MessageType_eq_dec : EqDecision MessageType.
Proof. solve_decision. Defined.

Definition get_message_type (t : MessageType) : Z :=
  match t with
  | Initialize => 0
  | InitializeResponse => 1
  | FatalError => 2
  | ErrorMessage => 3
  | AsyncLock => 4
  | AsyncLockResponse => 5
  | Data => 6
  | DataEnd => 7
  | DeviceClearComplete => 8
  | DeviceClearAcknowledge => 9
  | AsyncRemoteLocalControl => 10
  | AsyncRemoteLocalResponse => 11
  | TriggerMessage => 12
  | Interrupted => 13
  | AsyncInterrupted => 14
  | AsyncMaximumMessageSize => 15
  | AsyncMaximumMessageSizeResponse => 16
  | AsyncInitialize => 17
  | AsyncInitializeResponse => 18
  | AsyncDeviceClear => 19
  | AsyncServiceRequest => 20
  | AsyncStatusQuery => 21
  | AsyncStatusResponse => 22
  | AsyncDeviceClearAcknowledge => 23
  | AsyncLockInfo => 24
  | AsyncLockInfoResponse => 25
  | GetDescriptors => 26
  | GetDescriptorsResponse => 27
  | StartTLS => 28
  | AsyncStartTLS => 29
  | AsyncStartTLSResponse => 30
  | EndTLS => 31
  | AsyncEndTLS => 32
  | AsyncEndTLSResponse => 33
  | GetSaslMechanismList => 34
  | GetSaslMechanismListResponse => 35
  | AuthenticationStart => 36
  | AuthenticationExchange => 37
  | AuthenticationResult => 38
  | VendorSpecific x => x
  end.

Definition from_message_type (typ : Z) : option MessageType :=
  if typ =? 0 then Some Initialize
  else if typ =? 1 then Some InitializeResponse
  else if typ =? 2 then Some FatalError
  else if typ =? 3 then Some ErrorMessage
  else if typ =? 4 then Some AsyncLock
  else if typ =? 5 then Some AsyncLockResponse
  else if typ =? 6 then Some Data
  else if typ =? 7 then Some DataEnd
  else if typ =? 8 then Some DeviceClearComplete
  else if typ =? 9 then Some DeviceClearAcknowledge
  else if typ =? 10 then Some AsyncRemoteLocalControl
  else if typ =? 11 then Some AsyncRemoteLocalResponse
  else if typ =? 12 then Some TriggerMessage
  else if typ =? 13 then Some Interrupted
  else if typ =? 14 then Some AsyncInterrupted
  else if typ =? 15 then Some AsyncMaximumMessageSize
  else if typ =? 16 then Some AsyncMaximumMessageSizeResponse
  else if typ =? 17 then Some AsyncInitialize
  else if typ =? 18 then Some AsyncInitializeResponse
  else if typ =? 19 then Some AsyncDeviceClear
  else if typ =? 20 then Some AsyncServiceRequest
  else if typ =? 21 then Some AsyncStatusQuery
  else if typ =? 22 then Some AsyncStatusResponse
  else if typ =? 23 then Some AsyncDeviceClearAcknowledge
  else if typ =? 24 then Some AsyncLockInfo
  else if typ =? 25 then Some AsyncLockInfoResponse
  else if typ =? 26 then Some GetDescriptors
  else if typ =? 27 then Some GetDescriptorsResponse
  else if typ =? 28 then Some StartTLS
  else if typ =? 29 then Some AsyncStartTLS
  else if typ =? 30 then Some AsyncStartTLSResponse
  else if typ =? 31 then Some EndTLS
  else if typ =? 32 then Some AsyncEndTLS
  else if typ =? 33 then Some AsyncEndTLSResponse
  else if typ =? 34 then Some GetSaslMechanismList
  else if typ =? 35 then Some GetSaslMechanismListResponse
  else if typ =? 36 then Some AuthenticationStart
  else if typ =? 37 then Some AuthenticationExchange
  else if typ =? 38 then Some AuthenticationResult
  else if (128 <=? typ) && (typ <=? 255) then Some (VendorSpecific typ)
  else None.

(** ** Messages *)

Record Message : Type := mkMessage {
  message_type : MessageType;
  control_code : Z;
  message_parameter : Z;
  payload : list byte;
}.

Definition MESSAGE_HEADER_SIZE : Z := 16.

Definition message_params (t : MessageType) (control parameter : Z) : Message :=
  mkMessage t control parameter [].
Definition with_payload (m : Message) (p : list byte) : Message :=
  mkMessage (message_type m) (control_code m) (message_parameter m) p.

(** [reader.take(len).read_to_end]: up to [len] bytes, fewer at end of file. *)
Definition take_to_end (len : Z) (rd : Reader) : result (list byte * Reader) IoError :=
  if len <=? zlen (avail rd)
  then Ok (ztake len (avail rd), mkReader (zdrop len (avail rd)) (ending rd))
  else match ending rd with
       | None => Ok (avail rd, mkReader [] None)
       | Some e => Err (Transport e)
       end.

(** [alloc]: whether a buffer of that many bytes can be reserved. *)
Definition read_from (alloc : Z -> bool) (rd : Reader) (maxlen : Z)
    : result (result Message Error * Reader) IoError :=
  let? (buf, rd) := read_exact 16 rd in
  if negb (bool_decide (take 2 buf = [x48; x53]))
  then Ok (Err (Fatal PoorlyFormattedMessageHeader (str "invalid prologue")), rd)
  else
    let control_code := u8 (default x00 (buf !! 3%nat)) in
    let len := be_val (take 8 (drop 8 buf)) in
    let message_parameter := be_val (take 4 (drop 4 buf)) in
    if maxlen <? len
    then Ok (Err (NonFatal MessageTooLarge (str "message payload too large")), rd)
    else if negb (alloc len)
    then Ok (Err (Fatal FUnidentifiedError (str "out of memory")), rd)
    else
      let? (payload, rd) := take_to_end len rd in
      let typ := u8 (default x00 (buf !! 2%nat)) in
      match from_message_type typ with
      | Some message_type => Ok (Ok (mkMessage message_type control_code message_parameter payload), rd)
      | None =>
          Ok (Err (NonFatal UnrecognizedMessageType (str "unrecognized message type " ++ to_string typ)), rd)
      end.

Definition write_to (m : Message) : list byte :=
  [x48; x53; b8 (get_message_type (message_type m)); b8 (control_code m)] ++
  be_bytes 4 (message_parameter m) ++ be_bytes 8 (zlen (payload m)) ++ payload m.

Definition message_from_error (e : Error) : Message :=
  match e with
  | Fatal code msg => with_payload (message_params FatalError (fatal_error_code code) 0) (as_bytes msg)
  | NonFatal code msg => with_payload (message_params ErrorMessage (nonfatal_error_code code) 0) (as_bytes msg)
  end.

(** ** Bit fields *)

Definition client_protocol (v : Z) : Z := bits v 31 16.
Definition client_vendorid (v : Z) : Z := bits v 15 0.
Definition negotiated_protocol (v : Z) : Z := bits v 31 16.
Definition session_id (v : Z) : Z := bits v 15 0.
Definition InitializeResponseParameter_new (negotiated sid : Z) : Z :=
  set_bits (set_bits 0 31 16 negotiated) 15 0 sid.
Definition flag (b : bool) : Z := if b then 1 else 0.
Definition InitializeResponseControl_new (prefer_overlap encryption_mode initial_encryption : bool) : Z :=
  set_bits (set_bits (set_bits 0 0 0 (flag prefer_overlap)) 1 1 (flag encryption_mode)) 2 2
    (flag initial_encryption).
Definition AsyncInitializeResponseParameter_new (server_vendor_id : Z) : Z := set_bits 0 15 0 server_vendor_id.
Definition AsyncInitializeResponseControl_new (secure_connection : bool) : Z :=
  set_bits 0 0 0 (flag secure_connection).
Definition rmt_delivered (v : Z) : bool := bits v 0 0 =? 1.
Definition FeatureBitmap_new (overlapped encryption initial_encryption : bool) : Z :=
  set_bits (set_bits (set_bits 0 0 0 (flag overlapped)) 1 1 (flag encryption)) 2 2 (flag initial_encryption).
Definition feature_overlapped (v : Z) : bool := bits v 0 0 =? 1.

(** ** Lemmas *)

Definition type_wf (t : MessageType) : Prop :=
  match t with VendorSpecific x => 128 <= x <= 255 | _ => True end.

Definition message_wf (m : Message) : Prop :=
  type_wf (message_type m) /\ in_u8 (control_code m) /\ in_u32 (message_parameter m) /\
  zlen (payload m) < 2 ^ 64.

Lemma type_code_range t : type_wf t -> in_u8 (get_message_type t).
Proof. destruct t; simpl; unfold in_u8; lia. Qed.

Lemma from_get_type t : type_wf t -> from_message_type (get_message_type t) = Some t.
Proof.
  destruct t; try done. simpl. intros Hx. unfold from_message_type.
  repeat match goal with |- context [x =? ?k] => destruct (Z.eqb_spec x k); [lia|] end.
  by rewrite (proj2 (Z.leb_le 128 x)), (proj2 (Z.leb_le x 255)) by lia.
Qed.

Lemma get_from_type x t : from_message_type x = Some t -> get_message_type t = x /\ type_wf t.
Proof.
  unfold from_message_type.
  repeat match goal with |- context [x =? ?k] =>
    destruct (Z.eqb_spec x k) as [->|]; [by intros [= <-]|] end.
  destruct (Z.leb_spec 128 x), (Z.leb_spec x 255); simpl; try done.
  intros [= <-]. simpl. lia.
Qed.

(** Reading a header, whatever follows it. *)
Lemma read_from_header alloc typ control parameter len tail e maxlen :
  in_u8 typ -> in_u8 control -> in_u32 parameter -> 0 <= len < 2 ^ 64 ->
  read_from alloc (mkReader ([x48; x53; b8 typ; b8 control] ++ be_bytes 4 parameter ++ be_bytes 8 len ++ tail) e)
    maxlen =
  if maxlen <? len
  then Ok (Err (NonFatal MessageTooLarge (str "message payload too large")), mkReader tail e)
  else if negb (alloc len)
  then Ok (Err (Fatal FUnidentifiedError (str "out of memory")), mkReader tail e)
  else
    let? (payload, rd) := take_to_end len (mkReader tail e) in
    match from_message_type typ with
    | Some t => Ok (Ok (mkMessage t control parameter payload), rd)
    | None => Ok (Err (NonFatal UnrecognizedMessageType (str "unrecognized message type " ++ to_string typ)), rd)
    end.
Proof.
  intros Ht Hc Hp Hl. unfold read_from.
  set (h := [x48; x53; b8 typ; b8 control]). rewrite !app_assoc, <- (app_assoc _ _ tail).
  rewrite <- !app_assoc. rewrite (app_assoc h), (app_assoc (h ++ _)).
  rewrite read_exact_app by (subst h; zlen_solve). cbn [rbind].
  assert (Hd4 : drop 4 ((h ++ be_bytes 4 parameter) ++ be_bytes 8 len) = be_bytes 4 parameter ++ be_bytes 8 len)
    by (rewrite <- app_assoc; by apply (drop_app_length' h)).
  assert (Hd8 : drop 8 ((h ++ be_bytes 4 parameter) ++ be_bytes 8 len) = be_bytes 8 len)
    by (apply drop_app_length'; by rewrite length_app, length_be_bytes).
  rewrite Hd4, Hd8. rewrite (take_app_length' (be_bytes 4 parameter)) by (by rewrite length_be_bytes).
  rewrite (take_ge (be_bytes 8 len)) by (rewrite length_be_bytes; lia).
  rewrite !be_val_be_bytes. change (256 ^ Z.of_nat 8) with (2 ^ 64). change (256 ^ Z.of_nat 4) with 4294967296.
  rewrite !Z.mod_small by (try apply Hp; lia).
  rewrite <- app_assoc. subst h.
  change (([x48; x53; b8 typ; b8 control] ++ ?l) !! 3%nat) with (Some (b8 control)).
  change (([x48; x53; b8 typ; b8 control] ++ ?l) !! 2%nat) with (Some (b8 typ)).
  change (take 2 ([x48; x53; b8 typ; b8 control] ++ ?l)) with [x48; x53]. cbn [default from_option id].
  rewrite !u8_b8, !as_u8_id by done. by rewrite bool_decide_eq_true_2.
Qed.

Lemma take_to_end_app l tail e : take_to_end (zlen l) (mkReader (l ++ tail) e) = Ok (l, mkReader tail e).
Proof.
  unfold take_to_end. cbn [avail ending]. rewrite (proj2 (Z.leb_le _ _)) by zlen_solve.
  by rewrite ztake_app_zlen, zdrop_app_zlen.
Qed.

Lemma read_write_message alloc m tail e maxlen : message_wf m -> zlen (payload m) <= maxlen ->
  alloc (zlen (payload m)) = true ->
  read_from alloc (mkReader (write_to m ++ tail) e) maxlen = Ok (Ok m, mkReader tail e).
Proof.
  intros (Ht & Hc & Hp & Hl) Hmax Ha. unfold write_to. rewrite <- !app_assoc.
  pose proof (zlen_nonneg (payload m)).
  rewrite read_from_header by (try done; by apply type_code_range).
  rewrite (proj2 (Z.ltb_ge _ _)), Ha by lia. cbn [negb]. rewrite take_to_end_app. cbn [rbind].
  rewrite from_get_type by done. by destruct m.
Qed.

(** A structure of two 16-bit halves. *)
Lemma halves_new p s : in_u16 p -> in_u16 s -> InitializeResponseParameter_new p s = p * 65536 + s.
Proof.
  unfold in_u16. intros Hp Hs. unfold InitializeResponseParameter_new, set_bits.
  change (31 - 16 + 1) with 16. change (15 - 0 + 1) with 16. rewrite Z.land_0_l, Z.lor_0_l.
  rewrite <- Z.shiftl_land, !Z.shiftl_0_r, !Z.land_ones by lia.
  change (2 ^ 16) with 65536. rewrite !Z.mod_small by lia.
  rewrite <- Z.ldiff_land, Z.ldiff_ones_r, Z.shiftr_shiftl_l, Z.sub_diag, Z.shiftl_0_r by lia.
  rewrite Z.shiftl_mul_pow2 by lia. apply (lor_high_add p 16); [lia|]. change (2 ^ 16) with 65536. lia.
Qed.

Lemma halves_bits p s : in_u16 p -> in_u16 s ->
  bits (p * 65536 + s) 31 16 = p /\ bits (p * 65536 + s) 15 0 = s.
Proof.
  unfold in_u16. intros Hp Hs. unfold bits. change (31 - 16 + 1) with 16. change (15 - 0 + 1) with 16.
  rewrite !Z.land_ones, Z.shiftr_0_r, Z.shiftr_div_pow2 by lia. change (2 ^ 16) with 65536.
  rewrite Z.div_add_l, Z.div_small, Z.add_0_r by lia. split; [by apply Z.mod_small|].
  rewrite Z.add_comm, Z.mod_add by lia. by apply Z.mod_small.
Qed.

Lemma zlen_write_to m : zlen (write_to m) = 16 + zlen (payload m).
Proof. unfold write_to. autorewrite with zlen. lia. Qed.

(** ** Properties *)

(** a HiSLIP message survives the wire.  What [write_to] sends,
    [read_from] reads back as the same type, control code, parameter and
    payload, leaving exactly the bytes that follow, for every message type
    and every payload the receiver admits. *)
Theorem message_roundtrip alloc m tail e maxlen : message_wf m -> zlen (payload m) <= maxlen ->
  alloc (zlen (payload m)) = true ->
  read_from alloc (mkReader (write_to m ++ tail) e) maxlen = Ok (Ok m, mkReader tail e).
Proof. apply read_write_message. Qed.

Lemma message_roundtrip_witness :
  let m := mkMessage DataEnd 1 0xffffff00 (as_bytes (str "*IDN?")) in
  read_from (fun _ => true) (mkReader (write_to m ++ [x00]) None) 1048576 = Ok (Ok m, mkReader [x00] None).
Proof.
  intros m. apply (message_roundtrip (fun _ => true) m [x00] None 1048576); [|by vm_compute..].
  split; [done|]. by vm_compute.
Defined.

(** A payload cut off by the end of the stream passes for a whole one.
    When the client disappears inside a payload, [read_from] does not fail:
    it returns the message with the bytes that did arrive, so a truncated
    [DataEnd] is executed as a complete command. *)
Theorem truncated_payload_accepted alloc m k maxlen : message_wf m -> zlen (payload m) <= maxlen ->
  alloc (zlen (payload m)) = true -> 0 <= k < zlen (payload m) ->
  read_from alloc (mkReader (ztake (16 + k) (write_to m)) None) maxlen =
  Ok (Ok (with_payload m (ztake k (payload m))), mkReader [] None).
Proof.
  intros (Ht & Hc & Hp & Hl) Hmax Ha Hk.
  assert (Hcut : ztake (16 + k) (write_to m) =
    [x48; x53; b8 (get_message_type (message_type m)); b8 (control_code m)] ++
    be_bytes 4 (message_parameter m) ++ be_bytes 8 (zlen (payload m)) ++ ztake k (payload m)).
  { unfold write_to. rewrite !app_assoc. unfold ztake.
    rewrite take_app_ge by (rewrite !length_app, !length_be_bytes; simpl; lia).
    f_equal. rewrite !length_app, !length_be_bytes. simpl. f_equal. lia. }
  rewrite Hcut. rewrite read_from_header by (first [done | by apply type_code_range | lia]).
  rewrite (proj2 (Z.ltb_ge _ _)), Ha by lia. cbn [negb]. unfold take_to_end. cbn [avail ending].
  rewrite (proj2 (Z.leb_gt _ _)) by (rewrite zlen_ztake by lia; lia). cbn [rbind].
  by rewrite from_get_type.
Qed.

Lemma truncated_payload_accepted_witness :
  let m := mkMessage DataEnd 0 0 (as_bytes (str "VOLT 30;OUTP OFF")) in
  read_from (fun _ => true) (mkReader (ztake 23 (write_to m)) None) 1048576 =
  Ok (Ok (mkMessage DataEnd 0 0 (as_bytes (str "VOLT 30"))), mkReader [] None).
Proof.
  intros m. apply (truncated_payload_accepted (fun _ => true) m 7 1048576); [|by vm_compute..].
  split; [done|]. by vm_compute.
Defined.

(** an over-long message leaves its payload to be read as messages.  The
    refusal is the non-fatal MessageTooLarge, after which both loops read on,
    but the payload was not consumed: a message embedded at its start is the
    next one read. *)
Theorem oversized_payload_read_as_messages alloc m inner rest tail e maxlen :
  message_wf m -> payload m = write_to inner ++ rest -> maxlen < zlen (payload m) ->
  message_wf inner -> zlen (payload inner) <= maxlen -> alloc (zlen (payload inner)) = true ->
  exists rd, read_from alloc (mkReader (write_to m ++ tail) e) maxlen =
    Ok (Err (NonFatal MessageTooLarge (str "message payload too large")), rd) /\
    read_from alloc rd maxlen = Ok (Ok inner, mkReader (rest ++ tail) e).
Proof.
  intros (Ht & Hc & Hp & Hl) Hpay Hbig Hin Hlen Ha. pose proof (zlen_nonneg (payload m)).
  exists (mkReader (payload m ++ tail) e). split.
  - unfold write_to. rewrite <- !app_assoc.
    rewrite read_from_header by (first [done | by apply type_code_range | lia]).
    by rewrite (proj2 (Z.ltb_lt _ _)) by lia.
  - rewrite Hpay, <- app_assoc. by apply read_write_message.
Qed.

Lemma oversized_payload_read_as_messages_witness :
  let inner := mkMessage TriggerMessage 0 0 [] in
  let m := mkMessage DataEnd 0 0 (write_to inner ++ [x41; x41]) in
  exists rd, read_from (fun _ => true) (mkReader (write_to m ++ []) None) 10 =
    Ok (Err (NonFatal MessageTooLarge (str "message payload too large")), rd) /\
    read_from (fun _ => true) rd 10 = Ok (Ok inner, mkReader ([x41; x41] ++ []) None).
Proof.
  intros inner m. apply (oversized_payload_read_as_messages (fun _ => true) m inner [x41; x41] [] None 10);
    try (by vm_compute); (split; [done|]); by vm_compute.
Defined.

(** The code tables are consistent.  Message types and their codes
    determine each other (vendor types keep to 128-255), and every error
    code a peer can send keeps its number through both error tables. *)
Theorem code_tables :
  (forall t, type_wf t -> in_u8 (get_message_type t) /\ from_message_type (get_message_type t) = Some t) /\
  (forall x t, from_message_type x = Some t -> get_message_type t = x /\ type_wf t) /\
  (forall c, in_u8 c -> fatal_error_code (fatal_from_error_code c) = c /\
     nonfatal_error_code (nonfatal_from_error_code c) = c) /\
  (forall p s, in_u16 p -> in_u16 s ->
     let v := InitializeResponseParameter_new p s in
     in_u32 v /\ negotiated_protocol v = p /\ session_id v = s /\ v = as_parameter p s).
Proof.
  split_and!.
  - intros t Ht. split; [by apply type_code_range|by apply from_get_type].
  - apply get_from_type.
  - intros c Hc. unfold fatal_from_error_code, nonfatal_from_error_code.
    repeat match goal with |- context [c =? ?k] => destruct (Z.eqb_spec c k) as [->|]; [done|] end.
    by destruct (_ && _).
  - intros p s Hp Hs v. subst v. rewrite halves_new by done.
    destruct (halves_bits p s Hp Hs) as [H1 H2]. split_and!; [|done..|].
    + unfold in_u32, in_u16 in *. lia.
    + unfold as_parameter. rewrite Z.shiftl_mul_pow2 by lia. change (2 ^ 16) with 65536.
      rewrite as_u32_id by (unfold in_u32, in_u16 in *; lia). symmetry.
      apply (lor_high_add p 16); [lia|]. change (2 ^ 16) with 65536. apply Hs.
Qed.

End HislipMsg.
