(* ===== verification/Hislip.v ===== *)
(** * The HiSLIP server: [src/hislip/server.rs], [src/hislip/instrument.rs]

    The bridge from HiSLIP's push model to a bus that must be read, the
    session state the two channels share, one step of each channel's loop,
    session set-up and tear-down.

    The channels of a session run concurrently.  A step of the synchronous
    channel takes what the asynchronous one did to the session as an argument,
    before the step looks at the session and while the command runs; lock
    waits take their turns as in [Lock].  The write halves accept everything:
    a failed write ends a loop like an end of stream does. *)

From S2P Require Import Prelude RustStr Lock Backend Rpc HislipMsg.

Module Hislip.
Import RustStr Backend Rpc.Io HislipMsg.

Definition FIRST_MESSAGE_ID : Z := 0xffffff00.
Definition STB_RQS : Z := 0x40.
Definition STB_MAV : Z := 0x10.
Definition MIN_CHUNK : Z := 256.
Definition SRQ_QUEUE_DEPTH : nat := 4.
Definition SRQ_RECHECK_BUDGET : Z := 500.
Definition SRQ_RECHECK_INTERVAL : Z := 20.
Definition DEFAULT_SUBADDRESS : list Z := str "hislip0".

Inductive Modes : Type := Synchronized | PreferSynchronized | PreferOverlapped.

#[export] Instance Modes_eq_dec : EqDecision Modes.
Proof. solve_decision. Defined.

Definition supports_overlapped (m : Modes) : bool := negb (bool_decide (m = Synchronized)).
Definition prefers_overlapped (m : Modes) : bool := bool_decide (m = PreferOverlapped).

Record Config : Type := mkConfig {
  vendor_id : Z;
  max_message_size : Z;
  max_sessions : Z;
  modes : Modes;
}.

Definition default_config : Config := mkConfig 0xBEEF (1024 * 1024) 16 Synchronized.

(** ** Hints and names *)

Definition is_quote (b : byte) : bool := bool_decide (b = x22) || bool_decide (b = x27).

Fixpoint query_scan (quote : option byte) (cmd : list byte) : bool :=
  match cmd with
  | [] => false
  | b :: cmd =>
      match quote with
      | Some q => query_scan (if bool_decide (b = q) then None else quote) cmd
      | None =>
          if is_quote b then query_scan (Some b) cmd
          else if bool_decide (b = x3f) then true
          else query_scan None cmd
      end
  end.

Definition query_hint (cmd : list byte) : bool := query_scan None cmd.

(** The last of [rsplit([',', ':'])], which comes first. *)
Fixpoint last_part (acc s : list Z) : list Z :=
  match s with
  | [] => rev acc
  | c :: s => if (c =? 44) || (c =? 58) then last_part [] s else last_part (c :: acc) s
  end.

Definition is_ascii_digit (c : Z) : bool := (48 <=? c) && (c <=? 57).

Fixpoint take_while (p : Z -> bool) (s : list Z) : list Z :=
  match s with
  | [] => []
  | c :: s => if p c then c :: take_while p s else []
  end.

Definition parse_subaddress_pad (sub : list Z) : option Z :=
  let s := trim_end_matches (fun c => c =? 0) (trim sub) in
  let lower := to_ascii_lowercase s in
  if bool_decide (s = []) || bool_decide (lower = str "hislip0") || bool_decide (lower = str "gpib0")
  then None
  else
    let tail := last_part [] s in
    let digits := rev (take_while is_ascii_digit (rev tail)) in
    match digits with
    | [] => None
    | _ =>
        match parse_u8 digits with
        | Some n => if n <=? 30 then Some n else None
        | None => None
        end
    end.

(** ** The device: a GPIB instrument *)

Record Execution : Type := mkExecution {
  ex_data : option (list byte);
  ex_service_request : option Z;
}.

Section Device.
Context {B : Type} `{GpibBackend B}.

(** The read of [execute], with the service request seen so far. *)
Definition drain (srq_fired : bool) (b : B) (pad : Z) (service_request : option Z)
    : result Execution Backend.Error * B :=
  match held_read b pad MAX_READ with
  | (Err e, b) => (Err e, b)
  | (Ok (data, end_), b) =>
      if bool_decide (data = []) && negb end_
      then (Err (str "instrument returned no data (is the query supported?)"), b)
      else if bool_decide (service_request = None) && negb (bool_decide (data = [])) && srq_fired then
        match gb_srq_asserted b with
        | (Ok false, b) => (Ok (mkExecution (Some data) (Some (Z.lor STB_RQS STB_MAV))), b)
        | (_, b) => (Ok (mkExecution (Some data) service_request), b)
        end
      else (Ok (mkExecution (Some data) service_request), b)
  end.

(** [srq_fired]: whether the adapter announced an SRQ during the tenure. *)
Definition execute (srq_fired : bool) (b : B) (pad : Z) (cmd : list byte) (expect_response : bool)
    : result Execution Backend.Error * B :=
  match held_write b pad cmd true with
  | (Err e, b) => (Err e, b)
  | (Ok _, b) =>
      if negb expect_response then
        match gb_serial_poll b pad with
        | (Ok stb, b) =>
            let service_request := if has_flag stb STB_RQS then Some stb else None in
            if negb (has_flag stb STB_MAV) then (Ok (mkExecution None service_request), b)
            else drain srq_fired b pad service_request
        | (Err _, b) => (Ok (mkExecution None None), b)
        end
      else
        match gb_srq_asserted b with
        | (Ok true, b) =>
            match gb_serial_poll b pad with
            | (Ok stb, b) => drain srq_fired b pad (if has_flag stb STB_RQS then Some stb else None)
            | (Err _, b) => drain srq_fired b pad None
            end
        | (_, b) => drain srq_fired b pad None
        end
  end.

End Device.

(** ** Sessions *)

Inductive AsyncPush : Type :=
| ServiceRequest (stb : Z)
| PushFatal (code : FatalErrorCode) (msg : list Z).

Record SessionEntry : Type := mkEntry {
  id : Z;
  protocol : Z;
  client_max_message_size : Z;
  device : Z;                            (* its primary address *)
  async_bound : bool;
  consumed_stb : option Z;
  clear_epoch : Z;
  mav : bool;
  last_message_id : Z;
  overlapped : bool;
  next_server_message_id : Z;
  async_queue : list AsyncPush;
  sync_queue : list (FatalErrorCode * list Z);
}.

Definition resource (e : SessionEntry) : list Z := resource_key (device e).
Definition holder (e : SessionEntry) : Z := Lock.hislip_id (id e).

Definition new_entry (sid proto dev max_size : Z) (ov : bool) : SessionEntry :=
  mkEntry sid proto max_size dev false None 0 false (as_u32 (FIRST_MESSAGE_ID - 2)) ov FIRST_MESSAGE_ID [] [].

Definition set_consumed (o : option Z) (e : SessionEntry) : SessionEntry :=
  mkEntry (id e) (protocol e) (client_max_message_size e) (device e) (async_bound e) o (clear_epoch e)
    (mav e) (last_message_id e) (overlapped e) (next_server_message_id e) (async_queue e) (sync_queue e).
Definition set_mav (v : bool) (e : SessionEntry) : SessionEntry :=
  mkEntry (id e) (protocol e) (client_max_message_size e) (device e) (async_bound e) (consumed_stb e)
    (clear_epoch e) v (last_message_id e) (overlapped e) (next_server_message_id e) (async_queue e) (sync_queue e).
Definition set_last_message_id (v : Z) (e : SessionEntry) : SessionEntry :=
  mkEntry (id e) (protocol e) (client_max_message_size e) (device e) (async_bound e) (consumed_stb e)
    (clear_epoch e) (mav e) v (overlapped e) (next_server_message_id e) (async_queue e) (sync_queue e).
Definition set_mode (ov : bool) (next : Z) (e : SessionEntry) : SessionEntry :=
  mkEntry (id e) (protocol e) (client_max_message_size e) (device e) (async_bound e) (consumed_stb e)
    (clear_epoch e) (mav e) (last_message_id e) ov next (async_queue e) (sync_queue e).
Definition set_queues (aq : list AsyncPush) (sq : list (FatalErrorCode * list Z)) (e : SessionEntry) : SessionEntry :=
  mkEntry (id e) (protocol e) (client_max_message_size e) (device e) (async_bound e) (consumed_stb e)
    (clear_epoch e) (mav e) (last_message_id e) (overlapped e) (next_server_message_id e) aq sq.
Definition set_client_max (v : Z) (e : SessionEntry) : SessionEntry :=
  mkEntry (id e) (protocol e) v (device e) (async_bound e) (consumed_stb e) (clear_epoch e)
    (mav e) (last_message_id e) (overlapped e) (next_server_message_id e) (async_queue e) (sync_queue e).
Definition set_bound (e : SessionEntry) : SessionEntry :=
  mkEntry (id e) (protocol e) (client_max_message_size e) (device e) true (consumed_stb e) (clear_epoch e)
    (mav e) (last_message_id e) (overlapped e) (next_server_message_id e) (async_queue e) (sync_queue e).
Definition bump_epoch (e : SessionEntry) : SessionEntry :=
  mkEntry (id e) (protocol e) (client_max_message_size e) (device e) (async_bound e) (consumed_stb e)
    ((clear_epoch e + 1) mod 18446744073709551616) (mav e) (last_message_id e) (overlapped e)
    (next_server_message_id e) (async_queue e) (sync_queue e).

Definition note_client_message (e : SessionEntry) (m : Message) : SessionEntry :=
  let e := set_last_message_id (message_parameter m) e in
  let e := if rmt_delivered (control_code m) then set_mav false e else e in
  set_consumed None e.

Definition set_overlapped (e : SessionEntry) (ov : bool) : SessionEntry :=
  set_mode ov FIRST_MESSAGE_ID (set_mav false e).

Definition response_message_id (e : SessionEntry) (request_id : Z) : Z * SessionEntry :=
  if overlapped e
  then (next_server_message_id e, set_mode true (as_u32 (next_server_message_id e + 2)) e)
  else (request_id, e).

Definition mav_bit (e : SessionEntry) (message_id : Z) : Z :=
  if overlapped e then
    if message_id =? as_u32 (next_server_message_id e - 2) then 0 else STB_MAV
  else if negb (mav e) then 0
  else if negb (message_id =? last_message_id e) then 0
  else STB_MAV.

(** [try_send] on the bounded queues. *)
Definition push_async (e : SessionEntry) (p : AsyncPush) : SessionEntry :=
  if (length (async_queue e) <? SRQ_QUEUE_DEPTH)%nat
  then set_queues (async_queue e ++ [p]) (sync_queue e) e else e.
Definition raise_service_request (e : SessionEntry) (stb : Z) : SessionEntry :=
  push_async (set_consumed (Some stb) e) (ServiceRequest stb).
Definition mirror_fatal (e : SessionEntry) (code : FatalErrorCode) (msg : list Z) : SessionEntry :=
  push_async e (PushFatal code msg).
Definition mirror_fatal_to_sync (e : SessionEntry) (code : FatalErrorCode) (msg : list Z) : SessionEntry :=
  match sync_queue e with [] => set_queues (async_queue e) [(code, msg)] e | _ => e end.

(** ** Replies *)

Fixpoint chunks (fuel : nat) (max : Z) (data : list byte) : list (list byte) :=
  match fuel with
  | O => []
  | S fuel =>
      match data with
      | [] => []
      | _ => ztake max data :: chunks fuel max (zdrop max data)
      end
  end.

Fixpoint send_chunks (e : SessionEntry) (request_id : Z) (cs : list (list byte)) : list Message * SessionEntry :=
  match cs with
  | [] => ([], e)
  | c :: cs =>
      let ty := match cs with [] => DataEnd | _ => Data end in
      let '(mid, e) := response_message_id e request_id in
      let '(rest, e) := send_chunks e request_id cs in
      (with_payload (message_params ty 0 mid) c :: rest, e)
  end.

Definition chunk_max (client_max : Z) : Z := Z.max (Z.max 0 (client_max - MESSAGE_HEADER_SIZE)) MIN_CHUNK.

Definition write_response (e : SessionEntry) (request_id : Z) (data : list byte) : list Message * SessionEntry :=
  match data with
  | [] => let '(mid, e) := response_message_id e request_id in ([message_params DataEnd 0 mid], e)
  | _ => send_chunks e request_id (chunks (length data) (chunk_max (client_max_message_size e)) data)
  end.

(** The derived [Debug] of a message type. *)
Definition debug_type (t : MessageType) : list Z :=
  match t with
  | Initialize => str "Initialize"
  | InitializeResponse => str "InitializeResponse"
  | FatalError => str "FatalError"
  | ErrorMessage => str "Error"
  | AsyncLock => str "AsyncLock"
  | AsyncLockResponse => str "AsyncLockResponse"
  | Data => str "Data"
  | DataEnd => str "DataEnd"
  | DeviceClearComplete => str "DeviceClearComplete"
  | DeviceClearAcknowledge => str "DeviceClearAcknowledge"
  | AsyncRemoteLocalControl => str "AsyncRemoteLocalControl"
  | AsyncRemoteLocalResponse => str "AsyncRemoteLocalResponse"
  | TriggerMessage => str "Trigger"
  | Interrupted => str "Interrupted"
  | AsyncInterrupted => str "AsyncInterrupted"
  | AsyncMaximumMessageSize => str "AsyncMaximumMessageSize"
  | AsyncMaximumMessageSizeResponse => str "AsyncMaximumMessageSizeResponse"
  | AsyncInitialize => str "AsyncInitialize"
  | AsyncInitializeResponse => str "AsyncInitializeResponse"
  | AsyncDeviceClear => str "AsyncDeviceClear"
  | AsyncServiceRequest => str "AsyncServiceRequest"
  | AsyncStatusQuery => str "AsyncStatusQuery"
  | AsyncStatusResponse => str "AsyncStatusResponse"
  | AsyncDeviceClearAcknowledge => str "AsyncDeviceClearAcknowledge"
  | AsyncLockInfo => str "AsyncLockInfo"
  | AsyncLockInfoResponse => str "AsyncLockInfoResponse"
  | GetDescriptors => str "GetDescriptors"
  | GetDescriptorsResponse => str "GetDescriptorsResponse"
  | StartTLS => str "StartTLS"
  | AsyncStartTLS => str "AsyncStartTLS"
  | AsyncStartTLSResponse => str "AsyncStartTLSResponse"
  | EndTLS => str "EndTLS"
  | AsyncEndTLS => str "AsyncEndTLS"
  | AsyncEndTLSResponse => str "AsyncEndTLSResponse"
  | GetSaslMechanismList => str "GetSaslMechanismList"
  | GetSaslMechanismListResponse => str "GetSaslMechanismListResponse"
  | AuthenticationStart => str "AuthenticationStart"
  | AuthenticationExchange => str "AuthenticationExchange"
  | AuthenticationResult => str "AuthenticationResult"
  | VendorSpecific x => str "VendorSpecific(" ++ to_string x ++ str ")"
  end.

(** ** The channels *)

Section Channels.
Context {B : Type} `{GpibBackend B}.
Variable config : Config.
(** The [{e}] rendering of an error: its outermost message. *)
Variable display : Backend.Error -> list Z.

Inductive Flow : Type := Continue | Close.

(** *** [GpibInstrument]'s one-shot operations

    Each takes the bus for itself and releases it: [hold] is what the other
    holders of the mutex did to the bus until it was granted. *)
Definition one_shot {R} (hold : B -> B) (op : B -> R * B) (b : B) : R * B := op (hold b).

Definition dev_trigger (hold : B -> B) (b : B) (pad : Z) : result unit Backend.Error * B :=
  one_shot hold (fun b => gb_trigger b pad) b.
Definition dev_clear (hold : B -> B) (b : B) (pad : Z) : result unit Backend.Error * B :=
  one_shot hold (fun b => gb_device_clear b pad) b.
Definition set_remote (hold : B -> B) (b : B) (remote : bool) : result unit Backend.Error * B :=
  one_shot hold (fun b => gb_ren b remote) b.
Definition dev_go_to_remote (hold : B -> B) (b : B) (pad : Z) : result unit Backend.Error * B :=
  one_shot hold (fun b => gb_go_to_remote b pad) b.
Definition dev_go_to_local (hold : B -> B) (b : B) (pad : Z) : result unit Backend.Error * B :=
  one_shot hold (fun b => gb_go_to_local b pad) b.
Definition dev_local_lockout (hold : B -> B) (b : B) : result unit Backend.Error * B :=
  one_shot hold (fun b => gb_local_lockout b) b.
Definition get_status (hold : B -> B) (b : B) (pad : Z) : result Z Backend.Error * B :=
  one_shot hold (fun b => gb_serial_poll b pad) b.

(** What happens around one step of the synchronous channel. *)
Record SyncEnv : Type := mkSyncEnv {
  v_before : SessionEntry -> SessionEntry;
  v_turns : list Lock.turn;
  v_bus : B -> B;
  v_during : SessionEntry -> SessionEntry;
  v_srq : bool;
}.

Record SyncState : Type := mkSync {
  entry : SessionEntry;
  locks : Lock.LockRegistry;
  bus : B;
  buffer : list byte;
  epoch : Z;
}.

Definition with_entry (st : SyncState) (e : SessionEntry) : SyncState :=
  mkSync e (locks st) (bus st) (buffer st) (epoch st).

(** [SessionEntry::wait_for_access]. *)
Definition wait_access (turns : list Lock.turn) (e : SessionEntry) (reg : Lock.LockRegistry)
    : option Lock.LockRegistry :=
  if Lock.has_access reg (resource e) (holder e) then Some reg
  else Lock.wait_for_access turns (resource e) (holder e) reg.

(** A complete command: wait for access, run it, send the reply, then raise
    the service request it caused. *)
Definition run_command (env : SyncEnv) (st : SyncState) (msg_id : Z) (cmd : list byte)
    : option (list Message * SyncState) :=
  let e := entry st in
  reg ← wait_access (v_turns env) e (locks st);
  let '(executed, b) := execute (v_srq env) (v_bus env (bus st)) (device e) cmd (query_hint cmd) in
  let e := v_during env e in
  match executed with
  | Err err =>
      Some ([message_from_error (NonFatal NUnidentifiedError (str "device error: " ++ display err))],
            mkSync e reg b (buffer st) (epoch st))
  | Ok ex =>
      let '(out, e) :=
        match ex_data ex with
        | Some data => write_response (set_mav true e) msg_id data
        | None => ([], e)
        end in
      let e := match ex_service_request ex with Some stb => raise_service_request e stb | None => e end in
      Some (out, mkSync e reg b (buffer st) (epoch st))
  end.

Definition is_secure (t : MessageType) : bool :=
  match t with
  | StartTLS | EndTLS | GetSaslMechanismList | AuthenticationStart | AuthenticationExchange => true
  | _ => false
  end.

(** The other message types: a secure connection asked for, and the rest. *)
Definition sync_unexpected (st : SyncState) (t : MessageType) : list Message * SyncState * Flow :=
  if is_secure t && (PROTOCOL_2_0 <=? protocol (entry st)) then
    let msg := str "TLS/SASL not supported" in
    ([message_from_error (Fatal SecureConnectionFailed msg)],
     with_entry st (mirror_fatal (entry st) SecureConnectionFailed msg), Close)
  else
    ([message_from_error (NonFatal UnrecognizedMessageType (str "unexpected sync message: " ++ debug_type t))],
     st, Continue).

(** One turn of [sync_loop] on what [read_from] returned. *)
Definition sync_step (env : SyncEnv) (st : SyncState) (incoming : result Message Error)
    : option (list Message * SyncState * Flow) :=
  let st := with_entry st (v_before env (entry st)) in
  match incoming with
  | Err err =>
      let e := match err with Fatal code msg => mirror_fatal (entry st) code msg | NonFatal _ _ => entry st end in
      Some ([message_from_error err], with_entry st e, if is_fatal err then Close else Continue)
  | Ok msg =>
      let st :=
        if clear_epoch (entry st) =? epoch st then st
        else mkSync (entry st) (locks st) (bus st) [] (clear_epoch (entry st)) in
      let e := entry st in
      let carries := match message_type msg with Data | DataEnd | TriggerMessage => true | _ => false end in
      let st := with_entry st (if carries then note_client_message e msg else e) in
      let e := entry st in
      match message_type msg with
      | Data => Some ([], mkSync e (locks st) (bus st) (buffer st ++ payload msg) (epoch st), Continue)
      | DataEnd =>
          let cmd := buffer st ++ payload msg in
          '(out, st) ← run_command env (mkSync e (locks st) (bus st) [] (epoch st)) (message_parameter msg) cmd;
          Some (out, st, Continue)
      | TriggerMessage =>
          reg ← wait_access (v_turns env) e (locks st);
          let b := (dev_trigger (v_bus env) (bus st) (device e)).2 in
          Some ([], mkSync (v_during env e) reg b (buffer st) (epoch st), Continue)
      | DeviceClearComplete =>
          let ov := feature_overlapped (control_code msg) && supports_overlapped (modes config) in
          Some ([message_params DeviceClearAcknowledge (FeatureBitmap_new ov false false) 0],
                with_entry st (set_overlapped e ov), Continue)
      | FatalError => Some ([], st, Close)
      | ErrorMessage => Some ([], st, Continue)
      | t => Some (sync_unexpected st t)
      end
  end.

(** The loop: until the stream ends, one turn per message. *)
Fixpoint sync_loop (alloc : Z -> bool) (envs : list SyncEnv) (rd : Reader) (st : SyncState)
    : option (result unit IoError * list Message * SyncState) :=
  match envs with
  | [] => None
  | env :: envs =>
      match read_from alloc rd (max_message_size config) with
      | Err e => Some (Err e, [], st)
      | Ok (incoming, rd) =>
          '(out, st, flow) ← sync_step env st incoming;
          match flow with
          | Close => Some (Ok tt, out, st)
          | Continue =>
              '(res, rest, st) ← sync_loop alloc envs rd st;
              Some (res, out ++ rest, st)
          end
      end
  end.

(** Table 25: the remote/local operations.  Two-step ones release the bus in
    between. *)
Definition then_ (p : result unit Backend.Error * B) (k : B -> result unit Backend.Error * B)
    : result unit Backend.Error * B :=
  match p with (Ok _, b) => k b | bad => bad end.

Definition remote_local (hold : B -> B) (code : Z) (b : B) (pad : Z) : option (result unit Backend.Error * B) :=
  if code =? 0 then Some (set_remote hold b false)
  else if code =? 1 then Some (set_remote hold b true)
  else if code =? 2 then Some (then_ (dev_go_to_local hold b pad) (fun b => set_remote hold b false))
  else if code =? 3 then Some (dev_go_to_remote hold b pad)
  else if code =? 4 then Some (then_ (set_remote hold b true) (dev_local_lockout hold))
  else if code =? 5 then Some (then_ (dev_go_to_remote hold b pad) (dev_local_lockout hold))
  else if code =? 6 then Some (dev_go_to_local hold b pad)
  else None.

Definition status_response (e : SessionEntry) (polled : result Z Backend.Error) (message_id : Z) : Z * SessionEntry :=
  let stb := match polled with Ok stb => stb | Err _ => 0 end in
  let stb := if stb =? 0 then match consumed_stb e with Some c => c | None => stb end else stb in
  (Z.lor (Z.land stb (as_u8 (Z.lnot STB_MAV))) (mav_bit e message_id), set_consumed None e).

(** The other message types: a secure connection asked for, and the rest. *)
Definition async_unexpected (e : SessionEntry) (ty : MessageType) : Message * Flow :=
  if match ty with AsyncStartTLS | AsyncEndTLS => PROTOCOL_2_0 <=? protocol e | _ => false end
  then (message_from_error (Fatal SecureConnectionFailed (str "TLS not supported")), Close)
  else (message_from_error (NonFatal UnrecognizedMessageType (str "unexpected async message: " ++ debug_type ty)), Continue).

(** One turn of [async_loop]. *)
Definition async_step (turns : list Lock.turn) (t : Z) (hold : B -> B) (e : SessionEntry)
    (reg : Lock.LockRegistry) (b : B) (incoming : result Message Error)
    : option (list Message * SessionEntry * Lock.LockRegistry * B * Flow) :=
  match incoming with
  | Err err =>
      let e := match err with Fatal code msg => mirror_fatal_to_sync e code msg | NonFatal _ _ => e end in
      Some ([message_from_error err], e, reg, b, if is_fatal err then Close else Continue)
  | Ok msg =>
      match message_type msg with
      | AsyncLock =>
          '(answer, reg) ←
            (if negb (control_code msg =? 0)
             then Lock.request turns (t + message_parameter msg * 1000000) (resource e) (holder e)
                    (from_utf8_lossy (payload msg)) reg
             else Some (Lock.release reg (resource e) (holder e)));
          Some ([message_params AsyncLockResponse (Lock.control_code answer) 0], e, reg, b, Continue)
      | AsyncLockInfo =>
          let '(exclusive, holders) := Lock.info reg (resource e) in
          Some ([message_params AsyncLockInfoResponse (flag exclusive) holders], e, reg, b, Continue)
      | AsyncMaximumMessageSize =>
          if negb (zlen (payload msg) =? 8)
          then Some ([message_from_error (Fatal PoorlyFormattedMessageHeader
                        (str "AsyncMaximumMessageSize payload must be 8 bytes"))], e, reg, b, Close)
          else Some ([with_payload (message_params AsyncMaximumMessageSizeResponse 0 0)
                        (be_bytes 8 (max_message_size config))],
                     set_client_max (be_val (payload msg)) e, reg, b, Continue)
      | AsyncDeviceClear =>
          reg ← wait_access turns e reg;
          let e := bump_epoch e in
          let b := (dev_clear hold b (device e)).2 in
          Some ([message_params AsyncDeviceClearAcknowledge
                   (FeatureBitmap_new (prefers_overlapped (modes config)) false false) 0], e, reg, b, Continue)
      | AsyncRemoteLocalControl =>
          match remote_local hold (control_code msg) b (device e) with
          | None =>
              Some ([message_from_error (NonFatal UnrecognizedControlCode
                       (str "unknown remote/local code " ++ to_string (control_code msg)))], e, reg, b, Continue)
          | Some (_, b) => Some ([message_params AsyncRemoteLocalResponse 0 0], e, reg, b, Continue)
          end
      | AsyncStatusQuery =>
          let '(polled, b) := get_status hold b (device e) in
          let '(stb, e) := status_response e polled (message_parameter msg) in
          Some ([message_params AsyncStatusResponse stb 0], e, reg, b, Continue)
      | FatalError => Some ([], e, reg, b, Close)
      | ErrorMessage => Some ([], e, reg, b, Continue)
      | ty =>
          let '(out, flow) := async_unexpected e ty in Some ([out], e, reg, b, flow)
      end
  end.

(** The bus side of a service request: poll until ours, released, or the
    budget is spent. *)
Fixpoint poll_for_service_request (fuel : nat) (deadline : Z) (b : B) (pad : Z) : option (option Z * B) :=
  match fuel with
  | O => None
  | S fuel =>
      match gb_serial_poll b pad with
      | (Err _, b) => Some (None, b)
      | (Ok stb, b) =>
          if has_flag stb STB_RQS then Some (Some stb, b)
          else
            match gb_srq_asserted b with
            | (Ok true, b) =>
                if now b <? deadline
                then poll_for_service_request fuel deadline (sleep b (SRQ_RECHECK_INTERVAL * 1000000)) pad
                else Some (None, b)
            | (_, b) => Some (None, b)
            end
      end
  end.

Definition forward_service_request (fuel : nat) (e : SessionEntry) (b : B) : option (list Message * SessionEntry * B) :=
  '(r, b) ← poll_for_service_request fuel (now b + SRQ_RECHECK_BUDGET * 1000000) b (device e);
  match r with
  | None => Some ([], e, b)
  | Some stb => Some ([message_params AsyncServiceRequest stb 0], set_consumed (Some stb) e, b)
  end.

Definition async_push (p : AsyncPush) : Message :=
  match p with
  | ServiceRequest stb => message_params AsyncServiceRequest stb 0
  | PushFatal code msg => message_from_error (Fatal code msg)
  end.

(** ** Set-up *)

(** The id loop; [None] when the fuel is spent, [Some None] out of ids. *)
Fixpoint free_id (fuel : nat) (reg : gmap Z SessionEntry) (sid : Z) : option (option Z) :=
  match fuel with
  | O => None
  | S fuel =>
      match reg !! sid with
      | None => Some (Some sid)
      | Some _ =>
          let sid := as_u16 (sid + 2) in
          if sid =? 0 then Some None else free_id fuel reg sid
      end
  end.

Definition fatal_only (code : FatalErrorCode) (msg : list Z) : list Message := [message_from_error (Fatal code msg)].

(** Up to the sync loop: the replies, the table, and the session's id. *)
Definition init_sync (device_for : list Z -> option Z) (reg : gmap Z SessionEntry) (init : Message)
    : option (list Message * gmap Z SessionEntry * option Z) :=
  let proto := Z.min SUPPORTED_PROTOCOL (client_protocol (message_parameter init)) in
  match from_utf8 (payload init) with
  | None => Some (fatal_only InvalidInitialization (str "subaddress is not valid UTF-8"), reg, None)
  | Some s =>
      let subaddr := match s with [] => DEFAULT_SUBADDRESS | _ => s end in
      match device_for subaddr with
      | None => Some (fatal_only InvalidInitialization (str "unknown subaddress: " ++ subaddr), reg, None)
      | Some dev =>
          if max_sessions config <=? Z.of_nat (size reg)
          then Some (fatal_only MaximumClientsExceeded (str "too many active sessions"), reg, None)
          else
            sid ← free_id (S (size reg)) reg 0;
            match sid with
            | None => Some (fatal_only MaximumClientsExceeded (str "out of session ids"), reg, None)
            | Some sid =>
                let ov := prefers_overlapped (modes config) in
                let e := new_entry sid proto dev (max_message_size config) ov in
                Some ([message_params InitializeResponse (InitializeResponseControl_new ov false false)
                         (InitializeResponseParameter_new proto sid)],
                      <[sid := e]> reg, Some sid)
            end
      end
  end.

Definition init_async (reg : gmap Z SessionEntry) (init : Message)
    : list Message * gmap Z SessionEntry * option Z :=
  let sid := Z.land (message_parameter init) 0xFFFF in
  match reg !! sid with
  | None => (fatal_only InvalidInitialization (str "unknown session id " ++ to_string sid), reg, None)
  | Some e =>
      if async_bound e
      then (fatal_only InvalidInitialization (str "async channel already bound for this session"), reg, None)
      else
        ([message_params AsyncInitializeResponse (AsyncInitializeResponseControl_new false)
            (AsyncInitializeResponseParameter_new (vendor_id config))],
         <[sid := set_bound e]> reg, Some sid)
  end.

(** The first message of a connection. *)
Definition first_message (device_for : list Z -> option Z) (reg : gmap Z SessionEntry)
    (incoming : result Message Error) : option (list Message * gmap Z SessionEntry * option Z) :=
  match incoming with
  | Err err => Some ([message_from_error err], reg, None)
  | Ok m =>
      match message_type m with
      | Initialize => init_sync device_for reg m
      | AsyncInitialize => Some (init_async reg m)
      | other =>
          Some (fatal_only InvalidInitialization
                  (str "first message must be (Async)Initialize, got " ++ debug_type other), reg, None)
      end
  end.

(** The registration guard's [drop]: the locks at once, the entry from a
    task of its own. *)
Definition drop_session (sid : Z) (reg : gmap Z SessionEntry) (l : Lock.LockRegistry)
    : gmap Z SessionEntry * Lock.LockRegistry :=
  (delete sid reg, Lock.release_all l (Lock.hislip_id sid)).

End Channels.

(** ** Lemmas: replies *)

Lemma chunks_spec fuel : forall max data, (length data <= fuel)%nat -> 0 < max ->
  concat (chunks fuel max data) = data /\ Forall (fun c => 0 < zlen c <= max) (chunks fuel max data).
Proof.
  induction fuel as [|fuel IH]; intros max data Hf Hm.
  - destruct data; [done|simpl in Hf; lia].
  - cbn [chunks]. destruct data as [|b data]; [done|]. set (d := b :: data) in *.
    assert (Hd : 1 <= zlen d) by (subst d; zlen_solve).
    assert (Hlen : (length (zdrop max d) <= fuel)%nat).
    { unfold zdrop. rewrite length_drop. unfold zlen in Hd. lia. }
    destruct (IH max (zdrop max d) Hlen Hm) as [IH1 IH2]. split.
    + cbn [concat]. rewrite IH1. apply ztake_zdrop.
    + apply Forall_cons_2; [|done]. unfold zlen, ztake in *. rewrite length_take. lia.
Qed.

(** The ids of [n] messages from [next] on. *)
Definition server_ids (next : Z) (n : nat) : list Z :=
  map (fun k => as_u32 (next + 2 * Z.of_nat k)) (seq 0 n).

Lemma as_u32_add_l a b : as_u32 (as_u32 a + b) = as_u32 (a + b).
Proof. unfold as_u32. by rewrite Z.add_mod_idemp_l by lia. Qed.

Lemma server_ids_S next n : in_u32 next ->
  server_ids next (S n) = next :: server_ids (as_u32 (next + 2)) n.
Proof.
  intros Hn. unfold server_ids. cbn [seq map]. f_equal.
  - rewrite Z.mul_0_r, Z.add_0_r. by apply as_u32_id.
  - rewrite <- seq_shift, map_map. apply map_ext. intros k. rewrite as_u32_add_l. f_equal. lia.
Qed.

Lemma send_chunks_spec cs : forall e rid out e', in_u32 (next_server_message_id e) ->
  send_chunks e rid cs = (out, e') ->
  map payload out = cs /\ Forall (fun m => control_code m = 0) out /\
  map message_type out = replicate (pred (length cs)) Data ++ match cs with [] => [] | _ => [DataEnd] end /\
  map message_parameter out =
    (if overlapped e then server_ids (next_server_message_id e) (length cs) else replicate (length cs) rid) /\
  client_max_message_size e' = client_max_message_size e /\ overlapped e' = overlapped e.
Proof.
  induction cs as [|c cs IH]; intros e rid out e' Hn; cbn [send_chunks].
  { intros [= <- <-]. by destruct (overlapped e). }
  destruct (response_message_id e rid) as [mid e1] eqn:Er.
  assert (Hr : in_u32 (next_server_message_id e1) /\ overlapped e1 = overlapped e /\
    client_max_message_size e1 = client_max_message_size e /\
    (if overlapped e then mid = next_server_message_id e /\
       next_server_message_id e1 = as_u32 (next_server_message_id e + 2) else mid = rid)).
  { unfold response_message_id in Er. destruct (overlapped e) eqn:Eo; injection Er as <- <-; simpl.
    - split_and!; try done. apply as_u32_range.
    - done. }
  destruct Hr as (Hn1 & Ho1 & Hc1 & Hmid).
  destruct (send_chunks e1 rid cs) as [rest e2] eqn:Es. intros [= <- <-].
  apply IH in Es as (H1 & H2 & H3 & H4 & H5 & H6); [|done].
  split_and!; [| | | |congruence|congruence].
  - simpl. by f_equal.
  - by apply Forall_cons_2.
  - cbn [map message_type with_payload message_params length pred]. rewrite H3.
    destruct cs as [|c2 cs]; [done|]. done.
  - cbn [map message_parameter with_payload message_params length]. rewrite H4, Ho1.
    destruct (overlapped e).
    + destruct Hmid as [-> ->]. by rewrite server_ids_S.
    + by subst.
Qed.

(** ** Lemmas: hints *)

(** The quote that is open after [l]. *)
Fixpoint quote_after (quote : option byte) (l : list byte) : option byte :=
  match l with
  | [] => quote
  | b :: l =>
      quote_after
        match quote with
        | Some q => if bool_decide (b = q) then None else quote
        | None => if is_quote b then Some b else None
        end l
  end.

Lemma query_scan_spec cmd : forall quote,
  query_scan quote cmd = true <->
  exists pre post, cmd = pre ++ x3f :: post /\ quote_after quote pre = None.
Proof.
  induction cmd as [|b cmd IH]; intros quote; cbn [query_scan].
  { split; [done|]. by intros ([|] & ? & ? & _). }
  assert (Hstep : forall q', (forall pre, quote_after quote (b :: pre) = quote_after q' pre) ->
    (quote = None -> b <> x3f) ->
    (query_scan q' cmd = true <-> exists pre post, b :: cmd = pre ++ x3f :: post /\ quote_after quote pre = None)).
  { intros q' Hq Hb. rewrite IH. split.
    - intros (pre & post & -> & Hn). exists (b :: pre), post. by rewrite Hq.
    - intros ([|b' pre] & post & E & Hn); injection E as -> ->.
      + simpl in Hn. by destruct (Hb Hn).
      + rewrite Hq in Hn. by exists pre, post. }
  destruct quote as [q|].
  - apply Hstep; [done|done].
  - destruct (is_quote b) eqn:Eq.
    + apply Hstep; [by intros pre; simpl; rewrite Eq|]. by intros _ ->.
    + case_bool_decide as Hb.
      * subst b. split; [|done]. intros _. by exists [], cmd.
      * apply Hstep; [by intros pre; simpl; rewrite Eq|done].
Qed.

(** ** Lemmas: the bridge *)

Section Bridge.
Context {B : Type} `{GpibBackend B}.

(** Calls that move no data: polls of the instrument at [pad], looks at SRQ
    (and the log's record of what a read delivered). *)
Definition aside (pad : Z) (c : Call) : Prop :=
  match c with
  | CPoll p => p = pad
  | CGot _ _ => True
  | COther w None => w = "srq_asserted"%string
  | _ => False
  end.

Definition rqs_set (ex : Execution) : Prop :=
  forall stb, ex_service_request ex = Some stb -> has_flag stb STB_RQS = true.

Lemma drain_spec fired (b : Logged B) pad sr r b' :
  (forall stb, sr = Some stb -> has_flag stb STB_RQS = true) -> drain fired b pad sr = (r, b') ->
  exists cs, calls b' = calls b ++ CRead pad MAX_READ :: cs /\ Forall (aside pad) cs /\
    match r with
    | Ok ex => rqs_set ex /\ exists d e, ex_data ex = Some d /\ head cs = Some (CGot d e) /\ (d = [] -> e = true)
    | Err _ => True
    end.
Proof.
  intros Hsr. unfold drain. destruct (held_read b pad MAX_READ) as [[[data end_]|err] b1] eqn:Er.
  - assert (Hc1 : calls b1 = calls b ++ [CRead pad MAX_READ; CGot data end_]).
    { unfold held_read in Er. simpl in Er. unfold log_read in Er. injection Er as E1 <-. simpl. by rewrite E1. }
    destruct (bool_decide (data = []) && negb end_) eqn:Ee.
    { intros [= <- <-]. exists [CGot data end_]. split_and!; [done|by repeat constructor|done]. }
    assert (Hd : data = [] -> end_ = true).
    { intros ->. rewrite bool_decide_eq_true_2 in Ee by done. by destruct end_. }
    destruct (_ && fired).
    + destruct (gb_srq_asserted b1) as [a b2] eqn:Ea.
      assert (Hc2 : calls b2 = calls b1 ++ [COther "srq_asserted" None]) by (injection Ea as _ <-; done).
      assert (Hlog : calls b2 = calls b ++ CRead pad MAX_READ :: [CGot data end_; COther "srq_asserted" None])
        by (rewrite Hc2, Hc1, <- app_assoc; done).
      destruct a as [[]|]; intros [= <- <-]; eexists;
        (split_and!; [exact Hlog|by repeat constructor| |]); try (by exists data, end_); try done.
      by intros stb [= <-].
    + intros [= <- <-]. exists [CGot data end_]. split_and!; [done|by repeat constructor|done|].
      by exists data, end_.
  - intros [= <- <-]. exists []. split_and!; [|constructor|done].
    unfold held_read in Er. simpl in Er. unfold log_read in Er. injection Er as E1 <-. simpl. by rewrite E1.
Qed.

(** The calls of [execute] after its write: asides, then at most one read. *)
Lemma execute_spec fired (b : Logged B) pad cmd expect r b' : execute fired b pad cmd expect = (r, b') ->
  exists pre tail, calls b' = calls b ++ CWrite pad cmd true :: pre ++ tail /\ Forall (aside pad) pre /\
    (tail = [] \/ exists cs, tail = CRead pad MAX_READ :: cs /\ Forall (aside pad) cs) /\
    match r with
    | Ok ex => rqs_set ex /\ (expect = true -> is_Some (ex_data ex)) /\
        match ex_data ex with
        | None => tail = []
        | Some d => exists e cs, tail = CRead pad MAX_READ :: CGot d e :: cs /\ (d = [] -> e = true)
        end
    | Err _ => True
    end.
Proof.
  unfold execute. destruct (held_write b pad cmd true) as [[[]|err] b1] eqn:Ew.
  2: { intros [= <- <-]. exists [], []. split_and!; [|constructor|by left|done].
       by unfold held_write in Ew; injection Ew as _ <-. }
  assert (Hc1 : calls b1 = calls b ++ [CWrite pad cmd true]) by (unfold held_write in Ew; by injection Ew as _ <-).
  assert (Hdrain : forall pre b2 sr, calls b2 = calls b1 ++ pre -> Forall (aside pad) pre ->
    (forall stb, sr = Some stb -> has_flag stb STB_RQS = true) -> drain fired b2 pad sr = (r, b') ->
    exists pre tail, calls b' = calls b ++ CWrite pad cmd true :: pre ++ tail /\ Forall (aside pad) pre /\
    (tail = [] \/ exists cs, tail = CRead pad MAX_READ :: cs /\ Forall (aside pad) cs) /\
    match r with
    | Ok ex => rqs_set ex /\ (expect = true -> is_Some (ex_data ex)) /\
        match ex_data ex with
        | None => tail = []
        | Some d => exists e cs, tail = CRead pad MAX_READ :: CGot d e :: cs /\ (d = [] -> e = true)
        end
    | Err _ => True
    end).
  { intros pre b2 sr Hc2 Hpre Hsr (cs & Hc & Hcs & Hr)%drain_spec; [|done].
    exists pre, (CRead pad MAX_READ :: cs). split_and!; [by rewrite Hc, Hc2, Hc1, <- !app_assoc|done|by right; eauto|].
    destruct r as [ex|]; [|done]. destruct Hr as (Hrq & d & e & Hd & Hh & He). rewrite Hd.
    split_and!; [done|by eauto|]. destruct cs as [|c cs]; [done|]. injection Hh as ->. eauto. }
  assert (Hpoll : forall (b2 : Logged B) pr b3, gb_serial_poll b2 pad = (pr, b3) -> calls b3 = calls b2 ++ [CPoll pad])
    by (intros b2 pr b3 E; by injection E as _ <-).
  assert (Hflag : forall stb, forall x, (if has_flag stb STB_RQS then Some stb else None) = Some x ->
    has_flag x STB_RQS = true).
  { intros stb x. destruct (has_flag stb STB_RQS) eqn:E; [by intros [= <-]|done]. }
  destruct expect; cbn [negb].
  - destruct (gb_srq_asserted b1) as [a b2] eqn:Ea.
    assert (Hc2 : calls b2 = calls b1 ++ [COther "srq_asserted" None]) by (by injection Ea as _ <-).
    assert (Hone : Forall (aside pad) [COther "srq_asserted" None]) by (by repeat constructor).
    destruct a as [[]|]; try (by apply (Hdrain [COther "srq_asserted" None])).
    destruct (gb_serial_poll b2 pad) as [pr b3] eqn:Ep. apply Hpoll in Ep.
    assert (Hc3 : calls b3 = calls b1 ++ [COther "srq_asserted" None; CPoll pad])
      by (rewrite Ep, Hc2, <- app_assoc; done).
    destruct pr; (eapply (Hdrain [COther "srq_asserted" None; CPoll pad]); [done|by repeat constructor|]);
      [apply Hflag|done].
  - destruct (gb_serial_poll b1 pad) as [pr b2] eqn:Ep. apply Hpoll in Ep. destruct pr as [stb|].
    + destruct (has_flag stb STB_MAV); cbn [negb].
      * eapply (Hdrain [CPoll pad]); [done|by repeat constructor|apply Hflag].
      * intros [= <- <-]. exists [CPoll pad], []. split_and!; [by rewrite Ep, Hc1, <- app_assoc|by repeat constructor|by left| |done|done].
        intros x. apply Hflag.
    + intros [= <- <-]. exists [CPoll pad], []. split_and!; [by rewrite Ep, Hc1, <- app_assoc|by repeat constructor|by left|done..].
Qed.

End Bridge.

(** ** Lemmas: the synchronous channel *)

Section Sync.
Context {B : Type} `{GpibBackend B}.
Variables (config : Config) (display : Backend.Error -> list Z) (alloc : Z -> bool).

(** Nobody else touches the session. *)
Definition idle_env : SyncEnv (B := B) := mkSyncEnv (fun e => e) [] (fun b => b) (fun e => e) false.

Definition sendable (m : Message) : Prop :=
  message_wf m /\ zlen (payload m) <= max_message_size config /\ alloc (zlen (payload m)) = true.

Lemma note_epoch e m : clear_epoch (note_client_message e m) = clear_epoch e.
Proof. unfold note_client_message. by destruct (rmt_delivered _). Qed.

Lemma sync_loop_message env envs m tail e (st : SyncState (B := B)) : sendable m ->
  sync_loop config display alloc (env :: envs) (mkReader (write_to m ++ tail) e) st =
  '(out, st, flow) ← sync_step config display env st (Ok m);
  match flow with
  | Close => Some (Ok tt, out, st)
  | Continue =>
      '(res, rest, st) ← sync_loop config display alloc envs (mkReader tail e) st;
      Some (res, out ++ rest, st)
  end.
Proof. intros (Hw & Hl & Ha). cbn [sync_loop]. by rewrite read_write_message. Qed.

Lemma sync_step_data m (st : SyncState (B := B)) : message_type m = Data ->
  clear_epoch (entry st) = epoch st ->
  sync_step config display idle_env st (Ok m) =
  Some ([], mkSync (note_client_message (entry st) m) (locks st) (bus st) (buffer st ++ payload m) (epoch st), Continue).
Proof.
  intros Hm He. unfold sync_step, with_entry. cbn [v_before idle_env entry epoch].
  rewrite He, Z.eqb_refl. by rewrite Hm.
Qed.

Lemma sync_step_data_end env m (st : SyncState (B := B)) : message_type m = DataEnd ->
  v_before env (entry st) = entry st -> clear_epoch (entry st) = epoch st ->
  sync_step config display env st (Ok m) =
  '(out, st) ← run_command display env
     (mkSync (note_client_message (entry st) m) (locks st) (bus st) [] (epoch st))
     (message_parameter m) (buffer st ++ payload m);
  Some (out, st, Continue).
Proof.
  intros Hm Hb He. unfold sync_step, with_entry. rewrite Hb. cbn [entry epoch locks bus buffer].
  rewrite He, Z.eqb_refl. by rewrite Hm.
Qed.

Lemma chunked_command ms : forall last env envs tail e (st : SyncState (B := B)),
  Forall (fun m => message_type m = Data /\ sendable m) ms ->
  message_type last = DataEnd -> sendable last -> (forall x, v_before env x = x) ->
  clear_epoch (entry st) = epoch st ->
  sync_loop config display alloc (replicate (length ms) idle_env ++ env :: envs)
    (mkReader (concat (map write_to ms) ++ write_to last ++ tail) e) st =
  '(out, st1) ← run_command display env
     (mkSync (fold_left note_client_message (ms ++ [last]) (entry st)) (locks st) (bus st) [] (epoch st))
     (message_parameter last) (buffer st ++ concat (map payload (ms ++ [last])));
  '(res, rest, st2) ← sync_loop config display alloc envs (mkReader tail e) st1;
  Some (res, out ++ rest, st2).
Proof.
  induction ms as [|m ms IH]; intros last env envs tail e st Hms Hlast Hsend Henv He.
  - cbn [length replicate app concat map fold_left]. rewrite sync_loop_message by done.
    rewrite sync_step_data_end by (try done; apply Henv). cbn [app]. rewrite app_nil_r.
    destruct (run_command _ _ _ _ _) as [[out st1]|]; done.
  - apply Forall_cons in Hms as [[Hm Hs] Hms]. cbn [length replicate app concat map fold_left].
    rewrite <- app_assoc. rewrite sync_loop_message by done. rewrite sync_step_data by done.
    cbn [mbind option_bind]. rewrite IH; [|done..|cbn [entry epoch]; by rewrite note_epoch].
    cbn [entry locks bus buffer epoch]. rewrite <- app_assoc.
    destruct (run_command _ _ _ _ _) as [[out st1]|]; [|done]. cbn [mbind option_bind].
    by destruct (sync_loop _ _ _ _ _ _) as [[[res rest] st2]|].
Qed.

(** In synchronized mode a reply leaves the session alone. *)
Lemma response_id_sync e rid : overlapped e = false -> response_message_id e rid = (rid, e).
Proof. unfold response_message_id. by intros ->. Qed.

Lemma send_chunks_sync cs : forall e rid, overlapped e = false -> (send_chunks e rid cs).2 = e.
Proof.
  induction cs as [|c cs IH]; intros e rid He; [done|]. cbn [send_chunks]. rewrite response_id_sync by done.
  specialize (IH e rid He). by destruct (send_chunks e rid cs).
Qed.

Lemma write_response_sync e rid data : overlapped e = false -> (write_response e rid data).2 = e.
Proof.
  intros He. destruct data; [|by apply send_chunks_sync]. unfold write_response. by rewrite response_id_sync.
Qed.

Lemma raise_service_request_mav e stb :
  overlapped (raise_service_request e stb) = overlapped e /\ mav (raise_service_request e stb) = mav e /\
  last_message_id (raise_service_request e stb) = last_message_id e.
Proof. unfold raise_service_request, push_async. by destruct (_ <? _)%nat. Qed.

Lemma reply_sets_mav env (st : SyncState (B := B)) mid cmd m out st' :
  overlapped (entry st) = false -> (forall x, v_during env x = x) ->
  run_command display env st mid cmd = Some (m :: out, st') -> message_type m <> ErrorMessage ->
  overlapped (entry st') = false /\ mav (entry st') = true /\ last_message_id (entry st') = last_message_id (entry st).
Proof.
  intros Hov Hdur. unfold run_command. destruct (wait_access _ _ _) as [reg|]; [|done]. cbn [mbind option_bind].
  destruct (execute _ _ _ _ _) as [[ex|err] b]; [|by intros [= <- <- <-]].
  rewrite Hdur. destruct (ex_data ex) as [data|]; [|done].
  pose proof (write_response_sync (set_mav true (entry st)) mid data Hov) as Hw.
  destruct (write_response _ _ _) as [o e1]. cbn [snd] in Hw. subst e1. intros [= -> <-] _. cbn [entry].
  destruct (ex_service_request ex) as [stb|]; [|done].
  destruct (raise_service_request_mav (set_mav true (entry st)) stb) as (-> & -> & ->). done.
Qed.

Lemma wait_access_grants turns e reg reg' : wait_access turns e reg = Some reg' ->
  Lock.has_access reg' (resource e) (holder e) = true.
Proof.
  unfold wait_access. destruct (Lock.has_access reg _ _) eqn:E; [by intros [= <-]|].
  revert reg E. induction turns as [|[f t] turns IH]; intros reg E; [done|]. cbn [Lock.wait_for_access].
  destruct (Lock.has_access (f reg) _ _) eqn:E2; [by intros [= <-]|by apply IH].
Qed.

End Sync.

(** The calls of one turn. *)
Definition poll_turn (pad : Z) (asked : bool) : list Call :=
  CPoll pad :: if asked then [COther "srq_asserted" None] else [].

Lemma poll_stop {B} asked pad (b b' : Logged B) (r : option Z) n : calls b' = calls b ++ poll_turn pad asked ->
  (forall stb, r = Some stb -> has_flag stb STB_RQS = true) ->
  exists r0 b0, Some (r, b') = Some (r0, b0) /\
    (exists cs, calls b0 = calls b ++ cs /\ Forall (aside pad) cs /\
       (length (filter (fun c => c = CPoll pad) cs) <= S n)%nat) /\
    (forall stb, r0 = Some stb -> has_flag stb STB_RQS = true).
Proof.
  intros Hc Hr. exists r, b'. split_and!; [done| |done]. exists (poll_turn pad asked).
  split_and!; [done|by destruct asked; repeat constructor|]. unfold poll_turn. rewrite filter_cons_True by done.
  cbn [length]. destruct asked; [rewrite filter_cons_False by done|]; simpl; lia.
Qed.

(** Each turn that polls again has slept 20 ms. *)
Lemma poll_bounded {B} `{BackendLaws B} deadline pad fuel : forall (b : Logged B),
  deadline - now b <= SRQ_RECHECK_INTERVAL * 1000000 * Z.of_nat fuel ->
  exists r b', poll_for_service_request (S fuel) deadline b pad = Some (r, b') /\
    (exists cs, calls b' = calls b ++ cs /\ Forall (aside pad) cs /\
       (length (filter (fun c => c = CPoll pad) cs) <= S fuel)%nat) /\
    (forall stb, r = Some stb -> has_flag stb STB_RQS = true).
Proof.
  induction fuel as [|fuel IH]; intros b Hd; cbn [poll_for_service_request];
    destruct (gb_serial_poll b pad) as [pr b1] eqn:Ep;
    pose proof (serial_poll_now b pad) as Hn1; rewrite Ep in Hn1; cbn [snd] in Hn1;
    assert (Hc1 : calls b1 = calls b ++ poll_turn pad false) by (by injection Ep as _ <-);
    (destruct pr as [stb|]; [|by apply (poll_stop false)]);
    (destruct (has_flag stb STB_RQS) eqn:Er; [apply (poll_stop false); [done|by intros ? [= <-]]|]);
    destruct (gb_srq_asserted b1) as [a b2] eqn:Ea;
    pose proof (srq_asserted_now b1) as Hn2; rewrite Ea in Hn2; cbn [snd] in Hn2;
    assert (Hc2 : calls b2 = calls b ++ poll_turn pad true)
      by (injection Ea as _ <-; cbn [calls]; by rewrite Hc1, <- app_assoc);
    (destruct a as [[|]|]; [|by apply (poll_stop true)..]);
    (destruct (Z.ltb_spec (now b2) deadline); [|by apply (poll_stop true)]).
  - lia.
  - pose proof (sleep_now b2 (SRQ_RECHECK_INTERVAL * 1000000) ltac:(done)) as Hn3.
    destruct (IH (sleep b2 (SRQ_RECHECK_INTERVAL * 1000000))) as (r & b' & Hr & (cs & Hcs & Hall & Hlen) & Hrqs);
      [unfold SRQ_RECHECK_INTERVAL in *; lia|].
    exists r, b'. split_and!; [done| |done]. exists (CPoll pad :: COther "srq_asserted" None :: cs). split_and!.
    + rewrite Hcs. cbn [calls sleep Logged_backend log_map]. by rewrite Hc2, <- app_assoc.
    + by repeat constructor.
    + rewrite filter_cons_True, filter_cons_False by done. cbn [length]. lia.
Qed.

(** ** Lemmas: session ids *)

Lemma evens_size (reg : gmap Z SessionEntry) k :
  (forall i, (i < k)%nat -> is_Some (reg !! (2 * Z.of_nat i))) -> (k <= size reg)%nat.
Proof.
  intros Hk. set (ids := list_to_set (map (fun i => 2 * Z.of_nat i) (seq 0 k)) : gset Z).
  assert (Hsub : ids ⊆ dom reg).
  { intros x Hx. apply elem_of_list_to_set, list_elem_of_fmap in Hx as (i & -> & Hi).
    apply elem_of_seq in Hi. apply elem_of_dom, Hk. lia. }
  apply subseteq_size in Hsub. rewrite size_dom in Hsub. subst ids.
  rewrite size_list_to_set in Hsub; [by rewrite length_map, length_seq in Hsub|].
  apply NoDup_fmap_2; [intros i j; lia|apply NoDup_seq].
Qed.

(** The search tries 0, 2, 4, ... and never needs more turns than there are
    sessions. *)
Lemma free_id_spec (reg : gmap Z SessionEntry) fuel : forall k,
  (forall i, (i < k)%nat -> is_Some (reg !! (2 * Z.of_nat i))) ->
  (k + fuel = S (size reg))%nat -> 2 * Z.of_nat k < 65536 ->
  match free_id fuel reg (2 * Z.of_nat k) with
  | None => False
  | Some None => True
  | Some (Some sid) => reg !! sid = None /\ in_u16 sid /\ exists j, sid = 2 * j
  end.
Proof.
  induction fuel as [|fuel IH]; intros k Hk Hf Hlt.
  - pose proof (evens_size reg k Hk). lia.
  - cbn [free_id]. destruct (reg !! (2 * Z.of_nat k)) as [e|] eqn:Ek.
    + destruct (Z.eq_dec (2 * Z.of_nat k + 2) 65536) as [Ew|Hw].
      { unfold as_u16. by rewrite Ew. }
      unfold as_u16. rewrite Z.mod_small by lia.
      destruct (Z.eqb_spec (2 * Z.of_nat k + 2) 0); [lia|].
      replace (2 * Z.of_nat k + 2) with (2 * Z.of_nat (S k)) by lia. apply IH; [|lia|lia].
      intros i Hi. destruct (decide (i = k)) as [->|]; [eauto|apply Hk; lia].
    + split_and!; [done|unfold in_u16; lia|by eexists].
Qed.

(** ** Lemmas: a registry with one exclusive lock *)

Abbreviation fresh_held n r a := (Lock.mkRegistry {[r := Lock.mkLockTable (Some (a, 1)) None ∅]} n).

Lemma fresh_request n (r : list Z) a : Lock.try_request (Lock.mkRegistry ∅ n) r a [] = (Some Lock.SuccessExclusive, fresh_held n r a).
Proof. unfold Lock.try_request. simpl. by rewrite lookup_empty. Qed.

Lemma fresh_exclusive n (r : list Z) a b : a <> b ->
  Lock.holds (fresh_held n r a) r a = true /\ Lock.has_access (fresh_held n r a) r b = false.
Proof.
  intros Hne. unfold Lock.holds, Lock.has_access. simpl. rewrite lookup_singleton_eq.
  unfold Lock.grants_access, Lock.table_holds, Lock.excl_held_by. simpl. rewrite Z.eqb_refl, lookup_empty.
  by rewrite (proj2 (Z.eqb_neq a b)).
Qed.

Lemma fresh_refuses n (r : list Z) a b : a <> b -> Lock.try_request (fresh_held n r a) r b [] = (None, fresh_held n r a).
Proof.
  intros Hne. unfold Lock.try_request. simpl. rewrite lookup_singleton_eq. unfold Lock.try_exclusive. simpl.
  rewrite (proj2 (Z.eqb_neq a b)) by done. simpl. by rewrite insert_singleton_eq.
Qed.

Lemma fresh_survives (r : list Z) a b : a <> b -> Lock.release_all (fresh_held 0 r a) b = fresh_held 0 r a.
Proof.
  intros Hne. unfold Lock.release_all. simpl. rewrite map_to_list_singleton, omap_singleton. simpl.
  unfold Lock.retain_table, Lock.drop_holder, Lock.table_holds, Lock.excl_held_by. simpl.
  by rewrite (proj2 (Z.eqb_neq a b)), lookup_empty.
Qed.

Lemma fresh_release n (r : list Z) a : (Lock.release (fresh_held n r a) r a).2 = Lock.mkRegistry ∅ (n + 1).
Proof.
  unfold Lock.release. simpl. rewrite lookup_singleton_eq. unfold Lock.release_table, Lock.excl_held_by. simpl.
  rewrite Z.eqb_refl. simpl. by rewrite delete_singleton_eq.
Qed.

(** The messages of a reply. *)
Lemma write_response_spec e rid data out e' : in_u32 (next_server_message_id e) ->
  write_response e rid data = (out, e') ->
  concat (map payload out) = data /\
  map message_type out = replicate (pred (length out)) Data ++ [DataEnd] /\
  Forall (fun m => zlen (write_to m) <= Z.max (client_max_message_size e) (16 + MIN_CHUNK)) out /\
  map message_parameter out =
    (if overlapped e then server_ids (next_server_message_id e) (length out) else replicate (length out) rid).
Proof.
  intros Hn. unfold write_response. destruct data as [|b data].
  - unfold response_message_id. destruct (overlapped e); intros [= <- <-]; cbn [map length pred];
      (split_and!; [done|done| |]); try (apply Forall_singleton; rewrite zlen_write_to; simpl; unfold MIN_CHUNK; zlen_solve).
    + cbn. rewrite Z.add_0_r. by rewrite as_u32_id.
    + done.
  - set (d := b :: data). set (mx := chunk_max (client_max_message_size e)).
    assert (Hmx : 0 < mx) by (unfold mx, chunk_max, MIN_CHUNK; lia).
    destruct (chunks_spec (length d) mx d ltac:(lia) Hmx) as [Hcat Hall].
    intros (H1 & H2 & H3 & H4 & _)%send_chunks_spec; [|done].
    assert (Hlen : length out = length (chunks (length d) mx d)) by (by rewrite <- H1, length_map).
    rewrite Hlen, H1, H3, H4. split_and!; [done| | |done].
    + destruct (chunks (length d) mx d); [|done]. unfold d in Hcat. done.
    + rewrite <- H1 in Hall. apply Forall_fmap in Hall. eapply Forall_impl; [exact Hall|].
      intros m Hm. simpl in Hm. rewrite zlen_write_to. unfold mx, chunk_max, MESSAGE_HEADER_SIZE, MIN_CHUNK in *. lia.
Qed.

Lemma send_chunks_control cs : forall e rid, Forall (fun m => control_code m = 0) (send_chunks e rid cs).1.
Proof.
  induction cs as [|c cs IH]; intros e rid; [constructor|]. cbn [send_chunks].
  destruct (response_message_id e rid) as [mid e1]. specialize (IH e1 rid). destruct (send_chunks e1 rid cs) as [rest e2].
  by constructor.
Qed.

Lemma write_response_control e rid data : Forall (fun m => control_code m = 0) (write_response e rid data).1.
Proof.
  unfold write_response. destruct data as [|b data]; [|apply send_chunks_control].
  destruct (response_message_id e rid). by repeat constructor.
Qed.

(** ** Properties *)

(** C9: a reply arrives whole and fits.  The payloads of the messages
    [write_response] sends are together exactly the instrument's data; all
    but the last are Data and the last, of which there always is one, is
    DataEnd; none is larger on the wire than the client's declared maximum,
    or 272 bytes when that is smaller; and each carries the id the mode
    prescribes: the request's own, or the server's next ids in steps of two. *)
Theorem reply_chunks e rid data out e' : in_u32 (next_server_message_id e) ->
  write_response e rid data = (out, e') ->
  concat (map payload out) = data /\
  map message_type out = replicate (pred (length out)) Data ++ [DataEnd] /\
  Forall (fun m => zlen (write_to m) <= Z.max (client_max_message_size e) (16 + MIN_CHUNK)) out /\
  map message_parameter out =
    (if overlapped e then server_ids (next_server_message_id e) (length out) else replicate (length out) rid).
Proof. apply write_response_spec. Qed.

Lemma reply_chunks_witness :
  let e := set_client_max 300 (new_entry 0 PROTOCOL_2_0 5 1048576 false) in
  concat (map payload (write_response e 7 (replicate 700 x41)).1) = replicate 700 x41.
Proof.
  intros e. apply (reply_chunks e 7 (replicate 700 x41) (write_response e 7 (replicate 700 x41)).1
    (write_response e 7 (replicate 700 x41)).2); by vm_compute.
Defined.

(** [query_hint] is what it says: true exactly when the command has a [?]
    outside string literals, that is, one before which no quote is open. *)
Theorem query_hint_exact cmd :
  query_hint cmd = true <-> exists pre post, cmd = pre ++ x3f :: post /\ quote_after None pre = None.
Proof. apply query_scan_spec. Qed.

(** C6: what running one command does to the bus and to the client.  In one
    tenure the command is written to the session's instrument with END,
    first and exactly once; nothing else is addressed; at most one read
    follows, the data returned is exactly what that read delivered, and an
    empty reply is only ever returned when the instrument itself ended an
    empty message.  A command that looks like a query is always read when it
    succeeds.  Every service request reported carries RQS. *)
Theorem execute_one_exchange {B} `{GpibBackend B} fired (b : Logged B) pad cmd expect r b' :
  execute fired b pad cmd expect = (r, b') ->
  exists pre tail, calls b' = calls b ++ CWrite pad cmd true :: pre ++ tail /\ Forall (aside pad) pre /\
    (tail = [] \/ exists cs, tail = CRead pad MAX_READ :: cs /\ Forall (aside pad) cs) /\
    match r with
    | Ok ex => rqs_set ex /\ (expect = true -> is_Some (ex_data ex)) /\
        match ex_data ex with
        | None => tail = []
        | Some d => exists e cs, tail = CRead pad MAX_READ :: CGot d e :: cs /\ (d = [] -> e = true)
        end
    | Err _ => True
    end.
Proof. apply execute_spec. Qed.

Lemma execute_one_exchange_witness :
  let b := mkLogged (mkMock [(Ok ([x31; x0a], true), 5)] 0 (10, false) 3000 None 0x50 true) [] in
  exists pre tail, calls (execute true b 22 (as_bytes (str "*IDN?")) true).2 =
    calls b ++ CWrite 22 (as_bytes (str "*IDN?")) true :: pre ++ tail /\ Forall (aside 22) pre.
Proof.
  intros b.
  destruct (execute_one_exchange true b 22 (as_bytes (str "*IDN?")) true
    (execute true b 22 (as_bytes (str "*IDN?")) true).1 (execute true b 22 (as_bytes (str "*IDN?")) true).2)
    as (pre & tail & Hc & Hpre & _); [by vm_compute|].
  exists pre, tail. exact (conj Hc Hpre).
Defined.

(** C10: a message sent in pieces is one command.  Whatever sequence of Data
    messages and a final DataEnd the client puts on the wire, the server does
    with it exactly what it does with one complete command made of the
    payloads in order: nothing touches the bus before the last piece, the
    command runs once, and the loop continues behind it. *)
Theorem chunked_command_runs_once {B} `{GpibBackend B} config display alloc ms last env envs tail e
    (st : SyncState (B := B)) :
  Forall (fun m => message_type m = Data /\ sendable config alloc m) ms ->
  message_type last = DataEnd -> sendable config alloc last -> (forall x, v_before env x = x) ->
  clear_epoch (entry st) = epoch st ->
  sync_loop config display alloc (replicate (length ms) idle_env ++ env :: envs)
    (mkReader (concat (map write_to ms) ++ write_to last ++ tail) e) st =
  '(out, st1) ← run_command display env
     (mkSync (fold_left note_client_message (ms ++ [last]) (entry st)) (locks st) (bus st) [] (epoch st))
     (message_parameter last) (buffer st ++ concat (map payload (ms ++ [last])));
  '(res, rest, st2) ← sync_loop config display alloc envs (mkReader tail e) st1;
  Some (res, out ++ rest, st2).
Proof. apply chunked_command. Qed.

(** A session on PAD 22 of a scripted bus. *)
Definition demo_session : SyncState (B := Mock) :=
  mkSync (new_entry 0 PROTOCOL_2_0 22 1048576 false) Lock.new_registry
    (mkMock [(Ok ([x31; x0a], true), 5)] 0 (10, false) 3000 None 0 false) [] 0.

Lemma chunked_command_runs_once_witness :
  let m1 := mkMessage Data 0 0xffffff00 (as_bytes (str "*ID")) in
  let m2 := mkMessage DataEnd 0 0xffffff00 (as_bytes (str "N?")) in
  sync_loop default_config (fun e => e) (fun _ => true) (replicate (length [m1]) idle_env ++ idle_env :: [idle_env])
    (mkReader (concat (map write_to [m1]) ++ write_to m2 ++ []) None) demo_session =
  '(out, st1) ← run_command (fun e => e) idle_env
     (mkSync (fold_left note_client_message ([m1] ++ [m2]) (entry demo_session)) (locks demo_session)
        (bus demo_session) [] (epoch demo_session))
     (message_parameter m2) (buffer demo_session ++ concat (map payload ([m1] ++ [m2])));
  '(res, rest, st2) ← sync_loop default_config (fun e => e) (fun _ => true) [idle_env] (mkReader [] None) st1;
  Some (res, out ++ rest, st2).
Proof.
  intros m1 m2. apply (chunked_command_runs_once default_config (fun e => e) (fun _ => true) [m1] m2).
  - apply Forall_singleton. split; [done|]. by vm_compute.
  - done.
  - by vm_compute.
  - done.
  - done.
Defined.

(** a session without the lock waits and touches nothing.  A command or a
    trigger that gets as far as the bus finds its session with access in the
    registry of that moment, and the bus calls it makes are those of one
    execution of the command; while access is refused it is not answered at
    all. *)
Theorem command_waits_for_access {B} `{GpibBackend B} display env (st : SyncState (B := B)) mid cmd :
  let e := entry st in
  match run_command display env st mid cmd with
  | Some (out, st') =>
      Lock.has_access (locks st') (resource e) (holder e) = true /\
      bus st' = (execute (v_srq env) (v_bus env (bus st)) (device e) cmd (query_hint cmd)).2 /\
      buffer st' = buffer st
  | None =>
      Lock.has_access (locks st) (resource e) (holder e) = false /\
      Lock.wait_for_access (v_turns env) (resource e) (holder e) (locks st) = None
  end.
Proof.
  unfold run_command. destruct (wait_access (v_turns env) (entry st) (locks st)) as [reg|] eqn:Ew.
  - cbn [mbind option_bind]. apply wait_access_grants in Ew.
    destruct (execute _ _ _ _ _) as [[ex|err] b]; [|done].
    destruct (match ex_data ex with Some _ => _ | None => _ end) as [out e1]. done.
  - unfold wait_access in Ew. simpl. by destruct (Lock.has_access (locks st) _ _).
Qed.

(** MAV follows the reply.  In a synchronized session, once a command has
    been answered with data, a status query that quotes its id reports MAV
    and one that quotes another id does not; a message with RMT-delivered, or
    a completed device clear, ends it; and the bit in the status response is
    exactly this one, whatever the instrument's own byte says. *)
Theorem mav_follows_reply {B} `{GpibBackend B} display env (st : SyncState (B := B)) mid cmd m out st' q :
  overlapped (entry st) = false -> last_message_id (entry st) = mid -> (forall x, v_during env x = x) ->
  run_command display env st mid cmd = Some (m :: out, st') -> message_type m <> ErrorMessage ->
  mav_bit (entry st') q = (if q =? mid then STB_MAV else 0) /\
  (forall msg, rmt_delivered (control_code msg) = true -> mav_bit (note_client_message (entry st') msg) q = 0) /\
  mav_bit (set_overlapped (entry st') false) q = 0 /\
  (forall polled, has_flag (status_response (entry st') polled q).1 STB_MAV =
     negb (mav_bit (entry st') q =? 0)).
Proof.
  intros Hov Hid Hdur Hrun Hm.
  apply reply_sets_mav in Hrun as (Ho & Hmav & Hl); [|done..]. rewrite Hid in Hl. split_and!.
  - unfold mav_bit. rewrite Ho, Hmav, Hl. simpl. by destruct (q =? mid).
  - intros msg Hr. unfold note_client_message. rewrite Hr. unfold mav_bit. cbn. by rewrite Ho.
  - done.
  - intros polled. unfold status_response. cbn [fst]. unfold has_flag.
    rewrite Z.land_lor_distr_l, <- Z.land_assoc. change (Z.land (as_u8 (Z.lnot STB_MAV)) STB_MAV) with 0.
    rewrite Z.land_0_r, Z.lor_0_l. unfold mav_bit. rewrite Ho, Hmav, Hl. simpl. by destruct (q =? mid).
Qed.

Lemma mav_follows_reply_witness :
  let r := run_command (fun e => e) idle_env demo_session (as_u32 (FIRST_MESSAGE_ID - 2)) (as_bytes (str "*IDN?")) in
  exists m out st', r = Some (m :: out, st') /\ mav_bit (entry st') (as_u32 (FIRST_MESSAGE_ID - 2)) = STB_MAV.
Proof.
  intros r. subst r. destruct (run_command _ _ _ _ _) as [[[|m out] st']|] eqn:E; [by vm_compute in E| |by vm_compute in E].
  exists m, out, st'. split; [done|].
  apply (mav_follows_reply (fun e => e) idle_env demo_session (as_u32 (FIRST_MESSAGE_ID - 2))
    (as_bytes (str "*IDN?")) m out st' (as_u32 (FIRST_MESSAGE_ID - 2))
    eq_refl eq_refl (fun _ => eq_refl) E).
  vm_compute in E. by injection E as <- _ _.
Defined.

(** a device clear discards the half-sent command.  The asynchronous
    channel answers [AsyncDeviceClear] once the session has access, having
    cleared the instrument; whatever the synchronous channel had collected by
    then is gone with its next message: a Data then starts the new command,
    and a DataEnd then runs exactly its own payload. *)
Theorem clear_discards_partial_command {B} `{GpibBackend B} config display turns t hold (st : SyncState (B := B))
    reg b clear out e' reg' b' flow env m :
  message_type clear = AsyncDeviceClear -> 0 <= clear_epoch (entry st) < 18446744073709551616 ->
  clear_epoch (entry st) = epoch st ->
  async_step config turns t hold (entry st) reg b (Ok clear) = Some (out, e', reg', b', flow) ->
  v_before env (entry st) = e' ->
  (Lock.has_access reg' (resource e') (holder e') = true /\ b' = (gb_device_clear (hold b) (device e')).2 /\
   map message_type out = [AsyncDeviceClearAcknowledge]) /\
  (message_type m = Data -> exists st', sync_step config display env st (Ok m) = Some ([], st', Continue) /\
     buffer st' = payload m /\ epoch st' = clear_epoch e') /\
  (message_type m = DataEnd -> sync_step config display env st (Ok m) =
     '(out, st') ← run_command display env
        (mkSync (note_client_message e' m) (locks st) (bus st) [] (clear_epoch e')) (message_parameter m) (payload m);
     Some (out, st', Continue)).
Proof.
  intros Hc Hr He. unfold async_step. rewrite Hc. destruct (wait_access _ _ _) as [r|] eqn:Ew; [|done].
  cbn [mbind option_bind]. intros [= <- <- <- <- <-] Hb. apply wait_access_grants in Ew.
  assert (Hne : clear_epoch (bump_epoch (entry st)) <> epoch st).
  { cbn [bump_epoch clear_epoch]. rewrite He in *.
    destruct (Z.eq_dec (epoch st + 1) 18446744073709551616) as [E|]; [|rewrite Z.mod_small; lia].
    rewrite E, Z.mod_same by lia. lia. }
  apply Z.eqb_neq in Hne. split_and!; [done..| |].
  - intros Hm. eexists. unfold sync_step, with_entry. rewrite Hb. cbn [entry epoch locks bus buffer].
    rewrite Hne, Hm. split_and!; done.
  - intros Hm. unfold sync_step, with_entry. rewrite Hb. cbn [entry epoch locks bus buffer]. by rewrite Hne, Hm.
Qed.

Lemma clear_discards_partial_command_witness :
  let st := mkSync (entry demo_session) Lock.new_registry (bus demo_session) (as_bytes (str "*ID")) 0 in
  let env := mkSyncEnv bump_epoch [] (fun b => b) (fun e => e) false in
  exists st', sync_step default_config (fun e => e) env st
    (Ok (mkMessage Data 0 0xffffff00 (as_bytes (str "*RST")))) = Some ([], st', Continue) /\
    buffer st' = as_bytes (str "*RST").
Proof.
  intros st env.
  destruct (clear_discards_partial_command default_config (fun e => e) [] 0 (fun b => b) st Lock.new_registry
    (bus demo_session) (mkMessage AsyncDeviceClear 0 0 []) [message_params AsyncDeviceClearAcknowledge 0 0]
    (bump_epoch (entry st)) Lock.new_registry (gb_device_clear (bus demo_session) 22).2 Continue env
    (mkMessage Data 0 0xffffff00 (as_bytes (str "*RST"))) eq_refl) as (_ & Hd & _);
    [vm_compute; split; congruence|by vm_compute|by vm_compute|done|].
  destruct (Hd eq_refl) as (st' & Hs & Hbuf & _). exists st'. exact (conj Hs Hbuf).
Defined.

(** chasing a service request ends.  On every bus, whoever holds the SRQ
    line and for however long, the forwarder's polling is over after at most
    26 polls of the session's own instrument, half a second in steps of 20
    ms; no other instrument is polled; and it sends one message, with RQS in
    it, or none. *)
Theorem srq_recheck_bounded {B} `{BackendLaws B} e (b : Logged B) :
  exists out e' b', forward_service_request 26 e b = Some (out, e', b') /\ (length out <= 1)%nat /\
    (exists cs, calls b' = calls b ++ cs /\ Forall (aside (device e)) cs /\
       (length (filter (fun c => c = CPoll (device e)) cs) <= 26)%nat) /\
    Forall (fun m => message_type m = AsyncServiceRequest /\ has_flag (control_code m) STB_RQS = true /\
                     consumed_stb e' = Some (control_code m)) out.
Proof.
  unfold forward_service_request, SRQ_RECHECK_BUDGET.
  destruct (poll_bounded (now b + 500 * 1000000) (device e) 25 b) as (r & b' & Hr & (cs & Hcs) & Hrqs);
    [unfold SRQ_RECHECK_INTERVAL; lia|].
  rewrite Hr. cbn [mbind option_bind]. destruct r as [stb|].
  - eexists _, _, _. split_and!; [done|simpl; lia|by exists cs|]. apply Forall_singleton. split_and!; [done|by apply Hrqs|done].
  - eexists _, _, _. split_and!; [done|simpl; lia|by exists cs|constructor].
Qed.

Lemma srq_recheck_bounded_witness :
  exists out e' b', forward_service_request 26 (entry demo_session)
    (mkLogged (mkMock [] 0 (10, false) 3000 None 0 true) []) = Some (out, e', b').
Proof.
  destruct (srq_recheck_bounded (entry demo_session) (mkLogged (mkMock [] 0 (10, false) 3000 None 0 true) []))
    as (out & e' & b' & E & _).
  by exists out, e', b'.
Defined.

(** the session table.  A synchronous channel that initializes gets a
    session under a fresh even id, on the instrument its subaddress names,
    at no more than the server's protocol version and not yet bound; every
    other outcome is a fatal error that leaves the table alone, and a table
    at its limit never grows.  The id search always ends.  The asynchronous
    channel then binds exactly that session, and a second one that tries is
    turned away without touching the table. *)
Theorem session_table config device_for reg init :
  match init_sync config device_for reg init with
  | None => False
  | Some (out, reg', None) =>
      reg' = reg /\ exists code msg, out = fatal_only code msg
  | Some (out, reg', Some sid) =>
      reg !! sid = None /\ in_u16 sid /\ (exists j, sid = 2 * j) /\
      size reg' = S (size reg) /\ Z.of_nat (size reg') <= max_sessions config /\
      (exists s dev, device_for s = Some dev /\
         reg' = <[sid := new_entry sid (Z.min SUPPORTED_PROTOCOL (client_protocol (message_parameter init))) dev
                          (max_message_size config) (prefers_overlapped (modes config))]> reg) /\
      forall a, Z.land (message_parameter a) 0xFFFF = sid ->
        exists ok reg2, init_async config reg' a = ([ok], reg2, Some sid) /\
          message_type ok = AsyncInitializeResponse /\ delete sid reg2 = reg /\
          exists msg, init_async config reg2 a = (fatal_only InvalidInitialization msg, reg2, None)
  end.
Proof.
  unfold init_sync. destruct (from_utf8 _) as [s|]; [|by split; eauto].
  destruct (device_for _) as [dev|] eqn:Ed; [|by split; eauto].
  destruct (Z.leb_spec (max_sessions config) (Z.of_nat (size reg))); [by split; eauto|].
  pose proof (free_id_spec reg (S (size reg)) 0 ltac:(lia) ltac:(lia) ltac:(lia)) as Hfree.
  change (2 * Z.of_nat 0) with 0 in Hfree.
  destruct (free_id (S (size reg)) reg 0) as [[sid|]|]; [|by split; eauto|done].
  destruct Hfree as (Hnone & Hu & Heven). cbn [mbind option_bind].
  split_and!; [done|done|done|by rewrite map_size_insert_None|rewrite map_size_insert_None by done; lia|by eauto|].
  intros a Ha. unfold init_async. rewrite Ha, lookup_insert_eq. cbn [async_bound new_entry].
  eexists _, _. split_and!; [done|done|by rewrite insert_insert_eq, delete_insert_id|].
  rewrite lookup_insert_eq. by eexists.
Qed.

(** Which instrument a subaddress names.  A primary address read from a
    subaddress is always one of the bus's 0 to 30, and every address has a
    name: its decimal, alone or after [hislip], except that [hislip0] means
    the server's default instrument. *)
Theorem subaddress_names pad : 0 <= pad <= 30 ->
  (forall s p, parse_subaddress_pad s = Some p -> 0 <= p <= 30) /\
  parse_subaddress_pad (to_string pad) = Some pad /\
  parse_subaddress_pad (str "gpib0," ++ to_string pad) = Some pad /\
  parse_subaddress_pad (str "hislip" ++ to_string pad) = (if pad =? 0 then None else Some pad).
Proof.
  intros Hp. split.
  - intros s p. unfold parse_subaddress_pad. destruct (_ || _); [done|]. destruct (rev _) as [|d ds]; [done|].
    destruct (parse_u8 _) as [n|] eqn:En; [|done]. destruct (Z.leb_spec n 30); [|done].
    intros [= <-]. split; [|done]. by apply parse_uint_range in En as [].
  - assert (Hall : Forall (fun pad => parse_subaddress_pad (to_string pad) = Some pad /\
      parse_subaddress_pad (str "gpib0," ++ to_string pad) = Some pad /\
      parse_subaddress_pad (str "hislip" ++ to_string pad) = (if pad =? 0 then None else Some pad)) (seqZ 0 31))
      by (eapply bool_decide_unpack; by vm_compute).
    rewrite Forall_forall in Hall. apply Hall, elem_of_seqZ. lia.
Qed.

Lemma subaddress_names_witness : parse_subaddress_pad (str "hislip" ++ to_string 22) = Some 22.
Proof. apply (subaddress_names 22). lia. Defined.

(** a lock granted to nobody.  When the synchronous channel ends, the
    guard releases the session's locks; but the asynchronous channel of the
    same session may be parked in [locks.request] for a resource another
    session holds, and nothing cancels it.  The grant that comes later is
    recorded for the session that is gone, and every other session is shut
    out. *)
Theorem late_grant_outlives_session pad mine other t (table : gmap Z SessionEntry) :
  in_u16 mine -> in_u16 other -> mine <> other -> 0 < t ->
  let r := resource_key pad in
  let held := (Lock.try_request Lock.new_registry r (Lock.hislip_id other) []).2 in
  let turns := [((fun l => l), 0); ((fun l => (drop_session mine table l).2), 0);
                ((fun l => (Lock.release l r (Lock.hislip_id other)).2), 0)] in
  exists reg, Lock.request turns t r (Lock.hislip_id mine) [] held = Some (Lock.SuccessExclusive, reg) /\
    Lock.holds reg r (Lock.hislip_id mine) = true /\ Lock.has_access reg r (Lock.hislip_id other) = false.
Proof.
  intros Hm Ho Hne Ht r held turns.
  assert (Hid : Lock.hislip_id other <> Lock.hislip_id mine) by (rewrite !Lock.hislip_id_add by done; lia).
  eexists. split; [|apply fresh_exclusive; exact (not_eq_sym Hid)].
  subst held turns. unfold Lock.new_registry. rewrite fresh_request. cbn [Lock.request snd]. rewrite (fresh_refuses _ r _ _ Hid).
  rewrite (proj2 (Z.leb_gt t 0)) by done.
  unfold drop_session at 1. cbn [snd]. rewrite (fresh_survives r _ _ Hid), (fresh_refuses _ r _ _ Hid).
  by rewrite fresh_release, fresh_request.
Qed.

Lemma late_grant_outlives_session_witness :
  exists reg, Lock.has_access reg (resource_key 5) (Lock.hislip_id 4) = false.
Proof.
  destruct (late_grant_outlives_session 5 2 4 1 ∅) as (reg & _ & _ & Hr); [unfold in_u16; lia..|].
  by exists reg.
Defined.

End Hislip.
