(* ===== verification/UsbtmcMsg.v ===== *)
(** * USBTMC and USB488 wire format: [src/backend/usbtmc/protocol.rs]

    Bulk headers, tags, padding, the capabilities block and the status of a
    control request.  Tags and status bytes are [u8]s as [Z]; transfers are
    byte lists. *)

From S2P Require Import Prelude RustStr Backend.

Module UsbtmcMsg.
Import RustStr Backend.

Definition HEADER_LEN : Z := 12.

Definition MSGID_DEV_DEP_MSG_OUT : Z := 1.
Definition MSGID_REQUEST_DEV_DEP_MSG_IN : Z := 2.
Definition MSGID_TRIGGER : Z := 128.
Definition MSGID_DEV_DEP_MSG_IN : Z := 2.

Definition REQ_INITIATE_ABORT_BULK_OUT : Z := 1.
Definition REQ_CHECK_ABORT_BULK_OUT_STATUS : Z := 2.
Definition REQ_INITIATE_ABORT_BULK_IN : Z := 3.
Definition REQ_CHECK_ABORT_BULK_IN_STATUS : Z := 4.
Definition REQ_INITIATE_CLEAR : Z := 5.
Definition REQ_CHECK_CLEAR_STATUS : Z := 6.
Definition REQ_GET_CAPABILITIES : Z := 7.
Definition REQ_READ_STATUS_BYTE : Z := 128.
Definition REQ_REN_CONTROL : Z := 160.
Definition REQ_GO_TO_LOCAL : Z := 161.
Definition REQ_LOCAL_LOCKOUT : Z := 162.

Definition STATUS_SUCCESS : Z := 0x01.
Definition STATUS_PENDING : Z := 0x02.
Definition STATUS_FAILED : Z := 0x80.
Definition STATUS_TRANSFER_NOT_IN_PROGRESS : Z := 0x81.
Definition STATUS_SPLIT_NOT_IN_PROGRESS : Z := 0x82.
Definition STATUS_SPLIT_IN_PROGRESS : Z := 0x83.

Definition NOTIFY_SRQ : Z := 0x81.

Inductive Recipient : Type := RInterface | REndpoint.

(** ** Tags and padding *)

Definition next_tag (tag : Z) : Z := if tag =? 255 then 1 else tag + 1.
Definition next_status_tag (tag : Z) : Z := if 127 <=? tag then 2 else Z.max tag 1 + 1.
Definition pad_len (len : Z) : Z := (4 - len mod 4) mod 4.

(** ** Bulk-OUT *)

(** [!tag]. *)
Definition inverse (tag : Z) : Z := as_u8 (Z.lnot tag).

Definition header (msg_id tag transfer_size attrs b9 : Z) : list byte :=
  [b8 msg_id; b8 tag; b8 (inverse tag); x00] ++ le_bytes 4 transfer_size ++ [b8 attrs; b8 b9; x00; x00].

Definition encode_dev_dep_msg_out (tag : Z) (data : list byte) (eom : bool) : list byte :=
  header MSGID_DEV_DEP_MSG_OUT tag (as_u32 (zlen data)) (if eom then 1 else 0) 0 ++ data ++
  replicate (Z.to_nat (pad_len (zlen data))) x00.

Definition encode_request_dev_dep_msg_in (tag max_len : Z) (term_char : option Z) : list byte :=
  let '(attrs, tc) := match term_char with Some c => (0x02, c) | None => (0, 0) end in
  header MSGID_REQUEST_DEV_DEP_MSG_IN tag max_len attrs tc.

Definition encode_trigger (tag : Z) : list byte := header MSGID_TRIGGER tag 0 0 0.

(** ** Bulk-IN *)

Record InMessage : Type := mkInMessage {
  data : list byte;
  eom : bool;
  term_char_seen : bool;
  transfer_size : Z;
}.

(** [buf[i]], where the code has checked the length. *)
Definition at_ (buf : list byte) (i : nat) : Z := u8 (default x00 (buf !! i)).

Definition parse_dev_dep_msg_in (buf : list byte) (tag : Z) : result InMessage Error :=
  if zlen buf <? HEADER_LEN then
    Err (str "usbtmc bulk-in transfer of " ++ to_string (zlen buf) ++ str " bytes is shorter than the 12-byte header")
  else if negb (at_ buf 0 =? MSGID_DEV_DEP_MSG_IN) then
    Err (str "usbtmc bulk-in MsgID " ++ hex_byte (at_ buf 0) ++ str ", expected DEV_DEP_MSG_IN (" ++
         hex_byte MSGID_DEV_DEP_MSG_IN ++ str ")")
  else if negb (at_ buf 1 =? tag) then
    Err (str "usbtmc bulk-in answers bTag " ++ to_string (at_ buf 1) ++ str " but request was " ++ to_string tag ++
         str ": the pipe is out of step")
  else if negb (at_ buf 2 =? inverse tag) then
    Err (str "usbtmc bulk-in bTagInverse " ++ hex_byte (at_ buf 2) ++ str " does not match bTag " ++ to_string tag)
  else
    let size := le_val (take 4 (drop 4 buf)) in
    let attrs := at_ buf 8 in
    let available := zlen buf - HEADER_LEN in
    let n := Z.min size available in
    Ok (mkInMessage (ztake n (zdrop HEADER_LEN buf)) (has_flag attrs 0x01) (has_flag attrs 0x02) size).

(** ** Capabilities and status *)

Record Capabilities : Type := mkCapabilities {
  bcd_usbtmc : Z;
  term_char : bool;
  bcd_usb488 : Z;
  ieee_488_2 : bool;
  remote_local : bool;
  trigger : bool;
  scpi : bool;
  sr1 : bool;
  rl1 : bool;
  dt1 : bool;
}.

Definition parse_capabilities (buf : list byte) : result Capabilities Error :=
  if zlen buf <? 6 then
    Err (str "usbtmc GET_CAPABILITIES reply of " ++ to_string (zlen buf) ++ str " bytes is too short")
  else if negb (at_ buf 0 =? STATUS_SUCCESS) then
    Err (str "usbtmc GET_CAPABILITIES failed with status " ++ hex_byte (at_ buf 0))
  else
    let bcd := le_val (take 2 (drop 2 buf)) in
    let tc := has_flag (at_ buf 5) 0x01 in
    if 16 <=? zlen buf then
      let iface := at_ buf 14 in
      let dev := at_ buf 15 in
      Ok (mkCapabilities bcd tc (le_val (take 2 (drop 12 buf))) (has_flag iface 0x04) (has_flag iface 0x02)
            (has_flag iface 0x01) (has_flag dev 0x08) (has_flag dev 0x04) (has_flag dev 0x02) (has_flag dev 0x01))
    else Ok (mkCapabilities bcd tc 0 false false false false false false false).

Definition status_name (status : Z) : list Z :=
  let name :=
    if status =? STATUS_SUCCESS then str "SUCCESS"
    else if status =? STATUS_PENDING then str "PENDING"
    else if status =? STATUS_FAILED then str "FAILED"
    else if status =? STATUS_TRANSFER_NOT_IN_PROGRESS then str "TRANSFER_NOT_IN_PROGRESS"
    else if status =? STATUS_SPLIT_NOT_IN_PROGRESS then str "SPLIT_NOT_IN_PROGRESS"
    else if status =? STATUS_SPLIT_IN_PROGRESS then str "SPLIT_IN_PROGRESS"
    else str "unknown" in
  hex_byte status ++ str " (" ++ name ++ str ")".

Definition check_status (what : list Z) (reply : list byte) : result unit Error :=
  match reply with
  | [] => Err (str "usbtmc " ++ what ++ str ": empty reply")
  | s :: _ =>
      if u8 s =? STATUS_SUCCESS then Ok tt
      else Err (str "usbtmc " ++ what ++ str " failed with status " ++ status_name (u8 s))
  end.

(** ** Lemmas *)

Lemma zlen_header m t s a b : zlen (header m t s a b) = 12.
Proof. unfold header. unfold zlen. rewrite !length_app, length_le_bytes. done. Qed.

Lemma inverse_eq t : in_u8 t -> inverse t = 255 - t.
Proof.
  intros Ht. unfold inverse, as_u8, in_u8, Z.lnot in *. rewrite <- (Z.mod_add _ 1) by lia. rewrite Z.mod_small; lia.
Qed.

(** The fields of a transfer that begins with a header. *)
Lemma header_fields m t s a b l : let wire := header m t s a b ++ l in
  at_ wire 0 = as_u8 m /\ at_ wire 1 = as_u8 t /\ at_ wire 2 = inverse t /\ at_ wire 8 = as_u8 a /\
  le_val (take 4 (drop 4 wire)) = as_u32 s /\ zdrop HEADER_LEN wire = l /\ zlen wire = HEADER_LEN + zlen l.
Proof.
  intros wire. assert (Hd : zdrop HEADER_LEN wire = l) by apply zdrop_app_zlen, zlen_header.
  assert (Hlen : zlen wire = HEADER_LEN + zlen l) by (unfold wire; by rewrite zlen_app, zlen_header).
  unfold wire, header in *. pose proof (length_le_bytes 4 s) as Hl. pose proof (le_val_le_bytes 4 s) as Hs.
  destruct (le_bytes 4 s) as [|b4 [|b5 [|b6 [|b7 [|]]]]]; simpl in Hl; try lia.
  unfold at_. cbn. rewrite !u8_b8. split_and!; try done. apply as_u8_id, as_u8_range.
Qed.

Lemma next_tag_iter n : forall k, 0 <= k < 255 -> Nat.iter n next_tag (1 + k) = 1 + (k + Z.of_nat n) mod 255.
Proof.
  induction n as [|n IH]; intros k Hk; [by rewrite Z.add_0_r, Z.mod_small by lia|].
  rewrite Nat.iter_succ, IH by done. rewrite Nat2Z.inj_succ. unfold next_tag.
  pose proof (Z.mod_pos_bound (k + Z.of_nat n) 255 ltac:(lia)).
  replace (k + Z.succ (Z.of_nat n)) with (k + Z.of_nat n + 1) by lia.
  destruct (Z.eqb_spec (1 + (k + Z.of_nat n) mod 255) 255).
  - rewrite <- Z.add_mod_idemp_l by lia. replace ((k + Z.of_nat n) mod 255) with 254 by lia. done.
  - rewrite <- (Z.add_mod_idemp_l (k + Z.of_nat n)) by lia.
    rewrite (Z.mod_small ((k + Z.of_nat n) mod 255 + 1)) by lia. lia.
Qed.

(** A reply is decoded under its own tag to its data and flags. *)
Lemma parse_reply g payload attrs rest : in_u8 g -> in_u32 (zlen payload) ->
  parse_dev_dep_msg_in (header MSGID_DEV_DEP_MSG_IN g (zlen payload) attrs 0 ++ payload ++ rest) g =
    Ok (mkInMessage payload (has_flag (as_u8 attrs) 0x01) (has_flag (as_u8 attrs) 0x02) (zlen payload)).
Proof.
  intros Ht Hp. set (wire := header _ _ _ _ _ ++ payload ++ rest).
  destruct (header_fields MSGID_DEV_DEP_MSG_IN g (zlen payload) attrs 0 (payload ++ rest))
    as (H0 & H1 & H2 & H8 & Hs & Hd & Hl).
  fold wire in H0, H1, H2, H8, Hs, Hd, Hl. rewrite as_u8_id in H1 by done. rewrite as_u32_id in Hs by done.
  rewrite zlen_app in Hl.
  assert (Hlen : (zlen wire <? HEADER_LEN) = false) by (apply Z.ltb_ge; rewrite Hl; zlen_solve).
  unfold parse_dev_dep_msg_in. rewrite Hlen, H0, H1, H2, H8, Hs, Hd, Hl, !Z.eqb_refl.
  cbn [negb as_u8]. rewrite Z.min_l by (pose proof (zlen_nonneg rest); lia). by rewrite ztake_app_zlen.
Qed.

(** Data never exceeds the size the header claims. *)
Lemma parse_size buf g m : parse_dev_dep_msg_in buf g = Ok m ->
  HEADER_LEN <= zlen buf /\ at_ buf 1 = g /\ zlen (data m) <= Z.max 0 (le_val (take 4 (drop 4 buf))).
Proof.
  unfold parse_dev_dep_msg_in. destruct (Z.ltb_spec (zlen buf) HEADER_LEN); [done|].
  destruct (negb (at_ buf 0 =? _)); [done|]. destruct (Z.eqb_spec (at_ buf 1) g); [|done].
  destruct (negb (at_ buf 2 =? _)); [done|]. cbn [negb]. intros [= <-]. split_and!; [done..|]. simpl data.
  unfold zlen, ztake. rewrite length_take. lia.
Qed.

(** ** Properties *)

(** request and reply are paired.  A bulk-IN transfer a device builds for one
    tag - header, data, and whatever padding follows - is decoded under that
    tag to exactly its data and flags, and is refused under every other tag;
    a transfer of another message type is refused under every tag. *)
Theorem in_message_pairing tag tag' payload attrs rest : in_u8 tag -> in_u8 tag' -> in_u32 (zlen payload) ->
  let wire := header MSGID_DEV_DEP_MSG_IN tag (zlen payload) attrs 0 ++ payload ++ rest in
  parse_dev_dep_msg_in wire tag =
    Ok (mkInMessage payload (has_flag (as_u8 attrs) 0x01) (has_flag (as_u8 attrs) 0x02) (zlen payload)) /\
  (tag' <> tag -> exists e, parse_dev_dep_msg_in wire tag' = Err e) /\
  exists e, parse_dev_dep_msg_in (encode_dev_dep_msg_out tag payload true) tag = Err e.
Proof.
  intros Ht Ht' Hp wire. split_and!.
  - by apply parse_reply.
  - intros Hne. destruct (parse_dev_dep_msg_in wire tag') as [m|e] eqn:E; [|by exists e].
    apply parse_size in E as (_ & E & _). unfold wire in E.
    destruct (header_fields MSGID_DEV_DEP_MSG_IN tag (zlen payload) attrs 0 (payload ++ rest)) as (_ & E1 & _).
    rewrite E1, as_u8_id in E by done. congruence.
  - unfold encode_dev_dep_msg_out, parse_dev_dep_msg_in. set (out := header MSGID_DEV_DEP_MSG_OUT _ _ _ _ ++ _).
    assert (at_ out 0 = 1) as -> by apply header_fields. destruct (zlen out <? HEADER_LEN); eexists; reflexivity.
Qed.

Lemma in_message_pairing_witness :
  parse_dev_dep_msg_in (header MSGID_DEV_DEP_MSG_IN 7 2 1 0 ++ [x31; x0a] ++ [x00; x00]) 7 =
    Ok (mkInMessage [x31; x0a] true false 2).
Proof.
  apply (in_message_pairing 7 8 [x31; x0a] 1 [x00; x00]); unfold in_u8, in_u32; [lia..|]. by vm_compute.
Defined.

(** A bulk-OUT transfer is a whole number of 4-byte words, its payload is the
    data, nothing but fewer than four zero bytes follows it, and the tag and
    its inverse differ in every bit. *)
Theorem out_message_wire tag payload e : in_u8 tag -> in_u32 (zlen payload) ->
  zlen (encode_dev_dep_msg_out tag payload e) mod 4 = 0 /\
  (exists n, zdrop HEADER_LEN (encode_dev_dep_msg_out tag payload e) = payload ++ replicate n x00 /\ (n < 4)%nat) /\
  le_val (take 4 (drop 4 (encode_dev_dep_msg_out tag payload e))) = zlen payload /\
  inverse tag = 255 - tag.
Proof.
  intros Ht Hp. unfold encode_dev_dep_msg_out.
  assert (Hpad : 0 <= pad_len (zlen payload) < 4) by (apply Z.mod_pos_bound; lia).
  split_and!.
  - rewrite !zlen_app, zlen_header, zlen_replicate, Z2Nat.id by lia. unfold pad_len in *.
    rewrite (Z.div_mod (zlen payload) 4) at 1 by lia.
    pose proof (Z.mod_pos_bound (zlen payload) 4 ltac:(lia)).
    destruct (Z.eq_dec (zlen payload mod 4) 0) as [E|].
    + rewrite E, Z.mod_same by lia. rewrite !Z.add_0_r. apply Z.mod_divide; [lia|]. exists (3 + zlen payload / 4). lia.
    + rewrite (Z.mod_small (4 - zlen payload mod 4)) by lia. apply Z.mod_divide; [lia|].
      exists (4 + zlen payload / 4). lia.
  - exists (Z.to_nat (pad_len (zlen payload))). split; [|lia]. apply zdrop_app_zlen, zlen_header.
  - destruct (header_fields MSGID_DEV_DEP_MSG_OUT tag (as_u32 (zlen payload)) (if e then 1 else 0) 0
      (payload ++ replicate (Z.to_nat (pad_len (zlen payload))) x00)) as (_ & _ & _ & _ & -> & _).
    by rewrite !as_u32_id by (by rewrite ?as_u32_id).
  - by apply inverse_eq.
Qed.

Lemma out_message_wire_witness : zlen (encode_dev_dep_msg_out 7 (as_bytes (str "*IDN?")) true) mod 4 = 0.
Proof. apply (out_message_wire 7 (as_bytes (str "*IDN?")) true); by vm_compute. Defined.

(** Tags.  A bulk tag is never 0, never repeats within 254 successors, and a
    status tag stays in 2 to 127, so that its echo on the interrupt endpoint
    is never the service-request notification. *)
Theorem tags_distinct tag : in_u8 tag ->
  1 <= next_tag tag <= 255 /\
  (forall n, (0 < n < 255)%nat -> Nat.iter n next_tag (next_tag tag) <> next_tag tag) /\
  2 <= next_status_tag tag <= 127 /\ Z.lor 0x80 (next_status_tag tag) <> NOTIFY_SRQ.
Proof.
  intros Ht. unfold in_u8 in Ht. assert (Hr : 1 <= next_tag tag <= 255)
    by (unfold next_tag; destruct (Z.eqb_spec tag 255); lia).
  split_and!; [lia..| | | |].
  - intros n Hn. replace (next_tag tag) with (1 + (next_tag tag - 1)) by lia. rewrite next_tag_iter by lia.
    intros E. set (k := next_tag tag - 1) in *.
    destruct (Z_lt_le_dec (k + Z.of_nat n) 255); [rewrite Z.mod_small in E by lia; lia|].
    replace (k + Z.of_nat n) with (k + Z.of_nat n - 255 + 1 * 255) in E by lia.
    rewrite Z.mod_add, Z.mod_small in E by lia. lia.
  - unfold next_status_tag. destruct (Z.leb_spec 127 tag); lia.
  - unfold next_status_tag. destruct (Z.leb_spec 127 tag); lia.
  - assert (Hs : 2 <= next_status_tag tag <= 127) by (unfold next_status_tag; destruct (Z.leb_spec 127 tag); lia).
    intros E%(f_equal (fun v => Z.land v 127)). rewrite Z.land_lor_distr_l in E.
    change (Z.land 128 127) with 0 in E. rewrite Z.lor_0_l in E.
    change 127 with (Z.ones 7) in E. rewrite !Z.land_ones in E by lia.
    rewrite Z.mod_small in E by (change (2 ^ 7) with 128; lia). change (NOTIFY_SRQ mod 2 ^ 7) with 1 in E. lia.
Qed.

Lemma tags_distinct_witness : Nat.iter 254 next_tag (next_tag 255) <> next_tag 255.
Proof. apply (tags_distinct 255); [by vm_compute|lia]. Defined.

End UsbtmcMsg.
