(* ===== verification/Effect.v ===== *)
(** * Effectful code: a state and error monad

    The adapters' drivers thread one mutable state through many fallible
    calls.  [Act S A] is such a computation: it runs from a state to a result
    and the state it leaves, also when it fails - a Rust method that returns
    [Err] keeps the mutations made before.  [wp] is its program logic with one
    postcondition for success and one for failure; [keeps] says that a
    computation only moves the state along a preorder, for the facts (the clock
    does not run backwards, a setting is left alone) that every step shares. *)

From S2P Require Import Prelude RustStr Backend.

Module Effect.
Import RustStr Backend.

Definition Act (S A : Type) : Type := S -> result A Error * S.

(** [Duration::from_millis]; durations and instants are in nanoseconds. *)
Definition from_millis (ms : Z) : Z := ms * 1000000.

Section Monad.
Context {S : Type}.

Definition ret {A} (a : A) : Act S A := fun s => (Ok a, s).
Definition bail {A} (e : Error) : Act S A := fun s => (Err e, s).
Definition of_result {A} (r : result A Error) : Act S A := fun s => (r, s).
Definition bind {A B} (m : Act S A) (k : A -> Act S B) : Act S B := fun s =>
  match m s with
  | (Ok a, s') => k a s'
  | (Err e, s') => (Err e, s')
  end.
Definition gets {A} (f : S -> A) : Act S A := fun s => (Ok (f s), s).
Definition modify (f : S -> S) : Act S unit := fun s => (Ok tt, f s).

(** The result as a value, for code that looks at it instead of using [?]. *)
Definition attempt {A} (m : Act S A) : Act S (result A Error) := fun s =>
  let '(r, s') := m s in (Ok r, s').

(** [.context(what)], rendered as [{:#}] does. *)
Definition in_context (what : list Z) (e : Error) : Error := what ++ str ": " ++ e.
Definition context {A} (what : list Z) (m : Act S A) : Act S A := fun s =>
  let '(r, s') := m s in (map_err (in_context what) r, s').

(** The body of a [for _ in 0..n]: go on, [break], or return from the
    function. *)
Inductive Flow (A : Type) : Type := Next | Break | Return (a : A).
Arguments Next {A}.
Arguments Break {A}.
Arguments Return {A} a.

(** [Next] is the end of the loop with every turn used. *)
Fixpoint poll {A} (n : nat) (body : Act S (Flow A)) : Act S (Flow A) :=
  match n with
  | O => ret Next
  | Datatypes.S n =>
      bind body (fun f => match f with Next => poll n body | _ => ret f end)
  end.

End Monad.

Arguments Next {A}.
Arguments Break {A}.
Arguments Return {A} a.

Declare Scope act_scope.
Delimit Scope act_scope with act.
Notation "'let!' p ':=' m 'in' k" :=
  (bind m (fun x => match x with p => k end))
  (at level 10, p pattern, m at level 100, k at level 200) : act_scope.
#[global] Open Scope act_scope.

(** A computation on a part of the state. *)
Definition zoom {S T A} (get : S -> T) (put : S -> T -> S) (m : Act T A) : Act S A := fun s =>
  let '(r, t) := m (get s) in (r, put s t).

Lemma bind_run {S A B} (m : Act S A) (k : A -> Act S B) s a s' : m s = (Ok a, s') -> bind m k s = k a s'.
Proof. intros E. unfold bind. by rewrite E. Qed.

(** ** Program logic *)

Section Logic.
Context {S : Type}.

Definition wp {A} (m : Act S A) (Q : A -> S -> Prop) (E : Error -> S -> Prop) (s : S) : Prop :=
  match m s with
  | (Ok a, s') => Q a s'
  | (Err e, s') => E e s'
  end.

Lemma wp_ret {A} (a : A) Q E s : Q a s -> wp (ret a) Q E s.
Proof. done. Qed.
Lemma wp_bail {A} e (Q : A -> S -> Prop) (E : Error -> S -> Prop) s : E e s -> wp (bail e) Q E s.
Proof. done. Qed.
Lemma wp_bind {A B} (m : Act S A) (k : A -> Act S B) Q E s :
  wp m (fun a => wp (k a) Q E) E s -> wp (bind m k) Q E s.
Proof. unfold wp, bind. by destruct (m s) as [[]]. Qed.
Lemma wp_of_result {A} r (Q : A -> S -> Prop) (E : Error -> S -> Prop) s :
  match r with Ok a => Q a s | Err e => E e s end -> wp (of_result r) Q E s.
Proof. done. Qed.
Lemma wp_gets {A} (f : S -> A) Q E s : Q (f s) s -> wp (gets f) Q E s.
Proof. done. Qed.
Lemma wp_modify f (Q : unit -> S -> Prop) E s : Q tt (f s) -> wp (modify f) Q E s.
Proof. done. Qed.
Lemma wp_attempt {A} (m : Act S A) Q (E : Error -> S -> Prop) s :
  wp m (fun a => Q (Ok a)) (fun e => Q (Err e)) s -> wp (attempt m) Q E s.
Proof. unfold wp, attempt. by destruct (m s) as [[]]. Qed.
Lemma wp_context {A} w (m : Act S A) Q E s :
  wp m Q (fun e => E (in_context w e)) s -> wp (context w m) Q E s.
Proof. unfold wp, context. by destruct (m s) as [[]]. Qed.
Lemma wp_mono {A} (m : Act S A) (Q Q' : A -> S -> Prop) (E E' : Error -> S -> Prop) s :
  wp m Q E s -> (forall a s', Q a s' -> Q' a s') -> (forall e s', E e s' -> E' e s') -> wp m Q' E' s.
Proof. unfold wp. destruct (m s) as [[]]; auto. Qed.
Lemma wp_conj {A} (m : Act S A) (Q Q' : A -> S -> Prop) (E E' : Error -> S -> Prop) s :
  wp m Q E s -> wp m Q' E' s -> wp m (fun a s' => Q a s' /\ Q' a s') (fun e s' => E e s' /\ E' e s') s.
Proof. unfold wp. destruct (m s) as [[]]; auto. Qed.
Lemma wp_run {A} (m : Act S A) Q E s : wp m Q E s ->
  forall r s', m s = (r, s') -> match r with Ok a => Q a s' | Err e => E e s' end.
Proof. unfold wp. intros H r s' Hm. by rewrite Hm in H; destruct r. Qed.

Lemma wp_ok {A} (m : Act S A) Q E s a : wp m Q E s -> (m s).1 = Ok a -> Q a (m s).2.
Proof. unfold wp. intros H Hm. destruct (m s) as [r s']. cbn [fst snd] in *. by subst. Qed.

Lemma wp_any {A} (m : Act S A) (Q : A -> S -> Prop) (E : Error -> S -> Prop) s :
  (forall a s', Q a s') -> (forall e s', E e s') -> wp m Q E s.
Proof. unfold wp. destruct (m s) as [[]]; auto. Qed.

(** An invariant of the turns. *)
Lemma wp_poll {A} (I : S -> Prop) (body : Act S (Flow A)) (Q : Flow A -> S -> Prop) E :
  (forall s, I s -> wp body (fun f s' => match f with Next => I s' | _ => Q f s' end) E s) ->
  (forall s, I s -> Q Next s) ->
  forall n s, I s -> wp (poll n body) Q E s.
Proof.
  intros Hb Hn n. induction n as [|n IH]; intros s Hs; simpl; [by apply wp_ret, Hn|].
  apply wp_bind. eapply wp_mono; [by apply Hb| |done]. intros [] s' H; [by apply IH|by apply wp_ret..].
Qed.

(** ** Monotone state *)

Definition keeps {A} (R : S -> S -> Prop) (m : Act S A) : Prop := forall s, R s (m s).2.

Lemma wp_keeps {A} R (m : Act S A) (Q : A -> S -> Prop) (E : Error -> S -> Prop) s :
  keeps R m -> (forall a s', R s s' -> Q a s') -> (forall e s', R s s' -> E e s') -> wp m Q E s.
Proof. intros Hm HQ HE. specialize (Hm s). unfold wp. destruct (m s) as [[]]; auto. Qed.
Lemma keeps_wp {A} (R : S -> S -> Prop) (m : Act S A) :
  (forall s, wp m (fun _ => R s) (fun _ => R s) s) -> keeps R m.
Proof. intros Hm s. specialize (Hm s). unfold wp in Hm. by destruct (m s) as [[]]. Qed.

Section Keeps.
Context (R : S -> S -> Prop) `{HR : !PreOrder R}.

Lemma keeps_ret {A} (a : A) : keeps R (ret a).
Proof. intros s. reflexivity. Qed.
Lemma keeps_bail {A} e : keeps R (bail (A := A) e).
Proof. intros s. reflexivity. Qed.
Lemma keeps_of_result {A} (r : result A Error) : keeps R (of_result r).
Proof. intros s. reflexivity. Qed.
Lemma keeps_gets {A} (f : S -> A) : keeps R (gets f).
Proof. intros s. reflexivity. Qed.
Lemma keeps_modify f : (forall s, R s (f s)) -> keeps R (modify f).
Proof. intros H s. apply H. Qed.
Lemma keeps_bind {A B} (m : Act S A) (k : A -> Act S B) :
  keeps R m -> (forall a, keeps R (k a)) -> keeps R (bind m k).
Proof.
  intros Hm Hk s. unfold bind. specialize (Hm s). destruct (m s) as [[a|e] s']; [|done].
  etrans; [done|apply Hk].
Qed.
Lemma keeps_attempt {A} (m : Act S A) : keeps R m -> keeps R (attempt m).
Proof. intros Hm s. unfold attempt. specialize (Hm s). by destruct (m s). Qed.
Lemma keeps_context {A} w (m : Act S A) : keeps R m -> keeps R (context w m).
Proof. intros Hm s. unfold context. specialize (Hm s). by destruct (m s). Qed.
Lemma keeps_poll {A} n (body : Act S (Flow A)) : keeps R body -> keeps R (poll n body).
Proof.
  intros Hb. induction n as [|n IH]; [apply keeps_ret|].
  apply keeps_bind; [done|]. intros []; [done|apply keeps_ret..].
Qed.

End Keeps.
End Logic.

Lemma keeps_zoom {S T A} (R : S -> S -> Prop) (get : S -> T) (put : S -> T -> S) (m : Act T A) :
  (forall s, R s (put s (m (get s)).2)) -> keeps R (zoom get put m).
Proof. intros H s. unfold zoom. specialize (H s). by destruct (m (get s)). Qed.

Create HintDb keeps.
#[export] Hint Resolve keeps_ret keeps_bail keeps_of_result keeps_gets keeps_attempt keeps_context
  keeps_poll : keeps.

(** Walk through a computation, splitting on what it branches on. *)
Ltac keeps_step :=
  lazymatch goal with
  | |- forall _, _ => intros ?
  | |- keeps _ (let '_ := ?x in _) => destruct x
  | |- keeps _ (match ?x with _ => _ end) => destruct x
  | |- keeps _ (bind _ _) => apply keeps_bind; [apply _ | | intros ?]
  | |- keeps _ (attempt _) => apply keeps_attempt
  | |- keeps _ (context _ _) => apply keeps_context
  | |- keeps _ (poll _ _) => apply keeps_poll; [apply _ |]
  | |- keeps _ (ret _) => apply keeps_ret; apply _
  | |- keeps _ (bail _) => apply keeps_bail; apply _
  | |- keeps _ (of_result _) => apply keeps_of_result; apply _
  | |- keeps _ (gets _) => apply keeps_gets; apply _
  | |- keeps _ _ => solve [eauto with keeps]
  end.
Ltac keeps_auto := repeat keeps_step.

(** Symbolic execution of the structural steps. *)
Ltac wp_step :=
  lazymatch goal with
  | |- wp (bind _ _) _ _ _ => apply wp_bind
  | |- wp (ret _) _ _ _ => apply wp_ret
  | |- wp (bail _) _ _ _ => apply wp_bail
  | |- wp (gets _) _ _ _ => apply wp_gets
  | |- wp (modify _) _ _ _ => apply wp_modify
  | |- wp (of_result _) _ _ _ => apply wp_of_result
  | |- wp (attempt _) _ _ _ => apply wp_attempt
  | |- wp (context _ _) _ _ _ => apply wp_context
  end.
Ltac wp_auto := repeat wp_step.

End Effect.
