(* ===== verification/Usb.v ===== *)
(** * The USB library the adapters' transports are written against

    Code outside the repository: [UsbHost] is the part of it the transports use,
    over the state of the bus and its devices.  A transfer on an endpoint is one
    request (a URB) that completes, fails or is given up after a wait; a
    completed bulk-IN transfer carries at most what its buffer holds
    ([UsbLaws]).  [Tape] wraps a host and records its bulk transfers; [Pipe] and
    [Queue] are concrete hosts for the witnesses. *)

From S2P Require Import Prelude RustStr Backend Effect.

Module Usb.
Import RustStr Backend Effect.

Inductive Completion (A : Type) : Type := Completed (a : A) | Failed (e : Error) | TimedOut.
Arguments Completed {A} a.
Arguments Failed {A} e.
Arguments TimedOut {A}.

Inductive ControlType : Type := Standard | Class_ | Vendor.
Inductive HostRecipient : Type := ToDevice | ToInterface | ToEndpoint.
Record ControlIn : Type := mkControlIn {
  control_type : ControlType; recipient : HostRecipient; request : Z; value : Z; index : Z; length_ : Z;
}.

(** Durations are in nanoseconds. *)
Class UsbHost (U : Type) : Type := {
  urb_out : list byte -> Z -> U -> Completion unit * U;  (* one bulk-OUT URB, with the wait *)
  urb_in : Z -> Z -> U -> Completion (list byte) * U;    (* one bulk-IN URB of a size, with the wait *)
  urb_out_done : list byte -> Act U unit;                (* a bulk-OUT URB, waited for however long it takes *)
  next_in : Z -> U -> Completion (list byte) * U;        (* the completion of a bulk-IN URB already submitted *)
  max_packet_size : U -> Z;
  discard_in : U -> U;                                   (* cancel_all and the completions it causes *)
  discard_out : U -> U;
  clear_halt_in : Act U unit;
  clear_halt_out : Act U unit;
  host_control_in : ControlIn -> Act U (list byte);
  (* the packets the interrupt endpoint completes while a caller waits *)
  interrupts_within : Z -> U -> list (list byte) * U;
  usb_now : U -> Z;
  usb_sleep : U -> Z -> U;
}.

(** A URB returns no more than its buffer. *)
Class UsbLaws (U : Type) `{UsbHost U} : Prop :=
  urb_in_bound : forall k w u b u', 0 <= k -> urb_in k w u = (Completed b, u') -> zlen b <= k.

(** The host's clock does not run backwards, and a sleep lasts. *)
Class UsbClock (U : Type) `{UsbHost U} : Prop := {
  urb_out_now : forall c w u, usb_now u <= usb_now (urb_out c w u).2;
  urb_in_now : forall n w u, usb_now u <= usb_now (urb_in n w u).2;
  urb_out_done_now : forall c u, usb_now u <= usb_now (urb_out_done c u).2;
  next_in_now : forall w u, usb_now u <= usb_now (next_in w u).2;
  interrupts_now : forall w u, usb_now u <= usb_now (interrupts_within w u).2;
  clear_halt_in_now : forall u, usb_now u <= usb_now (clear_halt_in u).2;
  clear_halt_out_now : forall u, usb_now u <= usb_now (clear_halt_out u).2;
  host_control_now : forall c u, usb_now u <= usb_now (host_control_in c u).2;
  usb_sleep_now : forall u d, 0 <= d -> usb_now u + d <= usb_now (usb_sleep u d);
}.

(** ** A tape

    A host with a record of the URBs made on it: what was sent and when, or how
    much was asked for; the wait; and how each ended. *)
Inductive Urb : Type :=
  | SentOut (at_time : Z) (data : list byte) (wait : Z) (how : Completion unit)
  | AskedIn (size wait : Z) (how : Completion (list byte)).
Record Tape (U : Type) : Type := mkTape { taped : U; tape : list Urb }.
Arguments mkTape {U}.
Arguments taped {U}.
Arguments tape {U}.

Section Tape.
Context {U : Type} `{UsbHost U}.

Definition retape {A} (m : U -> A * U) (x : Tape U) : A * Tape U :=
  let '(r, u) := m (taped x) in (r, mkTape u (tape x)).
Definition only (f : U -> U) (x : Tape U) : Tape U := mkTape (f (taped x)) (tape x).

#[export] Instance Tape_host : UsbHost (Tape U) := {|
  urb_out d w x :=
    let '(c, u) := urb_out d w (taped x) in (c, mkTape u (tape x ++ [SentOut (usb_now (taped x)) d w c]));
  urb_in n w x := let '(c, u) := urb_in n w (taped x) in (c, mkTape u (tape x ++ [AskedIn n w c]));
  urb_out_done d := retape (urb_out_done d);
  next_in w := retape (next_in w);
  max_packet_size x := max_packet_size (taped x);
  discard_in := only discard_in;
  discard_out := only discard_out;
  clear_halt_in := retape clear_halt_in;
  clear_halt_out := retape clear_halt_out;
  host_control_in c := retape (host_control_in c);
  interrupts_within w := retape (interrupts_within w);
  usb_now x := usb_now (taped x);
  usb_sleep x d := only (fun u => usb_sleep u d) x;
|}.
End Tape.

#[export] Instance Tape_clock (U : Type) `{UsbClock U} : UsbClock (Tape U).
Proof.
  split; intros; cbn [Tape_host urb_out urb_in urb_out_done next_in clear_halt_in clear_halt_out host_control_in
    interrupts_within usb_now usb_sleep only taped]; unfold retape.
  - pose proof (urb_out_now c w (taped u)). by destruct (urb_out c w (taped u)).
  - pose proof (urb_in_now n w (taped u)). by destruct (urb_in n w (taped u)).
  - pose proof (urb_out_done_now c (taped u)). by destruct (urb_out_done c (taped u)).
  - pose proof (next_in_now w (taped u)). by destruct (next_in w (taped u)).
  - pose proof (interrupts_now w (taped u)). by destruct (interrupts_within w (taped u)).
  - pose proof (clear_halt_in_now (taped u)). by destruct (clear_halt_in (taped u)).
  - pose proof (clear_halt_out_now (taped u)). by destruct (clear_halt_out (taped u)).
  - pose proof (host_control_now c (taped u)). by destruct (host_control_in c (taped u)).
  - by apply usb_sleep_now.
Qed.

(** [{:?}] of a whole number of milliseconds. *)
Definition fmt_millis (ms : Z) : list Z :=
  if ms =? 0 then str "0ns"
  else if ms <? 1000 then to_string ms ++ str "ms"
  else
    let f := ms mod 1000 in
    let digits := [48 + f / 100; 48 + f / 10 mod 10; 48 + f mod 10] in
    let trimmed := if f =? 0 then [] else if f mod 100 =? 0 then take 1 digits
                   else if f mod 10 =? 0 then take 2 digits else digits in
    to_string (ms / 1000) ++ (if f =? 0 then [] else str "." ++ trimmed) ++ str "s".

(** ** A pipe

    A host whose device accepts every URB and has one transfer to send, which
    a short packet ends. *)
Record Pipe : Type := mkPipe {
  p_transfer : list byte; p_sent : list (list byte); p_mps : Z; p_packets : list (list byte); p_clock : Z;
}.

#[export] Instance Pipe_host : UsbHost Pipe := {|
  urb_out c _ u := (Completed tt, mkPipe (p_transfer u) (p_sent u ++ [c]) (p_mps u) (p_packets u) (p_clock u));
  urb_in n _ u := (Completed (ztake n (p_transfer u)),
    mkPipe (zdrop n (p_transfer u)) (p_sent u) (p_mps u) (p_packets u) (p_clock u));
  urb_out_done c u := (Ok tt, mkPipe (p_transfer u) (p_sent u ++ [c]) (p_mps u) (p_packets u) (p_clock u));
  next_in _ u := (Completed (p_transfer u), mkPipe [] (p_sent u) (p_mps u) (p_packets u) (p_clock u));
  max_packet_size := p_mps;
  discard_in u := u;
  discard_out u := u;
  clear_halt_in u := (Ok tt, u);
  clear_halt_out u := (Ok tt, u);
  host_control_in _ u := (Ok [x01], u);
  interrupts_within _ u := (p_packets u, mkPipe (p_transfer u) (p_sent u) (p_mps u) [] (p_clock u));
  usb_now := p_clock;
  usb_sleep u d := mkPipe (p_transfer u) (p_sent u) (p_mps u) (p_packets u) (p_clock u + Z.max 0 d);
|}.

#[export] Instance Pipe_laws : UsbLaws Pipe.
Proof. intros k w u b u' Hk [= <- <-]. unfold zlen, ztake. rewrite length_take. lia. Qed.

(** A host whose device answers each bulk-IN URB with the next queued reply, or
    not at all. *)
Record Queue : Type := mkQueue { q_replies : list (list byte); q_sent : list (list byte); q_mps : Z; q_clock : Z }.

#[export] Instance Queue_host : UsbHost Queue := {|
  urb_out c _ u := (Completed tt, mkQueue (q_replies u) (q_sent u ++ [c]) (q_mps u) (q_clock u));
  urb_in n w u :=
    match q_replies u with
    | r :: rs => (Completed (ztake n r), mkQueue rs (q_sent u) (q_mps u) (q_clock u))
    | [] => (TimedOut, mkQueue [] (q_sent u) (q_mps u) (q_clock u + Z.max 0 w))
    end;
  urb_out_done c u := (Ok tt, mkQueue (q_replies u) (q_sent u ++ [c]) (q_mps u) (q_clock u));
  next_in w u :=
    match q_replies u with
    | r :: rs => (Completed r, mkQueue rs (q_sent u) (q_mps u) (q_clock u))
    | [] => (TimedOut, mkQueue [] (q_sent u) (q_mps u) (q_clock u + Z.max 0 w))
    end;
  max_packet_size := q_mps;
  discard_in u := u;
  discard_out u := u;
  clear_halt_in u := (Ok tt, u);
  clear_halt_out u := (Ok tt, u);
  host_control_in c u := (Ok (replicate (Z.to_nat (length_ c)) x01), u);
  interrupts_within _ u := ([], u);
  usb_now := q_clock;
  usb_sleep u d := mkQueue (q_replies u) (q_sent u) (q_mps u) (q_clock u + Z.max 0 d);
|}.

#[export] Instance Queue_clock : UsbClock Queue.
Proof. split; intros; simpl; try lia; destruct (q_replies u); simpl; lia. Qed.

End Usb.
