(* ===== verification/Usbtmc.v ===== *)
(** * The USBTMC driver: [src/backend/usbtmc/mod.rs]

    [TmcTransport] is the transport trait as a class over the state of what is
    behind it: the endpoints, the device and the clock.  [UsbtmcBackend] is
    the driver's record; its methods are computations of [Effect.Act].  The
    field [history] is an auxiliary variable the code does not have: every
    await of a transport operation appends what was awaited together with the
    two pending flags at that moment, which is what a future dropped there
    would leave behind.  The driver implements [GpibBackend], and under
    [TmcLaws] - the transport's documented behaviour - it has the laws the
    front-ends rely on. *)

From S2P Require Import Prelude RustStr Backend UsbtmcMsg Effect.

Module Usbtmc.
Import RustStr Backend UsbtmcMsg Effect.

Definition ID : list Z := str "usbtmc".
Definition DESCRIPTION : list Z := str "any USBTMC/USB488 instrument (USB class fe/03)".
Definition MAX_READ_TRANSFER : Z := 1048576.
Definition HANDSHAKE_POLLS : nat := 50.
Definition HANDSHAKE_POLL_INTERVAL : Z := from_millis 20.
Definition DRAIN_READ : Z := 4096.
Definition STATUS_BYTE_WAIT_MS : Z := 1000.
Definition READ_RESYNC_ATTEMPTS : nat := 3.
Definition READ_RESYNC_WAIT_MS : Z := 300.

(** ** The transport *)

Class TmcTransport (T : Type) : Type := {
  bulk_out : list byte -> Act T unit;
  bulk_in : Z -> Act T (list byte);
  bulk_in_within : Z -> Z -> Act T (list byte);
  control_in : Recipient -> Z -> Z -> Z -> Z -> Act T (list byte);
  reset_bulk_in : Act T unit;
  reset_bulk_out : Act T unit;
  interface_number : T -> Z;
  bulk_in_address : T -> Z;
  bulk_out_address : T -> Z;
  transport_set_timeout : T -> Z -> T;
  has_interrupt_in : T -> bool;
  status_byte_notification : Z -> Z -> Act T Z;
  take_srq_status : T -> option Z * T;
  peek_srq_status : T -> option Z;
  (* the clock, in nanoseconds, and a sleep *)
  tmc_now : T -> Z;
  tmc_sleep : T -> Z -> T;
}.

(** The trait's default bodies. *)
Definition default_bulk_in_within {T} `{TmcTransport T} (max_len wait : Z) : Act T (list byte) := bulk_in max_len.
Definition default_status_byte_notification {T} (tag wait : Z) : Act T Z :=
  bail (str "this interface has no interrupt endpoint").

(** ** The driver *)

(** What an await waits for. *)
Inductive Await : Type :=
| WBulkOut (msg : list byte)
| WBulkIn (max_len : Z)
| WDrain                  (* a read whose bytes are thrown away *)
| WControl (to : Recipient) (request value index : Z)
| WResetIn
| WResetOut
| WSleep
| WNotification (tag : Z).

#[export] Instance Recipient_eq_dec : EqDecision Recipient.
Proof. solve_decision. Defined.
#[export] Instance Await_eq_dec : EqDecision Await.
Proof. solve_decision. Defined.

(** The mutable fields at an await. *)
Record Snapshot : Type := mkSnapshot {
  at_out : option Z; at_in : option Z; at_tag : Z; at_status_tag : Z; awaited : Await;
}.

Record UsbtmcBackend (T : Type) : Type := mkUsbtmcBackend {
  transport : T;
  caps : Capabilities;
  tag : Z;
  status_tag : Z;
  pending_out : option Z;
  pending_in : option Z;
  my_pad : Z;
  eos_char : Z;
  eos_enabled : bool;
  timeout_ms : Z;
  history : list Snapshot;
}.
Arguments mkUsbtmcBackend {T}.
Arguments transport {T}.
Arguments caps {T}.
Arguments tag {T}.
Arguments status_tag {T}.
Arguments pending_out {T}.
Arguments pending_in {T}.
Arguments my_pad {T}.
Arguments eos_char {T}.
Arguments eos_enabled {T}.
Arguments timeout_ms {T}.
Arguments history {T}.

Definition no_capabilities : Capabilities := mkCapabilities 0 false 0 false false false false false false false.

Section Driver.
Context {T : Type} `{TmcTransport T}.
Notation St := (UsbtmcBackend T).

(** *** Assignments *)

Definition with_transport (b : St) (t : T) : St :=
  mkUsbtmcBackend t (caps b) (tag b) (status_tag b) (pending_out b) (pending_in b) (my_pad b) (eos_char b)
    (eos_enabled b) (timeout_ms b) (history b).
Definition with_caps (c : Capabilities) (b : St) : St :=
  mkUsbtmcBackend (transport b) c (tag b) (status_tag b) (pending_out b) (pending_in b) (my_pad b) (eos_char b)
    (eos_enabled b) (timeout_ms b) (history b).
Definition with_tag (n : Z) (b : St) : St :=
  mkUsbtmcBackend (transport b) (caps b) n (status_tag b) (pending_out b) (pending_in b) (my_pad b) (eos_char b)
    (eos_enabled b) (timeout_ms b) (history b).
Definition with_status_tag (n : Z) (b : St) : St :=
  mkUsbtmcBackend (transport b) (caps b) (tag b) n (pending_out b) (pending_in b) (my_pad b) (eos_char b)
    (eos_enabled b) (timeout_ms b) (history b).
Definition with_pending_out (p : option Z) (b : St) : St :=
  mkUsbtmcBackend (transport b) (caps b) (tag b) (status_tag b) p (pending_in b) (my_pad b) (eos_char b)
    (eos_enabled b) (timeout_ms b) (history b).
Definition with_pending_in (p : option Z) (b : St) : St :=
  mkUsbtmcBackend (transport b) (caps b) (tag b) (status_tag b) (pending_out b) p (my_pad b) (eos_char b)
    (eos_enabled b) (timeout_ms b) (history b).
Definition with_my_pad (p : Z) (b : St) : St :=
  mkUsbtmcBackend (transport b) (caps b) (tag b) (status_tag b) (pending_out b) (pending_in b) p (eos_char b)
    (eos_enabled b) (timeout_ms b) (history b).
Definition record_await (w : Await) (t : T) (b : St) : St :=
  mkUsbtmcBackend t (caps b) (tag b) (status_tag b) (pending_out b) (pending_in b) (my_pad b) (eos_char b)
    (eos_enabled b) (timeout_ms b) (history b ++ [mkSnapshot (pending_out b) (pending_in b) (tag b) (status_tag b) w]).

(** Await an operation of the transport. *)
Definition await {A} (w : Await) (op : Act T A) : Act St A := fun b =>
  let '(r, t) := op (transport b) in (r, record_await w t b).
Definition bulk_out_ (msg : list byte) : Act St unit := await (WBulkOut msg) (bulk_out msg).
Definition bulk_in_ (n : Z) : Act St (list byte) := await (WBulkIn n) (bulk_in n).
Definition bulk_in_within_ (n wait : Z) : Act St (list byte) := await (WBulkIn n) (bulk_in_within n wait).
Definition drain_ (op : Act T (list byte)) : Act St (list byte) := await WDrain op.
Definition reset_bulk_in_ : Act St unit := await WResetIn reset_bulk_in.
Definition reset_bulk_out_ : Act St unit := await WResetOut reset_bulk_out.
Definition sleep_ (d : Z) : Act St unit := await WSleep (modify (fun t => tmc_sleep t d)).

(** *** Construction and small helpers *)

Definition new (t : T) (timeout : Z) : St :=
  mkUsbtmcBackend (transport_set_timeout t timeout) no_capabilities 0 1 None None 0 10 false timeout [].

Definition capabilities (b : St) : Capabilities := caps b.
Definition status_byte_wait (b : St) : Z := from_millis (Z.min (timeout_ms b) STATUS_BYTE_WAIT_MS).

Definition take_tag : Act St Z :=
  let! _ := modify (fun b => with_tag (next_tag (tag b)) b) in
  gets tag.

Definition interface_request (request value len : Z) : Act St (list byte) :=
  let! index := gets (fun b => interface_number (transport b)) in
  await (WControl RInterface request value index) (control_in RInterface request value index len).

Definition endpoint_request (request value endpoint len : Z) : Act St (list byte) :=
  await (WControl REndpoint request value endpoint) (control_in REndpoint request value endpoint len).

Definition require_usb488 (what : list Z) : Act St unit :=
  let! c := gets caps in
  if bcd_usb488 c =? 0 then bail (what ++ str ": this is a plain USBTMC interface, not USB488") else ret tt.

Definition require_remote_local (what : list Z) : Act St unit :=
  let! _ := require_usb488 what in
  let! c := gets caps in
  if negb (remote_local c) then
    bail (what ++ str ": the device does not advertise REN_CONTROL / GO_TO_LOCAL / LOCAL_LOCKOUT")
  else ret tt.

(** *** Abort and clear handshakes *)

(** [reply.first().copied()]. *)
Definition first (reply : list byte) : option Z := option_map u8 (head reply).
(** [status.get(1).is_some_and(|b| b & 0x01 != 0)]. *)
Definition fifo_not_empty (status : list byte) : bool :=
  match status !! 1%nat with Some b => has_flag (u8 b) 0x01 | None => false end.

(** The device is still busy: empty its FIFO when it says to, else wait. *)
Definition drain_or_sleep (status : list byte) : Act St unit :=
  if fifo_not_empty status then
    let! _ := attempt (drain_ (bulk_in DRAIN_READ)) in ret tt
  else sleep_ HANDSHAKE_POLL_INTERVAL.

Definition check_abort_in (ep : Z) : Act St (Flow unit) :=
  let! status := context (str "CHECK_ABORT_BULK_IN_STATUS")
                   (endpoint_request REQ_CHECK_ABORT_BULK_IN_STATUS 0 ep 8) in
  if decide (first status = Some STATUS_SUCCESS) then ret Break
  else if decide (first status = Some STATUS_PENDING) then
    let! _ := drain_or_sleep status in ret Next
  else
    let! _ := of_result (check_status (str "CHECK_ABORT_BULK_IN_STATUS") status) in ret (Return tt).

Definition abort_bulk_in (tag : Z) : Act St unit :=
  let! ep := gets (fun b => bulk_in_address (transport b)) in
  let! reply := context (str "INITIATE_ABORT_BULK_IN")
                  (endpoint_request REQ_INITIATE_ABORT_BULK_IN tag ep 2) in
  if decide (first reply = Some STATUS_SUCCESS) then
    let! _ := reset_bulk_in_ in
    let! f := poll HANDSHAKE_POLLS (check_abort_in ep) in
    match f with
    | Return tt => ret tt
    | Break | Next => reset_bulk_in_
    end
  else if decide (first reply = Some STATUS_TRANSFER_NOT_IN_PROGRESS) then reset_bulk_in_
  else of_result (check_status (str "INITIATE_ABORT_BULK_IN") reply).

Definition check_abort_out (ep : Z) : Act St (Flow unit) :=
  let! status := context (str "CHECK_ABORT_BULK_OUT_STATUS")
                   (endpoint_request REQ_CHECK_ABORT_BULK_OUT_STATUS 0 ep 8) in
  if decide (first status = Some STATUS_SUCCESS) then ret Break
  else if decide (first status = Some STATUS_PENDING) then
    let! _ := sleep_ HANDSHAKE_POLL_INTERVAL in ret Next
  else
    let! _ := of_result (check_status (str "CHECK_ABORT_BULK_OUT_STATUS") status) in ret (Return tt).

Definition abort_bulk_out (tag : Z) : Act St unit :=
  let! ep := gets (fun b => bulk_out_address (transport b)) in
  let! reply := context (str "INITIATE_ABORT_BULK_OUT")
                  (endpoint_request REQ_INITIATE_ABORT_BULK_OUT tag ep 2) in
  if decide (first reply = Some STATUS_SUCCESS) then
    let! f := poll HANDSHAKE_POLLS (check_abort_out ep) in
    match f with
    | Return tt => ret tt
    | Break | Next => reset_bulk_out_
    end
  else if decide (first reply = Some STATUS_TRANSFER_NOT_IN_PROGRESS) then reset_bulk_out_
  else of_result (check_status (str "INITIATE_ABORT_BULK_OUT") reply).

Definition check_clear : Act St (Flow unit) :=
  let! status := context (str "CHECK_CLEAR_STATUS") (interface_request REQ_CHECK_CLEAR_STATUS 0 2) in
  if decide (first status = Some STATUS_SUCCESS) then ret Break
  else if decide (first status = Some STATUS_PENDING) then
    let! _ := drain_or_sleep status in ret Next
  else
    let! _ := of_result (check_status (str "CHECK_CLEAR_STATUS") status) in ret (Return tt).

Definition clear_device : Act St unit :=
  let! reply := context (str "INITIATE_CLEAR") (interface_request REQ_INITIATE_CLEAR 0 1) in
  let! _ := of_result (check_status (str "INITIATE_CLEAR") reply) in
  let! f := poll HANDSHAKE_POLLS check_clear in
  match f with
  | Return tt => ret tt
  | Next => bail (str "usbtmc CHECK_CLEAR_STATUS still PENDING after 50 polls")
  | Break =>
      let! _ := reset_bulk_in_ in
      let! _ := reset_bulk_out_ in
      let! _ := modify (with_pending_in None) in
      modify (with_pending_out None)
  end.

(** The abort handshakes of [settle], as the value of its local [abort]. *)
Definition abort_pending (pin pout : option Z) : Act St (result unit Error) :=
  let! aborted := match pin with Some tag => attempt (abort_bulk_in tag) | None => ret (Ok tt) end in
  match pout with
  | Some tag => match aborted with Ok _ => attempt (abort_bulk_out tag) | Err _ => ret aborted end
  | None => ret aborted
  end.

Definition settle : Act St unit :=
  let! pin := gets pending_in in
  let! pout := gets pending_out in
  if bool_decide (pin = None) && bool_decide (pout = None) then ret tt
  else
    let! aborted := abort_pending pin pout in
    let! _ := match aborted with
              | Err _ => context (str "recovering the bulk pipe") clear_device
              | Ok _ => ret tt
              end in
    let! _ := modify (with_pending_in None) in
    modify (with_pending_out None).

Definition fail {V} (err : Error) : Act St V :=
  let! _ := attempt settle in bail err.

(** *** Messages *)

Definition send_message (what : list Z) (msg : list byte) (tag : Z) : Act St unit :=
  let! _ := settle in
  let! _ := modify (with_pending_out (Some tag)) in
  let! r := attempt (bulk_out_ msg) in
  match r with
  | Ok _ => modify (with_pending_out None)
  | Err e => fail (in_context (str "usbtmc " ++ what) e)
  end.

Definition write_message (data : list byte) (eom : bool) : Act St unit :=
  let! tag := take_tag in
  send_message (str "write") (encode_dev_dep_msg_out tag data eom) tag.

(** How the bulk-IN reads of one transfer ended: a reply, a transport error on
    the first read, or none that parses, with the last parse error. *)
Inductive Answer : Type :=
| Got (m : InMessage)
| NoTransfer (e : Error)
| NoReply (parse_err : option Error).

(** [for attempt in 0..=READ_RESYNC_ATTEMPTS], from [attempt] with [n] turns left. *)
Fixpoint read_attempts (n attempt_ : nat) (cap resync_wait tag : Z) (parse_err : option Error) : Act St Answer :=
  match n with
  | O => ret (NoReply parse_err)
  | Datatypes.S n =>
      let! buf := attempt (if decide (attempt_ = 0%nat) then bulk_in_ cap else bulk_in_within_ cap resync_wait) in
      match buf with
      | Err e => ret (if decide (attempt_ = 0%nat) then NoTransfer e else NoReply parse_err)
      | Ok buf =>
          match parse_dev_dep_msg_in buf tag with
          | Ok m => ret (Got m)
          | Err e => read_attempts n (Datatypes.S attempt_) cap resync_wait tag (Some e)
          end
      end
  end.

(** [max_len.clamp(1, MAX_READ_TRANSFER)]. *)
Definition clamp (n : Z) : Z := Z.min (Z.max n 1) MAX_READ_TRANSFER.
Definition resync_wait (b : St) : Z := from_millis (Z.min (timeout_ms b) READ_RESYNC_WAIT_MS).

(** The panic of [expect], which [answer_error] shows unreachable. *)
Definition no_error_left : Error := str "a failed read left no error".

Definition read_one_transfer (max_len : Z) : Act St (list byte * bool) :=
  let want := clamp max_len in
  let! term := gets (fun b => if eos_enabled b && term_char (caps b) then Some (eos_char b) else None) in
  let! tag := take_tag in
  let! _ := send_message (str "read request") (encode_request_dev_dep_msg_in tag (as_u32 want) term) tag in
  let! _ := modify (with_pending_in (Some tag)) in
  let cap := HEADER_LEN + want + pad_len want in
  let! wait := gets resync_wait in
  let! answer := read_attempts (Datatypes.S READ_RESYNC_ATTEMPTS) 0 cap wait tag None in
  match answer with
  | NoTransfer e => fail (in_context (str "usbtmc read") e)
  | NoReply (Some e) => fail e
  | NoReply None => bail no_error_left
  | Got msg =>
      let! _ := modify (with_pending_in None) in
      ret (data msg, eom msg || term_char_seen msg)
  end.

(** The loop of [read_message]; [None] is out of fuel. *)
Fixpoint read_loop (fuel : nat) (want : Z) (out : list byte) : Act St (option (list byte * bool)) :=
  match fuel with
  | O => ret None
  | Datatypes.S fuel =>
      let remaining := want - zlen out in
      let! (data, ended) := read_one_transfer remaining in
      let short := zlen data <? remaining in
      let out := out ++ data in
      if ended || (want <=? zlen out) then ret (Some (out, ended))
      else if short && (zlen data =? 0) then ret (Some (out, false))
      else read_loop fuel want out
  end.

(** Each turn that goes round again brings a byte, so [want] turns are enough. *)
Definition read_message (max_len : Z) : Act St (list byte * bool) :=
  let want := clamp max_len in
  let! r := read_loop (Z.to_nat want) want [] in
  match r with Some out => ret out | None => bail [] end.

(** *** The status byte *)

Definition take_srq : Act St (option Z) := fun b =>
  let '(s, t) := take_srq_status (transport b) in (Ok s, with_transport b t).

(** [{:?}] of an [Option<&u8>]. *)
Definition debug_byte (b : option byte) : list Z :=
  match b with Some b => str "Some(" ++ to_string (u8 b) ++ str ")" | None => str "None" end.

(** The poll of the device, when no service request has left a byte. *)
Definition read_status_request : Act St Z :=
  let! _ := modify (fun b => with_status_tag (next_status_tag (status_tag b)) b) in
  let! tag := gets status_tag in
  let! reply := context (str "READ_STATUS_BYTE") (interface_request REQ_READ_STATUS_BYTE tag 3) in
  let! _ := of_result (check_status (str "READ_STATUS_BYTE") reply) in
  if negb (bool_decide (option_map u8 (reply !! 1%nat) = Some tag)) then
    bail (str "READ_STATUS_BYTE reply carries bTag " ++ debug_byte (reply !! 1%nat) ++ str ", expected " ++
          to_string tag)
  else
    let! interrupt := gets (fun b => has_interrupt_in (transport b)) in
    if interrupt then
      let! wait := gets status_byte_wait in
      context (str "READ_STATUS_BYTE via the interrupt endpoint")
        (await (WNotification tag) (status_byte_notification tag wait))
    else
      match reply !! 2%nat with
      | Some b => ret (u8 b)
      | None => bail (str "READ_STATUS_BYTE reply is missing the status byte")
      end.

Definition read_status_byte_native : Act St Z :=
  let! latched := take_srq in
  match latched with
  | Some stb => ret stb
  | None => read_status_request
  end.

(** *** The trait *)

Definition write (pad : Z) (data : list byte) (send_eoi : bool) : Act St unit := write_message data send_eoi.
Definition read (pad max_len : Z) : Act St (list byte * bool) := read_message max_len.
Definition device_clear (pad : Z) : Act St unit := clear_device.

Definition trigger (pad : Z) : Act St unit :=
  let! _ := require_usb488 (str "trigger") in
  let! c := gets caps in
  if negb (UsbtmcMsg.trigger c) then bail (str "trigger: the device does not accept the USB488 TRIGGER message")
  else
    let! tag := take_tag in
    send_message (str "trigger") (encode_trigger tag) tag.

Definition ifc : Act St unit := settle.

Definition ren (enable : bool) : Act St unit :=
  let! _ := require_remote_local (str "REN") in
  let! reply := context (str "REN_CONTROL") (interface_request REQ_REN_CONTROL (Z.b2z enable) 1) in
  of_result (check_status (str "REN_CONTROL") reply).

Definition go_to_remote (pad : Z) : Act St unit := ren true.

Definition go_to_local (pad : Z) : Act St unit :=
  let! _ := require_remote_local (str "GTL") in
  let! reply := context (str "GO_TO_LOCAL") (interface_request REQ_GO_TO_LOCAL 0 1) in
  of_result (check_status (str "GO_TO_LOCAL") reply).

Definition local_lockout : Act St unit :=
  let! _ := require_remote_local (str "LLO") in
  let! reply := context (str "LOCAL_LOCKOUT") (interface_request REQ_LOCAL_LOCKOUT 0 1) in
  of_result (check_status (str "LOCAL_LOCKOUT") reply).

Definition serial_poll (pad : Z) : Act St Z :=
  let! _ := require_usb488 (str "serial poll") in
  read_status_byte_native.

Definition srq_asserted : Act St bool :=
  let! interrupt := gets (fun b => has_interrupt_in (transport b)) in
  if negb interrupt then bail (str "this interface has no interrupt endpoint to report SRQ")
  else gets (fun b => bool_decide (is_Some (peek_srq_status (transport b)))).

Definition set_controller_pad (pad : Z) : Act St unit := modify (with_my_pad pad).
Definition send_data_unaddressed (data : list byte) (send_eoi : bool) : Act St unit := write_message data send_eoi.
Definition read_unaddressed (max_len : Z) : Act St (list byte * bool) := read_message max_len.

Definition set_eos (c : Z) (enabled : bool) (b : St) : St :=
  mkUsbtmcBackend (transport b) (caps b) (tag b) (status_tag b) (pending_out b) (pending_in b) (my_pad b) c
    enabled (timeout_ms b) (history b).
Definition eos (b : St) : Z * bool := (eos_char b, eos_enabled b).
Definition set_timeout (t : Z) (b : St) : St :=
  mkUsbtmcBackend (transport_set_timeout (transport b) t) (caps b) (tag b) (status_tag b) (pending_out b)
    (pending_in b) (my_pad b) (eos_char b) (eos_enabled b) t (history b).

(** The short reads that pull a stale reply at open: up to three, until one
    brings nothing. *)
Definition drain_stale (wait : Z) : Act St (Flow unit) :=
  let! r := attempt (drain_ (bulk_in_within DRAIN_READ wait)) in
  match r with
  | Ok (_ :: _) => ret Next
  | _ => ret Break
  end.

Definition init (pad : Z) : Act St unit :=
  let! _ := modify (with_my_pad pad) in
  let! reply := context (str "GET_CAPABILITIES") (interface_request REQ_GET_CAPABILITIES 0 24) in
  let! c := of_result (parse_capabilities reply) in
  let! _ := modify (with_caps c) in
  let! _ := context (str "initial device clear") clear_device in
  let! wait := gets resync_wait in
  let! _ := poll READ_RESYNC_ATTEMPTS (drain_stale wait) in
  if remote_local c then
    let! _ := attempt (ren true) in ret tt
  else ret tt.

Definition shutdown : Act St unit :=
  let! c := gets caps in
  if remote_local c then
    let! _ := ren false in ret tt
  else ret tt.

(** [open], once a transport has been opened. *)
Definition open (t : T) (timeout : Z) : result unit Error * St :=
  context (str "usbtmc init") (init 0) (new t timeout).

End Driver.

(** The operations a USB488 interface cannot do keep the trait's refusing
    defaults, which name the adapter. *)
#[export] Instance Usbtmc_backend (T : Type) `{TmcTransport T} : GpibBackend (UsbtmcBackend T) := {|
  gb_init b p := init p b;
  gb_write b p d e := write p d e b;
  gb_read b p n := read p n b;
  gb_device_clear b p := device_clear p b;
  gb_trigger b p := trigger p b;
  gb_ifc b := ifc b;
  gb_ren b e := ren e b;
  gb_go_to_remote b p := go_to_remote p b;
  gb_go_to_local b p := go_to_local p b;
  gb_local_lockout b := local_lockout b;
  gb_serial_poll b p := serial_poll p b;
  gb_srq_asserted b := srq_asserted b;
  gb_bus_lines b := (Err (ID ++ str " cannot read the GPIB control lines"), b);
  gb_set_listen_only b _ := (Err (ID ++ str " cannot enter listen-only mode"), b);
  gb_listen_only _ := false;
  gb_set_device_mode b _ := (Err (ID ++ str " cannot act as a GPIB device"), b);
  gb_device_address _ := None;
  gb_send_bus_command b _ := (Err (ID ++ str " cannot send raw bus commands"), b);
  gb_set_atn b _ := (Err (ID ++ str " cannot drive ATN directly"), b);
  gb_controller_pad b := my_pad b;
  gb_set_controller_pad b p := set_controller_pad p b;
  gb_send_data_unaddressed b d e := send_data_unaddressed d e b;
  gb_read_unaddressed b n := read_unaddressed n b;
  gb_set_eos b c e := set_eos c e b;
  gb_eos b := eos b;
  gb_set_timeout b t := set_timeout t b;
  gb_read_slice_ms _ := None;
  gb_name _ := ID;
  now b := tmc_now (transport b);
  sleep b d := with_transport b (tmc_sleep (transport b) d);
|}.

(** ** Histories of a driver

    [run_op] is one call of the trait; [reachable] also lets a call's future be
    dropped at any of its awaits, with the transport in any state: the driver
    keeps the fields it had there and the awaits up to that one.  [init] stores the pad and the capabilities
    at some point of its run, so those two are left open. *)
Inductive Op : Type :=
| OInit (pad : Z) | OWrite (pad : Z) (d : list byte) (e : bool) | ORead (pad n : Z) | OClear (pad : Z)
| OTrigger (pad : Z) | OIfc | ORen (e : bool) | OGoToRemote (pad : Z) | OGoToLocal (pad : Z) | OLockout
| OPoll (pad : Z) | OSrq | OSetPad (pad : Z) | OSend (d : list byte) (e : bool) | OReadUnaddressed (n : Z)
| OSetEos (c : Z) (e : bool) | OSetTimeout (t : Z) | OShutdown.

Section Histories.
Context {T : Type} `{TmcTransport T}.
Notation St := (UsbtmcBackend T).

Definition run_op (o : Op) (b : St) : St :=
  match o with
  | OInit p => (init p b).2
  | OWrite p d e => (write p d e b).2
  | ORead p n => (read p n b).2
  | OClear p => (device_clear p b).2
  | OTrigger p => (trigger p b).2
  | OIfc => (ifc b).2
  | ORen e => (ren e b).2
  | OGoToRemote p => (go_to_remote p b).2
  | OGoToLocal p => (go_to_local p b).2
  | OLockout => (local_lockout b).2
  | OPoll p => (serial_poll p b).2
  | OSrq => (srq_asserted b).2
  | OSetPad p => (set_controller_pad p b).2
  | OSend d e => (send_data_unaddressed d e b).2
  | OReadUnaddressed n => (read_unaddressed n b).2
  | OSetEos c e => set_eos c e b
  | OSetTimeout t => set_timeout t b
  | OShutdown => (shutdown b).2
  end.

(** The most transfers, polls and pauses an operation awaits. *)
Definition budget (o : Op) : Z :=
  match o with
  | OInit _ => 108
  | OWrite _ _ _ | OSend _ _ | OTrigger _ => 617
  | ORead _ n | OReadUnaddressed n => 929 * clamp n
  | OClear _ => 103
  | OIfc => 308
  | OPoll _ => 2
  | ORen _ | OGoToRemote _ | OGoToLocal _ | OLockout | OShutdown => 1
  | OSrq | OSetPad _ | OSetEos _ _ | OSetTimeout _ => 0
  end.

(** The driver as a future dropped at the await [s], after the awaits [h], leaves
    it. *)
Definition dropped (b : St) (h : list Snapshot) (s : Snapshot) (t : T) (c : Capabilities) (pad : Z) : St :=
  mkUsbtmcBackend t c (at_tag s) (at_status_tag s) (at_out s) (at_in s) pad (eos_char b) (eos_enabled b)
    (timeout_ms b) (h ++ [s]).

Inductive reachable : St -> Prop :=
| reach_new t timeout : reachable (new t timeout)
| reach_op b o : reachable b -> reachable (run_op o b)
| reach_drop b o h s rest t c pad :
    reachable b -> history (run_op o b) = history b ++ h ++ s :: rest ->
    reachable (dropped (run_op o b) (history b ++ h) s t c pad).

End Histories.

(** ** What the driver relies on

    Time does not run backwards, a sleep lasts, and a device answers a request
    for [n] bytes with at most [n] (USBTMC 1.0, 3.3.1): [asked] is the request
    the device last accepted, and a transfer that carries its tag claims no
    more than it asked for.  Transfers of other tags - stale ones - may claim
    anything. *)
Definition clock_le {T} `{TmcTransport T} (t t' : T) : Prop := tmc_now t <= tmc_now t'.

(** [buf] stays within the request it answers. *)
Definition honest (asked : option (Z * Z)) (buf : list byte) : Prop :=
  forall tag n, asked = Some (tag, n) -> HEADER_LEN <= zlen buf -> at_ buf 1 = tag ->
    le_val (take 4 (drop 4 buf)) <= Z.max 0 n.

Class TmcLaws (T : Type) `{TmcTransport T} : Type := {
  bulk_out_now : forall m, keeps clock_le (bulk_out m);
  bulk_in_now : forall n, keeps clock_le (bulk_in n);
  bulk_in_within_now : forall n w, keeps clock_le (bulk_in_within n w);
  control_in_now : forall r q v i n, keeps clock_le (control_in r q v i n);
  reset_bulk_in_now : keeps clock_le reset_bulk_in;
  reset_bulk_out_now : keeps clock_le reset_bulk_out;
  notification_now : forall g w, keeps clock_le (status_byte_notification g w);
  take_srq_now : forall t, clock_le t (take_srq_status t).2;
  transport_set_timeout_now : forall t n, tmc_now (transport_set_timeout t n) = tmc_now t;
  tmc_sleep_now : forall t d, 0 <= d -> tmc_now t + d <= tmc_now (tmc_sleep t d);
  asked : T -> option (Z * Z);
  asked_out : forall t t' tag n c,
    bulk_out (encode_request_dev_dep_msg_in tag n c) t = (Ok tt, t') -> asked t' = Some (as_u8 tag, as_u32 n);
  asked_in : forall t n, asked (bulk_in n t).2 = asked t;
  asked_in_within : forall t n w, asked (bulk_in_within n w t).2 = asked t;
  honest_in : forall t n, wp (bulk_in n) (fun buf _ => honest (asked t) buf) (fun _ _ => True) t;
  honest_in_within : forall t n w, wp (bulk_in_within n w) (fun buf _ => honest (asked t) buf) (fun _ _ => True) t;
}.

End Usbtmc.
