(* ===== verification/UsbtmcDevice.v ===== *)
(** * A USB488 device behind the driver's transport

    A concrete instance of [TmcTransport]: an instrument with a reply queued,
    which it hands out in transfers of at most its own buffer, with fragments
    of an earlier reply possibly stuck in front of it, and a table of answers
    to control requests.  It satisfies [TmcLaws]. *)

From S2P Require Import Prelude RustStr Backend UsbtmcMsg Effect Usbtmc.

Module UsbtmcDevice.
Import RustStr Backend UsbtmcMsg Effect Usbtmc.

Record Device : Type := mkDevice {
  d_stale : list (list byte);      (* fragments still in the bulk-IN pipe *)
  d_reply : list byte;             (* what the instrument has to say *)
  d_buffer : Z;                    (* the most it sends in one transfer *)
  d_asked : option (Z * Z);        (* the last request: tag and size *)
  d_open : bool;                   (* that request is unanswered *)
  d_received : list (list byte);   (* bulk-OUT messages *)
  d_control : Z -> Z -> list byte; (* answer to a request with a value *)
  d_srq : option Z;                (* latched service request *)
  d_interrupt : option Z;          (* the interrupt endpoint and its byte *)
  d_timeout : Z;
  d_clock : Z;
}.

Definition is_request (msg : list byte) : bool := at_ msg 0 =? MSGID_REQUEST_DEV_DEP_MSG_IN.

Definition dev_out (msg : list byte) : Act Device unit := fun d =>
  let ask := is_request msg in
  (Ok tt, mkDevice (d_stale d) (d_reply d) (d_buffer d)
    (if ask then Some (at_ msg 1, le_val (take 4 (drop 4 msg))) else d_asked d) (ask || d_open d)
    (d_received d ++ [msg]) (d_control d) (d_srq d) (d_interrupt d) (d_timeout d) (d_clock d)).

(** One transfer of the reply: at most [n] bytes, the end marked. *)
Definition reply_transfer (tag n : Z) (reply : list byte) : list byte :=
  let c := ztake n reply in
  header MSGID_DEV_DEP_MSG_IN tag (zlen c) (if decide (zdrop n reply = []) then 1 else 0) 0 ++ c ++
  replicate (Z.to_nat (pad_len (zlen c))) x00.

Definition chunk_size (d : Device) (asked : Z) : Z := Z.min asked (Z.max 1 (d_buffer d)).

(** A fragment is shorter than a header. *)
Definition dev_in (n : Z) : Act Device (list byte) := fun d =>
  match d_stale d with
  | s :: rest =>
      (Ok (take 11 s), mkDevice rest (d_reply d) (d_buffer d) (d_asked d) (d_open d) (d_received d) (d_control d)
        (d_srq d) (d_interrupt d) (d_timeout d) (d_clock d))
  | [] =>
      match d_asked d, d_reply d, d_open d with
      | Some (tag, k), _ :: _, true =>
          (Ok (reply_transfer tag (chunk_size d k) (d_reply d)),
           mkDevice [] (zdrop (chunk_size d k) (d_reply d)) (d_buffer d) (d_asked d) false (d_received d)
             (d_control d) (d_srq d) (d_interrupt d) (d_timeout d) (d_clock d))
      | _, _, _ =>
          (Err (str "timeout"), mkDevice [] (d_reply d) (d_buffer d) (d_asked d) (d_open d) (d_received d)
             (d_control d) (d_srq d) (d_interrupt d) (d_timeout d) (d_clock d + Z.max 0 (from_millis (d_timeout d))))
      end
  end.

Definition dev_settle (d : Device) : Device :=
  mkDevice [] [] (d_buffer d) (d_asked d) false (d_received d) (d_control d) (d_srq d) (d_interrupt d) (d_timeout d)
    (d_clock d).
Definition dev_tick (d : Device) (dt : Z) : Device :=
  mkDevice (d_stale d) (d_reply d) (d_buffer d) (d_asked d) (d_open d) (d_received d) (d_control d) (d_srq d)
    (d_interrupt d) (d_timeout d) (d_clock d + Z.max 0 dt).

#[export] Instance Device_transport : TmcTransport Device := {|
  bulk_out := dev_out;
  bulk_in := dev_in;
  bulk_in_within n _ := dev_in n;
  control_in _ q v _ n d := (Ok (ztake n (d_control d q v)), d);
  reset_bulk_in d := (Ok tt, d);
  reset_bulk_out d := (Ok tt, d);
  interface_number _ := 0;
  bulk_in_address _ := 0x82;
  bulk_out_address _ := 0x01;
  transport_set_timeout d t := mkDevice (d_stale d) (d_reply d) (d_buffer d) (d_asked d) (d_open d) (d_received d)
    (d_control d) (d_srq d) (d_interrupt d) t (d_clock d);
  has_interrupt_in d := bool_decide (is_Some (d_interrupt d));
  status_byte_notification _ _ d :=
    (match d_interrupt d with Some b => Ok b | None => Err (str "this interface has no interrupt endpoint") end, d);
  take_srq_status d := (d_srq d, mkDevice (d_stale d) (d_reply d) (d_buffer d) (d_asked d) (d_open d) (d_received d)
    (d_control d) None (d_interrupt d) (d_timeout d) (d_clock d));
  peek_srq_status := d_srq;
  tmc_now := d_clock;
  tmc_sleep := dev_tick;
|}.

Lemma reply_claim tag n reply : le_val (take 4 (drop 4 (reply_transfer tag n reply))) <= zlen (ztake n reply).
Proof.
  unfold reply_transfer. destruct (header_fields MSGID_DEV_DEP_MSG_IN tag (zlen (ztake n reply))
    (if decide (zdrop n reply = []) then 1 else 0) 0
    (ztake n reply ++ replicate (Z.to_nat (pad_len (zlen (ztake n reply)))) x00)) as (_ & _ & _ & _ & -> & _).
  unfold as_u32. apply Z.mod_le; [apply zlen_nonneg|lia].
Qed.

Lemma request_fields tag n c : let m := encode_request_dev_dep_msg_in tag n c in
  is_request m = true /\ at_ m 1 = as_u8 tag /\ le_val (take 4 (drop 4 m)) = as_u32 n.
Proof.
  intros m. unfold m, encode_request_dev_dep_msg_in, is_request. destruct c as [c|];
    rewrite <- (app_nil_r (header _ _ _ _ _)).
  - destruct (header_fields MSGID_REQUEST_DEV_DEP_MSG_IN tag n 2 c []) as (-> & -> & _ & _ & -> & _).
    done.
  - destruct (header_fields MSGID_REQUEST_DEV_DEP_MSG_IN tag n 0 0 []) as (-> & -> & _ & _ & -> & _).
    done.
Qed.

Lemma dev_in_facts n d :
  d_clock d <= d_clock (dev_in n d).2 /\ d_asked (dev_in n d).2 = d_asked d /\
  wp (dev_in n) (fun buf _ => honest (d_asked d) buf) (fun _ _ => True) d.
Proof.
  unfold dev_in, wp, honest. destruct (d_stale d) as [|s rest]; cbn [fst snd d_clock d_asked].
  - destruct (d_asked d) as [[g k]|]; [destruct (d_reply d) as [|c reply]; [|destruct (d_open d)]|];
      cbn [fst snd d_clock d_asked]; split_and!; try done; try lia.
    intros g' k' [= <- <-] _ _. etrans; [apply reply_claim|]. unfold zlen, ztake, chunk_size. rewrite length_take. lia.
  - split_and!; try done. intros g k _ Hl. exfalso. revert Hl. unfold zlen, HEADER_LEN. rewrite length_take. lia.
Qed.

#[export] Instance Device_laws : TmcLaws Device.
Proof.
  refine {| asked := d_asked |}; intros; try (intros d; unfold clock_le; simpl; try apply dev_in_facts; lia);
    try apply dev_in_facts; try done.
  - unfold clock_le. simpl. lia.
  - simpl. lia.
  - simpl in *. unfold dev_out in *. simplify_eq. cbn [d_asked].
    destruct (request_fields tag0 n c) as (-> & -> & ->). done.
Defined.

(** ** The instrument, abstractly

    What a client of the bus believes is there: something that hears whole
    messages and has a reply to give, of which a read takes a prefix.  No
    tags, no transfers, no buffer sizes, no fragments.  A read of an
    instrument with nothing to say is not part of the specification. *)
Record Instrument : Type := mkInstrument { heard : list (list byte * bool); says : list byte }.

Inductive Command : Type := Say (d : list byte) (end_ : bool) | Ask (n : Z).
Inductive Response : Type := Done | Told (d : list byte) (end_ : bool).

Definition instrument_step (c : Command) (i : Instrument) : option (Response * Instrument) :=
  match c with
  | Say d e => if zlen d <? 4294967296 then Some (Done, mkInstrument (heard i ++ [(d, e)]) (says i)) else None
  | Ask n =>
      if decide (says i = []) then None
      else Some (Told (ztake (clamp n) (says i)) (zlen (says i) <=? clamp n),
                 mkInstrument (heard i) (zdrop (clamp n) (says i)))
  end.

Fixpoint instrument_run (cs : list Command) (i : Instrument) : option (list Response * Instrument) :=
  match cs with
  | [] => Some ([], i)
  | c :: cs =>
      match instrument_step c i with
      | Some (r, i') => match instrument_run cs i' with Some (rs, i'') => Some (r :: rs, i'') | None => None end
      | None => None
      end
  end.

(** The driver doing the same, for a primary address it ignores. *)
Definition driver_step (pad : Z) (c : Command) : Act (UsbtmcBackend Device) Response :=
  match c with
  | Say d e => let! _ := write pad d e in ret Done
  | Ask n => let! (d, e) := read pad n in ret (Told d e)
  end.

Fixpoint driver_run (pad : Z) (cs : list Command) : Act (UsbtmcBackend Device) (list Response) :=
  match cs with
  | [] => ret []
  | c :: cs => let! r := driver_step pad c in let! rs := driver_run pad cs in ret (r :: rs)
  end.

(** The data messages among the transfers a device received, decoded. *)
Definition decode_out (msg : list byte) : list byte * bool :=
  (ztake (le_val (take 4 (drop 4 msg))) (zdrop HEADER_LEN msg), has_flag (at_ msg 8) 0x01).
Definition messages (received : list (list byte)) : list (list byte * bool) :=
  map decode_out (filter (fun m => at_ m 0 = MSGID_DEV_DEP_MSG_OUT) received).

(** A driver at rest in front of the instrument, with no more fragments in
    the pipe than a read skips. *)
Definition represents (b : UsbtmcBackend Device) (i : Instrument) : Prop :=
  pending_out b = None /\ pending_in b = None /\ in_u8 (tag b) /\
  (length (d_stale (transport b)) <= READ_RESYNC_ATTEMPTS)%nat /\
  d_reply (transport b) = says i /\ messages (d_received (transport b)) = heard i.

Lemma messages_out received g d e : in_u32 (zlen d) ->
  messages (received ++ [encode_dev_dep_msg_out g d e]) = messages received ++ [(d, e)].
Proof.
  intros Hd. unfold messages. rewrite filter_app, map_app. f_equal. unfold encode_dev_dep_msg_out.
  set (wire := header _ _ _ _ _ ++ _).
  destruct (header_fields MSGID_DEV_DEP_MSG_OUT g (as_u32 (zlen d)) (if e then 1 else 0) 0
    (d ++ replicate (Z.to_nat (pad_len (zlen d))) x00)) as (H0 & _ & _ & H8 & Hs & Hz & _). fold wire in H0, H8, Hs, Hz.
  rewrite filter_cons_True by exact H0. cbn [map filter]. unfold decode_out. rewrite Hs, Hz, H8, !as_u32_id by
    (rewrite ?as_u32_id; done). rewrite ztake_app_zlen by done. by destruct e.
Qed.

Lemma messages_request received g n c :
  messages (received ++ [encode_request_dev_dep_msg_in g n c]) = messages received.
Proof.
  unfold messages. rewrite filter_app, map_app. rewrite filter_cons_False; [by rewrite app_nil_r|].
  destruct (request_fields g n c) as (H0%Z.eqb_eq & _). rewrite H0. done.
Qed.

End UsbtmcDevice.
