(* ===== verification/UsbtmcProofs.v ===== *)
(** * The USBTMC driver keeps its promises

    Four arguments about [Usbtmc], each as a predicate with its rules: [frame]
    (the clock and the settings), [quiet] and [driver_ok] (the pending flags at
    every await), [costs] (how many awaits), and the runs against the device of
    [UsbtmcDevice]. *)

From S2P Require Import Prelude RustStr Backend UsbtmcMsg Effect Usbtmc UsbtmcDevice.

Module UsbtmcProofs.
Import RustStr Backend UsbtmcMsg Effect Usbtmc UsbtmcDevice.

(** *** The frame: the clock, the settings *)

Section Frame.
Context {T : Type} `{TmcLaws T}.
Notation St := (UsbtmcBackend T).

(** Time goes on and the settings stay. *)
Definition frame (b b' : St) : Prop :=
  tmc_now (transport b) <= tmc_now (transport b') /\ eos b' = eos b /\ timeout_ms b' = timeout_ms b.

#[export] Instance frame_preorder : PreOrder frame.
Proof.
  split.
  - intros b. unfold frame. split_and!; [lia|done..].
  - intros b c d (?&?&?) (?&?&?). unfold frame. split_and!; [lia|congruence..].
Qed.

Lemma keeps_await {A} w (op : Act T A) : keeps clock_le op -> keeps frame (await w op).
Proof.
  intros Hop b. unfold await. specialize (Hop (transport b)).
  destruct (op (transport b)) as [r t]. by split_and!.
Qed.
Hint Resolve keeps_await bulk_out_now bulk_in_now bulk_in_within_now control_in_now reset_bulk_in_now
  reset_bulk_out_now notification_now : keeps.

Lemma keeps_assign (f : St -> St) :
  (forall b, transport (f b) = transport b) -> (forall b, eos (f b) = eos b) ->
  (forall b, timeout_ms (f b) = timeout_ms b) -> keeps frame (modify f).
Proof. intros Ht He Hm. apply keeps_modify. intros b. unfold frame. rewrite Ht, He, Hm. split_and!; [lia|done..]. Qed.
Hint Extern 1 (keeps frame (modify _)) => (by apply keeps_assign) : keeps.

Lemma keeps_sleep d : 0 <= d -> keeps frame (sleep_ d).
Proof.
  intros Hd. apply keeps_await. intros t. unfold clock_le. simpl. pose proof (tmc_sleep_now t d Hd). lia.
Qed.

Lemma keeps_take_srq : keeps frame (take_srq (T := T)).
Proof.
  intros b. unfold take_srq. pose proof (take_srq_now (transport b)) as Hn.
  by destruct (take_srq_status (transport b)).
Qed.
Hint Resolve keeps_sleep keeps_take_srq : keeps.

Lemma keeps_drain_or_sleep s : keeps frame (drain_or_sleep (T := T) s).
Proof. unfold drain_or_sleep, drain_. keeps_auto. by apply keeps_sleep. Qed.
Lemma keeps_interface_request q v n : keeps frame (interface_request (T := T) q v n).
Proof. unfold interface_request. keeps_auto. Qed.
Lemma keeps_endpoint_request q v i n : keeps frame (endpoint_request (T := T) q v i n).
Proof. unfold endpoint_request. keeps_auto. Qed.
Hint Resolve keeps_drain_or_sleep keeps_interface_request keeps_endpoint_request : keeps.

Lemma keeps_abort_in g : keeps frame (abort_bulk_in (T := T) g).
Proof. unfold abort_bulk_in, check_abort_in, reset_bulk_in_. keeps_auto. Qed.
Lemma keeps_abort_out g : keeps frame (abort_bulk_out (T := T) g).
Proof.
  unfold abort_bulk_out, check_abort_out, reset_bulk_out_. keeps_auto. by apply keeps_sleep.
Qed.
Lemma keeps_clear : keeps frame (clear_device (T := T)).
Proof. unfold clear_device, check_clear, reset_bulk_in_, reset_bulk_out_. keeps_auto. Qed.
Hint Resolve keeps_abort_in keeps_abort_out keeps_clear : keeps.
Lemma keeps_settle : keeps frame (settle (T := T)).
Proof. unfold settle, abort_pending. keeps_auto. Qed.
Hint Resolve keeps_settle : keeps.
Lemma keeps_fail {V} e : keeps frame (fail (T := T) (V := V) e).
Proof. unfold fail. keeps_auto. Qed.
Lemma keeps_take_tag : keeps frame (take_tag (T := T)).
Proof. unfold take_tag. keeps_auto. Qed.
Hint Resolve keeps_fail keeps_take_tag : keeps.
Lemma keeps_send w m g : keeps frame (send_message (T := T) w m g).
Proof. unfold send_message, bulk_out_. keeps_auto. Qed.
Hint Resolve keeps_send : keeps.
Lemma keeps_write d e : keeps frame (write_message (T := T) d e).
Proof. unfold write_message. keeps_auto. Qed.
Lemma keeps_attempts n : forall i c w g e, keeps frame (read_attempts (T := T) n i c w g e).
Proof. induction n; intros; simpl; unfold bulk_in_, bulk_in_within_; keeps_auto. Qed.
Hint Resolve keeps_attempts : keeps.
Lemma keeps_read_one n : keeps frame (read_one_transfer (T := T) n).
Proof. unfold read_one_transfer. keeps_auto. Qed.
Hint Resolve keeps_read_one : keeps.
Lemma keeps_read_loop n : forall w out, keeps frame (read_loop (T := T) n w out).
Proof. induction n; intros; simpl; keeps_auto. Qed.
Hint Resolve keeps_read_loop : keeps.
Lemma keeps_read n : keeps frame (read_message (T := T) n).
Proof. unfold read_message. keeps_auto. Qed.
Lemma keeps_serial_poll p : keeps frame (serial_poll (T := T) p).
Proof. unfold serial_poll, read_status_byte_native, read_status_request, require_usb488. keeps_auto. Qed.
Lemma keeps_srq_asserted : keeps frame (srq_asserted (T := T)).
Proof. unfold srq_asserted. keeps_auto. Qed.
Hint Resolve keeps_write keeps_read keeps_serial_poll keeps_srq_asserted : keeps.
Lemma keeps_ren e : keeps frame (ren (T := T) e).
Proof. unfold ren, require_remote_local, require_usb488. keeps_auto. Qed.
Hint Resolve keeps_ren : keeps.
Lemma keeps_init p : keeps frame (init (T := T) p).
Proof. unfold init, drain_stale, drain_. keeps_auto. Qed.

(** Every operation but the two that set a setting. *)
Definition sets (o : Op) : bool := match o with OSetEos _ _ | OSetTimeout _ => true | _ => false end.

Lemma frame_run_op o (b : St) : sets o = false -> frame b (run_op o b).
Proof.
  destruct o; cbn [run_op sets]; try done; intros _; try (by apply keeps_init).
  all: match goal with |- frame ?x (?m ?x).2 => generalize x; change (keeps frame m) end.
  all: unfold write, read, send_data_unaddressed, read_unaddressed, device_clear, trigger, ifc, go_to_remote, go_to_local,
    local_lockout, set_controller_pad, shutdown, require_remote_local, require_usb488; keeps_auto.
Qed.

End Frame.

(** *** The pending flags at every await *)

(** The last message sent in a history. *)
Definition last_out (h : list Snapshot) : option (list byte) :=
  foldl (fun m s => match awaited s with WBulkOut msg => Some msg | _ => m end) None h.

(** The reply recorded as outstanding is the one the last message asked for, and
    the message recorded as outstanding is the last one. *)
Definition owes_reply (h : list Snapshot) (pi : option Z) : Prop :=
  forall g, pi = Some g -> exists msg, last_out h = Some msg /\ at_ msg 0 = MSGID_REQUEST_DEV_DEP_MSG_IN /\ at_ msg 1 = g.
Definition owes_message (h : list Snapshot) (po : option Z) : Prop :=
  forall g, po = Some g -> exists msg, last_out h = Some msg /\ at_ msg 1 = g.

(** Message and reply move on a settled pipe under their own flag, so that a
    future dropped there leaves the flag for the next call; an abort names the
    transfer that is pending; a status request's tag is one the interrupt
    endpoint can echo. *)
Definition await_ok (po pi : option Z) (w : Await) : Prop :=
  match w with
  | WBulkOut msg => pi = None /\ po = Some (at_ msg 1)
  | WBulkIn n => po = None /\ is_Some pi
  | WControl _ q v _ =>
      (q = REQ_INITIATE_ABORT_BULK_IN -> pi = Some v) /\
      (q = REQ_INITIATE_ABORT_BULK_OUT -> po = Some v) /\
      (q = REQ_READ_STATUS_BYTE -> 2 <= v <= 127)
  | _ => True
  end.

(** The await [s], after the awaits [h]. *)
Definition snapshot_ok (h : list Snapshot) (s : Snapshot) : Prop :=
  in_u8 (at_tag s) /\ in_u8 (at_status_tag s) /\ await_ok (at_out s) (at_in s) (awaited s) /\
  owes_reply h (at_in s) /\ owes_message (h ++ [s]) (at_out s).
Definition history_ok (h : list Snapshot) : Prop := forall h1 s h2, h = h1 ++ s :: h2 -> snapshot_ok h1 s.

Definition driver_ok {T} (b : UsbtmcBackend T) : Prop :=
  in_u8 (tag b) /\ in_u8 (status_tag b) /\ history_ok (history b) /\
  owes_reply (history b) (pending_in b) /\ owes_message (history b) (pending_out b).

Lemma last_out_snoc h s : last_out (h ++ [s]) = match awaited s with WBulkOut msg => Some msg | _ => last_out h end.
Proof. unfold last_out. by rewrite foldl_app. Qed.

Lemma history_ok_nil : history_ok [].
Proof. by intros [|] ? ?. Qed.
Lemma history_ok_snoc h s : history_ok h -> snapshot_ok h s -> history_ok (h ++ [s]).
Proof.
  intros Hh Hs h1 s1 h2 E. destruct h2 as [|y h2] using rev_ind.
  - by apply app_inj_tail in E as [-> ->].
  - clear IHh2. rewrite app_comm_cons, app_assoc in E. apply app_inj_tail in E as [E _]. by apply (Hh h1 s1 h2).
Qed.

(** What a dropped future leaves is as good as what was there at the await. *)
Lemma driver_ok_dropped {T} (b : UsbtmcBackend T) h s rest t c pad : history_ok (history b) ->
  history b = h ++ s :: rest -> driver_ok (dropped b h s t c pad).
Proof.
  intros Hh E. destruct (Hh h s rest E) as (Ht & Hst & Ha & Hr & Hm). split_and!; try done; cbn [history dropped pending_in].
  - intros h1 s1 h2 E1. apply (Hh h1 s1 (h2 ++ rest)). rewrite E. change (s :: rest) with ([s] ++ rest).
    by rewrite app_assoc, E1, <- app_assoc.
  - intros g Hg. destruct (Hr g Hg) as (msg & Hl & Hmsg). exists msg. split; [|done]. rewrite last_out_snoc.
    destruct (awaited s); try done. destruct Ha as [Ha _]. congruence.
Qed.

Definition settled {T} (b : UsbtmcBackend T) : Prop := pending_out b = None /\ pending_in b = None.

Lemma check_status_fails w s : first s <> Some STATUS_SUCCESS -> exists e, check_status w s = Err e.
Proof.
  unfold first, check_status. destruct s as [|c s]; simpl; [by eexists|]. intros Hne.
  destruct (Z.eqb_spec (u8 c) STATUS_SUCCESS); [by simplify_eq/=; congruence|by eexists].
Qed.

Section Flags.
Context {T : Type} `{TmcTransport T}.
Notation St := (UsbtmcBackend T).

Lemma wp_await {A} w (op : Act T A) Q E (b : St) :
  wp op (fun a t => Q a (record_await w t b)) (fun e t => E e (record_await w t b)) (transport b) ->
  wp (await w op) Q E b.
Proof. unfold wp, await. by destruct (op (transport b)) as [[]]. Qed.

(** An await under the flags [po] and [pi] that sends no message. *)
Definition calm (po pi : option Z) (b : St) (s : Snapshot) : Prop :=
  at_out s = po /\ at_in s = pi /\ at_tag s = tag b /\ at_status_tag s = status_tag b /\
  await_ok po pi (awaited s) /\ forall msg, awaited s <> WBulkOut msg.

(** Nothing but well-formed awaits, under the flags [po] and [pi]. *)
Definition quiet (po pi : option Z) (b b' : St) : Prop :=
  pending_out b = po -> pending_in b = pi ->
  pending_out b' = po /\ pending_in b' = pi /\ tag b' = tag b /\ status_tag b' = status_tag b /\
  exists h, history b' = history b ++ h /\ Forall (calm po pi b) h.

#[export] Instance quiet_preorder po pi : PreOrder (quiet po pi).
Proof.
  split.
  - intros b Ho Hi. split_and!; try done. exists []. by rewrite app_nil_r.
  - intros b c d Hbc Hcd Ho Hi. destruct (Hbc Ho Hi) as (Ho' & Hi' & Et & Es & h & Eh & Hh).
    destruct (Hcd Ho' Hi') as (? & ? & Et' & Es' & h' & Eh' & Hh'). split_and!; try congruence.
    exists (h ++ h'). rewrite Eh', Eh, app_assoc. split; [done|]. unfold calm in *. rewrite Et, Es in Hh'.
    by apply Forall_app.
Qed.

Lemma quiet_await {A} po pi w (op : Act T A) :
  await_ok po pi w -> (forall msg, w <> WBulkOut msg) -> keeps (quiet po pi) (await w op).
Proof.
  intros Hs Hw b Ho Hi. unfold await. destruct (op (transport b)) as [r t]. simpl. split_and!; try done.
  eexists. split; [done|]. apply Forall_singleton. by split_and!.
Qed.

(** One more await keeps the driver in order. *)
Lemma driver_ok_await w t (b : St) : driver_ok b -> await_ok (pending_out b) (pending_in b) w ->
  (forall msg, w <> WBulkOut msg) -> driver_ok (record_await w t b).
Proof.
  intros (Ht & Hs & Hh & Hr & Hm) Hw Hn. unfold driver_ok. cbn [record_await tag status_tag history pending_in pending_out].
  set (s := mkSnapshot _ _ _ _ w).
  assert (El : last_out (history b ++ [s]) = last_out (history b))
    by (rewrite last_out_snoc; cbn [awaited s]; destruct w; try done; by destruct (Hn msg)).
  assert (Hm' : owes_message (history b ++ [s]) (pending_out b)) by (intros g Hg; rewrite El; by apply Hm).
  split_and!; try done; [|by intros g Hg; rewrite El; apply Hr]. by apply history_ok_snoc.
Qed.

Lemma quiet_ok po pi (b b' : St) :
  quiet po pi b b' -> pending_out b = po -> pending_in b = pi -> driver_ok b -> driver_ok b'.
Proof.
  intros Hq Ho Hi Hb. destruct (Hq Ho Hi) as (Ho' & Hi' & E1 & E2 & h & E3 & Hh). clear Hq.
  assert (Hok : driver_ok (mkUsbtmcBackend (transport b) (caps b) (tag b) (status_tag b) po pi (my_pad b) (eos_char b)
    (eos_enabled b) (timeout_ms b) (history b ++ h))).
  { clear E3. induction h as [|s h IH] using rev_ind; [rewrite app_nil_r; subst; by destruct b|].
    apply Forall_app in Hh as [Hh Hs]. rewrite Forall_singleton in Hs. destruct Hs as (S1 & S2 & S3 & S4 & Ha & Hn).
    pose proof (driver_ok_await (awaited s) (transport b) _ (IH Hh) Ha Hn) as Hd. unfold record_await in Hd.
    cbn [transport caps tag status_tag pending_out pending_in my_pad eos_char eos_enabled timeout_ms history] in Hd.
    rewrite app_assoc. destruct s as [so si st ss sw]. cbn in *. by subst. }
  unfold driver_ok in *. cbn [tag status_tag history pending_in pending_out] in Hok. by rewrite E1, E2, E3, Ho', Hi'.
Qed.

(** A control request other than the three that carry a tag. *)
Definition plain_request (q : Z) : Prop :=
  q <> REQ_INITIATE_ABORT_BULK_IN /\ q <> REQ_INITIATE_ABORT_BULK_OUT /\ q <> REQ_READ_STATUS_BYTE.

Lemma quiet_interface_request po pi q v n : plain_request q -> keeps (quiet po pi) (interface_request (T := T) q v n).
Proof.
  intros (?&?&?). unfold interface_request. keeps_auto. apply quiet_await; [by split_and!|done].
Qed.
Lemma quiet_endpoint_request po pi q v i n :
  await_ok po pi (WControl REndpoint q v i) -> keeps (quiet po pi) (endpoint_request (T := T) q v i n).
Proof. intros. by apply quiet_await. Qed.
Lemma quiet_reset po pi : keeps (quiet po pi) (reset_bulk_in_ (T := T)) /\ keeps (quiet po pi) (reset_bulk_out_ (T := T)).
Proof. split; by apply quiet_await. Qed.
Lemma quiet_drain po pi s : keeps (quiet po pi) (drain_or_sleep (T := T) s).
Proof. unfold drain_or_sleep, drain_. keeps_auto; by apply quiet_await. Qed.
Lemma quiet_sleep po pi d : keeps (quiet po pi) (sleep_ (T := T) d).
Proof. by apply quiet_await. Qed.

Hint Resolve quiet_interface_request quiet_drain quiet_sleep : keeps.
Hint Extern 1 (keeps _ reset_bulk_in_) => apply quiet_reset : keeps.
Hint Extern 1 (keeps _ reset_bulk_out_) => apply quiet_reset : keeps.
Hint Extern 1 (keeps _ (endpoint_request _ _ _ _)) => (apply quiet_endpoint_request; by split_and!) : keeps.
Hint Extern 1 (plain_request _) => (by split_and!) : keeps.

Lemma quiet_abort_in po g : keeps (quiet po (Some g)) (abort_bulk_in (T := T) g).
Proof. unfold abort_bulk_in, check_abort_in. keeps_auto. Qed.
Lemma quiet_abort_out pi g : keeps (quiet (Some g) pi) (abort_bulk_out (T := T) g).
Proof. unfold abort_bulk_out, check_abort_out. keeps_auto. Qed.
Lemma quiet_check_clear po pi : keeps (quiet po pi) (check_clear (T := T)).
Proof. unfold check_clear. keeps_auto. Qed.

Lemma driver_ok_cleared (b : St) : driver_ok b -> driver_ok (with_pending_out None (with_pending_in None b)).
Proof. by intros (? & ? & ? & _). Qed.
Lemma driver_ok_clear_in (b : St) : driver_ok b -> driver_ok (with_pending_in None b).
Proof. by intros (? & ? & ? & ? & ?). Qed.

(** A step that keeps the tag and the discipline of the flags. *)
Definition steady (b b' : St) : Prop := tag b' = tag b /\ (driver_ok b -> driver_ok b').

#[export] Instance steady_preorder : PreOrder steady.
Proof. split; [by intros b|]. intros b c d [E1 H1] [E2 H2]. split; [congruence|auto]. Qed.

Lemma quiet_steady (b b' : St) : quiet (pending_out b) (pending_in b) b b' -> steady b b'.
Proof.
  intros Hq. split; [by apply Hq|]. by apply (quiet_ok (pending_out b) (pending_in b)).
Qed.

Lemma steady_cleared (b : St) : steady b (with_pending_out None (with_pending_in None b)).
Proof. split; [done|apply driver_ok_cleared]. Qed.

Lemma check_clear_no_return (b : St) :
  wp check_clear (fun f _ => f <> Return tt) (fun _ _ => True) b.
Proof.
  unfold check_clear. wp_auto. apply wp_any; [intros status b'|done].
  case_decide; [by wp_auto|]. case_decide.
  - wp_auto. by apply wp_any.
  - destruct (check_status_fails (str "CHECK_CLEAR_STATUS") status) as [e E]; [done|]. rewrite E. by wp_auto.
Qed.

(** A clear either succeeds and leaves the pipe settled, or leaves the flags
    as they were. *)
Lemma clear_device_wp (b : St) :
  wp clear_device (fun _ b' => settled b' /\ steady b b')
    (fun _ b' => quiet (pending_out b) (pending_in b) b b') b.
Proof.
  set (R := quiet (pending_out b) (pending_in b)).
  assert (Hq : forall q v n, plain_request q -> keeps R (interface_request (T := T) q v n))
    by (intros; by apply quiet_interface_request).
  unfold clear_device. wp_auto. eapply (wp_keeps R); [by apply Hq| |done]. intros reply b1 H1. wp_auto.
  destruct (check_status _ reply) as [[]|e]; [|done]. wp_auto.
  apply (wp_mono _ (fun f b2 => R b b2 /\ f <> Return tt) _ (fun _ b2 => R b b2)); [|intros f b2 [H2 Hf]|done].
  { apply (wp_poll (fun b2 => R b b2)); [|done|done].
    intros b2 H2. eapply wp_mono; [apply wp_conj; [|apply check_clear_no_return]| |].
    - eapply (wp_keeps R); [apply quiet_check_clear| |]; intros ? b3 H3; pattern b3; exact (transitivity H2 H3).
    - intros [] b3 [H3 Hr]; done.
    - by intros e b3 [H3 _]. }
  destruct f as [| |[]]; [done| |done]. wp_auto.
  eapply (wp_keeps R); [apply quiet_reset| |intros e b3 H3; exact (transitivity H2 H3)]. intros _ b3 H3. wp_auto.
  eapply (wp_keeps R); [apply quiet_reset| |intros e b4 H4; exact (transitivity H2 (transitivity H3 H4))].
  intros _ b4 H4. wp_auto. split; [done|].
  etrans; [apply (quiet_steady b b4), (transitivity H2 (transitivity H3 H4))|apply steady_cleared].
Qed.

(** The two aborts keep the flags, whatever they return. *)
Lemma abort_pending_wp (b : St) :
  wp (abort_pending (pending_in b) (pending_out b)) (fun _ => quiet (pending_out b) (pending_in b) b)
    (fun _ _ => False) b.
Proof.
  unfold abort_pending. set (R := quiet (pending_out b) (pending_in b)). wp_auto.
  apply (wp_mono _ (fun _ => R b) _ (fun _ _ => False)); [| |done].
  - destruct (pending_in b) as [g|]; [|by wp_auto]. apply wp_attempt.
    by apply (wp_keeps R); [apply quiet_abort_in| |].
  - intros r b1 H1. destruct (pending_out b) as [g|]; [|by wp_auto]. destruct r as [[]|e]; [|by wp_auto].
    apply wp_attempt.
    apply (wp_keeps R); [apply quiet_abort_out| |]; intros ? b2 H2; exact (transitivity H1 H2).
Qed.

(** Settling succeeds with no flag set, or fails with the flags as they were. *)
Definition settle_failed (b b' : St) : Prop :=
  steady b b' /\ pending_out b' = pending_out b /\ pending_in b' = pending_in b.

Lemma settle_wp (b : St) :
  wp settle (fun _ b' => settled b' /\ steady b b') (fun _ => settle_failed b) b.
Proof.
  unfold settle. wp_auto. destruct (bool_decide_reflect (pending_in b = None)) as [Hi|];
    destruct (bool_decide_reflect (pending_out b = None)) as [Ho|]; cbn [andb]; [by wp_auto|..].
  all: wp_auto; eapply wp_mono; [apply abort_pending_wp| |done]; intros r b1 H1; wp_auto;
    pose proof (quiet_steady _ _ H1) as Hs; destruct (H1 eq_refl eq_refl) as (Ho1 & Hi1 & _).
  all: destruct r as [[]|e];
    [wp_auto; split; [done|]; etrans; [exact Hs|apply steady_cleared]|]; wp_auto; eapply wp_mono; [apply clear_device_wp|..].
  all: simpl; intros ? b2 H2; wp_auto.
  all: try (split; [done|]; etrans; [exact Hs|]; etrans; [by apply H2|apply steady_cleared]).
  all: destruct (H2 eq_refl eq_refl) as (Ho2 & Hi2 & _); split; [|by rewrite Ho2, Hi2].
  all: etrans; [exact Hs|]; by apply quiet_steady.
Qed.

Lemma fail_wp {V} err (b : St) :
  wp (fail (V := V) err) (fun _ _ => False) (fun e b' => e = err /\ steady b b' /\ (settled b' \/ settle_failed b b')) b.
Proof.
  unfold fail. wp_auto. eapply wp_mono; [apply settle_wp|..]; simpl; intros ? b' H'; wp_auto; [naive_solver|].
  split; [done|]. split; [apply H'|by right].
Qed.

(** A message goes out on a settled pipe under its own flag. *)
Lemma send_message_wp what msg (b : St) :
  wp (send_message what msg (at_ msg 1))
    (fun _ b' => settled b' /\ steady b b' /\ last_out (history b') = Some msg /\
       exists t, bulk_out msg t = (Ok tt, transport b'))
    (fun _ b' => steady b b' /\ (settled b' \/ is_Some (pending_in b') \/ is_Some (pending_out b'))) b.
Proof.
  unfold send_message. wp_auto. eapply wp_mono; [apply settle_wp|..]; simpl.
  2:{ intros _ b' (H1 & Ho & Hi). split; [done|]. unfold settled. destruct (pending_out b'), (pending_in b'); eauto. }
  intros _ b1 [[Ho Hi] Hs]. wp_auto. unfold bulk_out_. apply wp_await. simpl.
  set (b2 := with_pending_out (Some (at_ msg 1)) b1).
  set (s := mkSnapshot (Some (at_ msg 1)) (pending_in b1) (tag b1) (status_tag b1) (WBulkOut msg)).
  assert (Hl : last_out (history b1 ++ [s]) = Some msg) by by rewrite last_out_snoc.
  assert (Hr : forall t, steady b (record_await (WBulkOut msg) t b2)).
  { intros t. destruct Hs as [Et Hok]. split; [done|]. intros (Ht & Hst & Hh & Hor & Hom)%Hok.
    assert (owes_message (history b1 ++ [s]) (Some (at_ msg 1))) by (intros g [= <-]; eauto).
    unfold driver_ok. cbn [record_await tag status_tag history pending_in pending_out with_pending_out b2]. fold s.
    split_and!; try done; [apply history_ok_snoc; [done|]; by split_and!|]. intros g. by rewrite Hi. }
  unfold wp. destruct (bulk_out msg (transport b1)) as [[[]|e] t] eqn:E; simpl.
  - split; [by split|]. split; [|split; [exact Hl|by exists (transport b1)]].
    etrans; [apply (Hr t)|]. split; [done|]. by intros (? & ? & ? & ? & ?).
  - pose proof (fail_wp (V := unit) (in_context (str "usbtmc " ++ what) e) (record_await (WBulkOut msg) t b2)) as Hf.
    unfold wp in Hf. destruct (fail _ _) as [[|] b3]; [done|]. destruct Hf as (_ & H3 & H4).
    split; [exact (transitivity (Hr t) H3)|]. destruct H4 as [|(_ & Ho4 & _)]; [by left|]. right; right. by rewrite Ho4.
Qed.

Lemma at_header m g z a c l : in_u8 g -> at_ (header m g z a c ++ l) 1 = g.
Proof. intros Hg. destruct (header_fields m g z a c l) as (_ & -> & _). by apply as_u8_id. Qed.
Lemma at_out_message g d e : in_u8 g -> at_ (encode_dev_dep_msg_out g d e) 1 = g.
Proof. apply at_header. Qed.
Lemma at_request g n c : in_u8 g -> at_ (encode_request_dev_dep_msg_in g n c) 1 = g.
Proof.
  intros Hg. unfold encode_request_dev_dep_msg_in. destruct c; rewrite <- (app_nil_r (header _ _ _ _ _)); by apply at_header.
Qed.
Lemma request_id g n c : at_ (encode_request_dev_dep_msg_in g n c) 0 = MSGID_REQUEST_DEV_DEP_MSG_IN.
Proof.
  unfold encode_request_dev_dep_msg_in. destruct c; rewrite <- (app_nil_r (header _ _ _ _ _)); by apply header_fields.
Qed.
Lemma at_trigger g : in_u8 g -> at_ (encode_trigger g) 1 = g.
Proof. intros. unfold encode_trigger. rewrite <- (app_nil_r (header _ _ _ _ _)). by apply at_header. Qed.

Lemma next_tag_u8 g : in_u8 g -> in_u8 (next_tag g).
Proof. unfold in_u8, next_tag. destruct (Z.eqb_spec g 255); lia. Qed.
Lemma next_status_tag_range g : in_u8 g -> 2 <= next_status_tag g <= 127.
Proof. unfold in_u8, next_status_tag. destruct (Z.leb_spec 127 g); lia. Qed.

Lemma driver_ok_next_tag (b : St) : driver_ok b -> driver_ok (with_tag (next_tag (tag b)) b).
Proof. intros (Ht & Hs & Hh & Ho). split_and!; [by apply next_tag_u8|done..|apply Ho|apply Ho]. Qed.

(** Sending a message built with the current tag. *)
Lemma tagged_send_wp what msg (b : St) : at_ msg 1 = tag b -> driver_ok b ->
  wp (send_message what msg (tag b))
    (fun _ b' => settled b' /\ driver_ok b' /\ last_out (history b') = Some msg /\
       exists t, bulk_out msg t = (Ok tt, transport b'))
    (fun _ b' => driver_ok b') b.
Proof.
  intros <- Hb. eapply wp_mono; [apply send_message_wp|..]; simpl; unfold steady; naive_solver.
Qed.

Lemma quiet_attempts n : forall i c w g e, keeps (quiet None (Some g)) (read_attempts (T := T) n i c w g e).
Proof.
  induction n; intros; simpl; keeps_auto; unfold bulk_in_, bulk_in_within_; by apply quiet_await.
Qed.

(** The reads of a transfer that fails always leave an error to report. *)
Lemma answer_error n : forall i c w g e (b : St), (n <> 0%nat /\ i = 0%nat) \/ is_Some e ->
  wp (read_attempts n i c w g e) (fun a _ => a <> NoReply None) (fun _ _ => False) b.
Proof.
  induction n as [|n IH]; intros i c w g e b He; simpl.
  - wp_auto. destruct He as [[]|[]]; congruence.
  - wp_auto. apply wp_any.
    + intros buf b1. destruct (parse_dev_dep_msg_in buf g) as [m|e']; [done|]. apply IH. right. eauto.
    + intros e' b1. wp_auto. case_decide; [done|]. destruct He as [[]|[]]; congruence.
Qed.

(** One request and its answer; [t] is the transport as the request left it. *)
Lemma read_one_wp n (b : St) : driver_ok b ->
  wp (read_one_transfer n) (fun _ b' => settled b' /\ driver_ok b') (fun _ b' => driver_ok b') b.
Proof.
  intros Hb. unfold read_one_transfer, take_tag. wp_auto. apply driver_ok_next_tag in Hb as Hb1.
  eapply wp_mono; [apply tagged_send_wp; [apply at_request, Hb1|done]| |done].
  intros _ b1 ([Ho Hi] & H1 & Hl & _). wp_auto. set (g := next_tag (tag b)). set (b2 := with_pending_in (Some g) b1).
  assert (H2 : driver_ok b2).
  { destruct H1 as (? & ? & ? & _ & ?). split_and!; try done. intros g' [= <-]. eexists. split; [exact Hl|].
    split; [apply request_id|apply at_request, Hb1]. }
  eapply wp_mono; [apply wp_conj; [apply (answer_error 4); by left|]| |by intros ? ? []].
  { apply (wp_keeps (quiet None (Some g))); [apply quiet_attempts|intros ? b3 H3; exact H3..]. }
  intros a b3 [Ha H3]. assert (Hb3 : driver_ok b3) by (by eapply quiet_ok).
  destruct (H3 Ho eq_refl) as [Ho3 _].
  destruct a as [m|e|[e|]]; [by wp_auto; split; [|apply driver_ok_clear_in]| | |done].
  all: eapply wp_mono; [apply fail_wp|done|]; unfold steady; naive_solver.
Qed.

(** *** Every operation keeps the discipline *)

Definition disciplined (b b' : St) : Prop := driver_ok b -> driver_ok b'.

#[export] Instance disciplined_preorder : PreOrder disciplined.
Proof. split; [by intros b Hb|]. intros b c d H1 H2 Hb. auto. Qed.

Lemma disciplined_quiet {A} (m : Act St A) : (forall po pi, keeps (quiet po pi) m) -> keeps disciplined m.
Proof. intros Hm b Hb. apply (quiet_ok (pending_out b) (pending_in b) b); [apply Hm|done..]. Qed.

Lemma disciplined_request q v n : plain_request q -> keeps disciplined (interface_request (T := T) q v n).
Proof. intros. apply disciplined_quiet. intros. by apply quiet_interface_request. Qed.
Lemma disciplined_clear : keeps disciplined (clear_device (T := T)).
Proof.
  apply keeps_wp. intros b. eapply wp_mono; [apply clear_device_wp|by intros ? ? [_ []]|].
  intros e b' Hq. by apply quiet_steady in Hq as [].
Qed.
Lemma disciplined_settle : keeps disciplined (settle (T := T)).
Proof.
  apply keeps_wp. intros b. eapply wp_mono; [apply settle_wp|by intros ? ? [_ []]|by intros ? ? [[] _]].
Qed.
Hint Resolve disciplined_request disciplined_clear disciplined_settle : keeps.

Lemma disciplined_tagged_send what enc : (forall g, in_u8 g -> at_ (enc g) 1 = g) ->
  keeps disciplined (let! g := take_tag in send_message (T := T) what (enc g) g).
Proof.
  intros Henc. apply keeps_wp. unfold disciplined. intros b. unfold take_tag. wp_auto.
  set (b1 := with_tag _ b). unfold wp. destruct (send_message _ _ _ b1) as [r b2] eqn:E.
  assert (Hd : driver_ok b -> driver_ok b2); [|by destruct r].
  intros Hb%driver_ok_next_tag. pose proof (tagged_send_wp what (enc (tag b1)) b1 (Henc _ (proj1 Hb)) Hb) as Hw.
  apply (wp_run _ _ _ _ Hw) in E. destruct r; naive_solver.
Qed.

Lemma disciplined_write d e : keeps disciplined (write_message (T := T) d e).
Proof. apply (disciplined_tagged_send _ (fun g => encode_dev_dep_msg_out g d e)). intros. by apply at_out_message. Qed.
Lemma disciplined_trigger p : keeps disciplined (trigger (T := T) p).
Proof.
  unfold trigger, require_usb488. do 2 (keeps_step; [keeps_auto|]). keeps_step; [keeps_auto|]. apply (disciplined_tagged_send _ encode_trigger), at_trigger.
Qed.
Lemma disciplined_read_one n : keeps disciplined (read_one_transfer (T := T) n).
Proof.
  intros b Hb. pose proof (read_one_wp n b Hb) as Hw. unfold wp in Hw. destruct (read_one_transfer n b) as [[]]; naive_solver.
Qed.
Lemma disciplined_read_loop fuel : forall want out, keeps disciplined (read_loop (T := T) fuel want out).
Proof. induction fuel; intros; simpl; keeps_auto. apply disciplined_read_one. Qed.
Lemma disciplined_read n : keeps disciplined (read_message (T := T) n).
Proof. unfold read_message. keeps_auto. apply disciplined_read_loop. Qed.
Lemma disciplined_ren e : keeps disciplined (ren (T := T) e).
Proof. unfold ren, require_remote_local, require_usb488. keeps_auto. Qed.
Hint Resolve disciplined_write disciplined_trigger disciplined_read disciplined_ren : keeps.

(** The status request goes out under the next status tag. *)
Lemma disciplined_status_request {A} (k : Z -> list byte -> Act St A) :
  (forall g r, keeps disciplined (k g r)) ->
  keeps disciplined
    (let! _ := modify (fun b => with_status_tag (next_status_tag (status_tag b)) b) in
     let! g := gets status_tag in
     let! reply := context (str "READ_STATUS_BYTE") (interface_request REQ_READ_STATUS_BYTE g 3) in k g reply).
Proof.
  intros Hk. apply keeps_wp. intros b. unfold interface_request. wp_auto. set (b1 := with_status_tag _ b).
  apply wp_await. cbn [transport].
  set (w := WControl _ _ _ _). assert (Hd : forall t, disciplined b (record_await w t b1)).
  { intros t (Ht & Hs & Hh & Ho). pose proof (next_status_tag_range _ Hs) as Hr.
    apply driver_ok_await; [|by split_and!|done]. split_and!; try done; [unfold in_u8; simpl; lia|apply Ho..]. }
  apply wp_any; [|intros e t; apply Hd]. intros reply t.
  apply (wp_keeps disciplined); [apply Hk|..]; intros ? b' Hb'; exact (transitivity (Hd t) Hb').
Qed.

Lemma disciplined_serial_poll p : keeps disciplined (serial_poll (T := T) p).
Proof.
  unfold serial_poll, read_status_byte_native, read_status_request, require_usb488. keeps_step; [keeps_auto|]. keeps_step.
  - intros b Hb. unfold take_srq. by destruct (take_srq_status (transport b)).
  - keeps_step; [keeps_auto|]. apply disciplined_status_request. keeps_auto. apply disciplined_quiet. intros. by apply quiet_await.
Qed.

Lemma disciplined_init p : keeps disciplined (init (T := T) p).
Proof.
  unfold init, drain_stale, drain_. keeps_auto; try (apply keeps_modify; by intros b Hb).
  all: try (apply disciplined_quiet; intros; by apply quiet_await).
Qed.

Lemma disciplined_run_op o (b : St) : driver_ok b -> driver_ok (run_op o b).
Proof.
  change (disciplined b (run_op o b)). destruct o; cbn [run_op]; try (by intros Hb).
  all: match goal with |- disciplined ?x (?m ?x).2 => generalize x; change (keeps disciplined m) end.
  all: try first [apply disciplined_init | apply disciplined_write | apply disciplined_read | apply disciplined_clear
    | apply disciplined_trigger | apply disciplined_settle | apply disciplined_ren | apply disciplined_serial_poll].
  all: unfold go_to_local, local_lockout, srq_asserted, set_controller_pad, shutdown, require_remote_local,
    require_usb488; keeps_auto.
Qed.

Lemma driver_ok_new t timeout : driver_ok (new (T := T) t timeout).
Proof. split_and!; try done. apply history_ok_nil. Qed.
Lemma tmc_reachable_ok (b : St) : reachable b -> driver_ok b.
Proof.
  induction 1 as [t timeout|b o _ IH|b o h s rest t c pad _ IH E].
  - apply driver_ok_new.
  - by apply disciplined_run_op.
  - apply (driver_ok_dropped _ _ _ rest); [by apply disciplined_run_op|]. by rewrite E, app_assoc.
Qed.

(** *** What success leaves *)

Definition settles {A} (m : Act St A) (b : St) : Prop := wp m (fun _ => settled) (fun _ _ => True) b.

Lemma tagged_send_settles what enc (b : St) : (forall g, in_u8 g -> at_ (enc g) 1 = g) -> driver_ok b ->
  settles (let! g := take_tag in send_message what (enc g) g) b.
Proof.
  intros Henc Hb%driver_ok_next_tag. unfold settles, take_tag. wp_auto.
  eapply wp_mono; [apply tagged_send_wp; [apply Henc, Hb|done]|..]; naive_solver.
Qed.
Lemma write_settles d e (b : St) : driver_ok b -> settles (write_message d e) b.
Proof. apply (tagged_send_settles _ (fun g => encode_dev_dep_msg_out g d e)). intros. by apply at_out_message. Qed.
Lemma trigger_settles p (b : St) : driver_ok b -> settles (trigger p) b.
Proof.
  intros Hb. unfold settles, trigger, require_usb488. wp_auto. destruct (_ =? 0); [by wp_auto|]. wp_auto.
  destruct (negb _); [by wp_auto|]. apply (tagged_send_settles _ encode_trigger); [apply at_trigger|done].
Qed.
Lemma tmc_read_loop_total fuel : forall want out (b : St), 0 < want - zlen out <= Z.of_nat fuel ->
  wp (read_loop fuel want out) (fun r _ => is_Some r) (fun _ _ => True) b.
Proof.
  induction fuel as [|fuel IH]; intros want out b Hf; [lia|]. simpl. wp_auto. apply wp_any; [|done]. intros [d ended] b1.
  destruct (ended || _) eqn:Ee; [by wp_auto; eauto|]. destruct ((_ <? _) && _) eqn:Es; [by wp_auto; eauto|].
  apply IH. apply orb_false_iff in Ee as [_ Ew%Z.leb_gt]. rewrite zlen_app in *.
  pose proof (zlen_nonneg d). apply andb_false_iff in Es as [Es%Z.ltb_ge|Es%Z.eqb_neq]; lia.
Qed.
Lemma read_settles_loop fuel want out (b : St) : driver_ok b ->
  wp (read_loop fuel want out) (fun r b' => is_Some r -> settled b') (fun _ _ => True) b.
Proof.
  revert want out b. induction fuel as [|fuel IH]; intros want out b Hb; simpl; [by wp_auto; intros []|]. wp_auto.
  eapply wp_mono; [by apply read_one_wp| |done]. simpl. intros [d ended] b1 [Hs1 Hb1].
  destruct (_ || _); [by wp_auto|]. destruct (_ && _); [by wp_auto|]. by apply IH.
Qed.
Lemma clamp_turns n : 0 < clamp n - zlen ([] : list byte) <= Z.of_nat (Z.to_nat (clamp n)).
Proof. change (zlen []) with 0. unfold clamp, MAX_READ_TRANSFER. lia. Qed.
Lemma read_settles n (b : St) : driver_ok b -> settles (read_message n) b.
Proof.
  intros Hb. unfold settles, read_message. wp_auto.
  eapply wp_mono; [apply (wp_conj _ _ _ _ _ _ (read_settles_loop _ _ [] b Hb) (tmc_read_loop_total _ _ _ b (clamp_turns n)))| |done].
  intros ? b' [Hs Hr]. destruct Hr as [r ->]. wp_auto. by apply Hs.
Qed.

(** *** How many transfers an operation awaits *)

Definition costs {A} (n : Z) (m : Act St A) : Prop := forall b, zlen (history (m b).2) <= zlen (history b) + n.

Lemma costs_weaken {A} n n' (m : Act St A) : costs n m -> n <= n' -> costs n' m.
Proof. intros Hm Hn b. specialize (Hm b). lia. Qed.
Lemma costs_bind {A B} n k (m : Act St A) (f : A -> Act St B) :
  0 <= k -> costs n m -> (forall a, costs k (f a)) -> costs (n + k) (bind m f).
Proof.
  intros Hk Hm Hf b. unfold bind. specialize (Hm b). destruct (m b) as [[a|e] b1]; simpl in *; [|lia].
  specialize (Hf a b1). lia.
Qed.
Lemma costs_attempt {A} n (m : Act St A) : costs n m -> costs n (attempt m).
Proof. intros Hm b. specialize (Hm b). unfold attempt. by destruct (m b). Qed.
Lemma costs_context {A} n w (m : Act St A) : costs n m -> costs n (context w m).
Proof. intros Hm b. specialize (Hm b). unfold context. by destruct (m b). Qed.
Lemma costs_pure {A} n (m : Act St A) : 0 <= n -> (forall b, history (m b).2 = history b) -> costs n m.
Proof. intros Hn Hm b. rewrite Hm. lia. Qed.
Lemma costs_await {A} n w (op : Act T A) : 1 <= n -> costs n (await w op).
Proof.
  intros Hn b. unfold await. destruct (op (transport b)) as [r t]. simpl. rewrite zlen_app. change (zlen [_]) with 1. lia.
Qed.
Lemma costs_poll {A} k (body : Act St (Flow A)) n : 0 <= k -> costs k body -> costs (Z.of_nat n * k) (poll n body).
Proof.
  intros Hk Hb. induction n as [|n IH]; simpl poll; [by apply costs_pure|].
  replace (Z.of_nat (Datatypes.S n) * k) with (k + Z.of_nat n * k) by lia. apply costs_bind; [lia|done|].
  intros []; [done|apply costs_pure; [lia|done]..].
Qed.

End Flags.

(** Split the budget [n] over the steps of a computation: [k] for the first. *)
Ltac costs_first k :=
  match goal with |- costs ?n (bind _ _) =>
    replace n with (k + (n - k)) by lia; apply costs_bind; [lia| |intros ?]
  end.
Ltac costs_leaf :=
  solve [apply costs_await; lia | apply costs_pure; [lia|done] | eapply costs_weaken; [eauto with costs|lia]].
Ltac costs_auto :=
  repeat match goal with
  | |- forall _, _ => intros ?
  | |- costs _ (match ?x with _ => _ end) => destruct x
  | |- costs _ (attempt _) => apply costs_attempt
  | |- costs _ (context _ _) => apply costs_context
  | |- costs _ (bind (gets _) _) => costs_first 0; [by apply costs_pure|]
  | |- costs _ (bind (modify _) _) => costs_first 0; [by apply costs_pure|]
  | |- costs _ (bind (of_result _) _) => costs_first 0; [by apply costs_pure|]
  | |- costs _ _ => costs_leaf
  end.

Section Costs.
Context {T : Type} `{TmcTransport T}.

Lemma costs_interface_request q v n : costs 1 (interface_request (T := T) q v n).
Proof. unfold interface_request. costs_auto. Qed.
Lemma costs_endpoint_request q v i n : costs 1 (endpoint_request (T := T) q v i n).
Proof. by apply costs_await. Qed.
Create HintDb costs.
Hint Resolve costs_interface_request costs_endpoint_request : costs.
Lemma costs_drain_or_sleep s : costs 1 (drain_or_sleep (T := T) s).
Proof. unfold drain_or_sleep, sleep_. costs_auto. costs_first 1; costs_auto. Qed.
Hint Resolve costs_drain_or_sleep : costs.
Lemma costs_check_abort_in ep : costs 2 (check_abort_in (T := T) ep).
Proof. unfold check_abort_in. costs_first 1; costs_auto. costs_first 1; costs_auto. Qed.
Lemma costs_check_abort_out ep : costs 2 (check_abort_out (T := T) ep).
Proof. unfold check_abort_out, sleep_. costs_first 1; costs_auto. costs_first 1; costs_auto. Qed.
Lemma costs_check_clear : costs 2 (check_clear (T := T)).
Proof. unfold check_clear. costs_first 1; costs_auto. costs_first 1; costs_auto. Qed.
Hint Resolve costs_check_abort_in costs_check_abort_out costs_check_clear : costs.
Lemma costs_polls (body : Act (UsbtmcBackend T) (Flow unit)) : costs 2 body -> costs 100 (poll HANDSHAKE_POLLS body).
Proof. intros. by apply (costs_poll 2 body 50). Qed.
Hint Resolve costs_polls : costs.
Lemma costs_abort_in g : costs 103 (abort_bulk_in (T := T) g).
Proof.
  unfold abort_bulk_in, reset_bulk_in_. costs_auto. costs_first 1; costs_auto.
  costs_first 1; [costs_auto|]. costs_first 100; costs_auto.
Qed.
Lemma costs_abort_out g : costs 102 (abort_bulk_out (T := T) g).
Proof. unfold abort_bulk_out, reset_bulk_out_. costs_auto. costs_first 1; costs_auto. costs_first 100; costs_auto. Qed.
Lemma costs_clear : costs 103 (clear_device (T := T)).
Proof.
  unfold clear_device, reset_bulk_in_, reset_bulk_out_. costs_first 1; costs_auto. costs_first 100; costs_auto.
  do 2 (costs_first 1; [costs_auto|]). costs_auto.
Qed.
Hint Resolve costs_abort_in costs_abort_out costs_clear : costs.
Lemma costs_settle : costs 308 (settle (T := T)).
Proof.
  unfold settle, abort_pending. costs_auto.
  all: costs_first 205; [costs_first 103; costs_auto|].
  all: costs_first 103; costs_auto.
Qed.
Hint Resolve costs_settle : costs.
Lemma costs_fail {V} e : costs 308 (fail (T := T) (V := V) e).
Proof. unfold fail. costs_first 308; costs_auto. Qed.
Hint Resolve costs_fail : costs.
Lemma costs_send w m g : costs 617 (send_message (T := T) w m g).
Proof. unfold send_message, bulk_out_. costs_first 308; costs_auto. costs_first 1; costs_auto. Qed.
Lemma costs_take_tag : costs 0 (take_tag (T := T)).
Proof. unfold take_tag. costs_auto. Qed.
Hint Resolve costs_send costs_take_tag : costs.
Lemma costs_attempts n : forall i c w g e, costs (Z.of_nat n) (read_attempts (T := T) n i c w g e).
Proof.
  induction n as [|n IH]; intros; simpl; [by apply costs_pure|].
  replace (Z.pos (Pos.of_succ_nat n)) with (Z.of_nat n + 1) by lia. unfold bulk_in_, bulk_in_within_.
  costs_first 1; costs_auto.
Qed.
Hint Resolve costs_attempts : costs.
Lemma costs_read_one n : costs 929 (read_one_transfer (T := T) n).
Proof.
  unfold read_one_transfer. costs_auto. costs_first 0; costs_auto. costs_first 617; costs_auto.
  costs_first 4; [apply (costs_attempts 4)|]. costs_auto.
Qed.
Lemma costs_read_loop fuel : forall want out, costs (929 * Z.of_nat fuel) (read_loop (T := T) fuel want out).
Proof.
  induction fuel as [|n IH]; intros; simpl read_loop; [by apply costs_pure|].
  costs_first 929; [apply costs_read_one|]. costs_auto.
Qed.

Lemma costs_ren e : costs 1 (ren (T := T) e).
Proof. unfold ren, require_remote_local, require_usb488. costs_first 0; [costs_first 0; costs_auto|]. costs_first 1; costs_auto. Qed.
Hint Resolve costs_ren : costs.
Lemma costs_read n : costs (929 * clamp n) (read_message (T := T) n).
Proof.
  unfold read_message. assert (0 <= clamp n) by (unfold clamp, MAX_READ_TRANSFER; lia).
  costs_first (929 * clamp n); costs_auto.
  eapply costs_weaken; [apply costs_read_loop|]. lia.
Qed.
Lemma costs_init p : costs 108 (init (T := T) p).
Proof.
  unfold init, drain_stale, bulk_in_within_. costs_auto. costs_first 1; [costs_auto|]. costs_auto.
  costs_first 103; costs_auto. costs_first 3; [|costs_auto; costs_first 1; costs_auto].
  apply (costs_poll 1 _ 3); [lia|]. costs_first 1; costs_auto.
Qed.
Lemma costs_serial_poll p : costs 2 (serial_poll (T := T) p).
Proof.
  unfold serial_poll, read_status_byte_native, read_status_request, require_usb488. costs_first 0; [costs_auto|]. costs_first 0.
  - apply costs_pure; [lia|]. intros b. unfold take_srq. by destruct (take_srq_status (transport b)).
  - costs_auto. costs_first 1; costs_auto.
Qed.
Lemma costs_trigger p : costs 617 (trigger (T := T) p).
Proof. unfold trigger, require_usb488. costs_first 0; costs_auto. costs_first 0; costs_auto. Qed.

Lemma costs_run_op o (b : UsbtmcBackend T) : zlen (history (run_op o b)) <= zlen (history b) + budget o.
Proof.
  destruct o; cbn [run_op budget]; try (simpl; lia).
  all: match goal with |- zlen (history (?m ?x).2) <= _ + ?n => generalize x; change (costs n m) end.
  all: try first [apply costs_init | apply costs_read | apply costs_clear | apply costs_trigger | apply costs_settle
    | apply costs_ren | apply costs_serial_poll].
  - unfold write, write_message. costs_first 0; costs_auto.
  - unfold go_to_local, require_remote_local, require_usb488. costs_first 0; [costs_first 0; costs_auto|]. costs_first 1; costs_auto.
  - unfold local_lockout, require_remote_local, require_usb488. costs_first 0; [costs_first 0; costs_auto|]. costs_first 1; costs_auto.
  - unfold srq_asserted. costs_auto.
  - unfold send_data_unaddressed, write_message. costs_first 0; costs_auto.
  - unfold shutdown. costs_auto. costs_first 1; costs_auto.
Qed.

End Costs.

(** *** Reads stay within what was asked for *)

Section Bound.
Context {T : Type} `{TmcLaws T}.
Notation St := (UsbtmcBackend T).

Lemma clamp_range n : 1 <= clamp n <= MAX_READ_TRANSFER.
Proof. unfold clamp, MAX_READ_TRANSFER. lia. Qed.
Lemma clamp_id n : 1 <= n <= MAX_READ_TRANSFER -> clamp n = n.
Proof. unfold clamp. lia. Qed.

Lemma send_sent what msg g (b : St) :
  wp (send_message what msg g) (fun _ b' => exists t, bulk_out msg t = (Ok tt, transport b')) (fun _ _ => True) b.
Proof.
  unfold send_message. wp_auto. apply wp_any; [|done]. intros _ b1. wp_auto. unfold bulk_out_.
  apply wp_await. unfold wp. destruct (bulk_out _ _) as [[[]|e] t] eqn:E; simpl; [by eexists|].
  pose proof (fail_wp (V := unit) (in_context (str "usbtmc " ++ what) e)
    (record_await (WBulkOut msg) t (with_pending_out (Some g) b1))) as Hf.
  unfold wp in Hf. by destruct (fail _ _) as [[|]].
Qed.

(** A transfer's answer carries no more than the request it answers. *)
Definition answer_within (k : Z) (a : Answer) : Prop :=
  match a with Got m => zlen (data m) <= Z.max 0 k | _ => True end.

Lemma attempts_within n : forall i c w g e k (b : St), asked (transport b) = Some (as_u8 g, k) ->
  wp (read_attempts n i c w g e) (fun a _ => answer_within k a) (fun _ _ => True) b.
Proof.
  induction n as [|n IH]; intros i c w g e k b Hk; simpl; [by wp_auto|]. wp_auto.
  apply (wp_mono _ (fun buf b' => honest (asked (transport b)) buf /\ asked (transport b') = asked (transport b))
    _ (fun _ _ => True)); [| |by intros; wp_auto; case_decide].
  - case_decide; apply wp_await; simpl; unfold wp.
    + pose proof (honest_in (transport b) c) as Hh. pose proof (asked_in (transport b) c) as Ha.
      unfold wp in Hh. by destruct (bulk_in c (transport b)) as [[]].
    + pose proof (honest_in_within (transport b) c w) as Hh. pose proof (asked_in_within (transport b) c w) as Ha.
      unfold wp in Hh. by destruct (bulk_in_within c w (transport b)) as [[]].
  - intros buf b' [Hh Ha]. destruct (parse_dev_dep_msg_in buf g) as [m|e'] eqn:Ep.
    + wp_auto. apply parse_size in Ep as (Hl & Eg & Hz). simpl.
      assert (as_u8 g = g) as Eg' by (apply as_u8_id; rewrite <- Eg; unfold at_; apply u8_range).
      specialize (Hh _ _ Hk Hl ltac:(congruence)). lia.
    + apply IH. congruence.
Qed.

Lemma read_one_within n (b : St) :
  wp (read_one_transfer n) (fun r _ => zlen r.1 <= clamp n) (fun _ _ => True) b.
Proof.
  pose proof (clamp_range n) as Hc. unfold MAX_READ_TRANSFER in Hc. unfold read_one_transfer, take_tag. wp_auto.
  eapply wp_mono; [apply send_sent| |done]. intros _ b1 [t Ht]. apply asked_out in Ht. wp_auto.
  eapply wp_mono; [apply attempts_within; exact Ht| |done]. intros [m|e|[e|]] b2 Ha; wp_auto; try done.
  - cbn [answer_within fst] in *. rewrite as_u32_id in Ha; [|rewrite as_u32_id; unfold in_u32; lia].
    rewrite as_u32_id in Ha by (unfold in_u32; lia). lia.
  - eapply wp_mono; [apply fail_wp|done|done].
  - eapply wp_mono; [apply fail_wp|done|done].
Qed.

Lemma read_loop_within fuel : forall want out (b : St), zlen out < want <= MAX_READ_TRANSFER ->
  wp (read_loop fuel want out) (fun r _ => forall p, r = Some p -> zlen p.1 <= want) (fun _ _ => True) b.
Proof.
  induction fuel as [|fuel IH]; intros want out b Hw; simpl; [by wp_auto|]. wp_auto.
  eapply wp_mono; [apply read_one_within| |done]. intros [d ended] b1 Hd. cbn [fst] in Hd.
  pose proof (zlen_nonneg out). rewrite clamp_id in Hd by lia.
  assert (zlen (out ++ d) <= want) by (rewrite zlen_app; lia).
  destruct (ended || _) eqn:Ee; [by wp_auto; intros ? [= <-]|].
  destruct (_ && _); [by wp_auto; intros ? [= <-]|]. apply IH.
  apply orb_false_iff in Ee as [_ Ee%Z.leb_gt]. lia.
Qed.

Lemma read_within n (b : St) : wp (read_message n) (fun r _ => zlen r.1 <= clamp n) (fun _ _ => True) b.
Proof.
  pose proof (clamp_range n). unfold read_message. wp_auto.
  eapply wp_mono; [apply read_loop_within|intros [r|] b' Hr; wp_auto; [by apply Hr|done]|done].
  change (zlen []) with 0. lia.
Qed.

End Bound.

(** ** The front-ends' contract

    Whatever a front-end proves against [BackendLaws] holds of this driver on
    any transport with [TmcLaws]. *)
#[export] Instance Usbtmc_laws (T : Type) `{TmcLaws T} : BackendLaws (UsbtmcBackend T).
Proof.
  refine {| timeout_of b := timeout_ms b |}; simpl; intros; try done.
  - apply transport_set_timeout_now.
  - apply (wp_run _ _ _ _ (read_within n b)) in H2. cbn in H2. unfold clamp in H2. lia.
  - apply (wp_run _ _ _ _ (read_within n b)) in H2. cbn in H2. unfold clamp in H2. lia.
  - apply keeps_read.
  - apply keeps_read.
  - apply keeps_read.
  - apply keeps_read.
  - apply keeps_write.
  - apply keeps_write.
  - apply keeps_serial_poll.
  - apply keeps_srq_asserted.
  - by apply tmc_sleep_now.
Defined.

(** *** Against the device *)

Section OnDevice.
Notation St := (UsbtmcBackend Device).

(** The device has [reply] to say, in transfers of [buf] bytes, behind [stale],
    and has heard [hs]. *)
Definition holds (b : St) (stale : list (list byte)) (reply : list byte) (buf : Z)
    (hs : list (list byte * bool)) : Prop :=
  d_stale (transport b) = stale /\ d_reply (transport b) = reply /\ d_buffer (transport b) = buf /\
  messages (d_received (transport b)) = hs.

Lemma fragment_unparsed f g : exists e, parse_dev_dep_msg_in (take 11 f) g = Err e.
Proof.
  unfold parse_dev_dep_msg_in. assert (zlen (take 11 f) < 12) by (unfold zlen; rewrite length_take; lia).
  rewrite (proj2 (Z.ltb_lt _ _)) by done. eexists. reflexivity.
Qed.

Definition reply_message (n : Z) (reply : list byte) : InMessage :=
  mkInMessage (ztake n reply) (bool_decide (zdrop n reply = [])) false (zlen (ztake n reply)).

Lemma parse_reply_transfer g n reply : in_u8 g -> 0 <= n < 4294967296 ->
  parse_dev_dep_msg_in (reply_transfer g n reply) g = Ok (reply_message n reply).
Proof.
  intros Hg Hn. unfold reply_transfer, reply_message. rewrite parse_reply; [|done|].
  - by destruct (decide (zdrop n reply = [])) as [E|E];
      [rewrite (bool_decide_true _ E) | rewrite (bool_decide_false _ E)].
  - unfold in_u32, zlen, ztake. rewrite length_take. lia.
Qed.

(** Up to [n] fragments are skipped to reach the reply. *)
Lemma attempts_skip stale : forall n i c w g e k reply buf hs (b : St), in_u8 g -> 0 <= k < 4294967296 ->
  (length stale < n)%nat -> reply <> [] -> holds b stale reply buf hs ->
  d_asked (transport b) = Some (g, k) -> d_open (transport b) = true ->
  wp (read_attempts n i c w g e)
    (fun a b' => a = Got (reply_message (Z.min k (Z.max 1 buf)) reply) /\
                 holds b' [] (zdrop (Z.min k (Z.max 1 buf)) reply) buf hs) (fun _ _ => False) b.
Proof.
  induction stale as [|f stale IH]; intros [|n] i c w g e k reply buf hs b Hg Hk Hn Hr (Hs & Hq & Hb & Hm) Ha Ho;
    simpl in Hn; try lia; simpl read_attempts; wp_auto.
  - assert (E : forall w op, op (transport b) = dev_in c (transport b) ->
      wp (await w op) (fun buf b' => buf = reply_transfer g (chunk_size (transport b) k) reply /\
        holds b' [] (zdrop (chunk_size (transport b) k) reply) (d_buffer (transport b)) hs) (fun _ _ => False) b).
    { intros aw op Hop. apply wp_await. unfold wp. rewrite Hop. unfold dev_in. rewrite Hs, Ha, Hq, Ho.
      by destruct reply. }
    eapply wp_mono; [case_decide; exact (E _ _ eq_refl)| |done]. intros buf' b' [-> Hh].
    unfold chunk_size in *. rewrite Hb in *. rewrite parse_reply_transfer by (done || lia). by wp_auto.
  - assert (E : forall w op, op (transport b) = dev_in c (transport b) ->
      wp (await w op) (fun buf' b' => buf' = take 11 f /\ holds b' stale reply buf hs /\
        d_asked (transport b') = Some (g, k) /\ d_open (transport b') = true) (fun _ _ => False) b).
    { intros aw op Hop. apply wp_await. unfold wp. rewrite Hop. unfold dev_in. by rewrite Hs. }
    eapply wp_mono; [case_decide; exact (E _ _ eq_refl)| |done]. intros buf' b' (-> & Hh & Ha' & Ho').
    destruct (fragment_unparsed f g) as [e' ->]. apply IH; (done || lia).
Qed.

Lemma settle_idle {T} `{TmcTransport T} (b : UsbtmcBackend T) : settled b -> settle b = (Ok tt, b).
Proof. intros [Ho Hi]. unfold settle, bind, gets. by rewrite Ho, Hi. Qed.

Lemma send_device what msg g (b : St) : settled b ->
  wp (send_message what msg g)
    (fun _ b' => settled b' /\ transport b' = (dev_out msg (transport b)).2 /\ tag b' = tag b) (fun _ _ => False) b.
Proof.
  intros Hs. unfold send_message. wp_auto. unfold wp at 1. rewrite settle_idle by done. wp_auto.
  apply wp_await. unfold wp. simpl. destruct Hs. by split_and!.
Qed.

(** A driver at rest. *)
Definition at_rest {T} (b : UsbtmcBackend T) : Prop := settled b /\ in_u8 (tag b).

Lemma read_one_device n stale reply buf hs (b : St) : at_rest b -> (length stale <= READ_RESYNC_ATTEMPTS)%nat ->
  reply <> [] -> holds b stale reply buf hs -> let k := Z.min (clamp n) (Z.max 1 buf) in
  wp (read_one_transfer n)
    (fun r b' => r = (ztake k reply, bool_decide (zdrop k reply = [])) /\ at_rest b' /\ holds b' [] (zdrop k reply) buf hs)
    (fun _ _ => False) b.
Proof.
  intros [Hs Ht%next_tag_u8] Hl Hr (Hh1 & Hh2 & Hh3 & Hh4) k. pose proof (clamp_range n) as Hc.
  unfold MAX_READ_TRANSFER in Hc. unfold read_one_transfer, take_tag. wp_auto.
  eapply wp_mono; [by apply send_device| |done]. intros _ b1 ([Ho Hi] & E1 & Et). cbn [tag with_tag transport] in E1, Et.
  wp_auto. set (g := next_tag (tag b)) in *. set (b2 := with_pending_in (Some g) b1).
  assert (Hd : d_asked (transport b2) = Some (g, clamp n) /\ d_open (transport b2) = true /\ holds b2 stale reply buf hs).
  { subst b2. unfold holds. cbn [transport with_pending_in]. rewrite E1. unfold dev_out.
    cbn [snd d_asked d_open d_stale d_reply d_buffer d_received].
    rewrite messages_request.
    match goal with |- context [encode_request_dev_dep_msg_in ?a ?b ?c] => destruct (request_fields a b c) as (-> & -> & ->) end.
    rewrite as_u8_id by done. rewrite as_u32_id by (rewrite as_u32_id; unfold in_u32; lia).
    rewrite as_u32_id by (unfold in_u32; lia). done. }
  destruct Hd as (Ha & Hop & Hh).
  eapply wp_mono; [apply wp_conj;
    [apply (attempts_skip stale 4 0 _ _ g None (clamp n) reply buf hs); try done; unfold READ_RESYNC_ATTEMPTS in *; lia|
     apply (wp_keeps (quiet None (Some g))); [apply quiet_attempts|intros ? b3 H3; exact H3..]]| |by intros ? ? []].
  intros a b3 [[-> Hh3'] H3]. destruct (H3 Ho eq_refl) as (Ho3 & Hi3 & Et3 & _). wp_auto.
  split_and!; [by cbn; rewrite orb_false_r|split; [by split|]|done]. change (in_u8 (tag b3)). rewrite Et3. change (in_u8 (tag b1)). by rewrite Et.
Qed.

(** The loop puts the transfers together again. *)
Lemma read_loop_device fuel : forall want out stale reply buf hs (b : St), at_rest b ->
  (length stale <= READ_RESYNC_ATTEMPTS)%nat -> reply <> [] -> holds b stale reply buf hs ->
  zlen out < want <= MAX_READ_TRANSFER -> want - zlen out <= Z.of_nat fuel -> let n := want - zlen out in
  wp (read_loop fuel want out)
    (fun r b' => r = Some (out ++ ztake n reply, bool_decide (zdrop n reply = [])) /\ at_rest b' /\
                 holds b' [] (zdrop n reply) buf hs) (fun _ _ => False) b.
Proof.
  induction fuel as [|fuel IH]; intros want out stale reply buf hs b Hb Hl Hr Hh Hw Hf n; [lia|]. simpl read_loop. wp_auto.
  pose proof (zlen_nonneg out) as Hz. eapply wp_mono; [by apply (read_one_device n stale reply buf hs)| |done].
  rewrite (clamp_id n) by (unfold n; lia). set (k := Z.min n (Z.max 1 buf)).
  assert (Hk : 1 <= k <= n) by (unfold k, n; lia). intros r b1 (-> & Hb1 & Hh1). fold n.
  assert (En : want - zlen out = n) by done. clearbody n k. cbn [fst snd].
  destruct (bool_decide_reflect (zdrop k reply = [])) as [Ek|Ek].
  { apply zdrop_nil_iff in Ek as Ek'; [|lia]. cbn [orb]. wp_auto.
    assert (En' : zdrop n reply = []) by (apply zdrop_nil_iff; lia).
    rewrite !(ztake_all _ reply), (bool_decide_true _ En'), En' by lia. by rewrite Ek in Hh1. }
  assert (Hlen : k < zlen reply) by (apply Z.nle_gt; rewrite <- (zdrop_nil_iff k) by lia; done).
  assert (Hzk : zlen (ztake k reply) = k) by (apply zlen_ztake; lia). rewrite zlen_app, Hzk. cbn [orb].
  destruct (Z.leb_spec want (zlen out + k)) as [Hd|Hd].
  { assert (k = n) as -> by lia. wp_auto. by rewrite (bool_decide_false _ Ek). }
  rewrite (proj2 (Z.eqb_neq k 0)), andb_false_r by lia.
  eapply wp_mono; [apply (IH want (out ++ ztake k reply) [] (zdrop k reply) buf hs); try done; simpl; try lia;
    rewrite zlen_app; lia| |done].
  rewrite zlen_app, Hzk. replace (want - (zlen out + k)) with (n - k) by lia. rewrite zdrop_zdrop by lia.
  replace (k + (n - k)) with n by lia. by rewrite (ztake_split k n reply), app_assoc by lia.
Qed.


Lemma read_device p n stale reply buf hs (b : St) : at_rest b -> (length stale <= READ_RESYNC_ATTEMPTS)%nat ->
  reply <> [] -> holds b stale reply buf hs ->
  wp (read p n)
    (fun r b' => r = (ztake (clamp n) reply, zlen reply <=? clamp n) /\ at_rest b' /\
                 holds b' [] (zdrop (clamp n) reply) buf hs) (fun _ _ => False) b.
Proof.
  intros Hb Hl Hr Hh. pose proof (clamp_range n) as Hc. unfold read, read_message. wp_auto.
  eapply wp_mono; [apply (read_loop_device _ (clamp n) [] stale reply buf hs); try done; change (zlen []) with 0; lia| |done].
  change (zlen []) with 0. rewrite Z.sub_0_r. intros r b' (-> & Hb' & Hh'). wp_auto. split_and!; [|done..].
  cbn [app]. f_equal. assert (H0 : 0 <= clamp n) by lia. pose proof (zdrop_nil_iff (clamp n) reply H0) as Hi.
  case_bool_decide; destruct (Z.leb_spec (zlen reply) (clamp n)); naive_solver lia.
Qed.

Lemma write_device p d e stale reply buf hs (b : St) : at_rest b -> in_u32 (zlen d) -> holds b stale reply buf hs ->
  wp (write p d e) (fun _ b' => at_rest b' /\ holds b' stale reply buf (hs ++ [(d, e)])) (fun _ _ => False) b.
Proof.
  intros [Hs Ht%next_tag_u8] Hd (? & ? & ? & <-). unfold write, write_message, take_tag. wp_auto.
  eapply wp_mono; [by apply send_device| |done]. intros _ b' (Hs' & E & Et). split; [split; [done|by rewrite Et]|].
  unfold holds. rewrite E. unfold dev_out. cbn [snd d_stale d_reply d_buffer d_received].
  split_and!; [done..|]. by apply messages_out.
Qed.

(** One command, driver and instrument side by side. *)
Lemma step_simulates pad c b i r i' : represents b i -> instrument_step c i = Some (r, i') ->
  wp (driver_step pad c) (fun r' b' => r' = r /\ represents b' i') (fun _ _ => False) b.
Proof.
  intros (Ho & Hi & Ht & Hl & Hr & Hm). assert (Hb : at_rest b) by done.
  assert (Hh : holds b (d_stale (transport b)) (says i) (d_buffer (transport b)) (heard i)) by done.
  destruct c as [d e|n]; simpl.
  - destruct (Z.ltb_spec (zlen d) 4294967296); [|done]. intros [= <- <-]. wp_auto.
    eapply wp_mono; [eapply write_device; [exact Hb| |exact Hh]| |done].
    { unfold in_u32. pose proof (zlen_nonneg d). lia. }
    intros _ b' ([[? ?] ?] & Hs' & ? & ? & ?). wp_auto. split; [done|]. split_and!; try done. by rewrite Hs'.
  - case_decide; [done|]. intros [= <- <-]. wp_auto.
    eapply wp_mono; [by eapply (read_device _ n _ (says i)); [exact Hb|exact Hl| |exact Hh]| |done].
    intros r b' (-> & [[? ?] ?] & Hs' & ? & ? & ?). wp_auto. split; [done|]. split_and!; try done. rewrite Hs'.
    simpl. lia.
Qed.

End OnDevice.

(** ** Properties *)

(** C25: the driver refines the instrument.  Whatever sequence of messages and
    reads a client makes, the driver in front of a USB488 device answers
    exactly as the abstract instrument does: the device hears each message
    whole and in order, and a read returns the next bytes of the reply up to
    the size asked for, with the end reported exactly when it is reached -
    however small the device's transfers are, and with up to three fragments
    of an earlier reply stuck in the pipe. *)
Theorem usbtmc_refines_instrument pad cs b i rs i' : represents b i -> instrument_run cs i = Some (rs, i') ->
  exists b', driver_run pad cs b = (Ok rs, b') /\ represents b' i'.
Proof.
  revert b i rs i'. induction cs as [|c cs IH]; intros b i rs i' Hb; simpl.
  - intros [= <- <-]. by exists b.
  - destruct (instrument_step c i) as [[r i1]|] eqn:Es; [|done].
    destruct (instrument_run cs i1) as [[rs' i2]|] eqn:Er; [|done]. intros [= <- <-].
    pose proof (step_simulates pad c b i r i1 Hb Es) as Hw. unfold wp, bind in *.
    destruct (driver_step pad c b) as [[r'|e] b1]; [|done]. destruct Hw as [-> H1].
    destruct (IH b1 i1 rs' i2 H1 Er) as (b2 & -> & H2). by exists b2.
Qed.

(** A device that sends three bytes at a time, behind two fragments. *)
Definition slow_device : Device :=
  mkDevice [[x02]; [x02; x09; xf6]] (as_bytes (str "+1.25E-3")) 3 None false []
    (fun q _ => [b8 STATUS_SUCCESS]) None None 1000 0.

Lemma usbtmc_refines_instrument_witness : exists b',
  driver_run 9 [Say (as_bytes (str "READ?")) true; Ask 5; Ask 100] (new slow_device 1000) =
    (Ok [Done; Told (as_bytes (str "+1.25")) false; Told (as_bytes (str "E-3")) true], b') /\
  represents b' (mkInstrument [(as_bytes (str "READ?"), true)] []).
Proof.
  apply (usbtmc_refines_instrument 9 [Say (as_bytes (str "READ?")) true; Ask 5; Ask 100] (new slow_device 1000)
    (mkInstrument [] (as_bytes (str "+1.25E-3")))).
  - split_and!; try done; by vm_compute; auto.
  - by vm_compute.
Defined.


(** C26: no message is sent over an unfinished one.  In every reachable state,
    futures dropped at any await included, every await [s] there ever was - the
    awaits [h] came before it - obeyed the discipline.  A bulk-OUT message
    started with no reply outstanding and its own tag recorded as pending.  A
    reply was awaited with nothing else outstanding, when the last message sent
    was the request for it, and under that request's tag (the reads that only
    drain a pipe being recovered await no reply).  An abort named the transfer
    recorded as pending: of a reply, the one the last message asked for; of a
    message, the last one.  A status request's tag was one that cannot be
    mistaken for a service request. *)
Theorem pipe_discipline {T} `{TmcTransport T} (b : UsbtmcBackend T) : reachable b ->
  forall h s rest, history b = h ++ s :: rest ->
    match awaited s with
    | WBulkOut msg => at_in s = None /\ at_out s = Some (at_ msg 1)
    | WBulkIn n => at_out s = None /\ exists msg, last_out h = Some msg /\
        at_ msg 0 = MSGID_REQUEST_DEV_DEP_MSG_IN /\ at_in s = Some (at_ msg 1)
    | WControl _ q v _ =>
        (q = REQ_INITIATE_ABORT_BULK_IN -> at_in s = Some v /\ exists msg, last_out h = Some msg /\
           at_ msg 0 = MSGID_REQUEST_DEV_DEP_MSG_IN /\ at_ msg 1 = v) /\
        (q = REQ_INITIATE_ABORT_BULK_OUT -> at_out s = Some v /\ exists msg, last_out h = Some msg /\ at_ msg 1 = v) /\
        (q = REQ_READ_STATUS_BYTE -> 2 <= v <= 127)
    | _ => True
    end.
Proof.
  intros Hr h s rest E. destruct (tmc_reachable_ok b Hr) as (_ & _ & Hh & _).
  destruct (Hh h s rest E) as (_ & _ & Ha & Hor & Hom). unfold owes_message in Hom. rewrite last_out_snoc in Hom.
  destruct (awaited s) eqn:Ew; try done.
  - destruct Ha as [Ho [g Hg]]. split; [done|]. destruct (Hor g Hg) as (msg & ? & ? & <-). by exists msg.
  - destruct Ha as (H1 & H2 & H3). split_and!; [|intros E1|done].
    + intros E1. split; [by apply H1|]. by apply Hor, H1.
    + split; [by apply H2|]. by apply Hom, H2.
Qed.

Lemma pipe_discipline_witness :
  let b := run_op OIfc (dropped (run_op (ORead 9 5) (new slow_device 1000))
    [mkSnapshot (Some 1) None 1 1 (WBulkOut (encode_request_dev_dep_msg_in 1 5 None))]
    (mkSnapshot None (Some 1) 1 1 (WBulkIn 20)) slow_device no_capabilities 0) in
  map awaited (take 3 (history b)) = [WBulkOut (encode_request_dev_dep_msg_in 1 5 None); WBulkIn 20;
    WControl REndpoint REQ_INITIATE_ABORT_BULK_IN 1 0x82] /\
  exists msg, last_out (take 2 (history b)) = Some msg /\ at_ msg 0 = MSGID_REQUEST_DEV_DEP_MSG_IN /\ at_ msg 1 = 1.
Proof.
  intros b. split; [by vm_compute|].
  assert (Hr : reachable b).
  { apply reach_op. apply (reach_drop (new slow_device 1000) (ORead 9 5)
      [mkSnapshot (Some 1) None 1 1 (WBulkOut (encode_request_dev_dep_msg_in 1 5 None))] _
      (drop 2 (history (run_op (ORead 9 5) (new slow_device 1000))))); [apply reach_new|by vm_compute]. }
  assert (E : history b = take 2 (history b) ++ mkSnapshot None (Some 1) 1 1 (WControl REndpoint REQ_INITIATE_ABORT_BULK_IN 1 0x82)
    :: drop 3 (history b)) by by vm_compute.
  exact (proj2 (proj1 (pipe_discipline b Hr _ _ _ E) eq_refl)).
Defined.

(** an exchange that succeeds leaves nothing in flight, and one that cannot
    recover the pipe says so and keeps the record.  After a write, a read, a
    trigger, a device clear or an interface clear that returns [Ok] both
    pending flags are clear; [settle] fails only with the flags it found. *)
Theorem exchange_settles {T} `{TmcTransport T} (b b' : UsbtmcBackend T) : driver_ok b ->
  (forall p d e, write p d e b = (Ok tt, b') -> settled b') /\
  (forall p n r, read p n b = (Ok r, b') -> settled b') /\
  (forall p, trigger p b = (Ok tt, b') -> settled b') /\
  (forall p, device_clear p b = (Ok tt, b') -> settled b') /\
  (ifc b = (Ok tt, b') -> settled b') /\
  (forall e, ifc b = (Err e, b') -> pending_out b' = pending_out b /\ pending_in b' = pending_in b).
Proof.
  intros Hb. split_and!.
  - intros p d e E. by eapply (wp_run _ _ _ _ (write_settles d e b Hb)) in E.
  - intros p n r E. by eapply (wp_run _ _ _ _ (read_settles n b Hb)) in E.
  - intros p E. by eapply (wp_run _ _ _ _ (trigger_settles p b Hb)) in E.
  - intros p E. by apply (wp_run _ _ _ _ (clear_device_wp b)) in E as [? _].
  - intros E. by apply (wp_run _ _ _ _ (settle_wp b)) in E as [? _].
  - intros e E. by apply (wp_run _ _ _ _ (settle_wp b)) in E as (_ & ? & ?).
Qed.
Lemma exchange_settles_witness :
  let b := new slow_device 1000 in
  settled (read 9 100 b).2 /\ (read 9 100 b).1 = Ok (as_bytes (str "+1.25E-3"), true).
Proof.
  intros b. split; [|by vm_compute]. assert (Hb : driver_ok b) by apply driver_ok_new.
  assert (E : read 9 100 b = (Ok (as_bytes (str "+1.25E-3"), true), (read 9 100 b).2)) by by vm_compute.
  exact (proj1 (proj2 (exchange_settles b (read 9 100 b).2 Hb)) 9 100 _ E).
Defined.

(** C29: every operation ends.  Each call of the driver awaits a bounded number
    of transfers, polls and pauses, whatever the device answers and even if it
    stays busy for ever: at most 103 for a clear, 308 to settle the pipe, 617
    for a write or a trigger, and 929 per requested byte for a read, whose loop
    never runs out of turns. *)
Theorem awaits_bounded {T} `{TmcTransport T} (o : Op) (b : UsbtmcBackend T) :
  zlen (history (run_op o b)) <= zlen (history b) + budget o /\
  (forall n, wp (read_loop (Z.to_nat (clamp n)) (clamp n) []) (fun r _ => is_Some r) (fun _ _ => True) b).
Proof.
  split; [apply costs_run_op|]. intros n. apply tmc_read_loop_total, clamp_turns.
Qed.

Lemma awaits_bounded_witness :
  zlen (history (run_op (OClear 9) (new (mkDevice [] [] 0 None false [] (fun q _ =>
    if q =? REQ_CHECK_CLEAR_STATUS then [b8 STATUS_PENDING; x01] else [b8 STATUS_SUCCESS]) None None 1 0) 1))) = 101 /\
  wp (read_loop (Z.to_nat (clamp 9)) (clamp 9) []) (fun r _ => is_Some r) (fun _ _ => True) (new slow_device 1).
Proof.
  split; [by vm_compute|]. exact (proj2 (awaits_bounded OIfc (new slow_device 1)) 9).
Defined.

(** the status byte.  A byte a service request already delivered is handed
    to the next serial poll without asking the device, and taken out of the
    latch.  Otherwise the device is asked under the next status tag; only a
    reply that reports success under that very tag counts, and the byte comes
    from the interrupt endpoint where there is one and from the reply's third
    byte where there is none.  A plain USBTMC interface is never asked. *)
Theorem serial_poll_source {T} `{TmcTransport T} pad (b : UsbtmcBackend T) :
  (bcd_usb488 (caps b) = 0 -> exists e, serial_poll pad b = (Err e, b)) /\
  (bcd_usb488 (caps b) <> 0 -> forall stb t, take_srq_status (transport b) = (Some stb, t) ->
    serial_poll pad b = (Ok stb, with_transport b t)) /\
  (bcd_usb488 (caps b) <> 0 -> forall t stb b', take_srq_status (transport b) = (None, t) ->
    serial_poll pad b = (Ok stb, b') ->
    let g := next_status_tag (status_tag b) in
    exists reply t', control_in RInterface REQ_READ_STATUS_BYTE g (interface_number t) 3 t = (Ok reply, t') /\
      first reply = Some STATUS_SUCCESS /\ option_map u8 (reply !! 1%nat) = Some g /\
      if has_interrupt_in t' then (status_byte_notification g (status_byte_wait b) t').1 = Ok stb
      else option_map u8 (reply !! 2%nat) = Some stb).
Proof.
  unfold serial_poll, require_usb488, bind, gets. split_and!; intros Hc.
  - rewrite Hc. eexists. reflexivity.
  - apply Z.eqb_neq in Hc. rewrite Hc. intros stb t Ht.
    unfold read_status_byte_native, ret, bind, take_srq. by rewrite Ht.
  - apply Z.eqb_neq in Hc. rewrite Hc. intros t stb b' Ht. unfold ret at 1, read_status_byte_native, bind at 1, take_srq.
    rewrite Ht. cbv zeta. set (g := next_status_tag (status_tag b)). revert stb b'.
    enough (Hw : wp (read_status_request (T := T)) (fun stb _ => exists reply t',
        control_in RInterface REQ_READ_STATUS_BYTE g (interface_number t) 3 t = (Ok reply, t') /\
        first reply = Some STATUS_SUCCESS /\ option_map u8 (reply !! 1%nat) = Some g /\
        if has_interrupt_in t' then (status_byte_notification g (status_byte_wait b) t').1 = Ok stb
        else option_map u8 (reply !! 2%nat) = Some stb) (fun _ _ => True) (with_transport b t))
      by (intros stb b' Hrun; exact (wp_run _ _ _ _ Hw _ _ Hrun)).
    unfold read_status_request, interface_request. wp_auto. apply wp_await.
    cbn [transport with_status_tag with_transport status_tag]. fold g. unfold wp at 1.
    destruct (control_in _ _ _ _ _ t) as [[reply|e] t'] eqn:Ec; [|done]. wp_auto.
    destruct (decide (first reply = Some STATUS_SUCCESS)) as [Hf|Hf];
      [|by destruct (check_status_fails (str "READ_STATUS_BYTE") reply Hf) as [e ->]].
    destruct (check_status _ reply); [|done].
    case_bool_decide as Hg; cbn [negb]; [|done]. wp_auto. cbn [transport record_await].
    destruct (has_interrupt_in t') eqn:Hi; wp_auto.
    + apply wp_await. cbn [transport record_await]. unfold wp.
      destruct (status_byte_notification _ _ t') as [[stb|] t''] eqn:En; [|done].
      exists reply, t'. rewrite Hi. split_and!; [done..|]. change (status_byte_wait b) with (status_byte_wait (record_await (WControl RInterface REQ_READ_STATUS_BYTE g (interface_number t)) t' (with_status_tag g (with_transport b t)))). by rewrite En.
    + destruct (reply !! 2%nat) as [c|] eqn:E2; [|done]. exists reply, t'. rewrite Hi, E2. by split_and!.
Qed.

(** A USB488 device that has asked for service with status byte 0x50. *)
Definition asking_device : UsbtmcBackend Device :=
  with_caps (mkCapabilities 0x100 true 0x100 true true true true true true true)
    (new (mkDevice [] [] 64 None false [] (fun _ v => [b8 STATUS_SUCCESS; b8 v; x10]) (Some 0x50) None 1000 0) 1000).

Lemma serial_poll_source_witness :
  let b := (serial_poll 9 asking_device).2 in
  (serial_poll 9 asking_device).1 = Ok 0x50 /\ (serial_poll 9 b).1 = Ok 0x10 /\
  first [b8 STATUS_SUCCESS; b8 2; x10] = Some STATUS_SUCCESS.
Proof.
  assert (E : serial_poll 9 asking_device =
    (Ok 0x50, with_transport asking_device (take_srq_status (transport asking_device)).2)).
  { exact (proj1 (proj2 (serial_poll_source 9 asking_device)) ltac:(by vm_compute) 0x50 _ eq_refl). }
  rewrite E. split_and!; by vm_compute.
Defined.

(** C30: the driver keeps the contract the front-ends are proved against.  On any
    transport whose clock does not run backwards and whose device answers a
    request with no more than it asked for - the driver does not check this:
    a read returns at most the bytes asked for (one, if none were), no operation
    turns the clock back, every operation but the two that set them keeps the
    terminator and the timeout, and setting one leaves the other alone. *)
Theorem usbtmc_contract {T} `{TmcLaws T} (b : UsbtmcBackend T) :
  (forall p n d e b', read p n b = (Ok (d, e), b') -> zlen d <= Z.max 1 n) /\
  (forall o, tmc_now (transport b) <= tmc_now (transport (run_op o b))) /\
  (forall o, sets o = false -> eos (run_op o b) = eos b /\ timeout_ms (run_op o b) = timeout_ms b) /\
  (forall c e, eos (set_eos c e b) = (c, e) /\ timeout_ms (set_eos c e b) = timeout_ms b) /\
  (forall t, timeout_ms (set_timeout t b) = t /\ eos (set_timeout t b) = eos b).
Proof.
  split_and!; intros; try done.
  - apply (wp_run _ _ _ _ (read_within n b)) in H1. cbn [fst] in H1. unfold clamp in H1. lia.
  - destruct (sets o) eqn:Eo; [|by apply frame_run_op]. destruct o; try done; cbn [run_op].
    unfold set_timeout. cbn [transport]. rewrite transport_set_timeout_now. lia.
  - by apply frame_run_op.
Qed.

Lemma usbtmc_contract_witness : zlen (as_bytes (str "+1.")) <= Z.max 1 3.
Proof.
  apply (proj1 (usbtmc_contract (new slow_device 1000)) 9 3 _ false (read 9 3 (new slow_device 1000)).2).
  by vm_compute.
Defined.

(** Fifty polls that all say PENDING end an abort as if it had completed. *)
Example pending_abort_reported_done :
  (abort_bulk_in 7 (new (mkDevice [] [] 0 None false [] (fun q _ =>
    if q =? REQ_CHECK_ABORT_BULK_IN_STATUS then [b8 STATUS_PENDING] else [b8 STATUS_SUCCESS]) None None 1 0) 1)).1 = Ok tt.
Proof. by vm_compute. Qed.

End UsbtmcProofs.
