(* ===== verification/UsbtmcUsb.v ===== *)
(** * The USBTMC transport over the USB stack: [src/backend/usbtmc/usb.rs]

    The USB library is the class [UsbHost] of [Usb].  What is modelled is the transport's own logic:
    how a transfer is cut into URBs and put together again, when it ends, how
    the packets of the interrupt endpoint are told apart and matched with the
    serial polls that wait for them, and how a device and its endpoints are
    found.  The transport implements [TmcTransport]. *)

From S2P Require Import Prelude RustStr Backend UsbtmcMsg Effect Usb Usbtmc.

Module UsbtmcUsb.
Import RustStr Backend UsbtmcMsg Effect Usb Usbtmc.

Definition USB_CLASS_APPLICATION_SPECIFIC : Z := 0xfe.
Definition USB_SUBCLASS_USBTMC : Z := 0x03.
Definition USB_PROTOCOL_USB488 : Z := 0x01.
Definition MAX_URB : Z := 16384.

(** ** Finding the interface and its endpoints *)

(** What a descriptor says of an interface. *)
Record InterfaceInfo : Type := mkInterfaceInfo { i_number : Z; i_class : Z; i_subclass : Z; i_protocol : Z }.
Record DeviceInfo : Type := mkDeviceInfo { port_id : list Z; interfaces : list InterfaceInfo }.

Record UsbtmcInterface : Type := mkUsbtmcInterface { number : Z; protocol : Z }.
Definition is_usb488 (i : UsbtmcInterface) : bool := protocol i =? USB_PROTOCOL_USB488.

Definition usbtmc_interface (dev : DeviceInfo) : option UsbtmcInterface :=
  match List.find (fun i => (i_class i =? USB_CLASS_APPLICATION_SPECIFIC) && (i_subclass i =? USB_SUBCLASS_USBTMC))
          (interfaces dev) with
  | Some i => Some (mkUsbtmcInterface (i_number i) (i_protocol i))
  | None => None
  end.

(** [{want:?}] of a port id, which has nothing to escape. *)
Definition quoted (s : list Z) : list Z := [34] ++ s ++ [34].

Fixpoint find_in (port : option (list Z)) (devs : list DeviceInfo) : result (DeviceInfo * UsbtmcInterface) Error :=
  match devs with
  | [] =>
      Err (match port with
           | Some want => str "no USBTMC device found at USB port " ++ quoted want
           | None => str "no USBTMC device found (USB interface class fe, subclass 03)"
           end)
  | dev :: rest =>
      match usbtmc_interface dev with
      | None => find_in port rest
      | Some tmc =>
          match port with
          | Some want => if decide (port_id dev = want) then Ok (dev, tmc) else find_in port rest
          | None => Ok (dev, tmc)
          end
      end
  end.

(** [find_device], on the devices the USB library lists. *)
Definition find_device (port : option (list Z)) (devs : result (list DeviceInfo) Error)
    : result (DeviceInfo * UsbtmcInterface) Error :=
  let? devs := map_err (in_context (str "failed to list USB devices")) devs in find_in port devs.

Inductive TransferType : Type := TControl | TIsochronous | TBulk | TInterrupt.
Inductive Direction : Type := DIn | DOut.
Record EndpointInfo : Type := mkEndpointInfo { e_type : TransferType; e_direction : Direction; e_address : Z }.

Record Endpoints : Type := mkEndpoints { ep_bulk_in : option Z; ep_bulk_out : option Z; ep_interrupt_in : option Z }.

(** The scan of [open]: the last endpoint of each kind counts. *)
Definition scan_endpoint (acc : Endpoints) (ep : EndpointInfo) : Endpoints :=
  match e_type ep, e_direction ep with
  | TBulk, DIn => mkEndpoints (Some (e_address ep)) (ep_bulk_out acc) (ep_interrupt_in acc)
  | TBulk, DOut => mkEndpoints (ep_bulk_in acc) (Some (e_address ep)) (ep_interrupt_in acc)
  | TInterrupt, DIn => mkEndpoints (ep_bulk_in acc) (ep_bulk_out acc) (Some (e_address ep))
  | _, _ => acc
  end.

(** The addresses of bulk-IN and bulk-OUT, and of the interrupt endpoint. *)
Definition endpoint_addresses (eps : list EndpointInfo) : result (Z * Z * option Z) Error :=
  let found := foldl scan_endpoint (mkEndpoints None None None) eps in
  match ep_bulk_in found with
  | None => Err (str "USBTMC interface has no bulk-IN endpoint")
  | Some i =>
      match ep_bulk_out found with
      | None => Err (str "USBTMC interface has no bulk-OUT endpoint")
      | Some o => Ok (i, o, ep_interrupt_in found)
      end
  end.

(** ** The transport *)

Record UsbtmcTransport (U : Type) : Type := mkUsbtmcTransport {
  usb : U;
  number_of_interface : Z;
  bulk_in_addr : Z;
  bulk_out_addr : Z;
  timeout : Z;                              (* milliseconds *)
  srq_status : option Z;                    (* the latch *)
  srq_sent : Z;                             (* service requests announced *)
  status_bytes : option (list (Z * Z));     (* queued (bTag, STB) pairs *)
}.
Arguments mkUsbtmcTransport {U}.
Arguments usb {U}.
Arguments number_of_interface {U}.
Arguments bulk_in_addr {U}.
Arguments bulk_out_addr {U}.
Arguments timeout {U}.
Arguments srq_status {U}.
Arguments srq_sent {U}.
Arguments status_bytes {U}.

(** [data.chunks(MAX_URB)]; every chunk but the last is full, so there are fewer of
    them than bytes. *)
Fixpoint chunks (fuel : nat) (data : list byte) : list (list byte) :=
  match fuel with
  | O => []
  | Datatypes.S fuel =>
      match data with
      | [] => []
      | _ => ztake MAX_URB data :: chunks fuel (zdrop MAX_URB data)
      end
  end.
Definition urbs (data : list byte) : list (list byte) := chunks (length data) data.

Section Transport.
Context {U : Type} `{UsbHost U}.
Notation Tr := (UsbtmcTransport U).

Definition with_usb (t : Tr) (u : U) : Tr :=
  mkUsbtmcTransport u (number_of_interface t) (bulk_in_addr t) (bulk_out_addr t) (timeout t) (srq_status t)
    (srq_sent t) (status_bytes t).
Definition on_usb {A} (m : Act U A) : Act Tr A := zoom usb with_usb m.

(** [open], once the device is open and the interface claimed. *)
Definition open_endpoints (u : U) (tmc : UsbtmcInterface) (eps : list EndpointInfo) : result Tr Error :=
  let? (i, o, intr) := endpoint_addresses eps in
  Ok (mkUsbtmcTransport u (number tmc) i o 3000 None 0 (match intr with Some _ => Some [] | None => None end)).

(** *** Bulk transfers *)

Fixpoint send_urbs (wait : Z) (us : list (list byte)) : Act U unit := fun u =>
  match us with
  | [] => (Ok tt, u)
  | chunk :: us =>
      match urb_out chunk wait u with
      | (Completed _, u') => send_urbs wait us u'
      | (Failed e, u') => (Err (str "usbtmc bulk-out failed: " ++ e), u')
      | (TimedOut, u') =>
          (Err (str "usbtmc bulk-out timed out after " ++ fmt_millis (wait / 1000000)), discard_out u')
      end
  end.

Definition usb_bulk_out (data : list byte) : Act Tr unit := fun t =>
  on_usb (send_urbs (from_millis (timeout t)) (urbs data)) t.

(** [(max_len - data.len()).min(MAX_URB).div_ceil(mps) * mps]. *)
Definition urb_size (mps left_ : Z) : Z := (Z.min left_ MAX_URB + (mps - 1)) / mps * mps.

(** The loop of [bulk_in_within]; [None] is out of fuel. *)
Fixpoint receive_urbs (fuel : nat) (mps wait max_len : Z) (data : list byte) : Act U (option (list byte)) := fun u =>
  match fuel with
  | O => (Ok None, u)
  | Datatypes.S fuel =>
      if zlen data <? max_len then
        let want := urb_size mps (max_len - zlen data) in
        match urb_in want wait u with
        | (Completed buf, u') =>
            let data := data ++ buf in
            if zlen buf <? want then (Ok (Some data), u') else receive_urbs fuel mps wait max_len data u'
        | (Failed e, u') => (Err (str "usbtmc bulk-in failed: " ++ e), u')
        | (TimedOut, u') =>
            (Err (str "usbtmc bulk-in timed out after " ++ fmt_millis (wait / 1000000)), discard_in u')
        end
      else (Ok (Some data), u)
  end.

(** A turn that goes round again brings at least a byte, so one turn per byte
    and one to see the end are enough. *)
Definition usb_bulk_in_within (max_len wait : Z) : Act Tr (list byte) := fun t =>
  let mps := Z.max (max_packet_size (usb t)) 1 in
  (let! r := on_usb (receive_urbs (Datatypes.S (Z.to_nat max_len)) mps wait max_len []) in
   match r with Some d => ret d | None => bail [] end) t.

Definition usb_bulk_in (max_len : Z) : Act Tr (list byte) := fun t =>
  usb_bulk_in_within max_len (from_millis (timeout t)) t.

Definition usb_control_in (r : Recipient) (request value index len : Z) : Act Tr (list byte) := fun t =>
  let recipient := match r with RInterface => ToInterface | REndpoint => ToEndpoint end in
  let '(res, u) := host_control_in (mkControlIn Class_ recipient request value index (as_u16 len)) (usb t) in
  (map_err (fun e => str "usbtmc control request " ++ hex_byte request ++ str " failed: " ++ e) res, with_usb t u).

Definition usb_reset_bulk_in : Act Tr unit := fun t =>
  let '(res, u) := clear_halt_in (discard_in (usb t)) in
  (map_err (fun e => str "usbtmc clear bulk-in halt: " ++ e) res, with_usb t u).
Definition usb_reset_bulk_out : Act Tr unit := fun t =>
  let '(res, u) := clear_halt_out (discard_out (usb t)) in
  (map_err (fun e => str "usbtmc clear bulk-out halt: " ++ e) res, with_usb t u).

(** *** The interrupt endpoint *)

(** One completed packet, as [interrupt_reader] treats it. *)
Definition on_interrupt (t : Tr) (packet : list byte) : Tr :=
  match packet with
  | c1 :: c2 :: _ =>
      let b1 := u8 c1 in
      let b2 := u8 c2 in
      if b1 =? NOTIFY_SRQ then
        mkUsbtmcTransport (usb t) (number_of_interface t) (bulk_in_addr t) (bulk_out_addr t) (timeout t) (Some b2)
          (srq_sent t + 1) (status_bytes t)
      else if NOTIFY_SRQ <? b1 then
        mkUsbtmcTransport (usb t) (number_of_interface t) (bulk_in_addr t) (bulk_out_addr t) (timeout t) (srq_status t)
          (srq_sent t)
          (match status_bytes t with Some q => Some (q ++ [(Z.land b1 0x7f, b2)]) | None => None end)
      else t
  | _ => t
  end.

(** The pairs up to the one tagged [tag] are taken off the queue. *)
Fixpoint take_tagged (tag : Z) (q : list (Z * Z)) : option Z * list (Z * Z) :=
  match q with
  | [] => (None, [])
  | (g, stb) :: q => if g =? tag then (Some stb, q) else take_tagged tag q
  end.

Definition with_queue (t : Tr) (q : list (Z * Z)) : Tr :=
  mkUsbtmcTransport (usb t) (number_of_interface t) (bulk_in_addr t) (bulk_out_addr t) (timeout t) (srq_status t)
    (srq_sent t) (Some q).

(** The packets that arrive during the wait reach the queue through the reader. *)
Definition usb_status_byte_notification (tag wait : Z) : Act Tr Z := fun t =>
  match status_bytes t with
  | None => (Err (str "this interface has no interrupt endpoint"), t)
  | Some _ =>
      let '(packets, u) := interrupts_within wait (usb t) in
      let t := foldl on_interrupt (with_usb t u) packets in
      match take_tagged tag (default [] (status_bytes t)) with
      | (Some stb, q) => (Ok stb, with_queue t q)
      | (None, q) =>
          (Err (in_context (str "timed out waiting for the status byte on the interrupt endpoint")
                  (str "deadline has elapsed")), with_queue t q)
      end
  end.

Definition usb_take_srq_status (t : Tr) : option Z * Tr :=
  (srq_status t, mkUsbtmcTransport (usb t) (number_of_interface t) (bulk_in_addr t) (bulk_out_addr t) (timeout t) None
    (srq_sent t) (status_bytes t)).

Definition usb_set_timeout (t : Tr) (ms : Z) : Tr :=
  mkUsbtmcTransport (usb t) (number_of_interface t) (bulk_in_addr t) (bulk_out_addr t) ms (srq_status t)
    (srq_sent t) (status_bytes t).

End Transport.

#[export] Instance UsbtmcTransport_transport (U : Type) `{UsbHost U} : TmcTransport (UsbtmcTransport U) := {|
  bulk_out := usb_bulk_out;
  bulk_in := usb_bulk_in;
  bulk_in_within := usb_bulk_in_within;
  control_in := usb_control_in;
  reset_bulk_in := usb_reset_bulk_in;
  reset_bulk_out := usb_reset_bulk_out;
  interface_number := number_of_interface;
  bulk_in_address := bulk_in_addr;
  bulk_out_address := bulk_out_addr;
  transport_set_timeout := usb_set_timeout;
  has_interrupt_in t := bool_decide (is_Some (status_bytes t));
  status_byte_notification := usb_status_byte_notification;
  take_srq_status := usb_take_srq_status;
  peek_srq_status := srq_status;
  tmc_now t := usb_now (usb t);
  tmc_sleep t d := with_usb t (usb_sleep (usb t) d);
|}.

(** ** Lemmas *)

Lemma chunks_facts fuel : forall data, (length data <= fuel)%nat ->
  concat (chunks fuel data) = data /\ Forall (fun c => 1 <= zlen c <= MAX_URB) (chunks fuel data).
Proof.
  induction fuel as [|fuel IH]; intros data Hf; [destruct data; [done|simpl in Hf; lia]|].
  destruct data as [|c data]; [done|]. cbn [chunks concat].
  destruct (IH (zdrop MAX_URB (c :: data))) as [Hc Ha].
  { unfold zdrop. rewrite length_drop. cbn [length] in *. unfold MAX_URB. lia. }
  rewrite Hc. split; [apply ztake_zdrop|]. constructor; [|done].
  unfold zlen, ztake. rewrite length_take. cbn [length]. unfold MAX_URB. lia.
Qed.

Lemma urb_size_bounds mps n : 1 <= mps -> 1 <= n ->
  Z.min n MAX_URB <= urb_size mps n < Z.min n MAX_URB + mps /\ urb_size mps n mod mps = 0.
Proof.
  intros Hm Hn. unfold urb_size, MAX_URB. set (k := Z.min n 16384).
  pose proof (Z.div_mod (k + (mps - 1)) mps ltac:(lia)). pose proof (Z.mod_pos_bound (k + (mps - 1)) mps ltac:(lia)).
  split; [lia|]. by apply Z.mod_mul; lia.
Qed.

(** The loop always ends, and overshoots by less than a packet. *)
Lemma receive_total {U} `{UsbLaws U} fuel : forall mps wait n data (u : U), 1 <= mps ->
  Z.max 0 (n - zlen data) < Z.of_nat fuel -> zlen data < n + mps ->
  wp (receive_urbs fuel mps wait n data) (fun r _ => exists d, r = Some d /\ zlen d < n + mps) (fun e _ => e <> []) u.
Proof.
  induction fuel as [|fuel IH]; intros mps wait n data u Hm Hf Hd; [lia|]. unfold wp. cbn [receive_urbs].
  destruct (Z.ltb_spec (zlen data) n) as [Hl|Hl]; [|by eexists].
  destruct (urb_size_bounds mps (n - zlen data) Hm ltac:(lia)) as [Hs _]. unfold MAX_URB in Hs.
  destruct (urb_in _ wait u) as [[buf|e|] u'] eqn:E; [|done..].
  apply urb_in_bound in E; [|lia]. pose proof (zlen_nonneg buf).
  destruct (Z.ltb_spec (zlen buf) (urb_size mps (n - zlen data))) as [Hb|Hb].
  - eexists. split; [done|]. rewrite zlen_app. lia.
  - apply IH; [done|rewrite zlen_app; lia..].
Qed.

(** A transfer that fits arrives whole, however many URBs it takes. *)
Lemma receive_pipe fuel : forall mps wait n data (u : Pipe), 1 <= mps ->
  Z.max 0 (n - zlen data) < Z.of_nat fuel -> zlen data + zlen (p_transfer u) <= n ->
  receive_urbs fuel mps wait n data u =
    (Ok (Some (data ++ p_transfer u)), mkPipe [] (p_sent u) (p_mps u) (p_packets u) (p_clock u)).
Proof.
  induction fuel as [|fuel IH]; intros mps wait n data u Hm Hf Hd; [lia|]. cbn [receive_urbs].
  pose proof (zlen_nonneg (p_transfer u)). destruct (Z.ltb_spec (zlen data) n) as [Hl|Hl].
  2:{ assert (E : p_transfer u = []) by (apply zlen_zero; lia). destruct u as [tr ? ? ? ?]. simpl in *. subst.
      by rewrite app_nil_r. }
  destruct (urb_size_bounds mps (n - zlen data) Hm ltac:(lia)) as [Hs _]. set (k := urb_size _ _) in *.
  unfold MAX_URB in Hs. cbn [urb_in Pipe_host].
  destruct (Z.ltb_spec (zlen (ztake k (p_transfer u))) k) as [Hb|Hb].
  - assert (zlen (p_transfer u) < k).
    { apply Z.nle_gt. intros Hk. rewrite zlen_ztake in Hb by lia. lia. }
    rewrite ztake_all by lia. by rewrite (proj2 (zdrop_nil_iff k _ ltac:(lia))) by lia.
  - assert (k <= zlen (p_transfer u)).
    { apply Z.nlt_ge. intros Hk. rewrite ztake_all in Hb by lia. lia. }
    rewrite IH; [| |rewrite zlen_app, zlen_ztake by lia; lia|].
    + cbn [p_transfer p_sent p_mps p_packets p_clock]. by rewrite <- app_assoc, ztake_zdrop.
    + done.
    + cbn [p_transfer]. rewrite zlen_app, zlen_ztake, zlen_zdrop by lia. lia.
Qed.

Lemma send_pipe wait us : forall u : Pipe,
  send_urbs wait us u = (Ok tt, mkPipe (p_transfer u) (p_sent u ++ us) (p_mps u) (p_packets u) (p_clock u)).
Proof.
  induction us as [|c us IH]; intros [tr se m pk cl]; cbn [send_urbs]; [by rewrite app_nil_r|].
  cbn [urb_out Pipe_host]. rewrite IH. cbn. by rewrite <- app_assoc.
Qed.

(** ** Properties *)

(** bulk transfers survive being cut into URBs.  Reading always ends, and
    overshoots what was asked for by less than a packet.  On a pipe, a message
    of any length goes out as URBs of at most 16 KiB that concatenate to it,
    and a transfer that fits into the wanted size arrives whole and alone,
    for every packet size. *)
Theorem bulk_urbs {U} `{UsbLaws U} (t : UsbtmcTransport U) (p : UsbtmcTransport Pipe) n wait data : 0 < n ->
  wp (usb_bulk_in_within n wait) (fun d _ => zlen d < n + Z.max (max_packet_size (usb t)) 1) (fun e _ => e <> []) t /\
  (let '(r, p') := usb_bulk_out data p in
   r = Ok tt /\ exists us, p_sent (usb p') = p_sent (usb p) ++ us /\ concat us = data /\
     Forall (fun c => 1 <= zlen c <= MAX_URB) us) /\
  (zlen (p_transfer (usb p)) <= n ->
   usb_bulk_in_within n wait p = (Ok (p_transfer (usb p)), with_usb p (mkPipe [] (p_sent (usb p)) (p_mps (usb p))
     (p_packets (usb p)) (p_clock (usb p))))).
Proof.
  intros Hn. split_and!.
  - unfold usb_bulk_in_within, wp, bind, on_usb, zoom.
    pose proof (receive_total (Datatypes.S (Z.to_nat n)) (Z.max (max_packet_size (usb t)) 1) wait n [] (usb t)
      ltac:(lia) ltac:(change (zlen []) with 0; lia) ltac:(change (zlen []) with 0; lia)) as Hw.
    unfold wp in Hw. destruct (receive_urbs _ _ _ _ _ _) as [[r|e] u']; [|done]. by destruct Hw as (d & -> & ?).
  - unfold usb_bulk_out, on_usb, zoom. rewrite send_pipe. split; [done|]. exists (urbs data). split; [done|].
    by apply chunks_facts.
  - intros Ht. unfold usb_bulk_in_within, bind, on_usb, zoom. rewrite receive_pipe; [done|lia| |];
      change (zlen []) with 0; lia.
Qed.

Definition test_pipe (transfer : list byte) (packets : list (list byte)) : UsbtmcTransport Pipe :=
  mkUsbtmcTransport (mkPipe transfer [] 2 packets 0) 0 0x82 0x01 1000 None 0 (Some []).

Lemma bulk_urbs_witness :
  usb_bulk_in_within 7 1000 (test_pipe (as_bytes (str "abcde")) []) = (Ok (as_bytes (str "abcde")), test_pipe [] []).
Proof.
  apply (proj2 (proj2 (bulk_urbs (test_pipe [] []) (test_pipe (as_bytes (str "abcde")) []) 7 1000 [] ltac:(lia)))).
  by vm_compute.
Defined.

(** The tagged pairs and the last service request among interrupt packets. *)
Definition tagged_of (packet : list byte) : list (Z * Z) :=
  match packet with
  | c1 :: c2 :: _ => if NOTIFY_SRQ <? u8 c1 then [(Z.land (u8 c1) 0x7f, u8 c2)] else []
  | _ => []
  end.
Definition srq_of (old : option Z) (packet : list byte) : option Z :=
  match packet with
  | c1 :: c2 :: _ => if u8 c1 =? NOTIFY_SRQ then Some (u8 c2) else old
  | _ => old
  end.

Lemma on_interrupts {U} packets : forall (t : UsbtmcTransport U) q, status_bytes t = Some q ->
  status_bytes (foldl on_interrupt t packets) = Some (q ++ concat (map tagged_of packets)) /\
  srq_status (foldl on_interrupt t packets) = foldl srq_of (srq_status t) packets.
Proof.
  induction packets as [|p packets IH]; intros t q Hq; cbn [foldl map concat]; [by rewrite app_nil_r|].
  rewrite app_assoc. enough (status_bytes (on_interrupt t p) = Some (q ++ tagged_of p) /\
    srq_status (on_interrupt t p) = srq_of (srq_status t) p) as [H1 <-] by by apply IH.
  unfold on_interrupt, tagged_of, srq_of. destruct p as [|c1 [|c2 p]]; [by rewrite app_nil_r..|].
  destruct (Z.eqb_spec (u8 c1) NOTIFY_SRQ) as [->|]; [by rewrite Z.ltb_irrefl, app_nil_r|].
  destruct (NOTIFY_SRQ <? u8 c1); cbn; [by rewrite Hq|by rewrite app_nil_r].
Qed.

Lemma take_tagged_app tag q1 stb q2 : Forall (fun p => p.1 <> tag) q1 ->
  take_tagged tag (q1 ++ (tag, stb) :: q2) = (Some stb, q2).
Proof.
  induction 1 as [|[g s] q1 Hg _ IH]; cbn [app take_tagged]; [by rewrite Z.eqb_refl|].
  by rewrite (proj2 (Z.eqb_neq g tag)).
Qed.

(** the interrupt endpoint.  A poll under a tag from 2 to 127 gets the byte
    of the first packet that answers that tag, whatever stale answers are
    queued before it and whatever service requests and malformed packets
    arrive in between; those service requests are latched, the last one
    winning, and neither kind of packet is ever taken for the other. *)
Theorem notification_matched {U} `{UsbHost U} (t : UsbtmcTransport U) q tag wait before c after u : 2 <= tag <= 127 ->
  status_bytes t = Some q -> Forall (fun p => p.1 <> tag) q ->
  interrupts_within wait (usb t) = (before ++ [b8 (0x80 + tag); c] :: after, u) ->
  Forall (fun p => p.1 <> tag) (concat (map tagged_of before)) ->
  exists t', usb_status_byte_notification tag wait t = (Ok (u8 c), t') /\
    srq_status t' = foldl srq_of (srq_status t) (before ++ after) /\
    status_bytes t' = Some (concat (map tagged_of after)).
Proof.
  intros Ht Hq Hold Hin Hbefore. unfold usb_status_byte_notification. rewrite Hq, Hin.
  set (packets := before ++ _ :: after).
  destruct (on_interrupts packets (with_usb t u) q Hq) as [-> Hs]. cbn [default].
  assert (Hb1 : u8 (b8 (128 + tag)) = 128 + tag) by (rewrite u8_b8, as_u8_id; unfold in_u8; lia).
  assert (E : tagged_of [b8 (128 + tag); c] = [(tag, u8 c)]).
  { unfold tagged_of. rewrite Hb1. unfold NOTIFY_SRQ. rewrite (proj2 (Z.ltb_lt 129 (128 + tag))) by lia.
    change 127 with (Z.ones 7). rewrite Z.land_ones by lia. change (2 ^ 7) with 128.
    by replace (128 + tag) with (tag + 1 * 128) by lia; rewrite Z.mod_add, Z.mod_small by lia. }
  unfold packets. rewrite map_app, concat_app. cbn [map concat]. rewrite E, app_assoc. cbn [app].
  cbn [id]. rewrite take_tagged_app by by apply Forall_app. eexists. split_and!; [done| |done].
  cbn [srq_status with_queue]. unfold packets in Hs. rewrite Hs, !foldl_app. cbn [foldl with_usb srq_status srq_of].
  rewrite Hb1. unfold NOTIFY_SRQ. by rewrite (proj2 (Z.eqb_neq (128 + tag) 129)) by lia.
Qed.

Lemma notification_matched_witness : exists t',
  usb_status_byte_notification 5 1000 (test_pipe [] [[x81; x50]; [x84; x11]; [x85; x40]; [x81; x60]]) = (Ok 0x40, t') /\
  srq_status t' = Some 0x60 /\ status_bytes t' = Some [].
Proof.
  apply (notification_matched (test_pipe [] [[x81; x50]; [x84; x11]; [x85; x40]; [x81; x60]]) [] 5 1000
    [[x81; x50]; [x84; x11]] x40 [[x81; x60]] (mkPipe [] [] 2 [] 0)); [lia|done|constructor|by vm_compute|].
  by repeat constructor.
Defined.

End UsbtmcUsb.
