(* ===== verification/NiMsg.v ===== *)
(** * NI GPIB-USB-HS wire format: [src/backend/ni_usb_hs/protocol.rs]

    The framed blocks the adapter exchanges on its bulk pipe: register writes
    and reads, command and data transfers with their complemented counts, the
    status block and the read-back of data, the timeout table, the start-up
    register sequence and the rule that pairs a reply with its request.
    Bytes on the wire are [byte]; register values and codes are [u8]s as [Z].
    A loop over a buffer keeps the source's index. *)

From S2P Require Import Prelude RustStr Backend.

Module NiMsg.
Import RustStr Backend.

Definition NIUSB_IBCAC_ID : Z := 0x01.
Definition NIUSB_TERM_ID : Z := 0x04.
Definition NIUSB_IBGTS_ID : Z := 0x06.
Definition NIUSB_REG_READ_ID : Z := 0x08.
Definition NIUSB_REG_WRITE_ID : Z := 0x09.
Definition NIUSB_IBSIC_ID : Z := 0x0f.
Definition NIUSB_REGISTER_READ_DATA_START_ID : Z := 0x34.
Definition NIUSB_REGISTER_READ_DATA_END_ID : Z := 0x35.
Definition NIUSB_IBRD_DATA_ID : Z := 0x36.
Definition NIUSB_IBRD_EXTENDED_DATA_ID : Z := 0x37.
Definition NIUSB_IBRD_STATUS_ID : Z := 0x38.
Definition NIUSB_DATA_READ_OP : Z := 0x0a.
Definition NIUSB_COMMAND_OP : Z := 0x0c.
Definition NIUSB_DATA_WRITE_OP : Z := 0x0d.

Definition SUBDEV_TNT4882 : Z := 1.
Definition SUBDEV_UNKNOWN2 : Z := 2.
Definition SUBDEV_UNKNOWN3 : Z := 3.

Definition REG_ADMR : Z := 0x08.
Definition REG_AUXMR : Z := 0x0a.
Definition REG_ADR : Z := 0x0c.
Definition REG_SPMR : Z := 0x06.
Definition REG_AUXCR : Z := 0x06.
Definition REG_IMR1 : Z := 0x02.
Definition REG_IMR2 : Z := 0x04.
Definition REG_IMR3 : Z := 0x12.
Definition REG_IMR0 : Z := 0x1d.
Definition REG_HSSEL : Z := 0x0d.
Definition REG_CMDR : Z := 0x1c.
Definition CMDR_GO : Z := 0x04.
Definition CMDR_STOP : Z := 0x08.
Definition REG_KEYREG : Z := 0x17.
Definition REG_BSR : Z := 0x1f.

Definition BCSR_REN : Z := 0x01.
Definition BCSR_IFC : Z := 0x02.
Definition BCSR_SRQ : Z := 0x04.
Definition BCSR_EOI : Z := 0x08.
Definition BCSR_NRFD : Z := 0x10.
Definition BCSR_NDAC : Z := 0x20.
Definition BCSR_DAV : Z := 0x40.
Definition BCSR_ATN : Z := 0x80.

Definition AUX_PON : Z := 0x00.
Definition AUX_CPPF : Z := 0x01.
Definition AUX_CR : Z := 0x02.
Definition AUX_DSC : Z := 0x14.
Definition AUX_CIFC : Z := 0x16.
Definition AUX_CREN : Z := 0x17.
Definition AUX_SREN : Z := 0x1f.
Definition AUX_HLDI : Z := 0x51.
Definition AUX_CLEAR_END : Z := 0x55.
Definition AUXRA : Z := 0x80.
Definition HR_HLDA : Z := 0x01.
Definition HR_BIN : Z := 0x10.
Definition AUXRB : Z := 0xa0.
Definition HR_TRI : Z := 0x04.
Definition AUXRG : Z := 0x40.
Definition NTNL_BIT : Z := 0x08.
Definition AUXRI : Z := 0xe0.
Definition SISB : Z := 0x01.
Definition USTD : Z := 0x08.
Definition MSTD : Z := 0x20.
Definition CMDR_SOFT_RESET : Z := 0x22.
Definition CMDR_SETSC : Z := 0x03.
Definition CMDR_CLRSC : Z := 0x02.
Definition TNT_ONE_CHIP_BIT : Z := 0x01.
Definition TNT_IMR0_ALWAYS_BITS : Z := 0x80.
Definition HR_LON : Z := 0x40.
Definition HR_TON : Z := 0x80.
Definition AUX_FH : Z := 0x03.
Definition ADR_DISABLE_SAD : Z := 0xe0.
Definition ADMR_DISABLE_SAD : Z := 0x31.

Definition GPIB_GTL : Z := 0x01.
Definition GPIB_SDC : Z := 0x04.
Definition GPIB_GET : Z := 0x08.
Definition GPIB_SPE : Z := 0x18.
Definition GPIB_SPD : Z := 0x19.
Definition GPIB_LLO : Z := 0x11.
Definition GPIB_UNL : Z := 0x3f.
Definition GPIB_UNT : Z := 0x5f.

Definition listen_address (pad : Z) : Z := Z.lor 0x20 (Z.land pad 0x1f).
Definition talk_address (pad : Z) : Z := Z.lor 0x40 (Z.land pad 0x1f).

Definition IBSTA_DCAS : Z := 0x0001.
Definition IBSTA_DTAS : Z := 0x0002.
Definition IBSTA_LACS : Z := 0x0004.
Definition IBSTA_TACS : Z := 0x0008.
Definition IBSTA_ATN : Z := 0x0010.
Definition IBSTA_CIC : Z := 0x0020.
Definition IBSTA_REM : Z := 0x0040.
Definition IBSTA_LOK : Z := 0x0080.
Definition IBSTA_SRQI : Z := 0x1000.
Definition IBSTA_END : Z := 0x2000.
Definition IBSTA_TIMO : Z := 0x4000.

Definition any_of (bits : list Z) : Z := foldl Z.lor 0 bits.
Definition IBSTA_DEFINED_BITS : Z :=
  any_of [IBSTA_DCAS; IBSTA_DTAS; IBSTA_LACS; IBSTA_TACS; IBSTA_ATN; IBSTA_CIC; IBSTA_REM; IBSTA_LOK; IBSTA_SRQI;
          IBSTA_END; IBSTA_TIMO].
Definition IBSTA_MONITOR_MASK : Z :=
  any_of [IBSTA_SRQI; IBSTA_LOK; IBSTA_REM; IBSTA_CIC; IBSTA_ATN; IBSTA_TACS; IBSTA_LACS; IBSTA_DTAS; IBSTA_DCAS].

Definition NIUSB_NO_ERROR : Z := 0.
Definition NIUSB_ABORTED_ERROR : Z := 1.
Definition NIUSB_ATN_STATE_ERROR : Z := 2.
Definition NIUSB_ADDRESSING_ERROR : Z := 3.
Definition NIUSB_EOSMODE_ERROR : Z := 4.
Definition NIUSB_NO_BUS_ERROR : Z := 5.
Definition NIUSB_NO_LISTENER_ERROR : Z := 8.
Definition NIUSB_TIMEOUT_ERROR : Z := 10.

Definition MAX_TRANSFER_LEN : Z := 0xffff.
Definition MAX_COMMAND_LEN : Z := 0x10.

Record NiRegister : Type := mkNiRegister { device : Z; address : Z; value : Z }.

Record StatusBlock : Type := mkStatusBlock { id : Z; ibsta : Z; error_code : Z; count : Z }.

#[export] Instance NiRegister_eq_dec : EqDecision NiRegister.
Proof. solve_decision. Defined.
#[export] Instance StatusBlock_eq_dec : EqDecision StatusBlock.
Proof. solve_decision. Defined.

(** ** Framing *)

Definition termination : list byte := [b8 NIUSB_TERM_ID; x00; x00; x00].
(** [push_termination]. *)
Definition push_termination (buf : list byte) : list byte := buf ++ termination.
Definition pad_to_4 (buf : list byte) : list byte := buf ++ replicate (Z.to_nat ((- zlen buf) mod 4)) x00.

(** [buf.get(i).copied()]. *)
Definition get (buf : list byte) (i : Z) : option Z :=
  if i <? 0 then None else option_map u8 (buf !! Z.to_nat i).
(** [buf[i]], where the length has been checked. *)
Definition at_ (buf : list byte) (i : nat) : Z := u8 (default x00 (buf !! i)).

(** [!raw + 1] on 16 bits. *)
Definition negate_u16 (v : Z) : Z := as_u16 (as_u16 (Z.lnot v) + 1).

Definition parse_status_block (buf : list byte) : result StatusBlock Error :=
  if zlen buf <? 8 then Err (str "ni status block too short: " ++ to_string (zlen buf) ++ str " bytes")
  else
    let ibsta := Z.lor (Z.shiftl (at_ buf 1) 8) (at_ buf 2) in
    let raw_count := Z.lor (at_ buf 4) (Z.shiftl (at_ buf 5) 8) in
    Ok (mkStatusBlock (at_ buf 0) ibsta (at_ buf 3) (negate_u16 raw_count)).

Definition encode_register_write (writes : list NiRegister) : list byte :=
  push_termination (pad_to_4
    ([b8 NIUSB_REG_WRITE_ID; b8 (as_u8 (zlen writes)); x00] ++
     concat (map (fun r => [b8 (device r); b8 (address r); b8 (value r)]) writes))).

Definition parse_register_write_response (buf : list byte) : result (StatusBlock * Z) Error :=
  if negb (zlen buf =? 16) then
    Err (str "ni register-write response must be 16 bytes, got " ++ to_string (zlen buf))
  else
    let? status := parse_status_block buf in
    let writes_completed := at_ buf 8 in
    if negb (id status =? NIUSB_REG_WRITE_ID) then Err (str "ni register-write bad id: " ++ hex_byte (id status))
    else if negb (error_code status =? 0) then
      Err (str "ni register-write error code " ++ hex_byte (error_code status))
    else Ok (status, writes_completed).

Definition encode_register_read (reads : list (Z * Z)) : list byte :=
  push_termination (pad_to_4
    ([b8 NIUSB_REG_READ_ID; b8 (as_u8 (zlen reads))] ++ concat (map (fun r => [b8 r.1; b8 r.2]) reads))).

(** The inner [for _ in 0..3], from [k] turns left. *)
Fixpoint read_chunk (k : nat) (buf : list byte) (i : Z) (out : list byte) (num : Z) : result (Z * list byte) Error :=
  match k with
  | O => Ok (i, out)
  | S k =>
      if zlen out =? num then Ok (i, out)
      else
        match get buf i with
        | None => Err (str "ni register-read truncated")
        | Some b => read_chunk k buf (i + 1) (out ++ [b8 b]) num
        end
  end.

(** The outer [while out.len() < num]: each turn brings at least a byte, so [num]
    turns are enough. *)
Fixpoint read_chunks (fuel : nat) (buf : list byte) (i : Z) (out : list byte) (num : Z) : result (Z * list byte) Error :=
  match fuel with
  | O => Ok (i, out)
  | S fuel =>
      if zlen out <? num then
        if decide (get buf i = Some NIUSB_REGISTER_READ_DATA_START_ID) then
          let? (i, out) := read_chunk 3 buf (i + 1) out num in
          read_chunks fuel buf i out num
        else Err (str "ni register-read: missing chunk start id at offset " ++ to_string i)
      else Ok (i, out)
  end.

Definition align_4 (i : Z) : Z := i + (- i) mod 4.

Definition parse_register_read_response (buf : list byte) (num : Z) : result (list byte) Error :=
  let? (i, out) := read_chunks (Z.to_nat num) buf 0 [] num in
  let i := align_4 i in
  if decide (get buf i = Some NIUSB_REGISTER_READ_DATA_END_ID) then Ok out
  else Err (str "ni register-read: missing end id at offset " ++ to_string i).

(** ** Transfers *)

(** [!((len as uN).wrapping_sub(1))]. *)
Definition complement_u8 (len : Z) : Z := as_u8 (Z.lnot (as_u8 (as_u8 len - 1))).
Definition complement_u16 (len : Z) : Z := as_u16 (Z.lnot (as_u16 (as_u16 len - 1))).

Definition encode_command (cmd : list byte) (timeout_code : Z) : list byte :=
  push_termination (pad_to_4
    ([b8 NIUSB_COMMAND_OP; b8 (complement_u8 (zlen cmd)); x00; b8 timeout_code] ++ cmd)).

Definition encode_data_write (data : list byte) (send_eoi : bool) (timeout_code : Z) : list byte :=
  let complement := complement_u16 (zlen data) in
  push_termination (pad_to_4
    ([b8 NIUSB_DATA_WRITE_OP; b8 (Z.land complement 0xff); b8 (Z.shiftr complement 8); b8 timeout_code; x00; x00;
      b8 (if send_eoi then 0x08 else 0x00); x00] ++ data)).

Definition parse_write_response (buf : list byte) (requested : Z) : result Z Error :=
  let? status := parse_status_block buf in
  let code := error_code status in
  if (code =? NIUSB_NO_ERROR) || (code =? NIUSB_ABORTED_ERROR) then Ok (Z.max 0 (requested - count status))
  else if code =? NIUSB_ATN_STATE_ERROR then Err (str "ni write: ATN asserted during transfer")
  else if code =? NIUSB_ADDRESSING_ERROR then Err (str "ni write: addressing error (controller not in LACS/TACS)")
  else if code =? NIUSB_EOSMODE_ERROR then
    Err (str "ni write: eos-mode error (bad eos bits, invalid timeout code, or >16 command bytes in one transfer)")
  else if code =? NIUSB_NO_BUS_ERROR then Err (str "ni write: no devices on the GPIB bus")
  else if code =? NIUSB_NO_LISTENER_ERROR then Err (str "ni write: no listener on bus")
  else if code =? NIUSB_TIMEOUT_ERROR then Err (str "ni write: timeout")
  else Err (str "ni write: error code " ++ hex_byte code).

Definition encode_data_read_with_aux (len eos_mode eos_char timeout_code : Z) (aux : list Z) : list byte :=
  let complement := complement_u16 len in
  push_termination (pad_to_4
    ([b8 NIUSB_DATA_READ_OP; b8 (Z.shiftr eos_mode 8); b8 eos_char; b8 timeout_code; b8 (Z.land complement 0xff);
      b8 (Z.shiftr complement 8); x00; x00; b8 NIUSB_REG_WRITE_ID; b8 (as_u8 (zlen aux)); x00] ++
     concat (map (fun cmd => [b8 SUBDEV_TNT4882; b8 REG_AUXMR; b8 cmd]) aux))).

Definition encode_data_read (len eos_mode eos_char timeout_code : Z) : list byte :=
  encode_data_read_with_aux len eos_mode eos_char timeout_code [AUX_CLEAR_END].

(** Where the data blocks of a read response end: the index behind them, their
    bytes, their number and the length of the last. *)
Record Blocks : Type := mkBlocks { b_index : Z; b_data : list byte; b_num : Z; b_len : Z }.

(** The [loop] over data blocks, which takes at least sixteen bytes a turn. *)
Fixpoint read_blocks (fuel : nat) (buf : list byte) (i : Z) (data : list byte) (num len : Z) : result Blocks Error :=
  match fuel with
  | O => Ok (mkBlocks i data num len)
  | S fuel =>
      let block (block_len i : Z) :=
        if zlen buf - i <? block_len then Err (str "ni read: data block truncated")
        else read_blocks fuel buf (i + block_len) (data ++ ztake block_len (zdrop i buf)) (num + 1) block_len in
      if decide (get buf i = Some NIUSB_IBRD_DATA_ID) then block 15 (i + 1)
      else if decide (get buf i = Some NIUSB_IBRD_EXTENDED_DATA_ID) then
        if decide (get buf (i + 1) = Some 0) then block 30 (i + 2)
        else Err (str "ni read: extended block missing zero byte at " ++ to_string (i + 1))
      else Ok (mkBlocks i data num len)
  end.

Definition check_read_code (code : Z) : result unit Error :=
  if (code =? NIUSB_NO_ERROR) || (code =? NIUSB_ABORTED_ERROR) || (code =? NIUSB_TIMEOUT_ERROR) then Ok tt
  else if code =? NIUSB_ATN_STATE_ERROR then Err (str "ni read: ATN asserted during transfer")
  else if code =? NIUSB_ADDRESSING_ERROR then Err (str "ni read: addressing error (controller not in LACS/TACS)")
  else if code =? NIUSB_EOSMODE_ERROR then
    Err (str "ni read: eos-mode error (bad eos bits or an invalid timeout code)")
  else if code =? NIUSB_NO_BUS_ERROR then Err (str "ni read: no devices on the GPIB bus")
  else if code =? NIUSB_NO_LISTENER_ERROR then Err (str "ni read: no listener on bus")
  else Err (str "ni read: error code " ++ hex_byte code).

Definition parse_data_read_response (buf : list byte) (max_len : Z) : result (list byte * bool) Error :=
  let? b := read_blocks (length buf) buf 0 [] 0 0 in
  let? status := parse_status_block (zdrop (b_index b) buf) in
  if negb (id status =? NIUSB_IBRD_STATUS_ID) then Err (str "ni read: bad status id " ++ hex_byte (id status))
  else
    let? _ := check_read_code (error_code status) in
    let? actual :=
      if 0 <? b_num b then
        match get buf (b_index b + 8 + 1) with
        | None => Err (str "ni read: missing length byte")
        | Some tail => Ok ((b_num b - 1) * b_len b + tail)
        end
      else Ok 0 in
    Ok (ztake (Z.min actual max_len) (b_data b), has_flag (ibsta status) IBSTA_END).

Definition encode_simple_op (id arg : Z) : list byte := push_termination [b8 id; b8 arg; x00; x00].
Definition encode_take_control (synchronous : bool) : list byte :=
  encode_simple_op NIUSB_IBCAC_ID (if synchronous then 0x01 else 0x00).
Definition encode_go_to_standby : list byte := encode_simple_op NIUSB_IBGTS_ID 0x00.
Definition encode_interface_clear : list byte := encode_simple_op NIUSB_IBSIC_ID 0x00.

(** ** Timeouts *)

(** [(bound in microseconds, code)], in the order of the [match]. *)
Definition timeout_table : list (Z * Z) :=
  [(10, 0xf1); (30, 0xf2); (100, 0xf3); (300, 0xf4); (1000, 0xf5); (3000, 0xf6); (10000, 0xf7); (30000, 0xf8);
   (100000, 0xf9); (300000, 0xfa); (1000000, 0xfb); (3000000, 0xfc); (10000000, 0xfd); (30000000, 0xfe);
   (100000000, 0xff); (300000000, 0x01); (1000000000, 0x02)].

Definition timeout_code (timeout_ms : Z) : Z :=
  let usec := timeout_ms * 1000 in
  if usec =? 0 then 0xf0
  else match List.find (fun p => usec <=? p.1) timeout_table with Some (_, c) => c | None => 0xf0 end.

Definition TIMEOUT_STEPS_MS : list (Z * Z) :=
  [(1000000, 0x02); (300000, 0x01); (100000, 0xff); (30000, 0xfe); (10000, 0xfd); (3000, 0xfc); (1000, 0xfb);
   (300, 0xfa); (100, 0xf9); (30, 0xf8); (10, 0xf7); (3, 0xf6); (1, 0xf5)].

Definition ADAPTER_WAIT_FOREVER_MS : Z := 4294967295.

Definition timeout_code_floor (timeout_ms : Z) : Z * Z :=
  if timeout_ms =? 0 then (0xf0, ADAPTER_WAIT_FOREVER_MS)
  else match List.find (fun p => p.1 <=? timeout_ms) TIMEOUT_STEPS_MS with
       | Some (ms, code) => (code, ms)
       | None => (0xf5, 1)
       end.

(** ** Pairing and start-up *)

Definition reply_answers_request (request reply : list byte) : bool :=
  match request, reply with
  | r :: _, p :: _ =>
      let op := u8 r in
      let id := u8 p in
      if op =? NIUSB_DATA_READ_OP then
        (id =? NIUSB_IBRD_DATA_ID) || (id =? NIUSB_IBRD_EXTENDED_DATA_ID) || (id =? NIUSB_IBRD_STATUS_ID)
      else if op =? NIUSB_REG_READ_ID then
        (id =? NIUSB_REGISTER_READ_DATA_START_ID) || (id =? NIUSB_REGISTER_READ_DATA_END_ID)
      else id =? op
  | _, _ => true
  end.

Definition setup_t1_delay (ns : Z) : list NiRegister :=
  let auxri := any_of [AUXRI; SISB; if ns <=? 1100 then USTD else 0] in
  let auxrb := Z.lor AUXRB (if ns <=? 500 then HR_TRI else 0) in
  let keyreg := if ns <=? 350 then MSTD else 0x00 in
  [mkNiRegister SUBDEV_TNT4882 REG_AUXMR auxri; mkNiRegister SUBDEV_TNT4882 REG_AUXMR auxrb;
   mkNiRegister SUBDEV_TNT4882 REG_KEYREG keyreg].

Definition setup_disable_sad : list NiRegister :=
  [mkNiRegister SUBDEV_TNT4882 REG_ADR ADR_DISABLE_SAD; mkNiRegister SUBDEV_TNT4882 REG_ADMR ADMR_DISABLE_SAD;
   mkNiRegister SUBDEV_UNKNOWN2 0x01 0x00].

Definition setup_init (pad eos_mode : Z) : list NiRegister :=
  let tnt := SUBDEV_TNT4882 in
  let auxra := any_of [AUXRA; HR_HLDA; if has_flag eos_mode 0x0400 then HR_BIN else 0] in
  [mkNiRegister SUBDEV_UNKNOWN3 0x10 0x00;
   mkNiRegister tnt REG_CMDR CMDR_SOFT_RESET;
   mkNiRegister tnt REG_AUXMR auxra;
   mkNiRegister tnt REG_AUXCR auxra;
   mkNiRegister tnt REG_HSSEL TNT_ONE_CHIP_BIT;
   mkNiRegister tnt REG_AUXMR AUX_CR;
   mkNiRegister tnt REG_IMR0 TNT_IMR0_ALWAYS_BITS;
   mkNiRegister tnt REG_IMR1 0x00;
   mkNiRegister tnt REG_IMR2 0x00;
   mkNiRegister tnt REG_IMR3 0x00;
   mkNiRegister tnt REG_AUXMR AUX_HLDI] ++
  setup_t1_delay 500 ++
  [mkNiRegister tnt REG_AUXMR (Z.lor AUXRG NTNL_BIT);
   mkNiRegister tnt REG_CMDR CMDR_SETSC;
   mkNiRegister tnt REG_AUXMR AUX_CIFC;
   mkNiRegister tnt REG_ADR (Z.land pad 0x1f);
   mkNiRegister SUBDEV_UNKNOWN2 0x00 (Z.land pad 0x1f)] ++
  setup_disable_sad ++
  [mkNiRegister SUBDEV_UNKNOWN2 0x02 0xfd;
   mkNiRegister tnt 0x0f 0x11;
   mkNiRegister tnt REG_AUXMR AUX_PON;
   mkNiRegister tnt REG_AUXMR AUX_CPPF].

(** ** The adapter's side

    What the adapter sends, for the round trips: a status block, and a data
    read's answer in blocks of 15 bytes (or 30, behind a zero byte), the last
    one padded and its real length given behind the status block. *)
Definition status_block (id ibsta code residual : Z) : list byte :=
  let c := negate_u16 residual in
  [b8 id; b8 (Z.shiftr ibsta 8); b8 ibsta; b8 code; b8 c; b8 (Z.shiftr c 8); x00; x00].

Definition block_prefix (extended : bool) : list byte :=
  if extended then [b8 NIUSB_IBRD_EXTENDED_DATA_ID; x00] else [b8 NIUSB_IBRD_DATA_ID].
Definition block_size (extended : bool) : Z := if extended then 30 else 15.

(** A block's bytes, zero-padded. *)
Definition padded (n : Z) (d : list byte) : list byte := d ++ replicate (Z.to_nat (n - zlen d)) x00.

Fixpoint data_blocks (fuel : nat) (extended : bool) (data : list byte) : list byte :=
  match fuel with
  | O => []
  | S fuel =>
      match data with
      | [] => []
      | _ => block_prefix extended ++ padded (block_size extended) (ztake (block_size extended) data) ++
             data_blocks fuel extended (zdrop (block_size extended) data)
      end
  end.

(** The length of the last block: 1 to [n] for data of that block size. *)
Definition last_len (n : Z) (data : list byte) : Z := (zlen data - 1) mod n + 1.

Definition read_response (extended : bool) (data : list byte) (ibsta code residual : Z) (trailer : list byte) : list byte :=
  data_blocks (length data) extended data ++ status_block NIUSB_IBRD_STATUS_ID ibsta code residual ++
  [x00; b8 (last_len (block_size extended) data)] ++ trailer.

(** ** Lemmas *)

Lemma get_app pre l : get (pre ++ l) (zlen pre) = option_map u8 (head l).
Proof.
  unfold get, zlen. destruct (Z.ltb_spec (Z.of_nat (length pre)) 0); [lia|]. rewrite Nat2Z.id.
  rewrite lookup_app_r by lia. rewrite Nat.sub_diag. by destruct l.
Qed.
Lemma get_app_at pre l i : i = zlen pre -> get (pre ++ l) i = option_map u8 (head l).
Proof. intros ->. apply get_app. Qed.

Lemma zlen_padded n d : zlen d <= n -> zlen (padded n d) = n.
Proof. intros. unfold padded. rewrite zlen_app, zlen_replicate. lia. Qed.
Lemma zlen_prefix e : zlen (block_prefix e) = if e then 2 else 1.
Proof. by destruct e. Qed.

Lemma word_u16 v : in_u16 v -> Z.lor (Z.shiftl (u8 (b8 (Z.shiftr v 8))) 8) (u8 (b8 v)) = v.
Proof.
  intros Hv. unfold in_u16 in Hv. rewrite !u8_b8. unfold as_u8. rewrite Z.shiftr_div_pow2, Z.shiftl_mul_pow2 by lia.
  change (2 ^ 8) with 256. rewrite (Z.mod_small (v / 256)).
  - pose proof (lor_high_add (v / 256) 8 (v mod 256) ltac:(lia) (Z.mod_pos_bound v 256 ltac:(lia))) as E.
    change (2 ^ 8) with 256 in E. rewrite E. pose proof (Z.div_mod v 256). lia.
  - split; [apply Z.div_pos; lia|apply Z.div_lt_upper_bound; lia].
Qed.

Lemma lnot_u16 v : in_u16 v -> as_u16 (Z.lnot v) = 65535 - v.
Proof.
  intros Hv. unfold as_u16, in_u16, Z.lnot in *. rewrite <- (Z.mod_add _ 1) by lia. rewrite Z.mod_small; lia.
Qed.

Lemma negate_u16_eq v : in_u16 v -> negate_u16 v = (65536 - v) mod 65536.
Proof. intros Hv. unfold negate_u16. rewrite lnot_u16 by done. unfold as_u16. f_equal. lia. Qed.
Lemma negate_u16_invol v : in_u16 v -> in_u16 (negate_u16 v) /\ negate_u16 (negate_u16 v) = v.
Proof.
  intros Hv. pose proof (negate_u16_eq v Hv) as E. unfold in_u16 in *.
  assert (0 <= negate_u16 v < 65536) by (rewrite E; apply Z.mod_pos_bound; lia). split; [done|].
  rewrite negate_u16_eq by done. rewrite E. destruct (Z.eq_dec v 0) as [->|]; [done|].
  rewrite (Z.mod_small (65536 - v)) by lia. rewrite Z.mod_small; lia.
Qed.

Lemma status_block_parses i ib code residual l : in_u8 i -> in_u16 ib -> in_u8 code -> in_u16 residual ->
  parse_status_block (status_block i ib code residual ++ l) = Ok (mkStatusBlock i ib code residual).
Proof.
  intros Hi Hs Hc Hr. unfold parse_status_block. destruct (negate_u16_invol residual Hr) as [Hn En].
  assert (Hl : 8 <= zlen (status_block i ib code residual ++ l)) by (rewrite zlen_app; unfold zlen at 1; simpl; zlen_solve).
  rewrite (proj2 (Z.ltb_ge _ 8) Hl). set (c := negate_u16 residual) in *. set (buf := status_block _ _ _ _ ++ l).
  change (at_ buf 0) with (u8 (b8 i)). change (at_ buf 1) with (u8 (b8 (Z.shiftr ib 8))).
  change (at_ buf 2) with (u8 (b8 ib)). change (at_ buf 3) with (u8 (b8 code)).
  change (at_ buf 4) with (u8 (b8 c)). change (at_ buf 5) with (u8 (b8 (Z.shiftr c 8))).
  rewrite (Z.lor_comm (u8 (b8 c))), !word_u16 by done. rewrite En, !u8_b8, !as_u8_id by done. done.
Qed.

Lemma block_size_pos e : 15 <= block_size e <= 30.
Proof. destruct e; unfold block_size; lia. Qed.

(** One block in front of the loop. *)
Lemma read_blocks_step f e pre body rest acc num len : zlen body = block_size e ->
  read_blocks (S f) (pre ++ block_prefix e ++ body ++ rest) (zlen pre) acc num len =
  read_blocks f (pre ++ block_prefix e ++ body ++ rest) (zlen (pre ++ block_prefix e ++ body)) (acc ++ body) (num + 1)
    (block_size e).
Proof.
  intros Hb. pose proof (zlen_nonneg rest). set (buf := pre ++ _).
  assert (Hd : zdrop (zlen pre + zlen (block_prefix e)) buf = body ++ rest).
  { unfold buf. rewrite app_assoc. apply zdrop_app_zlen. by rewrite zlen_app. }
  assert (Hz : zlen buf - (zlen pre + zlen (block_prefix e)) = block_size e + zlen rest)
    by (unfold buf; rewrite !zlen_app; lia).
  assert (Hg : get buf (zlen pre) = option_map u8 (head (block_prefix e))) by (unfold buf; rewrite get_app; by destruct e).
  assert (Hg' : e = true -> get buf (zlen pre + 1) = Some 0).
  { intros ->. unfold buf. change (block_prefix true ++ body ++ rest)
      with ([b8 NIUSB_IBRD_EXTENDED_DATA_ID] ++ x00 :: body ++ rest).
    rewrite app_assoc. rewrite (get_app_at (pre ++ _)); [done|]. by rewrite zlen_app. }
  replace (zlen (pre ++ block_prefix e ++ body)) with (zlen pre + zlen (block_prefix e) + block_size e)
    by (rewrite !zlen_app; lia).
  cbn [read_blocks]. rewrite Hg. clearbody buf. destruct e; cbn [block_prefix block_size head option_map zlen length] in *.
  - rewrite decide_False by done. rewrite decide_True by done. rewrite decide_True by by apply Hg'.
    change (zlen [_; _]) with 2 in *. rewrite Hz, Hd, (proj2 (Z.ltb_ge _ _)), ztake_app_zlen by (done || lia). done.
  - rewrite decide_True by done. change (zlen [_]) with 1 in *.
    rewrite Hz, Hd, (proj2 (Z.ltb_ge _ _)), ztake_app_zlen by (done || lia). done.
Qed.

(** The loop over an adapter's blocks collects the data, and then padding. *)
Lemma read_blocks_data e tail : forall fuel f data pre acc num len, (length data <= fuel)%nat -> (length data < f)%nat ->
  let body := data_blocks fuel e data in
  exists k n, read_blocks f (pre ++ body ++ b8 NIUSB_IBRD_STATUS_ID :: tail) (zlen pre) acc num len =
      Ok (mkBlocks (zlen (pre ++ body)) (acc ++ data ++ replicate k x00) (num + n)
            (match data with [] => len | _ => block_size e end)) /\
    match data with [] => n = 0 | _ => n = (zlen data - 1) / block_size e + 1 end.
Proof.
  induction fuel as [|fuel IH]; intros f data pre acc num len Hf Hf' body.
  { destruct data; [|simpl in Hf; lia]. exists 0%nat, 0. split; [|done]. unfold body. cbn [data_blocks replicate app].
    destruct f; [lia|]. cbn [read_blocks]. rewrite get_app, !app_nil_r, Z.add_0_r. done. }
  destruct data as [|c data].
  { exists 0%nat, 0. split; [|done]. unfold body. cbn [data_blocks replicate app].
    destruct f; [lia|]. cbn [read_blocks]. rewrite get_app, !app_nil_r, Z.add_0_r. done. }
  destruct f as [|f]; [lia|]. unfold body. cbn [data_blocks]. set (d := c :: data) in *. set (bs := block_size e).
  pose proof (block_size_pos e) as Hbs. fold bs in Hbs. assert (Hd : 1 <= zlen d) by (unfold d; zlen_solve).
  assert (Hp : zlen (padded bs (ztake bs d)) = bs)
    by (apply zlen_padded; unfold zlen, ztake; rewrite length_take; lia).
  set (blk := padded bs (ztake bs d)) in *. rewrite <- !app_assoc. rewrite read_blocks_step by done. fold bs.
  assert (Hld : (length (zdrop bs d) <= fuel)%nat /\ (length (zdrop bs d) < f)%nat).
  { unfold zdrop, d in *. rewrite length_drop. cbn [length] in *. lia. }
  destruct (IH f (zdrop bs d) (pre ++ block_prefix e ++ blk) (acc ++ blk) (num + 1) bs (proj1 Hld) (proj2 Hld))
    as (k & n & E & En).
  rewrite <- !app_assoc in E. rewrite E. destruct (Z_le_gt_dec (zlen d) bs) as [Hs|Hs].
  - assert (Ez : zdrop bs d = []) by (apply zdrop_nil_iff; lia). rewrite Ez in *. subst n.
    exists (Z.to_nat (bs - zlen d) + k)%nat, 1. assert (Edb : data_blocks fuel e [] = []) by by destruct fuel.
    rewrite Z.add_0_r. cbn [app]. split.
    + assert (Hdata : acc ++ d ++ replicate (Z.to_nat (bs - zlen d) + k) x00 = acc ++ blk ++ replicate k x00).
      { rewrite replicate_add. unfold blk, padded. rewrite ztake_all by lia. by rewrite <- app_assoc. }
      by rewrite Hdata.
    + rewrite Z.div_small by lia. done.
  - assert (Eb : blk = ztake bs d).
    { unfold blk, padded. rewrite zlen_ztake by lia. rewrite Z.sub_diag. by rewrite app_nil_r. }
    exists k, (1 + n). split.
    + rewrite Eb. destruct (zdrop bs d) as [|c' d'] eqn:Ez; [apply zdrop_nil_iff in Ez; lia|]. rewrite <- Ez.
      assert (Hdata : acc ++ d ++ replicate k x00 = acc ++ ztake bs d ++ zdrop bs d ++ replicate k x00)
        by (rewrite (app_assoc (ztake bs d)); by rewrite ztake_zdrop).
      by rewrite Hdata, Z.add_assoc.
    + destruct (zdrop bs d) as [|c' d'] eqn:Ez; [apply zdrop_nil_iff in Ez; lia|]. rewrite En, <- Ez, zlen_zdrop by lia.
      replace (zlen d - 1) with (zlen d - bs - 1 + 1 * bs) by lia. rewrite Z.div_add by lia. fold bs. lia.
Qed.

Lemma read_blocks_length e fuel : forall data, (length data <= fuel)%nat ->
  (length data <= length (data_blocks fuel e data))%nat.
Proof.
  induction fuel as [|fuel IH]; intros [|c data] Hf; simpl length in *; try lia. cbn [data_blocks].
  set (d := c :: data) in *. set (bs := block_size e). pose proof (block_size_pos e) as Hbs. fold bs in Hbs.
  specialize (IH (zdrop bs d)). rewrite !length_app. unfold padded, ztake, zdrop in *. rewrite length_app, length_take.
  rewrite length_drop in IH. unfold d in *. cbn [length] in *. lia.
Qed.

Lemma read_response_parses e data ib code residual trailer max_len : in_u16 ib -> in_u16 residual ->
  code = NIUSB_NO_ERROR \/ code = NIUSB_ABORTED_ERROR \/ code = NIUSB_TIMEOUT_ERROR ->
  parse_data_read_response (read_response e data ib code residual trailer) max_len =
    Ok (ztake max_len data, has_flag ib IBSTA_END).
Proof.
  intros Hib Hr Hc. set (bs := block_size e). pose proof (block_size_pos e) as Hbs. fold bs in Hbs.
  assert (Hcode : in_u8 code) by (unfold in_u8; destruct Hc as [->|[->| ->]]; done).
  unfold parse_data_read_response, read_response. fold bs. set (st := status_block _ _ _ _).
  set (body := data_blocks (length data) e data). set (rest := st ++ [x00; b8 (last_len bs data)] ++ trailer).
  destruct (read_blocks_data e (skipn 1 rest) (length data) (length (body ++ rest)) data [] [] 0 0) as (k & n & E & En);
    [done| |].
  { rewrite length_app. pose proof (read_blocks_length e (length data) data (le_n _)) as Hl. fold body in Hl. simpl. lia. }
  cbn [app] in E. change (b8 NIUSB_IBRD_STATUS_ID :: skipn 1 rest) with rest in E. change (zlen []) with 0 in E.
  fold body in E. rewrite E. cbn [rbind b_index b_data b_num b_len].
  rewrite (zdrop_app_zlen (zlen body) body rest) by done. unfold rest at 1, st at 1.
  rewrite status_block_parses by done. cbn [rbind id error_code ibsta]. rewrite Z.eqb_refl. cbn [negb].
  assert (check_read_code code = Ok tt) as -> by (destruct Hc as [->|[->| ->]]; done). cbn [rbind].
  match goal with |- rbind ?m _ = _ => assert (m = Ok (zlen data)) as -> end; [|cbn [rbind]; by rewrite ztake_min_app].
  assert (Hg : get (body ++ rest) (zlen body + 8 + 1) = Some (u8 (b8 (last_len bs data)))).
  { replace (body ++ rest) with (((body ++ st) ++ [x00]) ++ b8 (last_len bs data) :: trailer)
      by (unfold rest; by rewrite <- !app_assoc).
    rewrite get_app_at; [done|].
    rewrite !zlen_app. unfold st, status_block. change (zlen [_; _; _; _; _; _; _; _]) with 8. change (zlen [_]) with 1. lia. }
  rewrite Hg, u8_b8. destruct data as [|c data]; [by subst n|]. set (d := c :: data) in *.
  assert (Hd : 1 <= zlen d) by (unfold d; zlen_solve). unfold last_len.
  pose proof (Z.mod_pos_bound (zlen d - 1) bs ltac:(lia)) as Hm. rewrite as_u8_id by (unfold in_u8; lia).
  pose proof (Z.div_pos (zlen d - 1) bs ltac:(lia) ltac:(lia)) as Hq. fold bs in En. subst n.
  rewrite (proj2 (Z.ltb_lt _ _)) by lia. f_equal. pose proof (Z.div_mod (zlen d - 1) bs ltac:(lia)). fold bs. lia.
Qed.

Lemma parse_read_bound buf max_len d e : parse_data_read_response buf max_len = Ok (d, e) -> zlen d <= Z.max 0 max_len.
Proof.
  unfold parse_data_read_response. intros (b & _ & H)%rbind_Ok. apply rbind_Ok in H as (st & _ & H).
  destruct (negb _); [done|]. apply rbind_Ok in H as (_ & _ & H). apply rbind_Ok in H as (actual & _ & H).
  simplify_eq. unfold zlen, ztake. rewrite length_take. lia.
Qed.

Lemma read_chunk_out k : forall buf i out num j o, zlen out <= num -> read_chunk k buf i out num = Ok (j, o) ->
  zlen out <= zlen o <= num /\ ((0 < k)%nat -> zlen out < num -> zlen out < zlen o).
Proof.
  induction k as [|k IH]; intros buf i out num j o Ho; cbn [read_chunk]; [intros [= <- <-]; lia|].
  destruct (Z.eqb_spec (zlen out) num); [intros [= <- <-]; lia|]. destruct (get buf i) as [c|]; [|done].
  intros H%IH; rewrite zlen_app in *; change (zlen [_]) with 1 in *; lia.
Qed.

Lemma read_chunks_out fuel : forall buf i out num j o, zlen out <= num -> num - zlen out <= Z.of_nat fuel ->
  read_chunks fuel buf i out num = Ok (j, o) -> zlen o = num.
Proof.
  induction fuel as [|fuel IH]; intros buf i out num j o Ho Hf; cbn [read_chunks]; [intros [= <- <-]; lia|].
  destruct (Z.ltb_spec (zlen out) num); [|intros [= <- <-]; lia]. case_decide; [|done].
  destruct (read_chunk 3 buf (i + 1) out num) as [[i' out']|] eqn:E; [|done]. cbn [rbind].
  apply read_chunk_out in E as [? Hp]; [|done]. specialize (Hp ltac:(lia) ltac:(done)). apply IH; lia.
Qed.

(** ** Properties *)

(** C33: reading back.  Whatever the adapter read from the bus - any number of
    bytes, in blocks of 15 or of 30, with any padding, residual count and
    trailer - is decoded to exactly those bytes, up to the size asked for, and
    the end is reported exactly when the status says so; this holds for a read
    the adapter ended early or timed out too.  And no response, however
    malformed, yields more than was asked for, nor a register read anything
    but the number of values asked for. *)
Theorem ni_read_roundtrip e data ib code residual trailer max_len : in_u16 ib -> in_u16 residual ->
  code = NIUSB_NO_ERROR \/ code = NIUSB_ABORTED_ERROR \/ code = NIUSB_TIMEOUT_ERROR ->
  parse_data_read_response (read_response e data ib code residual trailer) max_len =
    Ok (ztake max_len data, has_flag ib IBSTA_END) /\
  (forall buf d e', parse_data_read_response buf max_len = Ok (d, e') -> zlen d <= Z.max 0 max_len) /\
  (forall buf n vals, 0 <= n -> parse_register_read_response buf n = Ok vals -> zlen vals = n).
Proof.
  intros Hib Hr Hc. split_and!; [by apply read_response_parses| |].
  - intros buf d e'. apply parse_read_bound.
  - intros buf n vals Hn. unfold parse_register_read_response. intros ([j o] & E & H)%rbind_Ok.
    apply read_chunks_out in E; [|change (zlen []) with 0; lia..]. case_decide; by simplify_eq.
Qed.

Lemma ni_read_roundtrip_witness :
  parse_data_read_response (read_response false (as_bytes (str "HEWLETT-PACKARD,34401A,0")) 0x2100 0 65500 [x09]) 100 =
    Ok (as_bytes (str "HEWLETT-PACKARD,34401A,0"), true).
Proof.
  apply (proj1 (ni_read_roundtrip false (as_bytes (str "HEWLETT-PACKARD,34401A,0")) 0x2100 0 65500 [x09] 100
    ltac:(done) ltac:(done) ltac:(by left))).
Defined.

(** The bytes the adapter is told to move: the two's complement of the count
    field. *)
Definition announced (lo hi : Z) : Z := (65536 - (lo + 256 * hi)) mod 65536.

Lemma complement_u16_eq n : 0 <= n -> complement_u16 n = (- n) mod 65536.
Proof.
  intros Hn. unfold complement_u16. assert (Hr : in_u16 (as_u16 (as_u16 n - 1))) by (apply Z.mod_pos_bound; lia).
  rewrite lnot_u16 by done. unfold as_u16. rewrite Zminus_mod_idemp_l.
  pose proof (Z.mod_pos_bound (- n) 65536 ltac:(lia)). pose proof (Z.mod_pos_bound (n - 1) 65536 ltac:(lia)).
  pose proof (Z.div_mod (- n) 65536 ltac:(lia)). pose proof (Z.div_mod (n - 1) 65536 ltac:(lia)). lia.
Qed.

Lemma pad_to_4_facts l : zlen (push_termination (pad_to_4 l)) mod 4 = 0 /\
  exists k, (k < 4)%nat /\ push_termination (pad_to_4 l) = l ++ replicate k x00 ++ termination.
Proof.
  unfold push_termination, pad_to_4. pose proof (Z.mod_pos_bound (- zlen l) 4 ltac:(lia)) as Hm. split.
  - rewrite !zlen_app, zlen_replicate, Z2Nat.id by lia. change (zlen termination) with 4.
    pose proof (Z.div_mod (- zlen l) 4 ltac:(lia)). apply Z.mod_divide; [lia|].
    exists (1 - (- zlen l) / 4). lia.
  - exists (Z.to_nat ((- zlen l) mod 4)). split; [lia|]. by rewrite app_assoc.
Qed.

Lemma announced_complement n : 0 <= n ->
  announced (u8 (b8 (Z.land (complement_u16 n) 0xff))) (u8 (b8 (Z.shiftr (complement_u16 n) 8))) = n mod 65536.
Proof.
  intros Hn. rewrite complement_u16_eq by done. set (c := (- n) mod 65536).
  assert (Hc : 0 <= c < 65536) by (apply Z.mod_pos_bound; lia). rewrite !u8_b8. unfold announced, as_u8.
  change 255 with (Z.ones 8). rewrite Z.land_ones, Z.shiftr_div_pow2 by lia. change (2 ^ 8) with 256.
  rewrite Z.mod_mod by lia. rewrite (Z.mod_small (c / 256)) by (split; [apply Z.div_pos|apply Z.div_lt_upper_bound]; lia).
  replace (c mod 256 + 256 * (c / 256)) with c by (pose proof (Z.div_mod c 256); lia). unfold c.
  rewrite Zminus_mod_idemp_r. replace (65536 - - n) with (n + 1 * 65536) by lia. by rewrite Z.mod_add by lia.
Qed.

(** C34: transfer frames.  A data write is a whole number of 4-byte words: eight
    header bytes, the data, fewer than four zero bytes and the termination
    block.  The count it announces is the number of data bytes up to 65,535,
    the limit callers keep to; 65,536 bytes would announce none.  The end flag
    is set exactly when asked for.  A read request announces its size the
    same way. *)
Theorem ni_transfer_frames data send_eoi tc : zlen data <= MAX_TRANSFER_LEN ->
  let w := encode_data_write data send_eoi tc in
  zlen w mod 4 = 0 /\
  (exists k, (k < 4)%nat /\ zdrop 8 w = data ++ replicate k x00 ++ termination) /\
  announced (at_ w 1) (at_ w 2) = zlen data /\ at_ w 6 = (if send_eoi then 8 else 0) /\
  (forall big b t, zlen big = 65536 -> announced (at_ (encode_data_write big b t) 1) (at_ (encode_data_write big b t) 2) = 0) /\
  (forall n m c t, 0 <= n <= MAX_TRANSFER_LEN ->
     announced (at_ (encode_data_read n m c t) 4) (at_ (encode_data_read n m c t) 5) = n).
Proof.
  intros Hd w. unfold MAX_TRANSFER_LEN in *. pose proof (zlen_nonneg data) as Hz. split_and!.
  - apply pad_to_4_facts.
  - unfold w, encode_data_write. edestruct pad_to_4_facts as [_ (k & Hk & ->)]. by exists k.
  - etrans; [apply announced_complement; lia|]. apply Z.mod_small. lia.
  - by destruct send_eoi.
  - intros big b t Hb. etrans; [apply announced_complement; lia|]. by rewrite Hb.
  - intros n m c t Hn. etrans; [apply announced_complement; lia|]. apply Z.mod_small. lia.
Qed.

Lemma ni_transfer_frames_witness : announced (at_ (encode_data_write (as_bytes (str "*IDN?")) true 0xfc) 1)
  (at_ (encode_data_write (as_bytes (str "*IDN?")) true 0xfc) 2) = 5.
Proof.
  apply (ni_transfer_frames (as_bytes (str "*IDN?")) true 0xfc). by vm_compute.
Defined.

(** the adapter never outlasts the daemon.  For every timeout of a
    millisecond or more, the step handed to the adapter is at most the timeout,
    is the longest such step, has the code the kernel's table gives it and is
    never the code for waiting for ever; where the timeout is a step, rounding
    down and up agree. *)
Theorem timeout_floor_sound t : 1 <= t ->
  let '(code, ms) := timeout_code_floor t in
  1 <= ms <= t /\ timeout_code ms = code /\ code <> 0xf0 /\ code <> 0x00 /\
  (forall p, In p TIMEOUT_STEPS_MS -> p.1 <= t -> p.1 <= ms) /\
  (forall p, In p TIMEOUT_STEPS_MS -> p.1 = t -> timeout_code t = code /\ ms = t).
Proof.
  intros Ht. unfold timeout_code_floor. destruct (Z.eqb_spec t 0); [lia|]. unfold TIMEOUT_STEPS_MS. cbn [List.find fst].
  repeat match goal with
  | |- context [?a <=? t] => destruct (Z.leb_spec a t); [split_and!; try done; try lia;
      (intros p Hp; repeat destruct Hp as [<-|Hp]; cbn [fst]; try done; intros; try lia; subst t; try by vm_compute; lia)|]
  end.
  lia.
Qed.

Lemma timeout_floor_sound_witness : timeout_code_floor 5000 = (0xfc, 3000) /\ timeout_code 3000 = 0xfc.
Proof.
  split; [done|]. apply (timeout_floor_sound 5000). lia.
Defined.

(** The requests, and the leading bytes the adapter answers each with. *)
Definition request_ids : list Z :=
  [NIUSB_IBCAC_ID; NIUSB_IBGTS_ID; NIUSB_IBSIC_ID; NIUSB_REG_WRITE_ID; NIUSB_REG_READ_ID; NIUSB_COMMAND_OP;
   NIUSB_DATA_WRITE_OP; NIUSB_DATA_READ_OP].
Definition reply_ids (op : Z) : list Z :=
  if op =? NIUSB_DATA_READ_OP then [NIUSB_IBRD_DATA_ID; NIUSB_IBRD_EXTENDED_DATA_ID; NIUSB_IBRD_STATUS_ID]
  else if op =? NIUSB_REG_READ_ID then [NIUSB_REGISTER_READ_DATA_START_ID; NIUSB_REGISTER_READ_DATA_END_ID]
  else [op].

(** a late reply is recognised.  Of all the adapter's requests and the
    replies to them, a reply is taken for the answer to a request exactly when
    it answers that kind of request, so a reply to an abandoned request of
    another kind is never handed to the parser of the next one. *)
Theorem replies_pair op op' i req rep : In op request_ids -> In op' request_ids -> In i (reply_ids op) ->
  reply_answers_request (b8 op' :: req) (b8 i :: rep) = bool_decide (op = op').
Proof.
  unfold request_ids. intros Hop Hop' Hi.
  repeat destruct Hop as [<-|Hop]; try done; vm_compute in Hi; repeat destruct Hi as [<-|Hi]; try done;
    repeat destruct Hop' as [<-|Hop']; done.
Qed.

Lemma replies_pair_witness : reply_answers_request (encode_data_read 100 0 0 0xfc) (status_block 0x38 0 0 0) = true /\
  reply_answers_request encode_interface_clear (status_block 0x38 0 0 0) = false.
Proof.
  split.
  - by apply (replies_pair NIUSB_DATA_READ_OP NIUSB_DATA_READ_OP 0x38); vm_compute; tauto.
  - by apply (replies_pair NIUSB_DATA_READ_OP NIUSB_IBSIC_ID 0x38); vm_compute; tauto.
Defined.

End NiMsg.
