(* ===== verification/NiUsb.v ===== *)
(** * The NI GPIB-USB-HS driver: [src/backend/ni_usb_hs/mod.rs] and the model-
    independent part of [usb.rs]

    [NiTransport] is the transport trait as a class.  A [Request] is one
    exchange with the adapter and [frame] its wire form; the driver's record
    keeps, as an auxiliary variable the code does not have, the [trace] of
    requests with the transport's reply deadline at that moment and the reply.
    The trace is what the theorems speak about: who is addressed when data
    moves, how a message is cut, what a serial poll leaves behind. *)

From S2P Require Import Prelude RustStr Backend Effect NiMsg.

Module NiUsb.
Import RustStr Backend NiMsg Effect.

Definition ID : list Z := str "ni-usb-hs".
Definition DESCRIPTION : list Z := str "NI GPIB-USB-HS and HS+ (KUSB-488A / MC-USB-488 untested)".
Definition USB_VENDOR_ID_NI : Z := 0x3923.
Definition PID_NI_USB_HS : Z := 0x709b.
Definition PID_NI_USB_HS_PLUS : Z := 0x7618.
Definition PID_KUSB_488A : Z := 0x725c.
Definition PID_MC_USB_488 : Z := 0x725d.
Definition USB_IDS : list (Z * Z) :=
  [(USB_VENDOR_ID_NI, PID_NI_USB_HS); (USB_VENDOR_ID_NI, PID_NI_USB_HS_PLUS);
   (USB_VENDOR_ID_NI, PID_KUSB_488A); (USB_VENDOR_ID_NI, PID_MC_USB_488)].
Definition REG_WRITE_RESP_LEN : Z := 16.
Definition OP_RESP_LEN : Z := 12.
Definition REG_READ_RESP_LEN : Z := 32.
Definition NI_USB_WAIT_REQUEST : Z := 0x21.
Definition NI_USB_POLL_READY_REQUEST : Z := 0x40.
Definition NI_USB_SERIAL_NUMBER_REQUEST : Z := 0x41.

(** ** The transport *)

Class NiTransport (T : Type) : Type := {
  ni_transact : list byte -> Z -> Act T (list byte);
  ni_control_in : Z -> Z -> Z -> Z -> Act T (list byte);
  ni_control_in_interface : Z -> Z -> Z -> Z -> Act T (list byte);
  product_id : T -> Z;
  rearm_srq_if_pending : T -> T;
  set_adapter_wait : Z -> T -> T;
  adapter_wait : T -> Z;  (* what [set_adapter_wait] last stored *)
  drain_stale_responses : T -> T;
  rearm_srq : Z -> Act T unit;
  ni_now : T -> Z;
  ni_sleep : T -> Z -> T;
}.

(** The default [transact] of the trait, over the two halves of the exchange. *)
Definition default_transact {T} (bulk_out : list byte -> Act T unit) (bulk_in : Z -> Act T (list byte))
    (req : list byte) (resp_len : Z) : Act T (list byte) :=
  let! _ := bulk_out req in bulk_in resp_len.

(** ** Requests *)

Inductive Request : Type :=
| RTakeControl (synchronous : bool)
| RStandby
| RInterfaceClear
| RCommand (cmd : list byte) (tc : Z)
| RDataWrite (data : list byte) (send_eoi : bool) (tc : Z)
| RDataRead (len eos_mode eos_char tc : Z)
| RRegWrite (regs : list NiRegister)
| RRegRead (regs : list (Z * Z)).

Definition frame (r : Request) : list byte :=
  match r with
  | RTakeControl s => encode_take_control s
  | RStandby => encode_go_to_standby
  | RInterfaceClear => encode_interface_clear
  | RCommand cmd tc => encode_command cmd tc
  | RDataWrite d e tc => encode_data_write d e tc
  | RDataRead n m c tc => encode_data_read n m c tc
  | RRegWrite regs => encode_register_write regs
  | RRegRead regs => encode_register_read regs
  end.

#[export] Instance Request_eq_dec : EqDecision Request.
Proof. solve_decision. Defined.

(** One exchange: the request, the transport's wait, the reply. *)
Record Exchange : Type := mkExchange { asked_for : Request; wait_ms : Z; reply : result (list byte) Error }.

(** ** The driver *)

Record ReadAddressing : Type := mkReadAddressing { talker : option Z; listener : Z }.

#[export] Instance ReadAddressing_eq_dec : EqDecision ReadAddressing.
Proof. solve_decision. Defined.

Record NiUsbHsBackend (T : Type) : Type := mkNiUsbHsBackend {
  transport : T;
  my_pad : Z;
  listen_only : bool;
  device_address : option Z;
  eos_char : Z;
  eos_enabled : bool;
  timeout_ms : Z;
  read_addressing : option ReadAddressing;
  trace : list Exchange;
}.
Arguments mkNiUsbHsBackend {T}.
Arguments transport {T}.
Arguments my_pad {T}.
Arguments listen_only {T}.
Arguments device_address {T}.
Arguments eos_char {T}.
Arguments eos_enabled {T}.
Arguments timeout_ms {T}.
Arguments read_addressing {T}.
Arguments trace {T}.

(** nec7210 read-side offsets of [take_held_byte]. *)
Definition REG_DIR : Z := 0x00.
Definition REG_ISR1 : Z := 0x02.
Definition ISR1_DI : Z := 0x01.

(** [slice.chunks(16)]. *)
Fixpoint chunks_16 (fuel : nat) (cmd : list byte) : list (list byte) :=
  match fuel with
  | O => []
  | S fuel => match cmd with [] => [] | _ => take 16 cmd :: chunks_16 fuel (drop 16 cmd) end
  end.

Section Driver.
Context {T : Type} `{NiTransport T}.
Notation St := (NiUsbHsBackend T).

(** *** Assignments *)

Definition with_transport (t : T) (b : St) : St :=
  mkNiUsbHsBackend t (my_pad b) (listen_only b) (device_address b) (eos_char b) (eos_enabled b) (timeout_ms b)
    (read_addressing b) (trace b).
Definition with_my_pad (p : Z) (b : St) : St :=
  mkNiUsbHsBackend (transport b) p (listen_only b) (device_address b) (eos_char b) (eos_enabled b) (timeout_ms b)
    (read_addressing b) (trace b).
Definition with_listen_only (l : bool) (b : St) : St :=
  mkNiUsbHsBackend (transport b) (my_pad b) l (device_address b) (eos_char b) (eos_enabled b) (timeout_ms b)
    (read_addressing b) (trace b).
Definition with_device_address (a : option Z) (b : St) : St :=
  mkNiUsbHsBackend (transport b) (my_pad b) (listen_only b) a (eos_char b) (eos_enabled b) (timeout_ms b)
    (read_addressing b) (trace b).
Definition with_read_addressing (r : option ReadAddressing) (b : St) : St :=
  mkNiUsbHsBackend (transport b) (my_pad b) (listen_only b) (device_address b) (eos_char b) (eos_enabled b)
    (timeout_ms b) r (trace b).
Definition record_exchange (e : Exchange) (t : T) (b : St) : St :=
  mkNiUsbHsBackend t (my_pad b) (listen_only b) (device_address b) (eos_char b) (eos_enabled b) (timeout_ms b)
    (read_addressing b) (trace b ++ [e]).

Definition on_transport (f : T -> T) : Act St unit := modify (fun b => with_transport (f (transport b)) b).
Definition via {A} (m : Act T A) : Act St A := zoom transport (fun b t => with_transport t b) m.

Definition new (t : T) (timeout : Z) : St := mkNiUsbHsBackend t 0 false None 10 false timeout None [].

(** *** Exchanges *)

Definition transact (r : Request) (resp_len : Z) : Act St (list byte) := fun b =>
  let '(res, t) := ni_transact (frame r) resp_len (transport b) in
  (res, record_exchange (mkExchange r (adapter_wait (transport b)) res) t b).

Definition adapter_timeout_code (timeout : Z) : Act St Z :=
  let '(code, wait) := timeout_code_floor timeout in
  let! _ := on_transport (set_adapter_wait wait) in ret code.

Definition timeout_code : Act St Z :=
  let! t := gets timeout_ms in adapter_timeout_code t.

Definition eos_mode (b : St) : Z := if eos_enabled b then 0x0400 else 0.

(** The loop of [write_data_body]: each turn but the last sends a full chunk, so
    one turn per byte and one for an empty message are enough; [None] is out of
    fuel. *)
Fixpoint write_chunks (fuel : nat) (tc : Z) (send_eoi : bool) (remaining : list byte) : Act St (option unit) :=
  match fuel with
  | O => ret None
  | S fuel =>
      let n := Z.min (zlen remaining) MAX_TRANSFER_LEN in
      let chunk := ztake n remaining in
      let rest := zdrop n remaining in
      let last := bool_decide (rest = []) in
      let! resp := transact (RDataWrite chunk (send_eoi && last) tc) OP_RESP_LEN in
      let! written := context (str "ni data write") (of_result (parse_write_response resp (zlen chunk))) in
      if negb (written =? zlen chunk) then
        bail (str "ni data write: instrument accepted only " ++ to_string written ++ str " of " ++
              to_string (zlen chunk) ++ str " bytes")
      else if last then ret (Some tt)
      else write_chunks fuel tc send_eoi rest
  end.

Definition write_data_body (data : list byte) (send_eoi : bool) : Act St unit :=
  let! tc := timeout_code in
  let! r := write_chunks (S (length data)) tc send_eoi data in
  match r with Some _ => ret tt | None => bail [] end.

(** [(max_len / 30 + 1) * 0x20 + 0x20]. *)
Definition resp_cap (max_len : Z) : Z := (max_len / 30 + 1) * 0x20 + 0x20.

Definition read_data_body (max_len : Z) : Act St (list byte * bool) :=
  let max_len := Z.min max_len MAX_TRANSFER_LEN in
  let! mode := gets eos_mode in
  let! c := gets eos_char in
  let! tc := timeout_code in
  let! resp := transact (RDataRead max_len mode c tc) (resp_cap max_len) in
  context (str "ni data read") (of_result (parse_data_read_response resp max_len)).

Fixpoint send_chunks (tc : Z) (chunks : list (list byte)) : Act St unit :=
  match chunks with
  | [] => ret tt
  | chunk :: chunks =>
      let! resp := transact (RCommand chunk tc) OP_RESP_LEN in
      let! _ := context (str "ni command byte transfer") (of_result (parse_write_response resp (zlen chunk))) in
      send_chunks tc chunks
  end.

Definition send_command_bounded (cmd : list byte) (standby_after : bool) (timeout : Z) : Act St unit :=
  let! _ := modify (with_read_addressing None) in
  let! tc := adapter_timeout_code timeout in
  let! _ := transact (RTakeControl true) OP_RESP_LEN in
  let! _ := send_chunks tc (chunks_16 (length cmd) cmd) in
  if standby_after then
    let! _ := transact RStandby OP_RESP_LEN in ret tt
  else ret tt.

Definition send_command (cmd : list byte) (standby_after : bool) : Act St unit :=
  let! t := gets timeout_ms in send_command_bounded cmd standby_after t.

Definition register_read (regs : list (Z * Z)) : Act St (list byte) :=
  let! resp := transact (RRegRead regs) REG_READ_RESP_LEN in
  of_result (parse_register_read_response resp (zlen regs)).

Definition register_write (regs : list NiRegister) : Act St unit :=
  let! resp := transact (RRegWrite regs) REG_WRITE_RESP_LEN in
  let! (_, completed) := of_result (parse_register_write_response resp) in
  if negb (completed =? zlen regs) then
    bail (str "ni register write: " ++ to_string completed ++ str " of " ++ to_string (zlen regs) ++ str " completed")
  else ret tt.

(** *** The acceptor *)

Definition tnt (address value : Z) : NiRegister := mkNiRegister SUBDEV_TNT4882 address value.

Definition ready_acceptor : Act St unit :=
  context (str "ni: readying the acceptor") (register_write [tnt REG_AUXMR AUX_FH; tnt REG_CMDR CMDR_GO]).
Definition restore_acceptor : Act St unit :=
  context (str "ni: restoring the acceptor") (register_write [tnt REG_CMDR CMDR_STOP]).

Definition take_held_byte : Act St (option Z) :=
  let! regs := register_read [(SUBDEV_TNT4882, REG_ISR1); (SUBDEV_TNT4882, REG_DIR)] in
  ret (if has_flag (at_ regs 0) ISR1_DI then Some (at_ regs 1) else None).

(** The loop of [take_status_byte]: a turn that goes round again sleeps a
    millisecond, so one turn per millisecond of the timeout and one more are
    enough; [None] is out of fuel. *)
Fixpoint await_byte (fuel : nat) (deadline : Z) : Act St (option Z) :=
  match fuel with
  | O => ret None
  | S fuel =>
      let! held := context (str "ni serial poll: reading the status byte") take_held_byte in
      match held with
      | Some b => ret (Some b)
      | None =>
          let! t := gets (fun b => ni_now (transport b)) in
          if deadline <=? t then bail (str "the instrument sent no status byte in response to the poll")
          else
            let! _ := on_transport (fun t => ni_sleep t (from_millis 1)) in
            await_byte fuel deadline
      end
  end.

Definition take_status_byte : Act St Z :=
  let! t0 := gets (fun b => ni_now (transport b)) in
  let! ms := gets timeout_ms in
  let! r := await_byte (S (Z.to_nat ms)) (t0 + from_millis ms) in
  match r with Some b => ret b | None => bail [] end.

(** *** Bring-up ([usb.rs]) *)

Definition set_interrupt_monitor (bits : Z) : Act St unit :=
  let! reply := context (str "ni interrupt-monitor request failed")
                  (via (ni_control_in NI_USB_WAIT_REQUEST 0x300 bits 8)) in
  if negb (zlen reply =? 8) then
    bail (str "ni interrupt-monitor: expected an 8-byte status block, got " ++ to_string (zlen reply))
  else ret tt.

Definition MAX_CONSECUTIVE_ERRORS : Z := 5.

(** [for attempt in 0..50], with [n] turns left. *)
Fixpoint poll_ready (n : nat) (errors : Z) : Act St unit :=
  match n with
  | O => bail (str "NI adapter did not report ready after 5s of polling")
  | S n =>
      let again errors :=
        let! _ := on_transport (fun t => ni_sleep t (from_millis 100)) in poll_ready n errors in
      let! r := attempt (via (ni_control_in NI_USB_POLL_READY_REQUEST 0 0 16)) in
      match r with
      | Ok status =>
          if (11 <=? zlen status) &&
             (negb (at_ status 6 =? 0) || negb (at_ status 7 =? 0) || negb (at_ status 10 =? 0)) then ret tt
          else again 0
      | Err e =>
          let errors := errors + 1 in
          if MAX_CONSECUTIVE_ERRORS <=? errors then
            bail (str "NI adapter is not answering control requests (" ++ to_string errors ++
                  str " consecutive failures); last error: " ++ e)
          else again errors
      end
  end.

Definition wait_for_ready : Act St unit :=
  let! _ := attempt (via (ni_control_in NI_USB_SERIAL_NUMBER_REQUEST 0 0 16)) in
  poll_ready 50 0.

Definition hs_plus_extra_init : Act St unit :=
  let! _ := via (ni_control_in 0x48 0 0 16) in
  let! _ := via (ni_control_in 0x4b 1 0 2) in
  let! _ := via (ni_control_in_interface 0xf8 0 1 9) in
  ret tt.

(** *** The trait *)

Definition ifc : Act St unit :=
  let! _ := modify (with_read_addressing None) in
  let! _ := transact RInterfaceClear OP_RESP_LEN in ret tt.

Definition ren (enable : bool) : Act St unit :=
  register_write [tnt REG_AUXMR (if enable then AUX_SREN else AUX_CREN)].

Definition init (pad : Z) : Act St unit :=
  let! _ := modify (with_my_pad pad) in
  let! _ := modify (with_read_addressing None) in
  let! _ := on_transport drain_stale_responses in
  let! _ := wait_for_ready in
  let! pid := gets (fun b => product_id (transport b)) in
  let! _ := if pid =? PID_NI_USB_HS_PLUS then hs_plus_extra_init else ret tt in
  let! mode := gets eos_mode in
  let! _ := context (str "ni init register sequence") (register_write (setup_init pad mode)) in
  let! _ := context (str "ni init: interface clear") ifc in
  let! _ := context (str "ni init: assert REN") (ren true) in
  let! _ := attempt (send_command_bounded [b8 GPIB_UNL; b8 (talk_address pad)] false 100) in
  let! tc := adapter_timeout_code 10 in
  let! _ := attempt (transact (RDataWrite [x00] false tc) OP_RESP_LEN) in
  set_interrupt_monitor IBSTA_SRQI.

Definition listen_only_refusal : Error := str "cannot write while in listen-only mode (++lon 0 to leave)".

Definition write (pad : Z) (data : list byte) (send_eoi : bool) : Act St unit :=
  let! lon := gets listen_only in
  if lon then bail listen_only_refusal
  else
    let! dev := gets device_address in
    if bool_decide (is_Some dev) then bail (str "cannot write while in device mode: we are not the controller")
    else
      let! _ := on_transport rearm_srq_if_pending in
      let! mine := gets my_pad in
      let! _ := send_command [b8 GPIB_UNL; b8 (talk_address mine); b8 (listen_address pad)] true in
      write_data_body data send_eoi.

Definition read (pad max_len : Z) : Act St (list byte * bool) :=
  let max_len := Z.min max_len MAX_TRANSFER_LEN in
  let! _ := on_transport rearm_srq_if_pending in
  let! dev := gets device_address in
  if bool_decide (is_Some dev) then read_data_body max_len
  else
    let! lon := gets listen_only in
    let! mine := gets my_pad in
    let want := mkReadAddressing (if lon then None else Some pad) mine in
    let! current := gets read_addressing in
    let! _ :=
      if decide (current = Some want) then ret tt
      else
        let cmd := if lon then [b8 GPIB_UNL; b8 (listen_address mine)]
                   else [b8 GPIB_UNL; b8 (listen_address mine); b8 (talk_address pad)] in
        let! _ := send_command cmd true in
        modify (with_read_addressing (Some want)) in
    read_data_body max_len.

Definition device_clear (pad : Z) : Act St unit :=
  send_command [b8 GPIB_UNL; b8 (listen_address pad); b8 GPIB_SDC] false.
Definition go_to_remote (pad : Z) : Act St unit :=
  let! _ := ren true in send_command [b8 GPIB_UNL; b8 (listen_address pad)] false.
Definition go_to_local (pad : Z) : Act St unit :=
  send_command [b8 GPIB_UNL; b8 (listen_address pad); b8 GPIB_GTL] false.
Definition local_lockout : Act St unit := send_command [b8 GPIB_LLO] false.
Definition trigger (pad : Z) : Act St unit :=
  send_command [b8 GPIB_UNL; b8 (listen_address pad); b8 GPIB_GET] false.

(** What a poll leaves behind, whether or not the byte arrived: [restored] is the
    first error of the two, as [Result::and] has it. *)
Definition end_poll : Act St (result unit Error) :=
  let! r1 := attempt restore_acceptor in
  let! r2 := attempt (send_command [b8 GPIB_SPD; b8 GPIB_UNT] false) in
  let! _ := attempt (via (rearm_srq IBSTA_SRQI)) in
  ret (match r1 with Ok _ => r2 | Err e => Err e end).

(** Serial poll enabled and the acceptor made ready, ATN still asserted. *)
Definition begin_poll (pad : Z) : Act St unit :=
  let! mine := gets my_pad in
  let enable := [b8 GPIB_UNL; b8 GPIB_SPE; b8 (talk_address pad); b8 (listen_address mine)] in
  let! _ := send_command enable false in
  ready_acceptor.

Definition serial_poll (pad : Z) : Act St Z :=
  let! _ := begin_poll pad in
  let! standby := attempt (transact RStandby OP_RESP_LEN) in
  let! polled := match standby with Err e => ret (Err e) | Ok _ => attempt take_status_byte end in
  let! restored := end_poll in
  let! stb := context (str "ni serial poll of pad " ++ to_string pad) (of_result polled) in
  let! _ := context (str "ni serial poll: restoring the bus after the poll") (of_result restored) in
  ret stb.

Definition send_data_unaddressed (data : list byte) (send_eoi : bool) : Act St unit :=
  let! lon := gets listen_only in
  if lon then bail listen_only_refusal else write_data_body data send_eoi.

Definition read_unaddressed (max_len : Z) : Act St (list byte * bool) := read_data_body max_len.

Definition set_controller_pad (pad : Z) : Act St unit :=
  if 30 <? pad then bail (str "controller address " ++ to_string pad ++ str " is out of range (0-30)")
  else
    let! _ := context (str "ni set controller address") (register_write [tnt REG_ADR (Z.land pad 0x1f)]) in
    let! _ := modify (with_my_pad pad) in
    modify (with_read_addressing None).

Definition send_bus_command (cmds : list byte) : Act St unit := send_command cmds true.

Definition set_atn (assert : bool) : Act St unit :=
  let! _ := modify (with_read_addressing None) in
  let! _ := transact (if assert then RTakeControl true else RStandby) OP_RESP_LEN in ret tt.

Definition bus_lines : Act St BusLines :=
  let! vals := context (str "ni bus status read") (register_read [(SUBDEV_TNT4882, REG_BSR)]) in
  match vals with
  | [] => bail (str "ni bus status read returned no data")
  | bsr :: _ => ret (from_bsr (u8 bsr))
  end.

Definition srq_asserted : Act St bool := let! l := bus_lines in ret (srq l).

Definition set_listen_only (enable : bool) : Act St unit :=
  let! _ := modify (with_read_addressing None) in
  let! mode := gets eos_mode in
  let bin := if has_flag mode 0x0400 then HR_BIN else 0 in
  if enable then
    let! _ := context (str "ni enter listen-only")
                (register_write [tnt REG_ADMR (Z.lor ADMR_DISABLE_SAD HR_LON); tnt REG_AUXMR (Z.lor AUXRA bin);
                                 tnt REG_AUXMR AUX_FH]) in
    modify (with_listen_only enable)
  else
    let! _ := modify (with_listen_only false) in
    let! mine := gets my_pad in
    context (str "ni leave listen-only") (init mine).

Definition set_device_mode (addr : option Z) : Act St unit :=
  let! _ := modify (with_read_addressing None) in
  match addr with
  | None =>
      let! _ := modify (with_device_address None) in
      let! mine := gets my_pad in
      context (str "ni leave device mode") (init mine)
  | Some a =>
      if 30 <? a then bail (str "device address " ++ to_string a ++ str " is out of range (0-30)")
      else
        let! _ := context (str "ni enter device mode")
                    (register_write [tnt REG_ADR (Z.land a 0x1f); tnt REG_AUXMR AUX_CREN; tnt REG_AUXMR AUX_CIFC;
                                     tnt REG_AUXMR AUX_DSC; tnt REG_CMDR CMDR_CLRSC]) in
        let! _ := modify (with_device_address (Some a)) in
        modify (with_listen_only false)
  end.

Definition set_eos (c : Z) (enabled : bool) (b : St) : St :=
  mkNiUsbHsBackend (transport b) (my_pad b) (listen_only b) (device_address b) c enabled (timeout_ms b)
    (read_addressing b) (trace b).
Definition eos (b : St) : Z * bool := (eos_char b, eos_enabled b).
Definition set_timeout (t : Z) (b : St) : St :=
  mkNiUsbHsBackend (set_adapter_wait (timeout_code_floor t).2 (transport b)) (my_pad b) (listen_only b)
    (device_address b) (eos_char b) (eos_enabled b) t (read_addressing b) (trace b).

Definition shutdown : Act St unit :=
  let! _ := set_interrupt_monitor 0 in
  context (str "ni shutdown register write")
    (register_write [tnt REG_AUXMR AUX_CR; mkNiRegister SUBDEV_UNKNOWN3 0x10 0x00]).

End Driver.

#[export] Instance Ni_backend (T : Type) `{NiTransport T} : GpibBackend (NiUsbHsBackend T) := {|
  gb_init b p := init p b;
  gb_write b p d e := write p d e b;
  gb_read b p n := read p n b;
  gb_device_clear b p := device_clear p b;
  gb_trigger b p := trigger p b;
  gb_ifc b := ifc b;
  gb_ren b e := ren e b;
  gb_go_to_remote b p := go_to_remote p b;
  gb_go_to_local b p := go_to_local p b;
  gb_local_lockout b := local_lockout b;
  gb_serial_poll b p := serial_poll p b;
  gb_srq_asserted b := srq_asserted b;
  gb_bus_lines b := bus_lines b;
  gb_set_listen_only b e := set_listen_only e b;
  gb_listen_only b := listen_only b;
  gb_set_device_mode b a := set_device_mode a b;
  gb_device_address b := device_address b;
  gb_send_bus_command b c := send_bus_command c b;
  gb_set_atn b a := set_atn a b;
  gb_controller_pad b := my_pad b;
  gb_set_controller_pad b p := set_controller_pad p b;
  gb_send_data_unaddressed b d e := send_data_unaddressed d e b;
  gb_read_unaddressed b n := read_unaddressed n b;
  gb_set_eos b c e := set_eos c e b;
  gb_eos b := eos b;
  gb_set_timeout b t := set_timeout t b;
  gb_read_slice_ms _ := Some 250;
  gb_name _ := ID;
  now b := ni_now (transport b);
  sleep b d := with_transport (ni_sleep (transport b) d) b;
|}.

(** ** Histories of a driver

    One call of the trait; [shutdown] ends a driver's life and is left out. *)
Inductive Op : Type :=
| OInit (pad : Z) | OWrite (pad : Z) (d : list byte) (e : bool) | ORead (pad n : Z) | OClear (pad : Z)
| OTrigger (pad : Z) | OIfc | ORen (e : bool) | OGoToRemote (pad : Z) | OGoToLocal (pad : Z) | OLockout
| OPoll (pad : Z) | OSrq | OBusLines | OListenOnly (e : bool) | ODeviceMode (a : option Z)
| OBusCommand (c : list byte) | OAtn (a : bool) | OSetPad (pad : Z) | OSend (d : list byte) (e : bool)
| OReadUnaddressed (n : Z) | OSetEos (c : Z) (e : bool) | OSetTimeout (t : Z).

Section Histories.
Context {T : Type} `{NiTransport T}.
Notation St := (NiUsbHsBackend T).

Definition run_op (o : Op) (b : St) : St :=
  match o with
  | OInit p => (init p b).2
  | OWrite p d e => (write p d e b).2
  | ORead p n => (read p n b).2
  | OClear p => (device_clear p b).2
  | OTrigger p => (trigger p b).2
  | OIfc => (ifc b).2
  | ORen e => (ren e b).2
  | OGoToRemote p => (go_to_remote p b).2
  | OGoToLocal p => (go_to_local p b).2
  | OLockout => (local_lockout b).2
  | OPoll p => (serial_poll p b).2
  | OSrq => (srq_asserted b).2
  | OBusLines => (bus_lines b).2
  | OListenOnly e => (set_listen_only e b).2
  | ODeviceMode a => (set_device_mode a b).2
  | OBusCommand c => (send_bus_command c b).2
  | OAtn a => (set_atn a b).2
  | OSetPad p => (set_controller_pad p b).2
  | OSend d e => (send_data_unaddressed d e b).2
  | OReadUnaddressed n => (read_unaddressed n b).2
  | OSetEos c e => set_eos c e b
  | OSetTimeout t => set_timeout t b
  end.

Inductive reachable : St -> Prop :=
| reach_new t timeout : reachable (new t timeout)
| reach_op b o : reachable b -> reachable (run_op o b).

End Histories.

(** ** An adapter

    A transport whose adapter executes every request at once: the instrument
    behind it accepts what it is sent, has [a_input] to say and answers a poll
    with [a_stb]. *)
Record Adapter : Type := mkAdapter {
  a_input : list byte; a_stb : option Z; a_wait : Z; a_clock : Z; a_armed : bool;
  a_refused : option Z;  (* a kind of request that fails *)
}.

Definition adapter_reply (req : list byte) (a : Adapter) : list byte * Adapter :=
  let op := at_ req 0 in
  if op =? NIUSB_DATA_READ_OP then
    let n := announced (at_ req 4) (at_ req 5) in
    let d := ztake n (a_input a) in
    (read_response false d (if decide (zdrop n (a_input a) = []) then IBSTA_END else 0) 0 0 [],
     mkAdapter (zdrop n (a_input a)) (a_stb a) (a_wait a) (a_clock a) (a_armed a) (a_refused a))
  else if op =? NIUSB_REG_READ_ID then
    ([b8 NIUSB_REGISTER_READ_DATA_START_ID; b8 (if a_stb a then 1 else 0); b8 (default 0 (a_stb a)); x00;
      b8 NIUSB_REGISTER_READ_DATA_END_ID; x02; x00; x00], a)
  else if op =? NIUSB_REG_WRITE_ID then
    (status_block op 0 0 0 ++ b8 (at_ req 1) :: replicate 7 x00, a)
  else (status_block op 0 0 0 ++ replicate 4 x00, a).

#[export] Instance Adapter_transport : NiTransport Adapter := {|
  ni_transact req n a :=
    if decide (a_refused a = Some (at_ req 0)) then (Err (str "ni bulk-in timed out"), a)
    else let '(r, a') := adapter_reply req a in (Ok r, a');
  ni_control_in _ _ _ n a := (Ok (replicate (Z.to_nat n) x01), a);
  ni_control_in_interface _ _ _ n a := (Ok (replicate (Z.to_nat n) x01), a);
  product_id _ := PID_NI_USB_HS;
  rearm_srq_if_pending a := a;
  set_adapter_wait w a := mkAdapter (a_input a) (a_stb a) w (a_clock a) (a_armed a) (a_refused a);
  adapter_wait := a_wait;
  drain_stale_responses a := a;
  rearm_srq _ a := (Ok tt, mkAdapter (a_input a) (a_stb a) (a_wait a) (a_clock a) true (a_refused a));
  ni_now := a_clock;
  ni_sleep a d := mkAdapter (a_input a) (a_stb a) (a_wait a) (a_clock a + Z.max 0 d) (a_armed a) (a_refused a);
|}.

End NiUsb.
