(* ===== verification/NiProofs.v ===== *)
(** * The NI GPIB-USB-HS driver keeps its promises

    [NiLaws] is what the transport guarantees.  [bus_of] reads a trace the way
    the bus does - who is addressed, whether ATN is asserted - and the
    invariant [driver_ok] ties the driver's [read_addressing] to it and every
    timeout handed to the adapter to the transport's own deadline. *)

From S2P Require Import Prelude RustStr Backend Bus Effect NiMsg NiUsb.

Module NiProofs.
Import RustStr Backend Bus NiMsg Effect NiUsb.

Definition clock_le {T} `{NiTransport T} (t t' : T) : Prop := ni_now t <= ni_now t'.
(** The clock does not run backwards and the reply deadline stays. *)
Definition steady {T} `{NiTransport T} (t t' : T) : Prop := clock_le t t' /\ adapter_wait t' = adapter_wait t.

Class NiLaws (T : Type) `{NiTransport T} : Prop := {
  transact_steady : forall r n, keeps steady (ni_transact r n);
  control_steady : forall q v i n, keeps steady (ni_control_in q v i n);
  control_interface_steady : forall q v i n, keeps steady (ni_control_in_interface q v i n);
  rearm_steady : forall m, keeps steady (rearm_srq m);
  rearm_pending_steady : forall t, steady t (rearm_srq_if_pending t);
  drain_steady : forall t, steady t (drain_stale_responses t);
  set_wait_now : forall w t, ni_now (set_adapter_wait w t) = ni_now t;
  set_wait_get : forall w t, adapter_wait (set_adapter_wait w t) = w;
  ni_sleep_now : forall t d, 0 <= d -> ni_now t + d <= ni_now (ni_sleep t d);
  ni_sleep_wait : forall t d, adapter_wait (ni_sleep t d) = adapter_wait t;
}.

(** ** The bus, as the exchanges leave it *)

(** Register writes that reset the chip or change its mode. *)
Definition disturbs (r : NiRegister) : bool :=
  (address r =? REG_ADMR) ||
  ((address r =? REG_CMDR) && bool_decide (value r ∈ [CMDR_SOFT_RESET; CMDR_SETSC; CMDR_CLRSC])) ||
  ((address r =? REG_AUXMR) && bool_decide (value r ∈ [AUX_CR; AUX_PON; AUX_DSC; AUX_CIFC])).

Definition bus_step (k : Bus) (e : Exchange) : Bus :=
  match asked_for e, reply e with
  | RTakeControl _, r => mkBus (if is_ok r then Some true else None) (talks k) (listens k)
  | RStandby, r => mkBus (if is_ok r then Some false else None) (talks k) (listens k)
  | RInterfaceClear, r => if is_ok r then mkBus None (Some None) (Some []) else unknown
  | RCommand cmd _, Ok resp =>
      if is_ok (parse_write_response resp (zlen cmd)) then foldl command_byte k cmd else unknown
  | RCommand _ _, Err _ => unknown
  | RRegWrite regs, _ => if existsb disturbs regs then unknown else k
  | RDataWrite _ _ _, _ | RDataRead _ _ _ _, _ | RRegRead _, _ => k
  end.

Definition bus_of (tr : list Exchange) : Bus := foldl bus_step unknown tr.

Definition neutral (r : Request) : bool :=
  match r with
  | RDataWrite _ _ _ | RDataRead _ _ _ _ | RRegRead _ => true
  | RRegWrite regs => negb (existsb disturbs regs)
  | _ => false
  end.

(** The adapter's deadline, where a request carries one. *)
Definition code_of (r : Request) : option Z :=
  match r with
  | RCommand _ tc | RDataWrite _ _ tc | RDataRead _ _ _ tc => Some tc
  | _ => None
  end.

(** The transport waits for the very step the adapter was given. *)
Definition exchange_ok (e : Exchange) : Prop :=
  forall tc, code_of (asked_for e) = Some tc -> exists t, timeout_code_floor t = (tc, wait_ms e).

(** The bus is set up for [w]. *)
Definition addressed (k : Bus) (w : ReadAddressing) : Prop :=
  atn_line k = Some false /\ listens k = Some [listener w] /\
  match talker w with Some p => talks k = Some (Some p) | None => True end.

Definition in_range_addressing (w : ReadAddressing) : Prop :=
  in_range (listener w) /\ match talker w with Some p => in_range p | None => True end.

Definition driver_ok {T} (b : NiUsbHsBackend T) : Prop :=
  Forall exchange_ok (trace b) /\
  forall w, read_addressing b = Some w -> in_range_addressing w -> addressed (bus_of (trace b)) w.

Lemma bus_of_snoc tr e : bus_of (tr ++ [e]) = bus_step (bus_of tr) e.
Proof. unfold bus_of. by rewrite foldl_app. Qed.

Lemma neutral_step r w res k : neutral r = true -> bus_step k (mkExchange r w res) = k.
Proof. destruct r; try done. cbn. by destruct (existsb disturbs regs). Qed.

(** The addressing commands on the wire. *)
Lemma listen_byte k p : in_range p ->
  command_byte k (b8 (listen_address p)) = mkBus (atn_line k) (talks k) (option_map (fun l => l ++ [p]) (listens k)).
Proof. apply mla_byte. Qed.
Lemma talk_byte k p : in_range p ->
  command_byte k (b8 (talk_address p)) = mkBus (atn_line k) (Some (Some p)) (listens k).
Proof. apply mta_byte. Qed.

(** The command bytes of a read address the bus for it. *)
Definition read_command (w : ReadAddressing) : list byte :=
  [b8 GPIB_UNL; b8 (listen_address (listener w))] ++ match talker w with Some p => [b8 (talk_address p)] | None => [] end.

(** A command transfer and the return to standby. *)
Lemma command_bus tr c wt tc r1 r2 r3 n : parse_write_response r2 (zlen c) = Ok n ->
  bus_of (tr ++ [mkExchange (RTakeControl true) wt (Ok r1); mkExchange (RCommand c tc) wt (Ok r2);
                 mkExchange RStandby wt (Ok r3)]) =
  let k := foldl command_byte (mkBus (Some true) (talks (bus_of tr)) (listens (bus_of tr))) c in
  mkBus (Some false) (talks k) (listens k).
Proof.
  intros Hp. unfold bus_of. rewrite foldl_app. cbn [foldl]. unfold bus_step at 2. cbn [asked_for reply].
  by rewrite Hp.
Qed.

Lemma read_command_addresses tr w wt tc r1 r2 r3 n : in_range_addressing w ->
  parse_write_response r2 (zlen (read_command w)) = Ok n ->
  addressed (bus_of (tr ++ [mkExchange (RTakeControl true) wt (Ok r1); mkExchange (RCommand (read_command w) tc) wt (Ok r2);
                            mkExchange RStandby wt (Ok r3)])) w.
Proof.
  intros [Hl Ht] Hp. rewrite (command_bus _ _ _ _ _ _ _ n) by done. unfold read_command. cbv zeta.
  destruct w as [[p|] l]; cbn [talker listener app foldl] in *.
  - rewrite (talk_byte _ p), (listen_byte _ l) by done. done.
  - rewrite (listen_byte _ l) by done. done.
Qed.

Section Ext.
Context {T : Type} `{NiLaws T}.
Notation St := (NiUsbHsBackend T).

(** What a stretch of exchanges does: with [n], nothing the bus notices, and
    [read_addressing] stays; without, at least [None] stays.  [arm] is the code
    and deadline in force. *)
Definition ext (n : bool) (arm : option (Z * Z)) (b b' : St) : Prop :=
  (forall tc w, arm = Some (tc, w) -> adapter_wait (transport b) = w) ->
  (forall tc w, arm = Some (tc, w) -> adapter_wait (transport b') = w) /\
  ni_now (transport b) <= ni_now (transport b') /\
  eos b' = eos b /\ timeout_ms b' = timeout_ms b /\ my_pad b' = my_pad b /\
  listen_only b' = listen_only b /\ device_address b' = device_address b /\
  (if n then read_addressing b' = read_addressing b /\ bus_of (trace b') = bus_of (trace b)
   else read_addressing b = None -> read_addressing b' = None) /\
  exists es, trace b' = trace b ++ es /\ Forall exchange_ok es.

#[export] Instance ext_preorder n arm : PreOrder (ext n arm).
Proof.
  split.
  - intros b Ha. split_and!; try done; [by destruct n|]. exists []. by rewrite app_nil_r.
  - intros b c d Hbc Hcd Ha. destruct (Hbc Ha) as (Ha' & ? & ? & ? & ? & ? & ? & Hr & es & Et & He).
    destruct (Hcd Ha') as (Ha'' & ? & ? & ? & ? & ? & ? & Hr' & es' & Et' & He').
    split_and!; try done; try congruence; [lia| |].
    + destruct n; [|by auto]. destruct Hr, Hr'. split; congruence.
    + exists (es ++ es'). rewrite Et', Et, app_assoc. split; [done|]. by apply Forall_app.
Qed.

(** The request carries no deadline but the one in force. *)
Definition armed (arm : option (Z * Z)) (r : Request) : Prop :=
  forall tc, code_of r = Some tc -> exists t w, arm = Some (tc, w) /\ timeout_code_floor t = (tc, w).

Lemma ext_transact n arm r len : armed arm r -> (n = true -> neutral r = true) -> keeps (ext n arm) (transact (T := T) r len).
Proof.
  intros Hr Hn b Ha. unfold transact. pose proof (transact_steady (frame r) len (transport b)) as [Hc Hw].
  destruct (ni_transact (frame r) len (transport b)) as [res t]. simpl in *. split_and!; try done.
  - intros tc w Hx. rewrite Hw. by apply (Ha tc).
  - destruct n; [|done]. split; [done|]. rewrite bus_of_snoc. by apply neutral_step, Hn.
  - eexists. split; [done|]. apply Forall_singleton. intros tc Htc. destruct (Hr tc Htc) as (t' & w & Hx & Ht').
    exists t'. simpl. by rewrite (Ha tc w Hx).
Qed.

Lemma ext_on_transport n arm f : (forall t : T, steady t (f t)) -> keeps (ext n arm) (on_transport f).
Proof.
  intros Hf b Ha. destruct (Hf (transport b)) as [Hc Hw]. simpl. split_and!; try done.
  - intros tc w Hx. rewrite Hw. by apply (Ha tc).
  - by destruct n.
  - exists []. by rewrite app_nil_r.
Qed.

Lemma ext_via {A} n arm (m : Act T A) : keeps steady m -> keeps (ext n arm) (via m).
Proof.
  intros Hm b Ha. destruct (Hm (transport b)) as [Hc Hw]. unfold via, zoom.
  destruct (m (transport b)) as [r t]. simpl in *. split_and!; try done.
  - intros tc w Hx. rewrite Hw. by apply (Ha tc).
  - by destruct n.
  - exists []. by rewrite app_nil_r.
Qed.

Lemma ext_sleep n arm d : 0 <= d -> keeps (ext n arm) (on_transport (T := T) (fun t => ni_sleep t d)).
Proof.
  intros Hd. apply ext_on_transport. intros t. split; [|apply ni_sleep_wait].
  unfold clock_le. pose proof (ni_sleep_now t d Hd). lia.
Qed.

(** Arming the deadline: what follows may use its code. *)
Lemma ext_arm {A} n t (k : Z -> Act St A) :
  keeps (ext n (Some (timeout_code_floor t))) (k (timeout_code_floor t).1) ->
  keeps (ext n None) (bind (adapter_timeout_code t) k).
Proof.
  intros Hk b _. unfold adapter_timeout_code. destruct (timeout_code_floor t) as [code w] eqn:Et. cbn [fst] in Hk.
  unfold bind, on_transport, modify, ret. set (b1 := with_transport (set_adapter_wait w (transport b)) b).
  destruct (Hk b1) as (_ & Hc & He & Ht & Hm & Hl & Hd & Hr & Htr).
  { intros tc w' [= <- <-]. apply set_wait_get. }
  simpl in Hc. rewrite set_wait_now in Hc. by split_and!.
Qed.
Lemma ext_weaken {A} arm (m : Act St A) : keeps (ext true arm) m -> keeps (ext false arm) m.
Proof.
  intros Hm b Ha. destruct (Hm b Ha) as (? & ? & ? & ? & ? & ? & ? & [Hr _] & ?). split_and!; try done.
  intros E. congruence.
Qed.
Lemma armed_none arm r : code_of r = None -> armed arm r.
Proof. intros E tc. by rewrite E. Qed.
Lemma armed_floor t r : (forall tc, code_of r = Some tc -> tc = (timeout_code_floor t).1) ->
  armed (Some (timeout_code_floor t)) r.
Proof. intros Hr tc Htc%Hr. destruct (timeout_code_floor t) as [c w] eqn:E. simpl in Htc. subst. by exists t, w. Qed.

Lemma ext_timeout_code {A} n (k : Z -> Act St A) :
  (forall t, keeps (ext n (Some (timeout_code_floor t))) (k (timeout_code_floor t).1)) ->
  keeps (ext n None) (bind timeout_code k).
Proof. intros Hk b. exact (ext_arm n (timeout_ms b) k (Hk (timeout_ms b)) b). Qed.

Lemma ext_register_write n arm regs : (n = true -> existsb disturbs regs = false) ->
  keeps (ext n arm) (register_write (T := T) regs).
Proof.
  intros Hn. unfold register_write. keeps_auto. apply ext_transact; [by apply armed_none|].
  intros E. simpl. by rewrite (Hn E).
Qed.
Lemma ext_register_read n arm regs : keeps (ext n arm) (register_read (T := T) regs).
Proof. unfold register_read. keeps_auto. apply ext_transact; [by apply armed_none|done]. Qed.
Hint Resolve ext_register_read ext_sleep : keeps.
Hint Extern 1 (keeps (ext _ _) (register_write _)) => (by apply ext_register_write) : keeps.
Hint Extern 1 (keeps (ext _ _) (via _)) => (apply ext_via;
  first [apply control_steady | apply control_interface_steady | apply rearm_steady]) : keeps.
Hint Extern 1 (keeps (ext _ _) (on_transport (fun t => ni_sleep t _))) => (by apply ext_sleep) : keeps.
Hint Extern 1 (keeps (ext _ _) (on_transport rearm_srq_if_pending)) =>
  (apply ext_on_transport, rearm_pending_steady) : keeps.
Hint Extern 1 (keeps (ext _ _) (on_transport drain_stale_responses)) => (apply ext_on_transport, drain_steady) : keeps.
Hint Extern 2 (keeps (ext _ _) (transact _ _)) => (by apply ext_transact; [apply armed_none|]) : keeps.

Lemma ext_write_chunks t fuel : forall e d,
  keeps (ext true (Some (timeout_code_floor t))) (write_chunks (T := T) fuel (timeout_code_floor t).1 e d).
Proof.
  induction fuel as [|fuel IH]; intros e d; simpl; keeps_auto.
  apply ext_transact; [|done]. apply armed_floor. by intros tc [= <-].
Qed.
Lemma ext_write_data d e : keeps (ext true None) (write_data_body (T := T) d e).
Proof. unfold write_data_body. apply ext_timeout_code. intros t. keeps_auto. apply ext_write_chunks. Qed.
Lemma ext_read_data n : keeps (ext true None) (read_data_body (T := T) n).
Proof.
  unfold read_data_body. do 2 (keeps_step; [keeps_auto|]). apply ext_timeout_code. intros t. keeps_auto.
  apply ext_transact; [|done]. apply armed_floor. by intros tc [= <-].
Qed.
Lemma ext_send_chunks t cs :
  keeps (ext false (Some (timeout_code_floor t))) (send_chunks (T := T) (timeout_code_floor t).1 cs).
Proof.
  induction cs as [|c cs IH]; simpl; keeps_auto.
  apply ext_transact; [|done]. apply armed_floor. by intros tc [= <-].
Qed.
Lemma ext_clear_addressing arm : keeps (ext false arm) (modify (with_read_addressing (T := T) None)).
Proof. apply keeps_modify. intros b Ha. split_and!; try done. exists []. by rewrite app_nil_r. Qed.
Hint Resolve ext_clear_addressing : keeps.
Lemma ext_send_command c s t : keeps (ext false None) (send_command_bounded (T := T) c s t).
Proof.
  unfold send_command_bounded. keeps_step; [keeps_auto|]. apply ext_arm. keeps_auto. apply ext_send_chunks.
Qed.
Lemma ext_send c s : keeps (ext false None) (send_command (T := T) c s).
Proof. unfold send_command. keeps_auto. apply ext_send_command. Qed.
Hint Resolve ext_write_data ext_read_data ext_send_command ext_send : keeps.

Lemma ext_await_byte fuel : forall d, keeps (ext true None) (await_byte (T := T) fuel d).
Proof. induction fuel; intros; simpl; unfold take_held_byte; keeps_auto. Qed.
Lemma ext_take_status_byte : keeps (ext true None) (take_status_byte (T := T)).
Proof. unfold take_status_byte. keeps_auto. apply ext_await_byte. Qed.
Lemma ext_monitor n arm bits : keeps (ext n arm) (set_interrupt_monitor (T := T) bits).
Proof. unfold set_interrupt_monitor. keeps_auto. Qed.
Lemma ext_poll_ready n k : forall e, keeps (ext n None) (poll_ready (T := T) k e).
Proof. induction k; intros; simpl; keeps_auto. Qed.
Hint Resolve ext_take_status_byte ext_monitor ext_poll_ready : keeps.
Lemma ext_wait_for_ready n : keeps (ext n None) (wait_for_ready (T := T)).
Proof. unfold wait_for_ready. keeps_auto. Qed.
Lemma ext_hs_plus n : keeps (ext n None) (hs_plus_extra_init (T := T)).
Proof. unfold hs_plus_extra_init. keeps_auto. Qed.
Lemma ext_ifc : keeps (ext false None) (ifc (T := T)).
Proof. unfold ifc. keeps_auto. Qed.
Lemma ext_ren n e : keeps (ext n None) (ren (T := T) e).
Proof. unfold ren. apply ext_register_write. by destruct e. Qed.
Hint Resolve ext_wait_for_ready ext_hs_plus ext_ifc ext_ren : keeps.

Lemma ext_serial_poll p : keeps (ext false None) (serial_poll (T := T) p).
Proof.
  unfold serial_poll, begin_poll, end_poll, ready_acceptor, restore_acceptor. keeps_auto. by apply ext_weaken, ext_take_status_byte.
Qed.

(** *** The invariant *)

Lemma ok_neutral (b b' : St) : ext true None b b' -> driver_ok b -> driver_ok b'.
Proof.
  intros Hx [Hh Ha]. destruct (Hx ltac:(done)) as (_ & _ & _ & _ & _ & _ & _ & [Hr Hb] & es & Et & He).
  split; [rewrite Et; by apply Forall_app|]. rewrite Hr, Hb. done.
Qed.

(** Deadlines stay in step, and a forgotten addressing stays forgotten. *)
Definition tame (b b' : St) : Prop :=
  (Forall exchange_ok (trace b) -> Forall exchange_ok (trace b')) /\
  (read_addressing b = None -> read_addressing b' = None).

#[export] Instance tame_preorder : PreOrder tame.
Proof. split; [by intros b|]. intros b c d [H1 H2] [H3 H4]. split; auto. Qed.

Lemma ext_tame {A} (m : Act St A) : keeps (ext false None) m -> keeps tame m.
Proof.
  intros Hm b. destruct (Hm b ltac:(done)) as (_ & _ & _ & _ & _ & _ & _ & Hr & es & Et & He).
  split; [|done]. intros Hh. rewrite Et. by apply Forall_app.
Qed.
Hint Extern 3 (keeps tame _) => (apply ext_tame) : keeps.

(** Starts by forgetting the addressing. *)
Definition cleared (b b' : St) : Prop := driver_ok b -> driver_ok b' /\ read_addressing b' = None.

Lemma cleared_bind {A B} (m : Act St A) (k : A -> Act St B) :
  keeps cleared m -> (forall a, keeps tame (k a)) -> keeps cleared (bind m k).
Proof.
  intros Hm Hk b Hb. destruct (Hm b Hb) as [[Hh Ha] Hn]. unfold bind. destruct (m b) as [[a|e] b1]; [|done].
  destruct (Hk a b1) as [Hh' Hn']. simpl in *. specialize (Hh' Hh). specialize (Hn' Hn). split; [|done].
  split; [done|]. intros w E. congruence.
Qed.
Lemma cleared_gets {A B} (f : St -> A) (k : A -> Act St B) :
  (forall a, keeps cleared (k a)) -> keeps cleared (bind (gets f) k).
Proof. intros Hk b. apply Hk. Qed.
Lemma cleared_modify {A} (k : unit -> Act St A) :
  (forall a, keeps tame (k a)) -> keeps cleared (bind (modify (with_read_addressing None)) k).
Proof. intros Hk. apply cleared_bind; [|done]. by intros b [Hh _]. Qed.

Lemma cleared_send c s : keeps cleared (send_command (T := T) c s).
Proof.
  unfold send_command, send_command_bounded. apply cleared_gets. intros t. apply cleared_modify. intros _.
  apply ext_tame, ext_arm. keeps_auto. apply ext_send_chunks.
Qed.

(** [init] after it has stored the address. *)
Lemma tame_init p : keeps tame (init (T := T) p).
Proof.
  assert (Hm : forall f : St -> St, (forall b, tame b (f b)) -> keeps tame (modify f)) by (intros; by apply keeps_modify).
  unfold init. do 2 (keeps_step; [by apply Hm|]). do 3 (keeps_step; [keeps_auto|]).
  keeps_step; [keeps_auto|]. do 5 (keeps_step; [keeps_auto|]). apply ext_tame, ext_arm. keeps_auto.
  apply ext_transact; [|done]. apply armed_floor. by intros tc [= <-].
Qed.

Lemma tame_modify (f : St -> St) : (forall b, trace (f b) = trace b) ->
  (forall b, read_addressing b = None -> read_addressing (f b) = None) -> keeps tame (modify f).
Proof. intros Ht Hr. apply keeps_modify. intros b. split; [by rewrite Ht|apply Hr]. Qed.
Hint Resolve tame_init : keeps.
Hint Extern 1 (keeps tame (modify _)) => (by apply tame_modify) : keeps.

Lemma cleared_serial_poll p : keeps cleared (serial_poll (T := T) p).
Proof.
  unfold serial_poll, begin_poll. apply cleared_bind.
  { apply cleared_gets. intros mine. apply cleared_bind; [apply cleared_send|]. intros _. apply ext_tame.
    unfold ready_acceptor. keeps_auto. }
  intros _. apply ext_tame. unfold end_poll, restore_acceptor. keeps_auto.
  by apply ext_weaken, ext_take_status_byte.
Qed.
Lemma cleared_listen_only e : keeps cleared (set_listen_only (T := T) e).
Proof. unfold set_listen_only. apply cleared_modify. intros _. keeps_auto. Qed.
Lemma cleared_device_mode a : keeps cleared (set_device_mode (T := T) a).
Proof. unfold set_device_mode. apply cleared_modify. intros _. keeps_auto. Qed.

(** *** Reads *)

Lemma chunks_16_short c : c <> [] -> (length c <= 16)%nat -> chunks_16 (length c) c = [c].
Proof.
  intros Hn Hl. destruct c as [|x c]; [done|]. simpl length. cbn [chunks_16]. rewrite take_ge by done.
  rewrite drop_ge by done. by destruct (length c).
Qed.

Lemma wp_transact r n (Q : list byte -> St -> Prop) (E : Error -> St -> Prop) (b : St) :
  (forall resp t, adapter_wait t = adapter_wait (transport b) ->
     Q resp (record_exchange (mkExchange r (adapter_wait (transport b)) (Ok resp)) t b)) ->
  (forall e t, adapter_wait t = adapter_wait (transport b) ->
     E e (record_exchange (mkExchange r (adapter_wait (transport b)) (Err e)) t b)) ->
  wp (transact r n) Q E b.
Proof.
  intros HQ HE. unfold wp, transact. pose proof (transact_steady (frame r) n (transport b)) as [_ Hw].
  destruct (ni_transact _ _ _) as [[resp|e] t]; auto.
Qed.

(** A short command transfer that succeeds, exchange by exchange. *)
Lemma send_command_trace c (b : St) : c <> [] -> (length c <= 16)%nat ->
  wp (send_command c true)
    (fun _ b' => exists tc w r1 r2 r3 n, timeout_code_floor (timeout_ms b) = (tc, w) /\
       trace b' = trace b ++ [mkExchange (RTakeControl true) w (Ok r1); mkExchange (RCommand c tc) w (Ok r2);
                              mkExchange RStandby w (Ok r3)] /\
       parse_write_response r2 (zlen c) = Ok n) (fun _ _ => True) b.
Proof.
  intros Hn Hl. unfold send_command, send_command_bounded, adapter_timeout_code. wp_auto.
  destruct (timeout_code_floor (timeout_ms b)) as [tc w] eqn:Et. unfold on_transport. wp_auto.
  rewrite chunks_16_short by done. cbn [send_chunks].
  apply wp_transact; [|done]. intros r1 t1 Hw1. wp_auto. apply wp_transact; [|done]. intros r2 t2 Hw2. wp_auto.
  destruct (parse_write_response r2 (zlen c)) as [n|] eqn:Ep; [|done]. wp_auto.
  apply wp_transact; [|done]. intros r3 t3 Hw3. wp_auto. exists tc, w, r1, r2, r3, n.
  cbn [transport record_exchange with_transport trace with_read_addressing] in *. rewrite set_wait_get in *.
  split_and!; [done| |done]. rewrite <- !app_assoc. simpl. by rewrite Hw2, Hw1.
Qed.

(** What a read establishes before its data moves. *)
Definition read_ready (w : ReadAddressing) (b b' : St) : Prop :=
  driver_ok b' /\ read_addressing b' = Some w /\ (read_addressing b = Some w -> trace b' = trace b).

Lemma read_address_wp pad (b : St) : driver_ok b ->
  let w := mkReadAddressing (if listen_only b then None else Some pad) (my_pad b) in
  wp (if decide (read_addressing b = Some w) then ret tt
      else let! _ := send_command (read_command w) true in modify (with_read_addressing (Some w)))
    (fun _ => read_ready w b) (fun _ b' => driver_ok b') b.
Proof.
  intros Hb w. case_decide as Hd; [by wp_auto|]. wp_auto.
  assert (Hc : read_command w <> [] /\ (length (read_command w) <= 16)%nat)
    by (unfold read_command; destruct (talker w); simpl; split; (done || lia)).
  eapply wp_mono; [apply wp_conj; [apply send_command_trace; apply Hc|]| |].
  { apply (wp_keeps cleared); [apply cleared_send|intros ? b' Hx; exact (Hx Hb)..]. }
  - simpl. intros _ b' [(tc & wt & r1 & r2 & r3 & n & _ & Et & Hp) [[Hh _] _]]. split_and!; [|done..]. split; [done|].
    intros w' [= <-] Hr. cbn [trace with_read_addressing]. rewrite Et. by eapply read_command_addresses.
  - by intros e b' [_ [? _]].
Qed.

Lemma read_data_wp n (b : St) :
  wp (read_data_body n)
    (fun r b' => (exists e m c tc, trace b' = trace b ++ [e] /\ asked_for e = RDataRead (Z.min n MAX_TRANSFER_LEN) m c tc) /\
                 zlen r.1 <= Z.max 0 n) (fun _ _ => True) b.
Proof.
  unfold read_data_body, timeout_code, adapter_timeout_code. wp_auto.
  destruct (timeout_code_floor (timeout_ms b)) as [tc w] eqn:Et. unfold on_transport. wp_auto.
  apply wp_transact; [|done]. intros resp t Hw. wp_auto.
  destruct (parse_data_read_response resp _) as [[d e]|] eqn:Ep; [|done].
  apply parse_read_bound in Ep. split; [|simpl; lia]. by eexists _, _, _, _.
Qed.

Definition want_addressing (pad : Z) (b : St) : ReadAddressing :=
  mkReadAddressing (if listen_only b then None else Some pad) (my_pad b).

Lemma read_wp pad n (b : St) : driver_ok b -> device_address b = None ->
  let w := want_addressing pad b in
  wp (read pad n)
    (fun r b' => driver_ok b' /\ read_addressing b' = Some w /\
       exists tr e m c tc, trace b' = tr ++ [e] /\ asked_for e = RDataRead (Z.min n MAX_TRANSFER_LEN) m c tc /\
         (in_range_addressing w -> addressed (bus_of tr) w) /\ (read_addressing b = Some w -> tr = trace b))
    (fun _ b' => driver_ok b') b.
Proof.
  intros Hb Hd w. unfold read, on_transport. wp_auto. set (b1 := with_transport _ b).
  assert (Hb1 : driver_ok b1) by exact Hb. change (device_address b1) with (device_address b). rewrite Hd.
  cbn [bool_decide decide_rel]. rewrite bool_decide_false by by intros []. wp_auto. fold w.
  change (listen_only b1) with (listen_only b). change (my_pad b1) with (my_pad b).
  replace (if listen_only b then [b8 GPIB_UNL; b8 (listen_address (my_pad b))]
    else [b8 GPIB_UNL; b8 (listen_address (my_pad b)); b8 (talk_address pad)]) with (read_command w)
    by (unfold read_command, w, want_addressing; by destruct (listen_only b)).
  eapply wp_mono; [exact (read_address_wp pad b1 Hb1)| |done]. intros _ b2 (Hb2 & Hr2 & Ht2).
  eapply wp_mono; [apply wp_conj; [apply read_data_wp|]| |].
  { apply (wp_keeps (ext true None)); [apply ext_read_data|intros ? b3 Hx; exact Hx..]. }
  - intros r b3 [[(e & m & c & tc & Et & Ee) _] Hx]. split; [by eapply ok_neutral|].
    destruct (Hx ltac:(done)) as (_ & _ & _ & _ & _ & _ & _ & [Hr3 _] & _). split; [by rewrite Hr3|].
    exists (trace b2), e, m, c, tc. split_and!; [done| | |].
    + rewrite Ee. f_equal. lia.
    + intros Hin. by apply Hb2.
    + intros E. by apply Ht2.
  - intros e b3 [_ Hx]. by eapply ok_neutral.
Qed.

Lemma ok_read p n (b : St) : driver_ok b -> driver_ok (read p n b).2.
Proof.
  intros Hb. destruct (device_address b) as [a|] eqn:Hd.
  - assert (Hk : wp (read p n) (fun _ => ext true None b) (fun _ => ext true None b) b).
    { unfold read, on_transport. wp_auto. set (b1 := with_transport _ b).
      change (device_address b1) with (device_address b). rewrite Hd, bool_decide_true by done.
      pose proof (ext_on_transport true None rearm_srq_if_pending rearm_pending_steady b) as H1.
      apply (wp_keeps (ext true None)); [apply ext_read_data|intros ? b2 H2; exact (transitivity H1 H2)..]. }
    unfold wp in Hk. destruct (read p n b) as [[r|e] b']; by eapply ok_neutral.
  - pose proof (read_wp p n b Hb Hd) as Hw. unfold wp in Hw. destruct (read p n b) as [[r|e] b']; [by apply Hw|done].
Qed.

Lemma keeps_ok_neutral {A} (m : Act St A) (b : St) : keeps (ext true None) m -> driver_ok b -> driver_ok (m b).2.
Proof. intros Hm. by apply ok_neutral. Qed.
Lemma keeps_ok_cleared {A} (m : Act St A) (b : St) : keeps cleared m -> driver_ok b -> driver_ok (m b).2.
Proof. intros Hm Hb. by apply Hm. Qed.

Lemma cleared_init p : keeps cleared (init (T := T) p).
Proof.
  intros b Hb. destruct Hb as [Hh _]. set (b0 := with_read_addressing None b).
  change (init p b) with (init p b0). destruct (tame_init p b0) as [Ht Hn]. specialize (Ht Hh). specialize (Hn eq_refl).
  split; [|done]. split; [done|]. intros w E. congruence.
Qed.

Lemma ok_set_pad p (b : St) : driver_ok b -> driver_ok (set_controller_pad p b).2.
Proof.
  intros Hb. unfold set_controller_pad. destruct (30 <? p); [done|].
  assert (Hk : wp (let! _ := context (str "ni set controller address") (register_write [tnt REG_ADR (Z.land p 0x1f)]) in
      let! _ := modify (with_my_pad p) in modify (with_read_addressing None))
    (fun _ b' => driver_ok b') (fun _ b' => driver_ok b') b).
  { wp_auto. apply (wp_keeps (ext true None)); [by apply ext_register_write| |]; intros ? b1 H1;
      pose proof (ok_neutral _ _ H1 Hb) as [Hh Ha]; [|done]. wp_auto. by split. }
  unfold wp in Hk. by destruct (bind _ _ b) as [[]].
Qed.

(** Neutral steps, then a command. *)
Lemma ok_then_cleared {A B} (m : Act St A) (k : A -> Act St B) (b : St) : keeps (ext true None) m ->
  (forall a, keeps cleared (k a)) -> driver_ok b -> driver_ok (bind m k b).2.
Proof.
  intros Hm Hk Hb. pose proof (ok_neutral _ _ (Hm b) Hb) as H1. unfold bind.
  destruct (m b) as [[a|e] b1]; [|done]. by apply Hk.
Qed.
Lemma ok_go_to_remote p (b : St) : driver_ok b -> driver_ok (go_to_remote p b).2.
Proof. apply ok_then_cleared; [apply ext_ren|]. intros _. apply cleared_send. Qed.
Lemma ok_write p d e (b : St) : driver_ok b -> driver_ok (write p d e b).2.
Proof.
  intros Hb. unfold write. unfold bind at 1, gets at 1. destruct (listen_only b); [done|].
  unfold bind at 1, gets at 1. destruct (bool_decide _); [done|].
  apply ok_then_cleared; [keeps_auto| |done]. intros _. apply cleared_gets. intros mine.
  apply cleared_bind; [apply cleared_send|]. intros _. by apply ext_tame, ext_weaken, ext_write_data.
Qed.

Lemma ok_run_op o (b : St) : driver_ok b -> driver_ok (run_op o b).
Proof.
  intros Hb. destruct o; cbn [run_op]; try exact Hb; try by apply ok_read.
  all: try (by apply ok_set_pad).
  all: try (apply keeps_ok_cleared; [|done]; first [apply cleared_send | apply cleared_serial_poll
    | apply cleared_listen_only | apply cleared_device_mode | apply cleared_init]).
  all: try (apply keeps_ok_neutral; [|done]; first [apply ext_ren | apply ext_read_data
    | unfold bus_lines; keeps_auto; fail | unfold srq_asserted, bus_lines; keeps_auto; fail
    | unfold send_data_unaddressed; keeps_auto; fail]).
  - revert b Hb. apply ok_write.
  - apply keeps_ok_cleared; [|done]. unfold ifc. apply cleared_modify. intros _. keeps_auto.
  - revert b Hb. apply ok_go_to_remote.
  - apply keeps_ok_cleared; [|done]. unfold set_atn. apply cleared_modify. intros _. destruct a; keeps_auto.
Qed.

(** *** The front-ends' contract *)

Definition frame_ok (b b' : St) : Prop :=
  ni_now (transport b) <= ni_now (transport b') /\ eos b' = eos b /\ timeout_ms b' = timeout_ms b.

#[export] Instance frame_preorder : PreOrder frame_ok.
Proof.
  split; [by intros b|]. intros b c d (?&?&?) (?&?&?). unfold frame_ok. split_and!; [lia|congruence..].
Qed.

Lemma ext_frame {A} n (m : Act St A) : keeps (ext n None) m -> keeps frame_ok m.
Proof. intros Hm b. destruct (Hm b ltac:(done)) as (_ & ? & ? & ? & _). done. Qed.

Lemma frame_read p n : keeps frame_ok (read (T := T) p n).
Proof.
  unfold read. keeps_auto.
  all: try (by apply (ext_frame true), ext_read_data).
  all: try (by apply (ext_frame false), ext_send).
  all: try (by apply (ext_frame true), ext_on_transport, rearm_pending_steady).
  all: by apply keeps_modify.
Qed.
Lemma frame_write p d e : keeps frame_ok (write (T := T) p d e).
Proof.
  unfold write. keeps_auto.
  - by apply (ext_frame true), ext_on_transport, rearm_pending_steady.
  - by apply (ext_frame false), ext_send.
  - by apply (ext_frame true), ext_write_data.
Qed.
Lemma frame_send d e : keeps frame_ok (send_data_unaddressed (T := T) d e).
Proof. unfold send_data_unaddressed. keeps_auto. by apply (ext_frame true), ext_write_data. Qed.
Lemma frame_srq : keeps frame_ok (srq_asserted (T := T)).
Proof. unfold srq_asserted, bus_lines. keeps_auto. by apply (ext_frame true), ext_register_read. Qed.

Lemma read_bound_wp p n (b : St) : wp (read p n) (fun r _ => zlen r.1 <= Z.max 0 n) (fun _ _ => True) b.
Proof.
  assert (Hd : forall b', wp (read_data_body (T := T) (Z.min n MAX_TRANSFER_LEN)) (fun r _ => zlen r.1 <= Z.max 0 n)
    (fun _ _ => True) b').
  { intros b'. eapply wp_mono; [apply read_data_wp| |done]. intros r b'' [_ Hr]. lia. }
  unfold read, on_transport. wp_auto. destruct (bool_decide _); [apply Hd|]. wp_auto.
  apply wp_any; [|done]. intros _ b'. apply Hd.
Qed.

End Ext.

#[export] Instance Ni_laws (T : Type) `{NiLaws T} : BackendLaws (NiUsbHsBackend T).
Proof.
  refine {| timeout_of b := timeout_ms b |}; simpl; intros; try done.
  - apply set_wait_now.
  - by simplify_eq.
  - apply (wp_run _ _ _ _ (read_bound_wp pad n b)) in H2. cbn in H2. lia.
  - apply (wp_run _ _ _ _ (read_data_wp n b)) in H2. cbn in H2. lia.
  - apply frame_read.
  - apply (ext_frame true), ext_read_data.
  - apply frame_read.
  - apply (ext_frame true), ext_read_data.
  - apply frame_write.
  - apply frame_send.
  - apply (ext_frame false), ext_serial_poll.
  - apply frame_srq.
  - by apply ni_sleep_now.
Defined.

#[export] Instance Adapter_laws : NiLaws Adapter.
Proof.
  split; intros; unfold steady, clock_le; try (simpl; (done || lia)).
  intros a. simpl. unfold adapter_reply. repeat case_match; simplify_eq; simpl; split; (done || lia).
Qed.

(** *** Writes *)

(** One data write per chunk, the end marked on the last one only. *)
Fixpoint data_requests (tc : Z) (send_eoi : bool) (chunks : list (list byte)) : list Request :=
  match chunks with
  | [] => []
  | [c] => [RDataWrite c send_eoi tc]
  | c :: cs => RDataWrite c false tc :: data_requests tc send_eoi cs
  end.

(** The adapter's reply says that the transfer ended without an error and that
    none of the chunk's bytes is left over. *)
Definition accepted (c : list byte) (x : Exchange) : Prop :=
  exists resp s, reply x = Ok resp /\ parse_status_block resp = Ok s /\
    (error_code s = NIUSB_NO_ERROR \/ error_code s = NIUSB_ABORTED_ERROR) /\ (count s = 0 \/ c = []).

(** The exchanges [es] are the chunks of [d], each within the adapter's limit and
    accepted whole. *)
Definition sends (tc : Z) (send_eoi : bool) (d : list byte) (es : list Exchange) : Prop :=
  exists cs, map asked_for es = data_requests tc send_eoi cs /\ concat cs = d /\ cs <> [] /\
    Forall (fun c => zlen c <= MAX_TRANSFER_LEN) cs /\ Forall2 accepted cs es.

Lemma status_count_nonneg buf s : parse_status_block buf = Ok s -> 0 <= count s.
Proof.
  unfold parse_status_block. destruct (_ <? 8); [done|]. intros [= <-]. cbn [count].
  unfold negate_u16. apply Z.mod_pos_bound. lia.
Qed.

Lemma accepted_whole c r w resp : parse_write_response resp (zlen c) = Ok (zlen c) -> accepted c (mkExchange r w (Ok resp)).
Proof.
  unfold parse_write_response. destruct (parse_status_block resp) as [s|] eqn:Es; [|done]. cbn [rbind].
  pose proof (status_count_nonneg _ _ Es) as Hn. destruct (_ || _) eqn:Ec.
  - intros [= Hk]. exists resp, s. split_and!; try done; [lia|]. destruct c as [|x c]; [by right|left].
    rewrite zlen_cons in Hk. pose proof (zlen_nonneg c). lia.
  - repeat case_match; done.
Qed.

Section Writes.
Context {T : Type} `{NiLaws T}.
Notation St := (NiUsbHsBackend T).

Lemma write_chunks_wp fuel : forall tc e d (b : St), (length d < fuel)%nat ->
  wp (write_chunks fuel tc e d)
    (fun r b' => r = Some tt /\ exists es, trace b' = trace b ++ es /\ sends tc e d es) (fun _ _ => True) b.
Proof.
  induction fuel as [|fuel IH]; intros tc e d b Hf; [lia|]. cbn [write_chunks]. wp_auto.
  set (n := Z.min (zlen d) MAX_TRANSFER_LEN). pose proof (zlen_nonneg d) as Hz.
  assert (Hn : 0 <= n <= zlen d /\ n <= MAX_TRANSFER_LEN) by (unfold n, MAX_TRANSFER_LEN; lia).
  apply wp_transact; [|done]. intros resp t _. wp_auto.
  destruct (parse_write_response _ _) as [k|] eqn:Ep; [|done]. destruct (Z.eqb_spec k (zlen (ztake n d))) as [->|]; [|done].
  cbn [negb]. set (x := mkExchange _ _ (Ok resp)).
  assert (Ha : accepted (ztake n d) x) by by apply accepted_whole.
  set (b1 := record_exchange _ t b). assert (Hc : zlen (ztake n d) <= MAX_TRANSFER_LEN) by (rewrite zlen_ztake; lia).
  destruct (bool_decide_reflect (zdrop n d = [])) as [Hd|Hd].
  - wp_auto. split; [done|]. exists [x]. split; [done|]. exists [ztake n d]. unfold x in *. rewrite andb_true_r in *. split_and!; try done.
    + simpl. rewrite app_nil_r. rewrite <- (ztake_zdrop n d) at 2. by rewrite Hd, app_nil_r.
    + by apply Forall_singleton.
    + by repeat constructor.
  - eapply wp_mono; [apply (IH tc e (zdrop n d) b1)| |done].
    + assert (zlen d <> n) by (intros E; apply Hd, zdrop_nil_iff; lia). unfold zdrop. rewrite length_drop.
      unfold n, zlen, MAX_TRANSFER_LEN in *. lia.
    + intros r b2 [-> (es & Et & cs & Hes & Hcs & Hne & Hall & Hacc)]. split; [done|]. exists (x :: es). split.
      { rewrite Et. simpl. by rewrite <- app_assoc. }
      exists (ztake n d :: cs). destruct cs as [|c cs]; [done|]. unfold x in *. rewrite andb_false_r in *. cbn [map asked_for].
      rewrite Hes. split_and!; try done; [|by constructor..]. cbn [concat] in *. by rewrite Hcs, ztake_zdrop.
Qed.

Lemma write_data_wp d e (b : St) :
  wp (write_data_body d e) (fun _ b' => exists tc es, trace b' = trace b ++ es /\ sends tc e d es)
    (fun err _ => True) b.
Proof.
  unfold write_data_body, timeout_code, adapter_timeout_code. wp_auto.
  destruct (timeout_code_floor (timeout_ms b)) as [tc w]. unfold on_transport. wp_auto.
  eapply wp_mono; [apply write_chunks_wp; lia| |done]. intros r b' [-> (es & Et & Hs)]. wp_auto. eauto.
Qed.

Lemma write_wp pad d e (b : St) :
  wp (write pad d e)
    (fun _ b' => listen_only b = false /\ device_address b = None /\
       exists pre es tc, trace b' = trace b ++ pre ++ es /\ sends tc e d es /\
         (in_range pad -> in_range (my_pad b) -> let k := bus_of (trace b ++ pre) in
          atn_line k = Some false /\ talks k = Some (Some (my_pad b)) /\ listens k = Some [pad]))
    (fun _ _ => True) b.
Proof.
  unfold write, on_transport. wp_auto. destruct (listen_only b); [by wp_auto|]. wp_auto.
  destruct (device_address b) as [a|]; [rewrite bool_decide_true by done; by wp_auto|]. rewrite bool_decide_false by by intros []. wp_auto.
  set (cmd := [b8 GPIB_UNL; _; _]). eapply wp_mono; [by apply send_command_trace; [|simpl; lia]| |done].
  intros _ b1 (tc & w & r1 & r2 & r3 & n & _ & Et & Hp). cbn [trace with_transport] in Et.
  eapply wp_mono; [apply write_data_wp| |done]. intros _ b2 (tc' & es & Et2 & Hs). split_and!; [done..|].
  exists [mkExchange (RTakeControl true) w (Ok r1); mkExchange (RCommand cmd tc) w (Ok r2); mkExchange RStandby w (Ok r3)].
  exists es, tc'. split; [by rewrite Et2, Et, app_assoc|]. split; [done|]. intros Hp1 Hp2.
  rewrite (command_bus _ _ _ _ _ _ _ n) by done. unfold cmd. cbn [foldl my_pad with_transport].
  rewrite (listen_byte _ pad), (talk_byte _ (my_pad b)) by done. cbv zeta. by split_and!.
Qed.

End Writes.

(** *** Serial polls *)

Section Polls.
Context {T : Type} `{NiLaws T}.
Notation St := (NiUsbHsBackend T).

(** Whatever came before, the acceptor is restored and serial poll disabled, as
    far as the adapter lets it: [es] is the tail of a trace. *)
Definition ends_poll (es : list Exchange) : Prop :=
  exists pre w1 r1 w2 r2 post, es = pre ++ [mkExchange (RRegWrite [tnt REG_CMDR CMDR_STOP]) w1 r1;
      mkExchange (RTakeControl true) w2 r2] ++ post /\
    (is_ok r2 = true -> exists tc w3 r3, post = [mkExchange (RCommand [b8 GPIB_SPD; b8 GPIB_UNT] tc) w3 r3]).

Lemma register_write_wp regs (b : St) (Q : unit -> St -> Prop) (E : Error -> St -> Prop) :
  (forall w r t, let b' := record_exchange (mkExchange (RRegWrite regs) w r) t b in Q tt b' /\ forall e, E e b') ->
  wp (register_write regs) Q E b.
Proof.
  intros HP. unfold register_write. wp_auto. apply wp_transact; [|by intros; apply HP]. intros resp t _. wp_auto.
  destruct (parse_register_write_response resp) as [[s k]|]; [|apply HP]. destruct (negb _); wp_auto; apply HP.
Qed.

Lemma send_spd_wp (b : St) (Q : unit -> St -> Prop) (E : Error -> St -> Prop) :
  (forall w r post b', (is_ok r = true -> exists tc w3 r3, post = [mkExchange (RCommand [b8 GPIB_SPD; b8 GPIB_UNT] tc) w3 r3]) ->
     trace b' = trace b ++ mkExchange (RTakeControl true) w r :: post -> Q tt b' /\ forall e, E e b') ->
  wp (send_command [b8 GPIB_SPD; b8 GPIB_UNT] false) Q E b.
Proof.
  intros HP. unfold send_command, send_command_bounded, adapter_timeout_code. wp_auto.
  destruct (timeout_code_floor (timeout_ms b)) as [tc w]. unfold on_transport. wp_auto.
  apply wp_transact; [|intros e t _; by eapply (HP _ (Err e) [])]. intros r1 t1 _. wp_auto.
  cbn [chunks_16 length take drop send_chunks]. wp_auto.
  set (b1 := record_exchange _ t1 _).
  assert (Hend : forall w2 r t2, let b' := record_exchange (mkExchange (RCommand [b8 GPIB_SPD; b8 GPIB_UNT] tc) w2 r) t2 b1 in
    Q tt b' /\ forall e, E e b').
  { intros w2 r t2. eapply (HP _ (Ok r1)); [|simpl; by rewrite <- app_assoc]. intros _. by eexists _, _, _. }
  apply wp_transact; [|intros e t2 _; apply Hend]. intros r2 t2 _. wp_auto.
  destruct (parse_write_response r2 _); [|apply Hend]. wp_auto. apply Hend.
Qed.

Lemma end_poll_wp (b : St) :
  wp end_poll (fun _ b' => (exists es, trace b' = trace b ++ es /\ ends_poll es) /\
    exists t, transport b' = (rearm_srq IBSTA_SRQI t).2) (fun _ _ => False) b.
Proof.
  assert (Hfin : forall r w1 r1 w2 r2 post (b2 : St),
    (is_ok r2 = true -> exists tc w3 r3, post = [mkExchange (RCommand [b8 GPIB_SPD; b8 GPIB_UNT] tc) w3 r3]) ->
    trace b2 = (trace b ++ [mkExchange (RRegWrite [tnt REG_CMDR CMDR_STOP]) w1 r1]) ++
      mkExchange (RTakeControl true) w2 r2 :: post ->
    wp (let! _ := attempt (via (rearm_srq IBSTA_SRQI)) in ret r)
      (fun (_ : result unit Error) b' => (exists es, trace b' = trace b ++ es /\ ends_poll es) /\
         exists t, transport b' = (rearm_srq IBSTA_SRQI t).2) (fun _ _ => False) b2).
  { intros r w1 r1 w2 r2 post b2 Hpost Et. wp_auto. unfold via, zoom, wp.
    destruct (rearm_srq IBSTA_SRQI (transport b2)) as [r3 t3] eqn:Er.
    assert (Hend : (exists es, trace (with_transport t3 b2) = trace b ++ es /\ ends_poll es) /\
      exists t, t3 = (rearm_srq IBSTA_SRQI t).2).
    { split; [|by exists (transport b2); rewrite Er]. eexists. cbn [trace with_transport]. rewrite Et, <- app_assoc.
      split; [done|]. by exists [], w1, r1, w2, r2, post. }
    by destruct r3. }
  unfold end_poll, restore_acceptor. wp_auto. apply register_write_wp. intros w1 r1 t1 b1.
  split; [|intros e]; wp_auto; apply send_spd_wp; intros w2 r2 post b2 Hpost Et; split; try intros e';
    (eapply Hfin; [exact Hpost|exact Et]).
Qed.

(** The wait for the status byte ends: each turn sleeps a millisecond. *)
Lemma await_byte_total fuel : forall deadline (b : St),
  deadline - ni_now (transport b) <= from_millis (Z.of_nat fuel - 1) -> (0 < fuel)%nat ->
  wp (await_byte fuel deadline) (fun r _ => is_Some r) (fun _ _ => True) b.
Proof.
  induction fuel as [|fuel IH]; intros deadline b Hd Hf; [lia|]. cbn [await_byte]. wp_auto.
  apply (wp_mono _ (fun _ b' => ni_now (transport b) <= ni_now (transport b')) _ (fun _ _ => True)); [| |done].
  { apply (wp_keeps (ext true None)); [unfold take_held_byte; keeps_auto; apply ext_register_read| |done].
    intros a b' Hx. by apply Hx. }
  intros [c|] b1 Hn; wp_auto; [by eexists|]. destruct (Z.leb_spec deadline (ni_now (transport b1))); [done|].
  unfold on_transport. wp_auto. pose proof (ni_sleep_now (transport b1) (from_millis 1) ltac:(unfold from_millis; lia)) as Hs.
  unfold from_millis in *. apply IH; [cbn [transport with_transport]; lia|lia].
Qed.

Lemma poll_tail_wp pad (b : St) :
  wp (let! standby := attempt (transact RStandby OP_RESP_LEN) in
      let! polled := match standby with Err e => ret (Err e) | Ok _ => attempt take_status_byte end in
      let! restored := end_poll in
      let! stb := context (str "ni serial poll of pad " ++ to_string pad) (of_result polled) in
      let! _ := context (str "ni serial poll: restoring the bus after the poll") (of_result restored) in
      ret stb)
    (fun _ b' => (exists es, trace b' = trace b ++ es /\ ends_poll es) /\ exists t, transport b' = (rearm_srq IBSTA_SRQI t).2)
    (fun _ b' => (exists es, trace b' = trace b ++ es /\ ends_poll es) /\ exists t, transport b' = (rearm_srq IBSTA_SRQI t).2) b.
Proof.
  set (P := fun b' => _ /\ _). wp_auto.
  assert (Hend : forall polled (b1 : St) es, trace b1 = trace b ++ es ->
    wp (let! restored := end_poll in
        let! stb := context (str "ni serial poll of pad " ++ to_string pad) (of_result polled) in
        let! _ := context (str "ni serial poll: restoring the bus after the poll") (of_result restored) in
        ret stb) (fun _ : Z => P) (fun _ => P) b1).
  { intros polled b1 es Et. wp_auto. eapply wp_mono; [apply end_poll_wp| |done]. intros restored b2 [(es2 & Et2 & pre & Hp) Ht].
    assert (HP : P b2).
    { split; [|done]. exists (es ++ es2). rewrite Et2, Et, app_assoc. split; [done|].
      destruct Hp as (w1 & r1 & w2 & r2 & post & -> & Hp). exists (es ++ pre), w1, r1, w2, r2, post. by rewrite app_assoc. }
    wp_auto. destruct polled; [|done]. wp_auto. by destruct restored. }
  apply wp_transact; intros r t _; apply wp_bind; [apply wp_attempt|apply wp_ret; by eapply Hend].
  apply (wp_keeps (ext true None)); [apply ext_take_status_byte|..]; intros ? b2 Hx;
    destruct (Hx ltac:(done)) as (_ & _ & _ & _ & _ & _ & _ & _ & es & Et & _); eapply Hend; rewrite Et; simpl;
    by rewrite <- app_assoc.
Qed.

End Polls.

Lemma reachable_ok {T} `{NiLaws T} (b : NiUsbHsBackend T) : reachable b -> driver_ok b.
Proof. induction 1; [by split; [constructor|]|by apply ok_run_op]. Qed.

(** ** Properties *)

(** C27: reads and the bus.  In every reachable state, a read by a controller in
    charge ends with one data read, and at that moment - by everything sent to
    the adapter before, and whether or not this read addressed anyone itself -
    ATN is released, the instrument asked is the talker and the controller the
    only listener.  A read that finds the bus so addressed by the read before
    it sends no command byte at all. *)
Theorem ni_read_addressed {T} `{NiLaws T} (b : NiUsbHsBackend T) pad n r b' : reachable b ->
  device_address b = None -> listen_only b = false -> 0 <= pad <= 30 -> 0 <= my_pad b <= 30 ->
  read pad n b = (Ok r, b') ->
  exists tr e, trace b' = tr ++ [e] /\ (exists m c tc, asked_for e = RDataRead (Z.min n MAX_TRANSFER_LEN) m c tc) /\
    atn_line (bus_of tr) = Some false /\ talks (bus_of tr) = Some (Some pad) /\ listens (bus_of tr) = Some [my_pad b] /\
    (read_addressing b = Some (mkReadAddressing (Some pad) (my_pad b)) -> tr = trace b) /\
    read_addressing b' = Some (mkReadAddressing (Some pad) (my_pad b)).
Proof.
  intros Hr Hd Hl Hp Hm Hrun. pose proof (reachable_ok b Hr) as Hb.
  apply (wp_run _ _ _ _ (read_wp pad n b Hb Hd)) in Hrun as (_ & Hra & tr & e & m & c & tc & Et & Ee & Ha & Hs).
  unfold want_addressing in *. rewrite Hl in *. destruct (Ha (conj Hm Hp)) as (H1 & H2 & H3). exists tr, e. eauto 10.
Qed.

(** An instrument with something to say, behind an adapter at address 0. *)
Definition test_adapter : Adapter := mkAdapter (as_bytes (str "34401A")) (Some 0x42) 0 0 false None.

Lemma ni_read_addressed_witness :
  let b := run_op (ORead 22 4) (new test_adapter 1000) in
  (read 22 100 b).1 = Ok (as_bytes (str "1A"), true) /\
  exists tr e, trace (read 22 100 b).2 = tr ++ [e] /\ talks (bus_of tr) = Some (Some 22) /\ tr = trace b.
Proof.
  intros b. split; [by vm_compute|]. assert (Hr : reachable b) by apply reach_op, reach_new.
  assert (E : read 22 100 b = (Ok (as_bytes (str "1A"), true), (read 22 100 b).2)) by by vm_compute.
  destruct (ni_read_addressed b 22 100 _ _ Hr ltac:(by vm_compute) ltac:(by vm_compute) ltac:(lia) ltac:(by vm_compute) E)
    as (tr & e & Et & _ & _ & Ht & _ & Hs & _). exists tr, e. split_and!; [done..|]. apply Hs. by vm_compute.
Defined.

(** C31: a write is one message.  A write that succeeds was made as a controller
    in charge and not in listen-only mode; before its data, the controller was
    made the talker, the instrument the only listener and ATN was released; the
    data follow in chunks of at most 65,535 bytes that concatenate to the
    message, and the end is marked on the last chunk alone, if it was asked
    for; and the adapter's reply to each chunk says that all of its bytes went
    out.  In listen-only and in device mode nothing is sent at all. *)
Theorem ni_write_message {T} `{NiLaws T} (b : NiUsbHsBackend T) pad d e :
  (forall b', write pad d e b = (Ok tt, b') ->
     listen_only b = false /\ device_address b = None /\
     exists pre es tc cs, trace b' = trace b ++ pre ++ es /\
       map asked_for es = data_requests tc e cs /\ concat cs = d /\ Forall (fun c => zlen c <= MAX_TRANSFER_LEN) cs /\
       Forall2 accepted cs es /\
       (0 <= pad <= 30 -> 0 <= my_pad b <= 30 -> let k := bus_of (trace b ++ pre) in
        atn_line k = Some false /\ talks k = Some (Some (my_pad b)) /\ listens k = Some [pad])) /\
  (listen_only b = true \/ is_Some (device_address b) -> exists err, write pad d e b = (Err err, b)).
Proof.
  split.
  - intros b' (Hl & Hd & pre & es & tc & Et & (cs & H1 & H2 & _ & H3 & H4) & Hk)%(wp_run _ _ _ _ (write_wp pad d e b)).
    split_and!; [done..|]. exists pre, es, tc, cs. by split_and!.
  - unfold write, bind, gets. destruct (listen_only b); [by eexists|]. intros [?|Ha]; [done|].
    rewrite bool_decide_true by done. eexists. reflexivity.
Qed.

Lemma ni_write_message_witness : exists pre es tc cs,
  trace (write 22 (as_bytes (str "*RST")) true (new test_adapter 1000)).2 = pre ++ es /\
  map asked_for es = data_requests tc true cs /\ concat cs = as_bytes (str "*RST") /\
  Forall2 accepted cs es /\ listens (bus_of pre) = Some [22].
Proof.
  set (b := new test_adapter 1000).
  assert (E : write 22 (as_bytes (str "*RST")) true b = (Ok tt, (write 22 (as_bytes (str "*RST")) true b).2)) by by vm_compute.
  destruct (proj1 (ni_write_message b 22 (as_bytes (str "*RST")) true) _ E)
    as (_ & _ & pre & es & tc & cs & Et & Em & Ec & _ & Ha & Hk).
  exists pre, es, tc, cs. split_and!; [exact Et|exact Em|exact Ec|exact Ha|]. apply Hk; [lia|by vm_compute].
Defined.

(** C32: the two deadlines never disagree.  In every reachable state, each request
    that ever gave the adapter a time limit was sent while the transport was set
    to wait for exactly that step of the adapter's table; so the daemon never
    gives up on a transfer the adapter is still allowed to run. *)
Theorem ni_deadlines_agree {T} `{NiLaws T} (b : NiUsbHsBackend T) : reachable b ->
  forall x tc, In x (trace b) -> code_of (asked_for x) = Some tc -> exists t, timeout_code_floor t = (tc, wait_ms x).
Proof.
  intros [Hh _]%reachable_ok x tc Hx%list_elem_of_In. rewrite Forall_forall in Hh. by apply Hh.
Qed.

Lemma ni_deadlines_agree_witness : exists t,
  timeout_code_floor t = (0xfc, wait_ms (mkExchange (RDataRead 100 0 10 0xfc) 3000
    (Ok (read_response false (as_bytes (str "34401A")) IBSTA_END 0 0 [])))).
Proof.
  apply (ni_deadlines_agree (run_op (ORead 22 100) (new test_adapter 5000))).
  - apply reach_op, reach_new.
  - vm_compute. tauto.
  - done.
Defined.

(** a serial poll cleans up.  Once serial poll has been enabled and the
    acceptor readied, whatever happens - no answer, an adapter that refuses -
    the poll ends by halting the acceptor again and taking control to send SPD
    and UNT, and by re-arming the service-request monitor.  And the wait for the
    status byte always ends. *)
Theorem ni_poll_cleans_up {T} `{NiLaws T} (b b1 : NiUsbHsBackend T) pad : begin_poll pad b = (Ok tt, b1) ->
  (exists es, trace (serial_poll pad b).2 = trace b1 ++ es /\ ends_poll es) /\
  (exists t, transport (serial_poll pad b).2 = (rearm_srq IBSTA_SRQI t).2) /\
  (0 <= timeout_ms b1 ->
   wp (await_byte (S (Z.to_nat (timeout_ms b1))) (ni_now (transport b1) + from_millis (timeout_ms b1)))
     (fun r _ => is_Some r) (fun _ _ => True) b1).
Proof.
  intros Hb. pose proof (poll_tail_wp pad b1) as Hw. unfold serial_poll.
  rewrite (bind_run _ _ _ _ _ Hb). unfold wp in Hw. split_and!.
  - destruct (bind _ _ b1) as [[]]; by apply Hw.
  - destruct (bind _ _ b1) as [[]]; by apply Hw.
  - intros Ht. apply await_byte_total; [|lia]. unfold from_millis. lia.
Qed.

Lemma ni_poll_cleans_up_witness :
  let b := new test_adapter 1000 in
  (serial_poll 22 b).1 = Ok 0x42 /\
  exists es, trace (serial_poll 22 b).2 = trace (begin_poll 22 b).2 ++ es /\ ends_poll es.
Proof.
  intros b. split; [by vm_compute|].
  assert (E : begin_poll 22 b = (Ok tt, (begin_poll 22 b).2)) by by vm_compute.
  apply (proj1 (ni_poll_cleans_up b (begin_poll 22 b).2 22 E)).
Defined.

(** When readying the acceptor fails the poll returns at once: serial poll stays
    enabled on the bus and the monitor is not re-armed. *)
Example poll_left_enabled :
  let b := new (mkAdapter [] None 0 0 false (Some NIUSB_REG_WRITE_ID)) 1000 in
  let b' := (serial_poll 22 b).2 in
  (serial_poll 22 b).1 = Err (str "ni: readying the acceptor: ni bulk-in timed out") /\
  map asked_for (trace b') =
    [RTakeControl true; RCommand [b8 GPIB_UNL; b8 GPIB_SPE; b8 (talk_address 22); b8 (listen_address 0)] 0xfb;
     RRegWrite [tnt REG_AUXMR AUX_FH; tnt REG_CMDR CMDR_GO]] /\
  a_armed (transport b') = false.
Proof. by vm_compute. Qed.

End NiProofs.
