(* ===== verification/NiHost.v ===== *)
(** * The NI transport over the USB stack: [src/backend/ni_usb_hs/usb.rs]

    How a reply is collected from the bulk pipe, how an exchange recovers from
    one that was abandoned or answered late, how interrupt reports are told
    from acknowledgements, and how the adapter and its endpoints are found.
    The two bulk endpoints sit behind one lock that an exchange holds, so the
    whole of [transact] is one step of the transport's state.  The transport
    implements [NiTransport]. *)

From S2P Require Import Prelude RustStr Backend Effect Usb NiMsg NiUsb NiProofs.

Module NiHost.
Import RustStr Backend Effect Usb NiMsg NiUsb NiProofs.

Definition BULK_REPLY_MARGIN_MS : Z := 2000.
Definition DRAIN_POLL : Z := from_millis 100.
Definition NI_USB_STOP_REQUEST : Z := 0x20.
Definition MAX_REQUEST : Z := 16384.
Definition MAX_RESYNC : nat := 4.

(** ** Finding the adapter *)

Record Endpoints : Type := mkEndpoints { bulk_out_ep : Z; bulk_in_ep : Z; interrupt_in_ep : Z }.

Definition endpoints_for (pid : Z) : Endpoints :=
  if pid =? PID_NI_USB_HS_PLUS then mkEndpoints 0x01 0x82 0x83 else mkEndpoints 0x02 0x84 0x81.

Record DeviceInfo : Type := mkDeviceInfo { vendor_id : Z; device_pid : Z; device_port : list Z }.

Definition quoted (s : list Z) : list Z := [34] ++ s ++ [34].

Fixpoint find_in (port : option (list Z)) (devs : list DeviceInfo) : result (DeviceInfo * Z) Error :=
  match devs with
  | [] =>
      Err (match port with
           | Some want => str "no NI GPIB-USB-HS adapter found at USB port " ++ quoted want
           | None => str "no NI GPIB-USB-HS adapter found (expected VID 0x3923)"
           end)
  | dev :: rest =>
      if negb (vendor_id dev =? USB_VENDOR_ID_NI) then find_in port rest
      else if negb (bool_decide ((USB_VENDOR_ID_NI, device_pid dev) ∈ USB_IDS)) then find_in port rest
      else
        match port with
        | Some want => if decide (device_port dev = want) then Ok (dev, device_pid dev) else find_in port rest
        | None => Ok (dev, device_pid dev)
        end
  end.

Definition find_device (port : option (list Z)) (devs : result (list DeviceInfo) Error)
    : result (DeviceInfo * Z) Error :=
  let? devs := map_err (in_context (str "failed to list USB devices")) devs in find_in port devs.

(** ** The transport *)

Record NiUsbTransport (U : Type) : Type := mkNiUsbTransport {
  host : U;
  pid : Z;
  abandoned : option Z;      (* by when a late reply must have arrived *)
  adapter_wait_ms : Z;
  srq_needs_rearm : bool;
  srq_sent : Z;              (* service requests announced *)
}.
Arguments mkNiUsbTransport {U}.
Arguments host {U}.
Arguments pid {U}.
Arguments abandoned {U}.
Arguments adapter_wait_ms {U}.
Arguments srq_needs_rearm {U}.
Arguments srq_sent {U}.

(** [data.ends_with(&TERMINATION)]. *)
Definition terminated (data : list byte) : bool :=
  bool_decide (drop (length data - 4) data = termination).

Definition elapsed : Error := str "deadline has elapsed".

Section Transport.
Context {U : Type} `{UsbHost U}.
Notation Tr := (NiUsbTransport U).

Definition with_host (t : Tr) (u : U) : Tr :=
  mkNiUsbTransport u (pid t) (abandoned t) (adapter_wait_ms t) (srq_needs_rearm t) (srq_sent t).
Definition with_abandoned (a : option Z) (t : Tr) : Tr :=
  mkNiUsbTransport (host t) (pid t) a (adapter_wait_ms t) (srq_needs_rearm t) (srq_sent t).
Definition with_rearm (r : bool) (t : Tr) : Tr :=
  mkNiUsbTransport (host t) (pid t) (abandoned t) (adapter_wait_ms t) r (srq_sent t).
Definition on_host {A} (m : Act U A) : Act Tr A := zoom host with_host m.

(** [open], once the device is open. *)
Definition open_transport (u : U) (p timeout : Z) : Tr :=
  mkNiUsbTransport u p None (timeout_code_floor timeout).2 false 0.

Definition bulk_timeout (t : Tr) : Z := from_millis (adapter_wait_ms t + BULK_REPLY_MARGIN_MS).

Definition bulk_out_locked (data : list byte) (wait : Z) : Act U unit := fun u =>
  match urb_out data wait u with
  | (Completed _, u') => (Ok tt, u')
  | (Failed e, u') => (Err (str "ni bulk-out failed: " ++ e), u')
  | (TimedOut, u') => (Err (in_context (str "ni bulk-out timed out") elapsed), u')
  end.

(** [(max_len - data.len()).clamp(1, MAX_REQUEST).div_ceil(mps) * mps]. *)
Definition request_size (mps left_ : Z) : Z := (Z.min (Z.max left_ 1) MAX_REQUEST + (mps - 1)) / mps * mps.

(** The loop of [bulk_in_locked]: each turn brings a byte, so one turn per byte
    and one to see the end are enough; [None] is out of fuel.  [wait] is the
    wait of one URB at a given moment. *)
Fixpoint collect (fuel : nat) (mps : Z) (wait : U -> Z) (max_len : Z) (data : list byte) : Act U (option (list byte)) :=
  fun u =>
  match fuel with
  | O => (Ok None, u)
  | S fuel =>
      if (zlen data <? max_len) && negb (terminated data) then
        match urb_in (request_size mps (max_len - zlen data)) (wait u) u with
        | (Completed [], u') => (Ok (Some data), u')
        | (Completed buf, u') => collect fuel mps wait max_len (data ++ buf) u'
        | (Failed e, u') => (Err (str "ni bulk-in failed: " ++ e), u')
        | (TimedOut, u') => (Err (in_context (str "ni bulk-in timed out") elapsed), u')
        end
      else (Ok (Some data), u)
  end.

Definition bulk_in_waiting (max_len : Z) (wait : U -> Z) : Act U (list byte) := fun u =>
  let mps := Z.max (max_packet_size u) 1 in
  (let! r := collect (S (Z.to_nat max_len)) mps wait max_len [] in
   match r with Some d => ret d | None => bail [] end) u.

Definition bulk_in_locked (max_len wait : Z) : Act U (list byte) := bulk_in_waiting max_len (fun _ => wait).

(** [for _ in 0..16] of [drain_bulk_in_locked], with [n] turns left. *)
Fixpoint drain_turns (n : nat) (mps wait : Z) (u : U) : U :=
  match n with
  | O => u
  | S n =>
      match urb_in ((256 + (mps - 1)) / mps * mps) wait u with
      | (Completed (_ :: _), u') => drain_turns n mps DRAIN_POLL u'
      | (_, u') => u'
      end
  end.
Definition drain_bulk_in_locked (first_wait : Z) (u : U) : U :=
  drain_turns 16 (Z.max (max_packet_size u) 1) first_wait u.

Definition vendor_control_in (q v i n : Z) : Act U (list byte) := fun u =>
  let '(r, u') := host_control_in (mkControlIn Vendor ToDevice q v i (as_u16 n)) u in
  (map_err (fun e => str "ni control-in failed: " ++ e) r, u').

(** *** The exchange *)

(** [for _ in 0..MAX_RESYNC], with [n] turns left. *)
Fixpoint read_reply (n : nat) (req : list byte) (resp_len wait : Z) : Act U (list byte) :=
  match n with
  | O => bail (str "ni bulk pipe is out of step: 4 replies in a row answered an earlier request")
  | S n =>
      let! resp := bulk_in_locked resp_len wait in
      if reply_answers_request req resp then ret resp else read_reply n req resp_len wait
  end.

(** [io.abandoned.take()] and the drain it asks for. *)
Definition settle_abandoned : Act Tr unit := modify (fun t =>
  match abandoned t with
  | None => t
  | Some deadline =>
      let wait := Z.max 0 (deadline - usb_now (host t)) in
      with_abandoned None (with_host t (drain_bulk_in_locked (Z.max wait DRAIN_POLL) (host t)))
  end).

Definition usb_transact (req : list byte) (resp_len : Z) : Act Tr (list byte) :=
  let! timeout := gets bulk_timeout in
  let! _ := settle_abandoned in
  let! _ := modify (fun t => with_abandoned (Some (usb_now (host t) + timeout)) t) in
  let! _ := on_host (bulk_out_locked req timeout) in
  let! resp := on_host (read_reply MAX_RESYNC req resp_len timeout) in
  let! _ := modify (with_abandoned None) in
  ret resp.

(** *** Opening and draining *)

Definition quiesce (t : Tr) : Tr :=
  let t := (on_host (vendor_control_in NI_USB_STOP_REQUEST 0 0 8) t).2 in
  let u := (clear_halt_in (clear_halt_out (host t)).2).2 in
  with_abandoned None (with_host t (drain_bulk_in_locked DRAIN_POLL u)).

(** [for _ in 0..8] of [drain_stale_responses], each read cut off after 50 ms. *)
Fixpoint drain_reads (n : nat) (timeout : Z) (u : U) : U :=
  match n with
  | O => u
  | S n =>
      let deadline := usb_now u + from_millis 50 in
      match bulk_in_waiting 1024 (fun u => Z.min timeout (Z.max 0 (deadline - usb_now u))) u with
      | (Ok (_ :: _), u') => drain_reads n timeout u'
      | (_, u') => u'
      end
  end.
Definition usb_drain_stale (t : Tr) : Tr := with_host t (drain_reads 8 (bulk_timeout t) (host t)).

(** *** Service requests *)

Definition parse_interrupt_ibsta (packet : list byte) : option Z :=
  if zlen packet <? 3 then None
  else
    let ibsta := Z.lor (Z.shiftl (at_ packet 1) 8) (at_ packet 2) in
    if has_flag ibsta (as_u16 (Z.lnot IBSTA_DEFINED_BITS)) then None else Some ibsta.

(** One completed report, as [interrupt_reader] treats it. *)
Definition on_interrupt (t : Tr) (packet : list byte) : Tr :=
  match packet with
  | [] => t
  | _ =>
      match parse_interrupt_ibsta packet with
      | Some v =>
          if has_flag v IBSTA_SRQI then
            mkNiUsbTransport (host t) (pid t) (abandoned t) (adapter_wait_ms t) true (srq_sent t + 1)
          else t
      | None => t
      end
  end.

Definition usb_rearm_if_pending (t : Tr) : Tr :=
  if srq_needs_rearm t then
    (on_host (vendor_control_in NI_USB_WAIT_REQUEST 0x300 IBSTA_SRQI 8) (with_rearm false t)).2
  else t.

Definition usb_rearm_srq (mask : Z) : Act Tr unit :=
  let! _ := on_host (vendor_control_in NI_USB_WAIT_REQUEST 0x300 mask 8) in
  modify (with_rearm false).

Definition usb_control_in_interface (q v i n : Z) : Act Tr (list byte) := fun t =>
  let '(r, u') := host_control_in (mkControlIn Vendor ToInterface q v i (as_u16 n)) (host t) in
  (map_err (fun e => str "ni interface control-in failed: " ++ e) r, with_host t u').

End Transport.

#[export] Instance NiUsbTransport_transport (U : Type) `{UsbHost U} : NiTransport (NiUsbTransport U) := {|
  ni_transact := usb_transact;
  ni_control_in q v i n := on_host (vendor_control_in q v i n);
  ni_control_in_interface := usb_control_in_interface;
  product_id := pid;
  rearm_srq_if_pending := usb_rearm_if_pending;
  set_adapter_wait w t := mkNiUsbTransport (host t) (pid t) (abandoned t) w (srq_needs_rearm t) (srq_sent t);
  adapter_wait := adapter_wait_ms;
  drain_stale_responses := usb_drain_stale;
  rearm_srq := usb_rearm_srq;
  ni_now t := usb_now (host t);
  ni_sleep t d := with_host t (usb_sleep (host t) d);
|}.

(** ** Lemmas *)

(** Collecting always ends. *)
Lemma collect_total {U} `{UsbHost U} fuel : forall mps wait n data (u : U), Z.max 0 (n - zlen data) < Z.of_nat fuel ->
  wp (collect fuel mps wait n data) (fun r _ => is_Some r) (fun e _ => e <> []) u.
Proof.
  induction fuel as [|fuel IH]; intros mps wait n data u Hf; [lia|]. unfold wp. cbn [collect].
  destruct (Z.ltb_spec (zlen data) n); cbn [andb]; [|by eexists]. destruct (negb (terminated data)); [|by eexists].
  destruct (urb_in _ _ u) as [[[|c buf]|e|] u']; try done.
  apply IH. rewrite zlen_app, zlen_cons. pose proof (zlen_nonneg buf). lia.
Qed.

(** So the empty error, which stands for fuel running out, is never returned. *)
Lemma bulk_in_errors {U} `{UsbHost U} n wait (u : U) : wp (bulk_in_waiting n wait) (fun _ _ => True) (fun e _ => e <> []) u.
Proof.
  unfold bulk_in_waiting, wp, bind.
  pose proof (collect_total (S (Z.to_nat n)) (Z.max (max_packet_size u) 1) wait n [] u) as Hc.
  unfold wp in Hc. destruct (collect _ _ _ _ _ u) as [[[d|]|e] u']; [done| |].
  - destruct Hc as [d ?]; [change (zlen []) with 0; lia|done].
  - apply Hc. change (zlen []) with 0. lia.
Qed.

(** *** The clock *)

Section Clock.
Context {U : Type} `{UsbClock U}.

Definition host_le (u u' : U) : Prop := usb_now u <= usb_now u'.
#[export] Instance host_le_preorder : PreOrder host_le.
Proof. split; unfold host_le; [intros u; lia|intros a b c; lia]. Qed.

Lemma collect_now fuel : forall mps wait n data, keeps host_le (collect (U := U) fuel mps wait n data).
Proof.
  induction fuel as [|fuel IH]; intros mps wait n data u; cbn [collect]; [reflexivity|].
  destruct (_ && _); [|reflexivity]. unfold host_le.
  pose proof (urb_in_now (request_size mps (n - zlen data)) (wait u) u) as Hu.
  destruct (urb_in _ _ u) as [[[|c buf]|e|] u']; simpl in *; try done.
  pose proof (IH mps wait n (data ++ c :: buf) u') as Hi. unfold host_le in Hi. lia.
Qed.
Lemma bulk_in_now n wait : keeps host_le (bulk_in_waiting (U := U) n wait).
Proof.
  intros u. unfold bulk_in_waiting. apply (keeps_bind host_le); [apply collect_now|].
  intros [d|]; [apply keeps_ret|apply keeps_bail]; apply _.
Qed.
Lemma read_reply_now req len wait n : keeps host_le (read_reply (U := U) n req len wait).
Proof.
  induction n as [|n IH]; cbn [read_reply]; keeps_auto. apply bulk_in_now.
Qed.
Lemma bulk_out_now d wait : keeps host_le (bulk_out_locked (U := U) d wait).
Proof.
  intros u. unfold bulk_out_locked. pose proof (urb_out_now d wait u) as Hu.
  by destruct (urb_out d wait u) as [[] u'].
Qed.
Lemma drain_now n : forall mps wait u, host_le u (drain_turns (U := U) n mps wait u).
Proof.
  induction n as [|n IH]; intros mps wait u; cbn [drain_turns]; [reflexivity|].
  pose proof (urb_in_now ((256 + (mps - 1)) / mps * mps) wait u) as Hu.
  destruct (urb_in _ wait u) as [[[|c buf]|e|] u']; try exact Hu. etrans; [exact Hu|apply IH].
Qed.
Lemma drain_reads_now n : forall wait u, host_le u (drain_reads (U := U) n wait u).
Proof.
  induction n as [|n IH]; intros wait u; cbn [drain_reads]; [reflexivity|].
  set (w := fun u' => Z.min _ _). pose proof (bulk_in_now 1024 w u) as Hu.
  destruct (bulk_in_waiting 1024 w u) as [[[|c buf]|e] u']; try exact Hu. etrans; [exact Hu|apply IH].
Qed.
Lemma vendor_control_now q v i n : keeps host_le (vendor_control_in (U := U) q v i n).
Proof.
  intros u. unfold vendor_control_in. pose proof (host_control_now (mkControlIn Vendor ToDevice q v i (as_u16 n)) u) as Hu.
  by destruct (host_control_in _ u).
Qed.

Lemma steady_on_host {A} (m : Act U A) : keeps host_le m -> keeps steady (on_host m).
Proof. intros Hm t. unfold on_host, zoom. specialize (Hm (host t)). by destruct (m (host t)). Qed.
Lemma steady_modify (f : NiUsbTransport U -> NiUsbTransport U) : (forall t, host_le (host t) (host (f t))) ->
  (forall t, adapter_wait_ms (f t) = adapter_wait_ms t) -> keeps steady (modify f).
Proof. intros H1 H2 t. split; [apply H1|apply H2]. Qed.

End Clock.

#[export] Instance steady_preorder {T} `{NiTransport T} : PreOrder steady.
Proof.
  split; unfold steady, clock_le; [intros t; split; [lia|done]|]. intros a b c [] []. split; [lia|congruence].
Qed.

(** The transport keeps what the driver relies on. *)
#[export] Instance NiUsbTransport_laws (U : Type) `{UsbClock U} : NiLaws (NiUsbTransport U).
Proof.
  split; intros; simpl; try done.
  - unfold usb_transact. keeps_auto.
    + apply steady_modify; intros t; destruct (abandoned t); try done; apply drain_now.
    + apply steady_modify; intros t; reflexivity.
    + apply steady_on_host, bulk_out_now.
    + apply steady_on_host, read_reply_now.
    + apply steady_modify; intros t; reflexivity.
  - apply steady_on_host, vendor_control_now.
  - intros t. unfold usb_control_in_interface.
    pose proof (host_control_now (mkControlIn Vendor ToInterface q v i (as_u16 n)) (host t)) as Hu.
    by destruct (host_control_in _ (host t)).
  - unfold usb_rearm_srq. keeps_auto; [apply steady_on_host, vendor_control_now|].
    apply steady_modify; intros t; reflexivity.
  - unfold usb_rearm_if_pending. destruct (srq_needs_rearm t); [|reflexivity].
    exact (steady_on_host _ (vendor_control_now _ _ _ _) (with_rearm false t)).
  - split; [apply drain_reads_now|done].
  - by apply usb_sleep_now.
Qed.

(** ** Properties *)

(** What an exchange does on the pipe, by the record of its transfers. *)

Definition brought (x : Urb) : list byte :=
  match x with AskedIn _ _ (Completed d) => d | _ => [] end.

(** The reads of a drain, with at most [k] of them: the first waits [w], each
    later one [DRAIN_POLL]; a read that brings nothing is the last. *)
Inductive drained : nat -> Z -> list Urb -> Prop :=
  | drained_out w : drained 0 w []
  | drained_dry k w n c : brought (AskedIn n w c) = [] -> drained (S k) w [AskedIn n w c]
  | drained_more k w n d l : d <> [] -> drained k DRAIN_POLL l -> drained (S k) w (AskedIn n w (Completed d) :: l).

(** The reads of one reply of at most [n] bytes: all that they brought, up to a
    termination block, an empty packet or [n] bytes; or a read that failed. *)
Definition part_of_reply (w : Z) (x : Urb) : Prop := exists k d, x = AskedIn k w (Completed d).
Definition whole_reply (n w : Z) (l : list Urb) (d : list byte) : Prop :=
  Forall (part_of_reply w) l /\ d = concat (map brought l) /\
  (n <= zlen d \/ terminated d = true \/ exists pre k, l = pre ++ [AskedIn k w (Completed [])]).
Definition broken_reply (w : Z) (l : list Urb) : Prop :=
  exists pre k c, l = pre ++ [AskedIn k w c] /\ Forall (part_of_reply w) pre /\ forall d, c <> Completed d.

(** The reply's first byte is one the adapter answers this request with; an
    empty reply is not judged. *)
Definition answers (req resp : list byte) : Prop :=
  match req, resp with
  | o :: _, p :: _ => In (u8 p) (reply_ids (u8 o))
  | _, _ => True
  end.

(** The reads after the request, with at most [k] replies: replies to something
    else are passed over, and the first that answers is the result. *)
Inductive replied (req : list byte) (n w : Z) : nat -> list Urb -> result (list byte) Error -> Prop :=
  | replied_own k l d : whole_reply n w l d -> answers req d -> replied req n w (S k) l (Ok d)
  | replied_broken k l e : broken_reply w l -> replied req n w (S k) l (Err e)
  | replied_late k l d l' r : whole_reply n w l d -> ~ answers req d -> replied req n w k l' r ->
      replied req n w (S k) (l ++ l') r
  | replied_never e : replied req n w 0 [] (Err e).

Lemma answers_iff req resp : reply_answers_request req resp = true <-> answers req resp.
Proof.
  destruct req as [|o req], resp as [|p resp]; try done. unfold reply_answers_request, answers, reply_ids. cbv zeta.
  destruct (u8 o =? NIUSB_DATA_READ_OP); [|destruct (u8 o =? NIUSB_REG_READ_ID)]; simpl;
    rewrite ?orb_true_iff, !Z.eqb_eq; intuition congruence.
Qed.

Section OnTape.
Context {U : Type} `{UsbClock U}.

Lemma drain_tape k : forall mps w (u : Tape U),
  exists l, tape (drain_turns k mps w u) = tape u ++ l /\ drained k w l.
Proof.
  induction k as [|k IH]; intros mps w u; [exists []; rewrite app_nil_r; split; [done|constructor]|].
  cbn [drain_turns urb_in Tape_host]. destruct (urb_in _ w (taped u)) as [[[|c d]|e|] u'];
    try (eexists; split; [reflexivity|by constructor]).
  destruct (IH mps DRAIN_POLL (mkTape u' (tape u ++ [AskedIn ((256 + (mps - 1)) / mps * mps) w (Completed (c :: d))])))
    as (l & -> & Hl). eexists. cbn [tape]. rewrite <- app_assoc. split; [reflexivity|by constructor].
Qed.

Lemma collect_tape fuel : forall mps w n data (u : Tape U), Z.max 0 (n - zlen data) < Z.of_nat fuel ->
  wp (collect fuel mps (fun _ => w) n data)
    (fun r u' => exists d l, r = Some d /\ tape u' = tape u ++ l /\ Forall (part_of_reply w) l /\
       d = data ++ concat (map brought l) /\
       (n <= zlen d \/ terminated d = true \/ exists pre k, l = pre ++ [AskedIn k w (Completed [])]))
    (fun e u' => exists l, tape u' = tape u ++ l /\ broken_reply w l) u.
Proof.
  induction fuel as [|fuel IH]; intros mps w n data u Hf; [lia|]. unfold wp. cbn [collect].
  destruct (Z.ltb_spec (zlen data) n); cbn [andb].
  2:{ exists data, []. rewrite !app_nil_r. split_and!; try done. by left. }
  destruct (terminated data) eqn:Et; cbn [negb].
  { exists data, []. rewrite !app_nil_r. split_and!; try done. by right; left. }
  cbn [urb_in Tape_host]. set (k := request_size _ _). destruct (urb_in k w (taped u)) as [[[|c d]|e|] u'].
  - exists data, [AskedIn k w (Completed [])]. cbn. rewrite app_nil_r. split_and!; try done.
    + apply Forall_singleton. by eexists _, _.
    + right; right. by exists [], k.
  - set (x := AskedIn k w (Completed (c :: d))). set (u1 := mkTape u' (tape u ++ [x])).
    pose proof (IH mps w n (data ++ c :: d) u1) as Hi. unfold wp in Hi.
    assert (Hx : part_of_reply w x) by by eexists _, _.
    destruct (collect fuel _ _ _ _ u1) as [[r|e] u2]; cbn [tape u1] in Hi.
    + destruct Hi as (dd & l & -> & -> & Hl & -> & Hend).
      { rewrite zlen_app, zlen_cons. pose proof (zlen_nonneg d). lia. }
      exists ((data ++ c :: d) ++ concat (map brought l)), (x :: l). split_and!; try done.
      * by rewrite <- app_assoc.
      * by constructor.
      * by rewrite <- app_assoc.
      * destruct Hend as [?|[?|(pre & k' & ->)]]; eauto. right; right. by exists (x :: pre), k'.
    + destruct Hi as (l & -> & pre & k' & c' & -> & Hp & Hc).
      { rewrite zlen_app, zlen_cons. pose proof (zlen_nonneg d). lia. }
      exists (x :: pre ++ [AskedIn k' w c']). split; [by rewrite <- app_assoc|].
      exists (x :: pre), k', c'. split_and!; try done. by constructor.
  - exists [AskedIn k w (Failed e)]. split; [done|]. by exists [], k, (Failed e).
  - exists [AskedIn k w TimedOut]. split; [done|]. by exists [], k, TimedOut.
Qed.

Lemma bulk_in_tape n w (u : Tape U) :
  wp (bulk_in_locked n w) (fun d u' => exists l, tape u' = tape u ++ l /\ whole_reply n w l d)
    (fun e u' => exists l, tape u' = tape u ++ l /\ broken_reply w l) u.
Proof.
  unfold bulk_in_locked, bulk_in_waiting.
  assert (Hc := collect_tape (S (Z.to_nat n)) (Z.max (max_packet_size u) 1) w n [] u).
  change (zlen []) with 0 in Hc. specialize (Hc ltac:(lia)). unfold wp, bind in *.
  destruct (collect _ _ _ _ _ u) as [[r|e] u']; [|done]. destruct Hc as (d & l & -> & Et & Hl & Hd & Hend).
  exists l. by split_and!.
Qed.

Lemma read_reply_tape req n w k : forall u : Tape U,
  wp (read_reply k req n w) (fun d u' => exists l, tape u' = tape u ++ l /\ replied req n w k l (Ok d))
    (fun e u' => exists l, tape u' = tape u ++ l /\ replied req n w k l (Err e)) u.
Proof.
  induction k as [|k IH]; intros u; cbn [read_reply].
  - wp_auto. exists []. rewrite app_nil_r. split; [done|constructor].
  - wp_auto. eapply wp_mono; [apply bulk_in_tape|..]; cbv beta.
    2:{ intros e u' (l & -> & Hl). exists l. split; [done|by constructor]. }
    intros d u' (l & Et & Hl). destruct (reply_answers_request req d) eqn:Ea.
    + wp_auto. exists l. split; [done|]. by constructor; [|apply answers_iff].
    + assert (Hn : ~ answers req d) by (rewrite <- answers_iff; congruence).
      eapply wp_mono; [apply IH|..]; cbv beta; intros r u2 (l2 & -> & Hl2); exists (l ++ l2); rewrite Et, app_assoc;
        (split; [done|by eapply replied_late]).
Qed.

End OnTape.

(** C28: an exchange answers its own request or leaves a mark, and the next one
    heeds it.  On every transport, whatever the pipe holds: when an earlier
    exchange left a deadline, [transact] first reads the pipe dry, the first of
    at most sixteen reads waiting until that deadline and no less than 100 ms;
    otherwise it reads nothing before its request.  It then sends the request,
    once.  If that fails it reads nothing; otherwise it collects at most four
    replies and returns the first whose leading byte answers this kind of
    request - or which has no byte at all, as the code does not judge an empty
    reply - passing over the others.  It ends with that reply and nothing owed,
    or with an error and a new deadline: the time of the request plus the
    adapter's limit and the margin. *)
Theorem ni_transact_in_step {U} `{UsbClock U} (t : NiUsbTransport (Tape U)) req n r t' :
  usb_transact req n t = (r, t') ->
  exists dr at_time how ins,
    tape (host t') = tape (host t) ++ dr ++ [SentOut at_time req (bulk_timeout t) how] ++ ins /\
    usb_now (host t) <= at_time /\
    match abandoned t with
    | None => dr = []
    | Some d => drained 16 (Z.max (d - usb_now (host t)) DRAIN_POLL) dr
    end /\
    (how = Completed tt -> replied req n (bulk_timeout t) 4 ins r) /\
    (how <> Completed tt -> ins = [] /\ is_ok r = false) /\
    abandoned t' = if is_ok r then None else Some (at_time + bulk_timeout t).
Proof.
  unfold usb_transact, settle_abandoned, bind, gets, modify, ret. cbv beta iota.
  set (t1 := match abandoned t with None => t | _ => _ end). intros Hrun.
  assert (Hd : exists dr, tape (host t1) = tape (host t) ++ dr /\ usb_now (host t) <= usb_now (host t1) /\
    match abandoned t with None => dr = [] | Some d => drained 16 (Z.max (d - usb_now (host t)) DRAIN_POLL) dr end).
  { unfold t1. destruct (abandoned t) as [d|]; [|exists []; rewrite app_nil_r; split_and!; (done || lia)].
    set (w := Z.max (Z.max 0 _) _). replace (Z.max (d - usb_now (host t)) DRAIN_POLL) with w
      by (unfold w, DRAIN_POLL, from_millis; lia).
    destruct (drain_tape 16 (Z.max (max_packet_size (host t)) 1) w (host t)) as (l & El & Hl).
    exists l. split_and!; [exact El|apply drain_now|done]. }
  destruct Hd as (dr & Edr & Hnow & Hdr). clearbody t1.
  revert Hrun. set (now := usb_now (host t1)) in *. unfold on_host, zoom, bulk_out_locked.
  cbn [urb_out Tape_host host with_abandoned].
  destruct (urb_out req (bulk_timeout t) (taped (host t1))) as [how u1] eqn:Eo. set (x := SentOut _ _ _ how).
  set (u1' := mkTape u1 _).
  destruct how as [[]|e|].
  - pose proof (read_reply_tape req n (bulk_timeout t) MAX_RESYNC u1') as Hr. unfold wp in Hr.
    cbn [host with_abandoned with_host].
    destruct (read_reply _ _ _ _ u1') as [[d|e] u2]; cbn [host with_abandoned with_host]; intros [= <- <-];
      destruct Hr as (l & El & Hl); exists dr, now, (Completed tt), l; cbn [host abandoned with_abandoned with_host is_ok];
      rewrite El; cbn [tape u1']; rewrite Edr, <- !app_assoc; by split_and!.
  - intros [= <- <-]. exists dr, now, (Failed e), []. cbn [host abandoned with_abandoned with_host is_ok tape u1'].
    rewrite Edr, <- !app_assoc. by split_and!.
  - intros [= <- <-]. exists dr, now, TimedOut, []. cbn [host abandoned with_abandoned with_host is_ok tape u1'].
    rewrite Edr, <- !app_assoc. by split_and!.
Qed.

(** A reply to a request nobody waits for any more, found by the drain, then one
    that comes later, then the right one. *)
Definition late_replies : NiUsbTransport Queue :=
  mkNiUsbTransport (mkQueue [status_block NIUSB_COMMAND_OP 0 0 0 ++ termination;
    status_block NIUSB_IBSIC_ID 0 0 0 ++ termination;
    status_block NIUSB_IBGTS_ID 0x30 0 0 ++ termination] [] 64 0) PID_NI_USB_HS None 1000 false 0.
Definition owed_reply : NiUsbTransport (Tape Queue) :=
  mkNiUsbTransport (mkTape (mkQueue [status_block NIUSB_COMMAND_OP 0 0 0 ++ termination; [];
    status_block NIUSB_IBSIC_ID 0 0 0 ++ termination;
    status_block NIUSB_IBGTS_ID 0x30 0 0 ++ termination] [] 64 5) []) PID_NI_USB_HS (Some (from_millis 300)) 1000 false 0.

Lemma ni_transact_in_step_witness :
  let own := status_block NIUSB_IBGTS_ID 0x30 0 0 ++ termination in
  (usb_transact encode_go_to_standby 12 owed_reply).1 = Ok own /\
  exists dr at_time how ins,
    tape (host (usb_transact encode_go_to_standby 12 owed_reply).2) =
      dr ++ [SentOut at_time encode_go_to_standby (from_millis 3000) how] ++ ins /\
    drained 16 (from_millis 300 - 5) dr /\ (how = Completed tt -> replied encode_go_to_standby 12 (from_millis 3000) 4 ins (Ok own)).
Proof.
  intros own. assert (E : usb_transact encode_go_to_standby 12 owed_reply = (Ok own, (usb_transact encode_go_to_standby 12 owed_reply).2))
    by by vm_compute.
  split; [by vm_compute|]. destruct (ni_transact_in_step owed_reply encode_go_to_standby 12 _ _ E)
    as (dr & tm & how & ins & Ht & _ & Hd & Hr & _). exists dr, tm, how, ins. split_and!; [exact Ht|exact Hd|exact Hr].
Defined.

(** A whole reply in one transfer. *)
Definition whole (n : Z) (r : list byte) : Prop := terminated r = true /\ zlen r <= Z.min n MAX_REQUEST.

Lemma request_size_ge mps k : 1 <= mps -> Z.min (Z.max k 1) MAX_REQUEST <= request_size mps k.
Proof.
  intros Hm. unfold request_size, MAX_REQUEST. set (a := Z.min (Z.max k 1) 16384).
  pose proof (Z.div_mod (a + (mps - 1)) mps ltac:(lia)). pose proof (Z.mod_pos_bound (a + (mps - 1)) mps ltac:(lia)). lia.
Qed.

Lemma bulk_in_queue n wait r rs (u : Queue) : q_replies u = r :: rs -> whole n r ->
  bulk_in_locked n wait u = (Ok r, mkQueue rs (q_sent u) (q_mps u) (q_clock u)).
Proof.
  intros Hq [Ht Hz]. assert (Hne : r <> []) by (intros ->; done).
  assert (Hpos : 1 <= zlen r) by (destruct r; [done|]; zlen_solve). unfold MAX_REQUEST in Hz.
  unfold bulk_in_locked, bulk_in_waiting, bind. set (mps := Z.max _ 1).
  pose proof (request_size_ge mps n ltac:(lia)) as Hs.
  unfold MAX_REQUEST in Hs.
  destruct (Z.to_nat n) as [|k] eqn:Ek; [lia|]. cbn [collect]. change (zlen []) with 0. rewrite Z.sub_0_r.
  rewrite (proj2 (Z.ltb_lt 0 n)) by lia. cbn [andb negb terminated urb_in Queue_host]. rewrite Hq.
  rewrite (ztake_all _ r) by lia. change (negb (terminated [])) with true. cbv iota.
  destruct r as [|c r]; [done|]. cbn [collect app]. rewrite Ht, andb_false_r. done.
Qed.

Lemma read_reply_queue req n wait k : forall stale r rs (u : Queue), q_replies u = stale ++ r :: rs ->
  (length stale < k)%nat -> Forall (fun s => whole n s /\ reply_answers_request req s = false) stale ->
  whole n r -> reply_answers_request req r = true ->
  read_reply k req n wait u = (Ok r, mkQueue rs (q_sent u) (q_mps u) (q_clock u)).
Proof.
  induction k as [|k IH]; intros stale r rs u Hq Hk Hst Hr Ha; [lia|]. cbn [read_reply].
  destruct stale as [|s stale].
  - rewrite (bind_run _ _ _ _ _ (bulk_in_queue n wait r rs u Hq Hr)). by rewrite Ha.
  - apply Forall_cons in Hst as [[Hs Hn] Hst]. rewrite (bind_run _ _ _ _ _ (bulk_in_queue n wait s _ u Hq Hs)).
    rewrite Hn. rewrite (IH stale r rs); try done. simpl in Hk. lia.
Qed.

(** late replies are skipped.  With up to three replies to earlier requests
    of other kinds in the pipe, the exchange returns the reply that answers it,
    and the pipe is in step again: exactly the replies behind it are left. *)
Theorem ni_resync (t : NiUsbTransport Queue) req n stale r rest : abandoned t = None ->
  q_replies (host t) = stale ++ r :: rest -> (length stale <= 3)%nat ->
  Forall (fun s => whole n s /\ reply_answers_request req s = false) stale ->
  whole n r -> reply_answers_request req r = true ->
  exists t', usb_transact req n t = (Ok r, t') /\ abandoned t' = None /\ q_replies (host t') = rest /\
    q_sent (host t') = q_sent (host t) ++ [req].
Proof.
  intros Ha Hq Hl Hst Hr Hans. unfold usb_transact, settle_abandoned, bind, gets, modify. rewrite Ha.
  unfold on_host, zoom, bulk_out_locked. cbn [urb_out Queue_host host with_abandoned with_host].
  rewrite (read_reply_queue req n _ MAX_RESYNC stale r rest); try done; [by eexists|]. unfold MAX_RESYNC. lia.
Qed.

Lemma ni_resync_witness : exists t',
  usb_transact encode_go_to_standby 12 late_replies = (Ok (status_block NIUSB_IBGTS_ID 0x30 0 0 ++ termination), t') /\
  abandoned t' = None /\ q_replies (host t') = [] /\ q_sent (host t') = [encode_go_to_standby].
Proof.
  apply (ni_resync late_replies encode_go_to_standby 12
    [status_block NIUSB_COMMAND_OP 0 0 0 ++ termination; status_block NIUSB_IBSIC_ID 0 0 0 ++ termination]
    (status_block NIUSB_IBGTS_ID 0x30 0 0 ++ termination) []); try done; try (by simpl; lia).
  by repeat constructor.
Defined.

(** Only a report whose status word has nothing but defined bits, SRQI among
    them, counts as a service request; the acknowledgement of an arming,
    [0xff00], does not. *)
Lemma srq_report (t : NiUsbTransport Queue) a hi lo rest :
  srq_needs_rearm t = false ->
  srq_needs_rearm (on_interrupt t (a :: hi :: lo :: rest)) =
    let v := Z.lor (Z.shiftl (u8 hi) 8) (u8 lo) in
    negb (has_flag v (as_u16 (Z.lnot IBSTA_DEFINED_BITS))) && has_flag v IBSTA_SRQI.
Proof.
  intros Hr. unfold on_interrupt, parse_interrupt_ibsta.
  rewrite (proj2 (Z.ltb_ge (zlen (a :: hi :: lo :: rest)) 3)) by (rewrite !zlen_cons; pose proof (zlen_nonneg rest); lia).
  change (at_ (a :: hi :: lo :: rest) 1) with (u8 hi). change (at_ (a :: hi :: lo :: rest) 2) with (u8 lo). cbv zeta.
  destruct (has_flag _ (as_u16 _)); [done|]. cbn [negb andb]. by destruct (has_flag _ IBSTA_SRQI).
Qed.
Example arming_acknowledged : srq_needs_rearm (on_interrupt late_replies [x00; xff; x00]) = false /\
  srq_needs_rearm (on_interrupt late_replies [x00; x10; x20]) = true.
Proof. by vm_compute. Qed.

(** A reply is taken to end where its bytes so far look like a termination block:
    data that do so at the end of a packet cut the reply short. *)
Example reply_cut_short :
  (bulk_in_locked 64 1000 (mkQueue [[b8 NIUSB_IBRD_DATA_ID; x31; x32; x33; x04; x00; x00; x00];
    [x34; x35; x36; x37; x38; x39; x40; x41]] [] 8 0)).1 =
  Ok [b8 NIUSB_IBRD_DATA_ID; x31; x32; x33; x04; x00; x00; x00].
Proof. by vm_compute. Qed.

End NiHost.
