(* ===== verification/AgilentMsg.v ===== *)
(** * Agilent 82357 wire format: [src/backend/agilent_82357/protocol.rs]

    The packets on the adapter's bulk pipe - register writes and reads, data and
    command writes, reads - and their replies.  Register addresses, values and
    flags are [u8]s as [Z]. *)

From S2P Require Import Prelude RustStr Backend.

Module AgilentMsg.
Import RustStr Backend.

Definition ATRF_EOI : Z := 0x01.
Definition ATRF_ATN : Z := 0x02.
Definition ATRF_IFC : Z := 0x04.
Definition ATRF_EOS : Z := 0x08.
Definition ATRF_ABORT : Z := 0x10.
Definition ATRF_COUNT : Z := 0x20.
Definition ATRF_DEAD_BUS : Z := 0x40.
Definition ATRF_UNADDRESSED : Z := 0x80.
Definition XFER_ABORT : Z := 0xa0.
Definition XFER_STATUS : Z := 0xb0.
Definition CONTROL_REQUEST : Z := 0x04.
Definition UGP_SUCCESS : Z := 0x00.
Definition UGP_ERR_FLUSHING : Z := 0x06.
Definition UGP_ERR_FLUSHING_ALREADY : Z := 0x07.
Definition XA_FLUSH : Z := 0x01.
Definition REG_HW_CONTROL : Z := 0x0a.
Definition REG_LED_CONTROL : Z := 0x0b.
Definition REG_RESET_TO_POWERUP : Z := 0x0c.
Definition REG_PROTOCOL_CONTROL : Z := 0x0d.
Definition REG_FAST_TALKER_T1 : Z := 0x0e.
Definition NOT_TI_RESET : Z := 0x01.
Definition SYSTEM_CONTROLLER : Z := 0x02.
Definition NOT_PARALLEL_POLL : Z := 0x04.
Definition FIRMWARE_LED_CONTROL : Z := 0x01.
Definition FAIL_LED_ON : Z := 0x20.
Definition WRITE_COMPLETE_INTERRUPT_EN : Z := 0x01.
Definition RESET_SPACEBALL : Z := 0x01.
Definition TMS_BSR : Z := 0x03.
Definition BSR_REN : Z := 0x01.
Definition BSR_IFC : Z := 0x02.
Definition BSR_SRQ : Z := 0x04.
Definition BSR_EOI : Z := 0x08.
Definition BSR_NRFD : Z := 0x10.
Definition BSR_NDAC : Z := 0x20.
Definition BSR_DAV : Z := 0x40.
Definition BSR_ATN : Z := 0x80.
Definition TMS_IMR0 : Z := 0x00.
Definition TMS_IMR1 : Z := 0x01.
Definition TMS_AUXCR : Z := 0x03.
Definition TMS_ADR : Z := 0x04.
Definition TMS_SPMR : Z := 0x05.
Definition TMS_PPR : Z := 0x06.
Definition AUX_CS : Z := 0x80.
Definition AUX_CHIP_RESET : Z := 0x00.
Definition AUX_INVAL : Z := 0x01.
Definition AUX_HLDA : Z := 0x03.
Definition AUX_HLDE : Z := 0x04.
Definition AUX_NBAF : Z := 0x05.
Definition AUX_LON : Z := 0x09.
Definition AUX_VAL : Z := 0x81.
Definition AUX_TON : Z := 0x0a.
Definition AUX_GTS : Z := 0x0b.
Definition AUX_TCA : Z := 0x0c.
Definition AUX_SIC : Z := 0x0f.
Definition AUX_SRE : Z := 0x10.
Definition AUX_RQC : Z := 0x11.
Definition AUX_STDL : Z := 0x15.
Definition AUX_VSTDL : Z := 0x17.
Definition AUX_RSV2 : Z := 0x18.
Definition AUX_RPP : Z := 0x0e.
Definition HR_BOIE : Z := 0x10.
Definition HR_BIIE : Z := 0x20.
Definition HR_SRQIE : Z := 0x02.
Definition ADDRESS_MASK : Z := 0x1f.
Definition GPIB_UNL : Z := 0x3f.
Definition GPIB_UNT : Z := 0x5f.
Definition GPIB_GTL : Z := 0x01.
Definition GPIB_LLO : Z := 0x11.
Definition GPIB_SDC : Z := 0x04.
Definition GPIB_GET : Z := 0x08.
Definition GPIB_SPE : Z := 0x18.
Definition GPIB_SPD : Z := 0x19.
Definition AIF_SRQ_BN : Z := 0.
Definition AIF_WRITE_COMPLETE_BN : Z := 1.
Definition AIF_READ_COMPLETE_BN : Z := 2.
Definition USB_VID_AGILENT : Z := 0x0957.
Definition USB_PID_82357B_PREINIT : Z := 0x0518.
Definition USB_PID_82357B : Z := 0x0718.
Definition USB_PID_82357A_PREINIT : Z := 0x0007.
Definition USB_PID_82357A : Z := 0x0107.
Definition EP_BULK_IN : Z := 0x82.
Definition EP_82357B_BULK_OUT : Z := 0x06.
Definition EP_82357B_IRQ_IN : Z := 0x88.
Definition EP_82357A_BULK_OUT : Z := 0x04.
Definition EP_82357A_IRQ_IN : Z := 0x86.
Definition INTERRUPT_BUF_LEN : Z := 8.
Definition STATUS_DATA_LEN : Z := 8.

(** ** Packets *)

(** [{:#x}] of a [u8]. *)
Definition hex_short (n : Z) : list Z :=
  str "0x" ++ (if n <? 16 then [hex_digit n] else [hex_digit (n / 16); hex_digit (n mod 16)]).

Inductive ProtocolError : Type :=
| DeviceError (cmd code : Z)
| BadResponse (expected got : Z)
| ShortResponse (need got : Z).

Definition render (e : ProtocolError) : Error :=
  match e with
  | DeviceError cmd code => str "device returned error code " ++ hex_short code ++ str " for command " ++ hex_short cmd
  | BadResponse expected got => str "unexpected response byte " ++ hex_short got ++ str ", expected " ++ hex_short expected
  | ShortResponse need got =>
      str "response too short: got " ++ to_string got ++ str " bytes, need at least " ++ to_string need
  end.

Inductive BulkCmd : Type := Write | Read | WrRegs | RdRegs.
Definition bulk_cmd (c : BulkCmd) : Z :=
  match c with Write => 0x01 | Read => 0x03 | WrRegs => 0x04 | RdRegs => 0x05 end.

Inductive WriteFlag : Type := SendEoi | NoFastTalkerFirstByte | NoFastTalker | NoAddress | Atn.
Definition write_flag (f : WriteFlag) : Z :=
  match f with SendEoi => 0x01 | NoFastTalkerFirstByte => 0x02 | NoFastTalker => 0x04 | NoAddress => 0x08 | Atn => 0x10 end.

Inductive ReadFlag : Type := EndOnEoi | ReadNoAddress | EndOnEosChar.
Definition read_flag (f : ReadFlag) : Z :=
  match f with EndOnEoi => 0x01 | ReadNoAddress => 0x02 | EndOnEosChar => 0x04 end.

Record RegisterPairlet : Type := mkPairlet { address : Z; value : Z }.

#[export] Instance RegisterPairlet_eq_dec : EqDecision RegisterPairlet.
Proof. solve_decision. Defined.

(** [!x] of a [u8]. *)
Definition not_u8 (x : Z) : Z := as_u8 (Z.lnot x).

Definition at_ (buf : list byte) (i : nat) : Z := u8 (default x00 (buf !! i)).

Definition listen_address (pad : Z) : Z := Z.lor 0x20 (Z.land pad ADDRESS_MASK).
Definition talk_address (pad : Z) : Z := Z.lor 0x40 (Z.land pad ADDRESS_MASK).

Definition encode_wr_regs (regs : list RegisterPairlet) : list byte :=
  b8 (bulk_cmd WrRegs) :: b8 (zlen regs) :: concat (map (fun r => [b8 (address r); b8 (value r)]) regs).

(** The checks both replies share: length, echoed command, status. *)
Definition check_reply (cmd : BulkCmd) (need : Z) (resp : list byte) : result unit ProtocolError :=
  if zlen resp <? need then Err (ShortResponse need (zlen resp))
  else
    let expected := not_u8 (bulk_cmd cmd) in
    if negb (at_ resp 0 =? expected) then Err (BadResponse expected (at_ resp 0))
    else if negb (at_ resp 1 =? UGP_SUCCESS) then Err (DeviceError (bulk_cmd cmd) (at_ resp 1))
    else Ok tt.

Definition decode_wr_regs_response (resp : list byte) : result unit ProtocolError := check_reply WrRegs 2 resp.

Definition encode_rd_regs (addrs : list Z) : list byte :=
  b8 (bulk_cmd RdRegs) :: b8 (zlen addrs) :: map b8 addrs.

(** [for (i, r) in regs.iter_mut().enumerate() { r.value = resp[2 + i] }]. *)
Fixpoint store_values (regs : list RegisterPairlet) (values : list byte) : list RegisterPairlet :=
  match regs, values with
  | r :: regs, v :: values => mkPairlet (address r) (u8 v) :: store_values regs values
  | _, _ => regs
  end.

Definition decode_rd_regs_response (resp : list byte) (regs : list RegisterPairlet)
    : result (list RegisterPairlet) ProtocolError :=
  let? _ := check_reply RdRegs (2 + zlen regs) resp in Ok (store_values regs (drop 2 resp)).

Definition build_write_packet (flags : Z) (data : list byte) : list byte :=
  [b8 (bulk_cmd Write); x00; x00; b8 flags] ++ le_bytes 4 (as_u32 (zlen data)) ++ data.

Definition encode_gpib_write (data : list byte) (send_eoi : bool) : list byte :=
  let flags := Z.lor (write_flag NoAddress) (write_flag NoFastTalkerFirstByte) in
  build_write_packet (if send_eoi then Z.lor flags (write_flag SendEoi) else flags) data.

Definition encode_gpib_command (cmd : list byte) : list byte :=
  build_write_packet (Z.lor (Z.lor (write_flag NoAddress) (write_flag Atn)) (write_flag NoFastTalker)) cmd.

Definition encode_gpib_read (max_len : Z) (eos_enabled : bool) (eos_char : Z) (end_on_eoi : bool) : list byte :=
  let flags := read_flag ReadNoAddress in
  let flags := if end_on_eoi then Z.lor flags (read_flag EndOnEoi) else flags in
  let flags := if eos_enabled && end_on_eoi then Z.lor flags (read_flag EndOnEosChar) else flags in
  [b8 (bulk_cmd Read); x00; x00; b8 flags] ++ le_bytes 4 max_len ++ [b8 eos_char].

(** The data, the end of the message, and the trailing flags byte. *)
Definition decode_gpib_read_response (raw : list byte) : list byte * bool * Z :=
  match last raw with
  | None => ([], false, 0)
  | Some t =>
      let trailing := u8 t in
      (take (length raw - 1) raw, has_flag trailing (Z.lor ATRF_EOI ATRF_EOS), trailing)
  end.

Definition termination_names : list (Z * list Z) :=
  [(ATRF_EOI, str "EOI"); (ATRF_ATN, str "ATN"); (ATRF_IFC, str "IFC"); (ATRF_EOS, str "EOS");
   (ATRF_ABORT, str "ABORT"); (ATRF_COUNT, str "COUNT"); (ATRF_DEAD_BUS, str "DEAD_BUS");
   (ATRF_UNADDRESSED, str "UNADDRESSED")].

(** [parts.join("|")]. *)
Fixpoint join_bar (parts : list (list Z)) : list Z :=
  match parts with
  | [] => []
  | [p] => p
  | p :: parts => p ++ str "|" ++ join_bar parts
  end.

Definition describe_read_termination (trailing : Z) : list Z :=
  let set := map snd (List.filter (fun p => has_flag trailing p.1) termination_names) in
  match set with
  | [] => hex_byte trailing ++ str " (none)"
  | _ => hex_byte trailing ++ str " (" ++ join_bar set ++ str ")"
  end.

(** ** The adapter's side *)

Definition reply (cmd : BulkCmd) (status : Z) (values : list byte) : list byte :=
  b8 (not_u8 (bulk_cmd cmd)) :: b8 status :: values.

(** What the firmware takes from a packet's header. *)
Definition flags_of (packet : list byte) : Z := at_ packet 3.
Definition announced (packet : list byte) : Z := le_val (take 4 (drop 4 packet)).

(** ** Lemmas *)

Lemma check_reply_ok cmd need values : need <= 2 + zlen values -> check_reply cmd need (reply cmd UGP_SUCCESS values) = Ok tt.
Proof.
  intros Hn. unfold check_reply. assert (Hl : zlen (reply cmd UGP_SUCCESS values) = 2 + zlen values) by (unfold reply; zlen_solve).
  rewrite Hl. rewrite (proj2 (Z.ltb_ge _ _)) by lia. by destruct cmd.
Qed.

Lemma store_values_app regs values rest : length values = length regs ->
  store_values regs (values ++ rest) = zip_with (fun r v => mkPairlet (address r) (u8 v)) regs values.
Proof.
  revert values. induction regs as [|r regs IH]; intros [|v values] Hl; try done.
  simpl in *. f_equal. apply IH. lia.
Qed.

Lemma announced_packet flags data : zlen data < 4294967296 ->
  announced (build_write_packet flags data) = zlen data /\ drop 8 (build_write_packet flags data) = data.
Proof.
  intros Hd. pose proof (zlen_nonneg data) as Hz. unfold announced, build_write_packet. split; [|done].
  change (drop 4 ([b8 (bulk_cmd Write); x00; x00; b8 flags] ++ ?l)) with l.
  rewrite take_app_le by (rewrite length_le_bytes; lia). rewrite take_ge by (rewrite length_le_bytes; lia).
  rewrite le_val_le_bytes, as_u32_id by done. apply Z.mod_small. lia.
Qed.

(** ** Properties *)

(** packets and replies.  A data packet announces its length, carries the data
    unchanged and asserts EOI exactly when asked to, and it never asserts ATN; a
    command packet carries its bytes and always does.  A register read that the
    adapter answers comes back with exactly the values it sent, in the order of
    the request; a read reply is split into its data and its closing flags byte,
    whose EOI and EOS bits alone mean the end.  Every other reply to a register
    request is refused: a short one, one that echoes another command, an error. *)
Theorem agilent_packets data cmd send_eoi regs values extra trailing :
  zlen data < 4294967296 -> zlen cmd < 4294967296 -> length values = length regs ->
  let w := encode_gpib_write data send_eoi in
  let c := encode_gpib_command cmd in
  announced w = zlen data /\ drop 8 w = data /\ announced c = zlen cmd /\ drop 8 c = cmd /\
  has_flag (flags_of w) (write_flag SendEoi) = send_eoi /\
  has_flag (flags_of w) (write_flag Atn) = false /\ has_flag (flags_of c) (write_flag Atn) = true /\
  decode_rd_regs_response (reply RdRegs UGP_SUCCESS (values ++ extra)) regs =
    Ok (zip_with (fun r v => mkPairlet (address r) (u8 v)) regs values) /\
  decode_gpib_read_response (data ++ [trailing]) =
    (data, has_flag (u8 trailing) ATRF_EOI || has_flag (u8 trailing) ATRF_EOS, u8 trailing) /\
  (forall resp, decode_wr_regs_response resp = Ok tt ->
     2 <= zlen resp /\ at_ resp 0 = 0xfb /\ at_ resp 1 = UGP_SUCCESS).
Proof.
  intros Hd Hc Hv w c. assert (Hlen : zlen regs <= zlen (values ++ extra)) by (unfold zlen in *; rewrite length_app; lia).
  split_and!; try (by apply announced_packet); try (by destruct send_eoi); try done.
  - unfold decode_rd_regs_response. rewrite check_reply_ok by lia. cbn [rbind]. f_equal. by apply store_values_app.
  - unfold decode_gpib_read_response. rewrite last_snoc, length_app. simpl. rewrite Nat.add_sub.
    rewrite take_app_length. by destruct trailing.
  - intros resp. unfold decode_wr_regs_response, check_reply. destruct (Z.ltb_spec (zlen resp) 2); [done|].
    destruct (Z.eqb_spec (at_ resp 0) (not_u8 (bulk_cmd WrRegs))) as [E|]; simpl; [|done].
    by destruct (Z.eqb_spec (at_ resp 1) UGP_SUCCESS).
Qed.

Lemma agilent_packets_witness :
  decode_rd_regs_response [xfa; x00; x2d; x07] [mkPairlet TMS_BSR 0] = Ok [mkPairlet TMS_BSR 0x2d] /\
  decode_gpib_read_response (as_bytes (str "3.14") ++ [x01]) = (as_bytes (str "3.14"), true, 1).
Proof.
  pose proof (agilent_packets (as_bytes (str "3.14")) [x3f; x40] true [mkPairlet TMS_BSR 0] [x2d] [x07] x01
    ltac:(by vm_compute) ltac:(by vm_compute) eq_refl) as (_ & _ & _ & _ & _ & _ & _ & H1 & H2 & _).
  split; [exact H1|exact H2].
Defined.

End AgilentMsg.
