(* ===== verification/Firmware.v ===== *)
(** * Firmware of the Agilent 82357: [src/backend/agilent_82357/firmware.rs]

    The Intel HEX parser and the upload to a cold adapter.  The text is its list
    of characters; slices are of its UTF-8 bytes.  A slice that would cut a
    character panics in the source; here it is an error with a text of its own.
    The USB library's control transfer is a parameter of the upload. *)

From S2P Require Import Prelude RustStr Backend Effect AgilentMsg.

Module Firmware.
Import RustStr Backend AgilentMsg Effect.

Record HexRecord : Type := mkHexRecord { rec_address : Z; data : list byte }.

(** [str::lines]: without the line ends, and without an empty last line. *)
Definition strip_cr (l : list Z) : list Z :=
  match last l with Some 13 => take (length l - 1) l | _ => l end.
Definition lines (text : list Z) : list (list Z) :=
  let parts := split 10 text in
  map strip_cr (match last parts with Some [] => take (length parts - 1) parts | _ => parts end).

Definition hex_value (c : byte) : option Z :=
  let c := u8 c in
  if (48 <=? c) && (c <=? 57) then Some (c - 48)
  else if (97 <=? c) && (c <=? 102) then Some (c - 87)
  else if (65 <=? c) && (c <=? 70) then Some (c - 55)
  else None.

(** [u8::from_str_radix(s, 16)] of a string of two bytes, sign included. *)
Definition from_str_radix_16 (a b : byte) : option Z :=
  if u8 a =? 43 then hex_value b
  else match hex_value a, hex_value b with Some h, Some l => Some (h * 16 + l) | _, _ => None end.

Definition not_a_boundary : Error := str "byte index is not a char boundary".

(** One turn per pair of bytes, the first error ending it. *)
Fixpoint hex_pairs (l : list byte) : result (list byte) Error :=
  match l with
  | a :: b :: rest =>
      if is_cont a || match rest with c :: _ => is_cont c | [] => false end then Err not_a_boundary
      else
        match from_str_radix_16 a b with
        | Some v => let? vs := hex_pairs rest in Ok (b8 v :: vs)
        | None => Err (str "invalid digit found in string")
        end
  | _ => Ok []
  end.

Definition hex_decode (s : list Z) : result (list byte) Error :=
  let bytes := as_bytes s in
  if negb (zlen bytes mod 2 =? 0) then Err (str "odd hex length") else hex_pairs bytes.

Definition checksum (bytes : list byte) : Z := foldl (fun acc b => as_u8 (acc + u8 b)) 0 bytes.

Definition at_line (n : Z) (what : list Z) : Error := str "line " ++ to_string n ++ str ": " ++ what.

(** The rest of the lines, from the [n]th on, with the records so far. *)
Fixpoint parse_lines (n : Z) (ls : list (list Z)) (records : list HexRecord) : result (list HexRecord) Error :=
  match ls with
  | [] => Ok records
  | line :: ls =>
      match trim line with
      | [] => parse_lines (n + 1) ls records
      | c :: digits =>
          if negb (c =? 58) then Err (at_line n (str "missing leading ':'"))
          else
            let? bytes := map_err (in_context (at_line n (str "invalid hex"))) (hex_decode digits) in
            if zlen bytes <? 5 then Err (at_line n (str "too short"))
            else
              let byte_count := at_ bytes 0 in
              if negb (zlen bytes =? byte_count + 5) then Err (at_line n (str "length mismatch"))
              else if negb (checksum bytes =? 0) then
                Err (at_line n (str "bad checksum (got " ++ hex_short (checksum bytes) ++ str ")"))
              else
                let address := be_val (take 2 (drop 1 bytes)) in
                let record_type := at_ bytes 3 in
                if record_type =? 0x00 then
                  parse_lines (n + 1) ls (records ++ [mkHexRecord address (ztake byte_count (drop 4 bytes))])
                else if record_type =? 0x01 then Ok records
                else parse_lines (n + 1) ls records
      end
  end.

Definition parse_hex (text : list Z) : result (list HexRecord) Error := parse_lines 1 (lines text) [].

(** ** The upload *)

Definition ANCHOR_LOAD_INTERNAL : Z := 0xA0.

(** [Utf8Error], without its position. *)
Definition utf8_error : Error := str "invalid utf-8 sequence".

Section Upload.
(** [Device::control_out] of a vendor request to the device: request, value, data. *)
Context {D : Type} (control_out : Z -> Z -> list byte -> Act D unit).

Definition anchor_load (address : Z) (bytes : list byte) : Act D unit := fun d =>
  let '(r, d') := control_out ANCHOR_LOAD_INTERNAL address bytes d in
  (map_err (fun e => str "FX2 vendor control-out failed: " ++ e) r, d').

(** [{:#06x}] of a [u16]. *)
Definition hex_u16 (n : Z) : list Z :=
  str "0x" ++ map (fun k => hex_digit (n / 16 ^ k mod 16)) [3; 2; 1; 0].

Fixpoint load_records (records : list HexRecord) : Act D unit :=
  match records with
  | [] => ret tt
  | r :: records =>
      let! _ := context (str "failed to write firmware record at " ++ hex_u16 (rec_address r))
                  (anchor_load (rec_address r) (data r)) in
      load_records records
  end.

Definition upload_firmware (firmware : list byte) (cpucs_addr : Z) : Act D unit :=
  let! hex_text := of_result (match from_utf8 firmware with
                              | Some t => Ok t
                              | None => Err (in_context (str "firmware blob is not valid UTF-8") utf8_error)
                              end) in
  let! records := context (str "failed to parse firmware HEX") (of_result (parse_hex hex_text)) in
  let! _ := context (str "failed to hold 8051 in reset") (anchor_load cpucs_addr [x01]) in
  let! _ := load_records records in
  context (str "failed to release 8051 from reset") (anchor_load cpucs_addr [x00]).

End Upload.

(** ** Writing the format *)

Definition hex_upper (n : Z) : Z := if n <? 10 then 48 + n else 55 + n.
Definition print_bytes (l : list byte) : list Z := concat (map (fun b => [hex_upper (u8 b / 16); hex_upper (u8 b mod 16)]) l).

(** A line: its bytes, and the byte that makes them sum to zero. *)
Definition hex_line (bytes : list byte) : list Z := [58] ++ print_bytes (bytes ++ [b8 (- checksum bytes)]) ++ [10].
Definition record_bytes (r : HexRecord) : list byte :=
  [b8 (zlen (data r))] ++ be_bytes 2 (rec_address r) ++ [x00] ++ data r.
Definition print_hex (records : list HexRecord) : list Z :=
  concat (map (fun r => hex_line (record_bytes r)) records) ++ hex_line [x00; x00; x00; x01].

Definition record_wf (r : HexRecord) : Prop := in_u16 (rec_address r) /\ zlen (data r) < 256.

(** ** Lemmas *)

Lemma checksum_snoc l b : checksum (l ++ [b]) = as_u8 (checksum l + u8 b).
Proof. unfold checksum. by rewrite foldl_app. Qed.
Lemma checksum_closed l : checksum (l ++ [b8 (- checksum l)]) = 0.
Proof.
  rewrite checksum_snoc, u8_b8. unfold as_u8. rewrite Zplus_mod_idemp_r. by replace (checksum l + - checksum l) with 0 by lia.
Qed.

Lemma print_byte b : let h := hex_upper (u8 b / 16) in let l := hex_upper (u8 b mod 16) in
  utf8_char h = [b8 h] /\ utf8_char l = [b8 l] /\ from_str_radix_16 (b8 h) (b8 l) = Some (u8 b) /\
  is_cont (b8 h) = false /\ is_cont (b8 l) = false.
Proof. by destruct b; vm_compute. Qed.

Lemma print_hex_pairs l : hex_pairs (as_bytes (print_bytes l)) = Ok l.
Proof.
  induction l as [|b l IH]; [done|]. unfold as_bytes, print_bytes in *. cbn [map concat app].
  destruct (print_byte b) as (-> & -> & Hr & Hc & _). cbn [app hex_pairs]. rewrite Hc, Hr. cbn [orb].
  assert (Hn : match concat (map utf8_char (concat (map (fun b => [hex_upper (u8 b / 16); hex_upper (u8 b mod 16)]) l))) with
               | c :: _ => is_cont c | [] => false end = false).
  { destruct l as [|b' l]; [done|]. cbn [map concat app]. destruct (print_byte b') as (-> & _ & _ & H & _). exact H. }
  rewrite Hn, IH. cbn. by rewrite b8_u8.
Qed.

Lemma print_even l : zlen (as_bytes (print_bytes l)) = 2 * zlen l.
Proof.
  induction l as [|b l IH]; [done|]. unfold as_bytes, print_bytes in *. cbn [map concat app].
  destruct (print_byte b) as (-> & -> & _). rewrite !zlen_app, IH, !zlen_cons, zlen_nil. lia.
Qed.

Lemma print_decodes l : hex_decode (print_bytes l) = Ok l.
Proof.
  unfold hex_decode. rewrite print_even, Z.mul_comm, Z.mod_mul by lia. apply print_hex_pairs.
Qed.

(** The text of a line has no line ends and nothing to trim. *)
Definition body (bytes : list byte) : list Z := 58 :: print_bytes (bytes ++ [b8 (- checksum bytes)]).
Definition plain (c : Z) : Prop := 48 <= c <= 70.

Lemma body_plain bytes : Forall plain (body bytes).
Proof.
  unfold body, print_bytes. constructor; [unfold plain; lia|]. apply Forall_concat, Forall_fmap, Forall_true. intros b.
  assert (H : plain (hex_upper (u8 b / 16)) /\ plain (hex_upper (u8 b mod 16))) by (unfold plain; destruct b; vm_compute; split; split; discriminate).
  by repeat constructor; apply H.
Qed.

Lemma plain_whitespace c : plain c -> is_whitespace c = false.
Proof.
  unfold plain, is_whitespace. intros Hc.
  repeat match goal with |- context [?a =? ?b] => destruct (Z.eqb_spec a b); [lia|]
         | |- context [?a <=? ?b] => destruct (Z.leb_spec a b); try lia end; done.
Qed.

Lemma split_line l rest : Forall plain l -> split 10 (l ++ 10 :: rest) = l :: split 10 rest.
Proof.
  induction 1 as [|c l Hc Hl IH]; [done|]. cbn [app split]. unfold plain in Hc. rewrite (proj2 (Z.eqb_neq c 10)) by lia. by rewrite IH.
Qed.

Lemma split_lines ls : Forall (Forall plain) ls -> split 10 (concat (map (fun l => l ++ [10]) ls)) = ls ++ [[]].
Proof.
  induction 1 as [|l ls Hl Hls IH]; [done|]. cbn [map concat]. rewrite <- app_assoc. cbn [app]. by rewrite split_line, IH.
Qed.

Lemma lines_plain ls : Forall (Forall plain) ls -> lines (concat (map (fun l => l ++ [10]) ls)) = ls.
Proof.
  intros Hls. unfold lines. rewrite split_lines by done. rewrite last_snoc, length_app. cbn [length]. rewrite Nat.add_sub, take_app_length.
  induction Hls as [|l ls Hl Hls IH]; [done|]. cbn [map]. rewrite IH. f_equal. unfold strip_cr.
  destruct (last l) as [z|] eqn:E; [|done]. apply last_Some in E as [l' ->]. apply Forall_app in Hl as [_ [Hz _]%Forall_cons].
  unfold plain in Hz. repeat case_match; try done; lia.
Qed.

Lemma parse_body n b0 b1 b2 b3 rest ls records : u8 b0 = zlen rest ->
  parse_lines n (body (b0 :: b1 :: b2 :: b3 :: rest) :: ls) records =
  if u8 b3 =? 0x00 then parse_lines (n + 1) ls (records ++ [mkHexRecord (be_val [b1; b2]) rest])
  else if u8 b3 =? 0x01 then Ok records else parse_lines (n + 1) ls records.
Proof.
  intros Hb. cbn [parse_lines]. rewrite trim_none by (eapply Forall_impl; [apply body_plain|exact plain_whitespace]).
  unfold body. rewrite print_decodes. change (negb (58 =? 58)) with false. cbn [map_err rbind].
  set (ck := b8 (- checksum _)). set (all := (b0 :: b1 :: b2 :: b3 :: rest) ++ [ck]).
  assert (Hl : zlen all = u8 b0 + 5) by (unfold all; rewrite zlen_app, !zlen_cons, zlen_nil; lia).
  pose proof (u8_range b0). rewrite (proj2 (Z.ltb_ge (zlen all) 5)) by lia. change (at_ all 0) with (u8 b0).
  rewrite Hl, Z.eqb_refl. cbn [negb]. assert (Hc : checksum all = 0) by apply checksum_closed. rewrite Hc. cbn [Z.eqb negb].
  change (at_ all 3) with (u8 b3). change (take 2 (drop 1 all)) with [b1; b2]. change (drop 4 all) with (rest ++ [ck]).
  by rewrite Hb, ztake_app_zlen.
Qed.

Lemma parse_records records : Forall record_wf records -> forall n acc ls,
  parse_lines n (map (fun r => body (record_bytes r)) records ++ ls) acc = parse_lines (n + zlen records) ls (acc ++ records).
Proof.
  induction 1 as [|r records [Ha Hd] Hr IH]; intros n acc ls.
  { cbn [map app]. by rewrite zlen_nil, Z.add_0_r, app_nil_r. }
  cbn [map app]. unfold record_bytes. destruct (be_bytes 2 (rec_address r)) as [|b1 [|b2 [|]]] eqn:Eb;
    try (apply (f_equal length) in Eb; rewrite length_be_bytes in Eb; done).
  cbn [app]. rewrite parse_body.
  2: { rewrite u8_b8. apply as_u8_id. pose proof (zlen_nonneg (data r)). unfold in_u8. lia. }
  change (u8 x00 =? 0) with true. cbv iota. rewrite <- Eb, be_val_be_bytes. change (256 ^ Z.of_nat 2) with 65536.
  rewrite Z.mod_small by done. replace (mkHexRecord (rec_address r) (data r)) with r by by destruct r.
  fold (record_bytes r). rewrite IH, zlen_cons, <- app_assoc. f_equal. lia.
Qed.

(** Whatever is parsed is a record the device can be loaded with. *)
Lemma parse_lines_wf ls : forall n acc rs, Forall record_wf acc -> parse_lines n ls acc = Ok rs -> Forall record_wf rs.
Proof.
  induction ls as [|l ls IH]; intros n acc rs Hacc; cbn [parse_lines]; [by intros [= <-]|].
  destruct (trim l) as [|c digits]; [by apply IH|]. destruct (negb (c =? 58)); [done|].
  intros (bytes & _ & H)%rbind_Ok. destruct (Z.ltb_spec (zlen bytes) 5); [done|].
  destruct (Z.eqb_spec (zlen bytes) (at_ bytes 0 + 5)) as [Hl|]; [|done]. cbn [negb] in H.
  destruct (checksum bytes =? 0); [|done]. cbn [negb] in H. destruct (at_ bytes 3 =? 0).
  - apply IH in H; [done|]. apply Forall_app. split; [done|]. apply Forall_singleton. split; cbn [rec_address data].
    + pose proof (be_val_range (take 2 (drop 1 bytes))) as Hv. unfold in_u16.
      assert (Hn : (length (take 2 (drop 1 bytes)) <= 2)%nat) by (rewrite length_take; lia).
      pose proof (Z.pow_le_mono_r 256 (Z.of_nat (length (take 2 (drop 1 bytes)))) 2 ltac:(lia) ltac:(lia)). lia.
    + unfold at_ in *. pose proof (u8_range (default x00 (bytes !! 0%nat))). unfold zlen, ztake. rewrite length_take. lia.
  - destruct (at_ bytes 3 =? 1); [by simplify_eq|]. by eapply IH.
Qed.

Lemma parse_printed records trailing : Forall record_wf records -> Forall (Forall plain) trailing ->
  parse_hex (print_hex records ++ concat (map (fun l => l ++ [10]) trailing)) = Ok records.
Proof.
  intros Hr Ht. unfold parse_hex.
  replace (print_hex records ++ concat (map (fun l => l ++ [10]) trailing)) with
    (concat (map (fun l => l ++ [10]) (map (fun r => body (record_bytes r)) records ++ body [x00; x00; x00; x01] :: trailing))).
  2: { rewrite map_app, concat_app, map_map. unfold print_hex. rewrite <- app_assoc. f_equal. }
  rewrite lines_plain, parse_records; [|done|].
  - cbn [app]. by rewrite parse_body.
  - apply Forall_app. split; [apply Forall_fmap, Forall_true; intros; apply body_plain|]. by constructor; [apply body_plain|].
Qed.

(** A device that takes a number of control transfers and then fails. *)
Record Ram : Type := mkRam { loads : list (Z * list byte); takes : nat }.
Definition ram_control_out (request address : Z) (bytes : list byte) : Act Ram unit := fun r =>
  match takes r with
  | O => (Err (str "stalled"), r)
  | S n => (Ok tt, mkRam (loads r ++ [(address, bytes)]) n)
  end.

Definition load_plan (records : list HexRecord) : list (Z * list byte) := map (fun r => (rec_address r, data r)) records.

Lemma load_ram address bytes (r : Ram) :
  wp (anchor_load ram_control_out address bytes)
    (fun _ r' => exists n, takes r = S n /\ r' = mkRam (loads r ++ [(address, bytes)]) n) (fun _ r' => takes r = O /\ r' = r) r.
Proof. unfold anchor_load, ram_control_out, wp. destruct r as [l [|n]]; cbn; [done|]. by exists n. Qed.

Lemma load_records_ram records : forall r : Ram,
  wp (load_records ram_control_out records)
    (fun _ r' => (length records <= takes r)%nat /\
       r' = mkRam (loads r ++ load_plan records) (takes r - length records))
    (fun _ r' => (takes r < length records)%nat /\ r' = mkRam (loads r ++ take (takes r) (load_plan records)) 0) r.
Proof.
  induction records as [|h records IH]; intros r; cbn [load_records].
  - apply wp_ret. split; [simpl; lia|]. destruct r. cbn. by rewrite app_nil_r, Nat.sub_0_r.
  - wp_auto. eapply wp_mono; [apply load_ram|..].
    + intros _ r1 (n & Hn & ->). eapply wp_mono; [apply IH|..]; intros ? r2 [Hl ->]; cbn [takes loads length] in *; rewrite Hn;
        (split; [lia|]; by rewrite <- app_assoc).
    + intros e r1 [Hn ->]. rewrite Hn. split; [simpl; lia|]. destruct r. cbn in *. subst. by rewrite app_nil_r.
Qed.

(** ** Properties *)

(** the parser reads the format.  Any records with 16-bit addresses and up to 255
    bytes, written as Intel HEX with their lengths and checksums and the
    end-of-file record, are read back exactly, whatever lines follow the end; and
    whatever text is accepted, its records have 16-bit addresses and at most 255
    bytes. *)
Theorem hex_roundtrip records trailing : Forall record_wf records -> Forall (Forall plain) trailing ->
  parse_hex (print_hex records ++ concat (map (fun l => l ++ [10]) trailing)) = Ok records /\
  (forall text rs, parse_hex text = Ok rs -> Forall record_wf rs).
Proof. intros Hr Ht. split; [by apply parse_printed|]. intros text rs. by apply parse_lines_wf. Qed.

Lemma hex_roundtrip_witness :
  print_hex [mkHexRecord 0x0146 [x02; x33; xff]] = str ":030146000233FF82" ++ [10] ++ str ":00000001FF" ++ [10] /\
  parse_hex (print_hex [mkHexRecord 0x0146 [x02; x33; xff]] ++ str "00" ++ [10]) = Ok [mkHexRecord 0x0146 [x02; x33; xff]].
Proof.
  split; [by vm_compute|]. apply (hex_roundtrip [mkHexRecord 0x0146 [x02; x33; xff]] [str "00"]).
  - repeat constructor; unfold in_u16; cbn; lia.
  - repeat constructor; unfold plain; cbn; lia.
Defined.

(** the upload.  Of an image that parses, the device gets the reset, every record
    in order and the release, in this order and as far as its transfers succeed:
    the processor is released only after the last record was written, and only
    then is success reported.  An image that does not parse leaves the device
    alone. *)
Theorem upload_in_order firmware cpucs (r : Ram) :
  (forall t e, from_utf8 firmware = Some t -> parse_hex t = Err e ->
     exists e', upload_firmware ram_control_out firmware cpucs r = (Err e', r)) /\
  (forall t records, from_utf8 firmware = Some t -> parse_hex t = Ok records ->
     let plan := [(cpucs, [x01])] ++ load_plan records ++ [(cpucs, [x00])] in
     wp (upload_firmware ram_control_out firmware cpucs)
       (fun _ r' => (length plan <= takes r)%nat /\ loads r' = loads r ++ plan)
       (fun _ r' => (takes r < length plan)%nat /\ loads r' = loads r ++ take (takes r) plan) r).
Proof.
  split.
  - intros t e Ht Hp. unfold upload_firmware, bind, of_result, context. rewrite Ht, Hp. by eexists.
  - intros t records Ht Hp plan. unfold upload_firmware. wp_auto. rewrite Ht. wp_auto. rewrite Hp.
    assert (Hlen : length plan = S (S (length records))).
    { unfold plan. rewrite !length_app. unfold load_plan. rewrite length_map. cbn. lia. }
    wp_auto. eapply wp_mono; [apply load_ram|..].
    2: { intros e r1 [Hn ->]. rewrite Hn, Hlen. split; [lia|]. by rewrite app_nil_r. }
    intros _ r1 (n & Hn & ->). wp_auto. eapply wp_mono; [apply load_records_ram|..]; cbn [takes loads].
    2: { intros e r1 [Hl ->]. rewrite Hn, Hlen. split; [lia|]. cbn [loads]. unfold plan. cbn [app take].
         rewrite <- app_assoc, take_app_le; [done|]. unfold load_plan. rewrite length_map. lia. }
    intros _ r1 [Hl ->]. wp_auto. eapply wp_mono; [apply load_ram|..]; cbn [loads takes].
    + intros _ r2 (m & Hm & ->). rewrite Hn, Hlen. split; [lia|]. cbn [loads]. unfold plan. by rewrite <- !app_assoc.
    + intros e r2 [Hm ->]. rewrite Hn, Hlen. split; [lia|]. cbn [loads]. unfold plan. cbn [app take]. rewrite <- app_assoc.
      assert (n = length records) as -> by lia.
      by replace (length records) with (length (load_plan records)) by apply length_map; rewrite take_app_length.
Qed.

Lemma upload_in_order_witness :
  let image := as_bytes (print_hex [mkHexRecord 0x0146 [x02; x33; xff]]) in
  loads (upload_firmware ram_control_out image 0xE600 (mkRam [] 5)).2 =
    [(0xE600, [x01]); (0x0146, [x02; x33; xff]); (0xE600, [x00])] /\
  loads (upload_firmware ram_control_out image 0xE600 (mkRam [] 2)).2 = [(0xE600, [x01]); (0x0146, [x02; x33; xff])].
Proof.
  intros image. assert (Ht : from_utf8 image = Some (print_hex [mkHexRecord 0x0146 [x02; x33; xff]])) by by vm_compute.
  assert (Hp : parse_hex (print_hex [mkHexRecord 0x0146 [x02; x33; xff]]) = Ok [mkHexRecord 0x0146 [x02; x33; xff]]) by by vm_compute.
  split; [|by vm_compute].
  exact (proj2 (wp_ok _ _ _ _ tt (proj2 (upload_in_order image 0xE600 (mkRam [] 5)) _ _ Ht Hp) ltac:(by vm_compute))).
Defined.

(** A sign is taken for a digit: [u8::from_str_radix] accepts a leading plus. *)
Example plus_accepted : hex_decode (str "+F00") = Ok [x0f; x00].
Proof. by vm_compute. Qed.

End Firmware.
