(* ===== verification/Agilent.v ===== *)
(** * The Agilent 82357 driver: [src/backend/agilent_82357/gpib.rs], [mod.rs]

    The controller over a [Transport]: register access, addressing, data
    transfers, the recovery of a stalled one, serial poll, listen-only capture,
    and the attempts of [open].  A read is a future that a timeout may leave
    pending and a later wait resume; [Reading] is what it has in hand.  [trace]
    is auxiliary: it records each call on the transport. *)

From S2P Require Import Prelude RustStr Backend Effect AgilentMsg.

Module Agilent.
Import RustStr Backend AgilentMsg Effect.

(** ** The transport *)

(** A [read_bulk] future: the size asked for, what has arrived so far, and
    whether a transfer is submitted. *)
Record Reading : Type := mkReading { wanted : Z; so_far : list byte; submitted : bool }.
Definition reading (max_len : Z) : Reading := mkReading max_len [] false.

Class Transport (T : Type) : Type := {
  write_bulk : list byte -> Act T unit;
  (* poll a read for at most a duration: its result, or [None] and the future left pending *)
  read_bulk : Reading -> Z -> T -> option (result (list byte) Error) * Reading * T;
  control_in : Z -> Z -> Z -> Z -> Act T (list byte);
  await_write_complete : Act T unit;
  drain_write_complete : T -> T;
  drain_bulk_in : T -> T;
  tr_now : T -> Z;
  tr_sleep : T -> Z -> T;
}.

(** The trait's default: a mock transport keeps its queued responses. *)
Definition default_drain_bulk_in {T} (t : T) : T := t.

(** ** Packets and events *)

Inductive Packet : Type :=
| PWrRegs (regs : list RegisterPairlet)
| PRdRegs (addrs : list Z)
| PCommand (cmd : list byte)
| PData (data : list byte) (send_eoi : bool)
| PRead (max_len : Z) (eos_enabled : bool) (eos_char : Z) (end_on_eoi : bool).

Definition frame (p : Packet) : list byte :=
  match p with
  | PWrRegs regs => encode_wr_regs regs
  | PRdRegs addrs => encode_rd_regs addrs
  | PCommand cmd => encode_gpib_command cmd
  | PData d e => encode_gpib_write d e
  | PRead n e c i => encode_gpib_read n e c i
  end.

Inductive Event : Type :=
| Sent (p : Packet) (ok : bool)
| Polled (f : Reading) (wait : Z) (r : option (result (list byte) Error)) (left_ : Reading)  (* the future before and after *)
| Control (v i : Z) (r : result (list byte) Error)
| Awaited (ok : bool)
| DrainedWrites
| DrainedIn.

(** ** The controller *)

Record GpibController (T : Type) : Type := mkGpibController {
  transport : T;
  timeout_ms : Z;
  eos_char : Z;
  eos_enabled : bool;
  hw_control_bits : Z;
  listen_only : bool;
  my_pad : Z;
  trace : list Event;
}.
Arguments mkGpibController {T}.
Arguments transport {T}.
Arguments timeout_ms {T}.
Arguments eos_char {T}.
Arguments eos_enabled {T}.
Arguments hw_control_bits {T}.
Arguments listen_only {T}.
Arguments my_pad {T}.
Arguments trace {T}.

Section Driver.
Context {T : Type} `{Transport T}.
Notation St := (GpibController T).

Definition with_transport (t : T) (b : St) : St :=
  mkGpibController t (timeout_ms b) (eos_char b) (eos_enabled b) (hw_control_bits b) (listen_only b) (my_pad b) (trace b).
Definition with_hw_control_bits (h : Z) (b : St) : St :=
  mkGpibController (transport b) (timeout_ms b) (eos_char b) (eos_enabled b) h (listen_only b) (my_pad b) (trace b).
Definition with_listen_only (l : bool) (b : St) : St :=
  mkGpibController (transport b) (timeout_ms b) (eos_char b) (eos_enabled b) (hw_control_bits b) l (my_pad b) (trace b).
Definition with_my_pad (p : Z) (b : St) : St :=
  mkGpibController (transport b) (timeout_ms b) (eos_char b) (eos_enabled b) (hw_control_bits b) (listen_only b) p (trace b).
Definition record (e : Event) (t : T) (b : St) : St :=
  mkGpibController t (timeout_ms b) (eos_char b) (eos_enabled b) (hw_control_bits b) (listen_only b) (my_pad b)
    (trace b ++ [e]).

Definition new (t : T) (timeout : Z) : St := mkGpibController t timeout 10 false 0 false 0 [].

(** The calls on the transport. *)
Definition send (p : Packet) : Act St unit := fun b =>
  let '(r, t) := write_bulk (frame p) (transport b) in (r, record (Sent p (is_ok r)) t b).
Definition poll_read (f : Reading) (wait : Z) : Act St (option (result (list byte) Error) * Reading) := fun b =>
  let '(r, f', t) := read_bulk f wait (transport b) in (Ok (r, f'), record (Polled f wait r f') t b).
Definition control (v i n : Z) : Act St (list byte) := fun b =>
  let '(r, t) := control_in CONTROL_REQUEST v i n (transport b) in (r, record (Control v i r) t b).
Definition drain_writes : Act St unit := modify (fun b => record DrainedWrites (drain_write_complete (transport b)) b).
Definition drain_in : Act St unit := modify (fun b => record DrainedIn (drain_bulk_in (transport b)) b).
Definition sleep_ (d : Z) : Act St unit := modify (fun b => with_transport (tr_sleep (transport b) d) b).

Definition wait_write_or_timeout : Act St unit := fun b =>
  let '(r, t) := await_write_complete (transport b) in (r, record (Awaited (is_ok r)) t b).

(** *** Registers *)

(** [timeout(timeout_ms, read_bulk(0x20))], with both [?]. *)
Definition register_reply (late : Error) : Act St (list byte) :=
  let! timeout := gets timeout_ms in
  let! (r, _) := poll_read (reading 0x20) (from_millis timeout) in
  match r with
  | None => bail late
  | Some r => of_result r
  end.

Definition write_registers (regs : list RegisterPairlet) : Act St unit :=
  let! _ := send (PWrRegs regs) in
  let! resp := register_reply (str "WR_REGS bulk-in timed out") in
  of_result (map_err render (decode_wr_regs_response resp)).

Definition read_registers (regs : list RegisterPairlet) : Act St (list RegisterPairlet) :=
  let! _ := send (PRdRegs (map address regs)) in
  let! resp := register_reply (str "RD_REGS bulk-in timed out") in
  of_result (map_err render (decode_rd_regs_response resp regs)).

Definition auxcr (v : Z) : RegisterPairlet := mkPairlet TMS_AUXCR v.

(** *** Transfer control *)

Definition abort (flush : bool) : Act St unit :=
  let! resp := control XFER_ABORT (if flush then XA_FLUSH else 0) 2 in
  if zlen resp <? 2 then bail (str "XFER_ABORT response too short: " ++ to_string (zlen resp) ++ str " bytes")
  else
    let expected := not_u8 (as_u8 XFER_ABORT) in
    if negb (at_ resp 0 =? expected) then
      bail (str "XFER_ABORT bad response byte: got " ++ hex_short (at_ resp 0) ++ str ", expected " ++ hex_short expected)
    else
      let code := at_ resp 1 in
      if code =? UGP_SUCCESS then ret tt
      else if (code =? UGP_ERR_FLUSHING) && flush then ret tt
      else bail (str "XFER_ABORT returned error " ++ hex_short code).

Definition get_xfer_status : Act St Z :=
  let! resp := control XFER_STATUS 0 STATUS_DATA_LEN in
  if zlen resp <? 6 then bail (str "XFER_STATUS response too short: " ++ to_string (zlen resp) ++ str " bytes")
  else ret (le_val (take 4 (drop 2 resp))).

Definition ifc : Act St unit :=
  let! _ := write_registers [auxcr (Z.lor AUX_SIC AUX_CS)] in
  let! _ := sleep_ 200000 in
  write_registers [auxcr AUX_SIC].

Definition ren (enable : bool) : Act St unit :=
  write_registers [auxcr (if enable then Z.lor AUX_SRE AUX_CS else AUX_SRE)].

Definition recover_from_stall : Act St unit :=
  let! _ := attempt (abort true) in
  let! _ := poll_read (reading 0x20) (from_millis 100) in
  let! _ := attempt (abort false) in
  let! _ := drain_writes in
  let! _ := attempt ifc in
  drain_writes.

Definition try_command_bytes (cmd : list byte) : Act St unit :=
  let! _ := send (PCommand cmd) in
  let! _ := wait_write_or_timeout in
  let! _ := get_xfer_status in
  ret tt.

(** The two waits after a packet, and the recovery when one fails. *)
Definition await_transfer : Act St unit :=
  let! r := attempt wait_write_or_timeout in
  match r with
  | Err e => let! _ := recover_from_stall in bail e
  | Ok _ =>
      let! r := attempt get_xfer_status in
      match r with
      | Err e => let! _ := recover_from_stall in bail e
      | Ok _ => ret tt
      end
  end.

Definition send_command_bytes (cmd : list byte) : Act St unit :=
  let! _ := send (PCommand cmd) in await_transfer.

Definition send_data_bytes (data : list byte) (send_eoi : bool) : Act St unit :=
  let! _ := send (PData data send_eoi) in await_transfer.

(** *** Start-up *)

Definition request_system_control : Act St unit :=
  let! _ := modify (fun b => with_hw_control_bits (Z.lor (hw_control_bits b) SYSTEM_CONTROLLER) b) in
  let! bits := gets hw_control_bits in
  write_registers [auxcr AUX_RQC; mkPairlet REG_HW_CONTROL bits].

Definition init_registers (my_pad : Z) : list RegisterPairlet :=
  map auxcr [AUX_NBAF; AUX_HLDE; AUX_TON; AUX_LON; AUX_RSV2; AUX_INVAL; AUX_RPP; AUX_STDL; AUX_VSTDL] ++
  [mkPairlet REG_FAST_TALKER_T1 (Z.min (Z.max (800 / 21) 0x11) 0x72);
   mkPairlet TMS_ADR (Z.land my_pad ADDRESS_MASK);
   mkPairlet TMS_PPR 0;
   mkPairlet TMS_SPMR 0;
   mkPairlet REG_PROTOCOL_CONTROL WRITE_COMPLETE_INTERRUPT_EN;
   mkPairlet TMS_IMR0 (Z.lor HR_BOIE HR_BIIE);
   mkPairlet TMS_IMR1 HR_SRQIE;
   auxcr AUX_CHIP_RESET;
   mkPairlet REG_LED_CONTROL FIRMWARE_LED_CONTROL].

Definition init (my_pad : Z) : Act St unit :=
  let! _ := modify (with_my_pad my_pad) in
  let! _ := drain_in in
  let! _ := write_registers [mkPairlet REG_LED_CONTROL FAIL_LED_ON; mkPairlet REG_RESET_TO_POWERUP RESET_SPACEBALL] in
  let! _ := sleep_ (from_millis 2) in
  let! _ := write_registers (init_registers my_pad) in
  let! hw := read_registers [mkPairlet REG_HW_CONTROL 0] in
  let bits := match hw with r :: _ => value r | [] => 0 end in
  let! _ := modify (with_hw_control_bits (Z.lor (Z.lor (Z.land bits (not_u8 0x07)) NOT_TI_RESET) NOT_PARALLEL_POLL)) in
  let! _ := request_system_control in
  let! _ := ifc in
  ren true.

(** *** Addressed commands *)

Definition device_clear (pad : Z) : Act St unit :=
  send_command_bytes [b8 GPIB_UNL; b8 (listen_address pad); b8 GPIB_SDC].

Definition go_to_remote (pad : Z) : Act St unit :=
  let! _ := ren true in send_command_bytes [b8 GPIB_UNL; b8 (listen_address pad)].

Definition go_to_local (pad : Z) : Act St unit :=
  send_command_bytes [b8 GPIB_UNL; b8 (listen_address pad); b8 GPIB_GTL].

Definition local_lockout : Act St unit := send_command_bytes [b8 GPIB_LLO].

Definition trigger (pad : Z) : Act St unit :=
  send_command_bytes [b8 GPIB_UNL; b8 (listen_address pad); b8 GPIB_GET].

(** *** Data *)

Definition listen_only_refusal : Error := str "cannot write while in listen-only mode (++lon 0 to leave)".

Definition write_addressing (pad : Z) : list byte := [b8 GPIB_UNL; b8 (talk_address 0); b8 (listen_address pad)].
Definition read_addressing (pad : Z) : list byte := [b8 GPIB_UNL; b8 (listen_address 0); b8 (talk_address pad)].

Definition write (pad : Z) (data : list byte) (send_eoi : bool) : Act St unit :=
  let! lon := gets listen_only in
  if lon then bail listen_only_refusal
  else
    let! _ := send_command_bytes (write_addressing pad) in
    send_data_bytes data send_eoi.

(** The wait of a read and, while capturing, the salvage of what a timed-out one
    has collected: whether it was needed, and the outcome. *)
Definition await_data (f : Reading) : Act St (bool * option (result (list byte) Error)) :=
  let! timeout := gets timeout_ms in
  let! lon := gets listen_only in
  let! (r, f) := poll_read f (from_millis timeout) in
  match r with
  | Some r => ret (false, Some r)
  | None =>
      if lon then
        let! _ := attempt (control XFER_ABORT XA_FLUSH 2) in
        let! (r, _) := poll_read f (from_millis 1000) in
        ret (true, r)
      else ret (false, None)
  end.

Definition read_data_body (max_len : Z) : Act St (list byte * bool) :=
  let! _ := write_registers [auxcr AUX_GTS] in
  let! eos := gets eos_enabled in
  let! c := gets eos_char in
  let! _ := send (PRead (as_u32 max_len) eos c true) in
  let! (salvaged, outcome) := await_data (reading (max_len + 1)) in
  let! _ := if salvaged then let! _ := attempt (abort false) in ret tt else ret tt in
  match outcome with
  | Some (Ok raw) => let '(data, eom, _) := decode_gpib_read_response raw in ret (data, eom)
  | Some (Err e) => let! _ := recover_from_stall in bail e
  | None =>
      let! lon := gets listen_only in
      let! _ :=
        if lon then
          let! _ := attempt (abort true) in
          let! _ := attempt (abort false) in
          let! _ := drain_writes in
          drain_in
        else recover_from_stall in
      let! timeout := gets timeout_ms in
      bail (str "gpib read timed out after " ++ to_string timeout ++ str " ms")
  end.

Definition read (pad max_len : Z) : Act St (list byte * bool) :=
  let! lon := gets listen_only in
  let! _ := if lon then ret tt else send_command_bytes (read_addressing pad) in
  read_data_body max_len.

(** *** Serial poll *)

Definition poll_addressing (pad : Z) : list byte :=
  [b8 GPIB_UNL; b8 GPIB_SPE; b8 (talk_address pad); b8 (listen_address 0)].
Definition poll_end : list byte := [b8 GPIB_SPD; b8 GPIB_UNT].

(** The read of the status byte, once the poll is enabled and requested. *)
Definition poll_outcome (pad : Z) : Act St (result (list byte) Error) :=
  let! timeout := gets timeout_ms in
  let! (r, _) := poll_read (reading 2) (from_millis timeout) in
  ret (match r with
       | Some (Ok raw) => Ok (decode_gpib_read_response raw).1.1
       | Some (Err e) => Err e
       | None => Err (str "serial poll of pad " ++ to_string pad ++ str " timed out after " ++ to_string timeout ++ str " ms")
       end).

Definition begin_poll (pad : Z) : Act St unit :=
  let! _ := send_command_bytes (poll_addressing pad) in
  let! _ := write_registers [auxcr AUX_GTS] in
  send (PRead 1 false 0 true).

Definition end_poll (pad : Z) : Act St Z :=
  let! outcome := poll_outcome pad in
  match outcome with
  | Ok data =>
      let! _ := send_command_bytes poll_end in
      match data with
      | stb :: _ => ret (u8 stb)
      | [] => bail (str "serial poll of pad " ++ to_string pad ++ str " returned no status byte")
      end
  | Err e =>
      let! _ := recover_from_stall in
      let! _ := attempt (send_command_bytes poll_end) in
      bail e
  end.

Definition serial_poll (pad : Z) : Act St Z :=
  let! _ := begin_poll pad in end_poll pad.

(** *** Lines and modes *)

Definition bus_lines : Act St BusLines :=
  let! regs := read_registers [mkPairlet TMS_BSR 0] in
  ret (from_bsr (match regs with r :: _ => value r | [] => 0 end)).

Definition srq_asserted : Act St bool :=
  let! l := bus_lines in ret (srq l).

Definition listen_only_registers (enable : bool) : list RegisterPairlet :=
  if enable then [auxcr (Z.lor AUX_LON AUX_CS); auxcr (Z.lor AUX_HLDA AUX_CS); auxcr AUX_VAL; auxcr AUX_GTS]
  else [auxcr AUX_LON; auxcr AUX_HLDA].

Definition set_listen_only (enable : bool) : Act St unit :=
  let! _ :=
    if enable then
      let! _ := attempt (try_command_bytes [b8 GPIB_UNL; b8 (listen_address 0)]) in
      let! _ := attempt (abort true) in
      let! _ := attempt (abort false) in
      let! _ := drain_writes in
      drain_in
    else ret tt in
  let! _ := write_registers (listen_only_registers enable) in
  modify (with_listen_only enable).

Definition send_data_unaddressed (data : list byte) (send_eoi : bool) : Act St unit :=
  let! lon := gets listen_only in
  if lon then bail listen_only_refusal else send_data_bytes data send_eoi.

Definition read_unaddressed (max_len : Z) : Act St (list byte * bool) := read_data_body max_len.

Definition set_controller_pad (pad : Z) : Act St unit :=
  if 30 <? pad then bail (str "controller address " ++ to_string pad ++ str " is out of range (0-30)")
  else
    let! _ := context (str "82357 set controller address")
                (write_registers [mkPairlet TMS_ADR (Z.land pad ADDRESS_MASK)]) in
    modify (with_my_pad pad).

Definition send_bus_command (cmds : list byte) : Act St unit := send_command_bytes cmds.

Definition set_atn (assert : bool) : Act St unit :=
  context (str "82357 ATN control") (write_registers [auxcr (if assert then AUX_TCA else AUX_GTS)]).

Definition set_eos (c : Z) (enabled : bool) (b : St) : St :=
  mkGpibController (transport b) (timeout_ms b) c enabled (hw_control_bits b) (listen_only b) (my_pad b) (trace b).
Definition eos (b : St) : Z * bool := (eos_char b, eos_enabled b).
Definition set_timeout (t : Z) (b : St) : St :=
  mkGpibController (transport b) t (eos_char b) (eos_enabled b) (hw_control_bits b) (listen_only b) (my_pad b) (trace b).

(** *** Opening *)

(** [for attempt in 1..=3], with [n] attempts left and the last error. *)
Fixpoint open_attempts (n : nat) (last_err : option Error) : Act St (option Error) :=
  match n with
  | O => ret last_err
  | S n =>
      let! _ := attempt (abort true) in
      let! _ := attempt (abort false) in
      let! r := attempt (init 0) in
      match r with
      | Ok _ => ret None
      | Err e => let! _ := sleep_ (from_millis 200) in open_attempts n (Some e)
      end
  end.

Definition open (t : T) (timeout : Z) : result unit Error * St :=
  (let! last_err := open_attempts 3 None in
   match last_err with Some e => bail e | None => ret tt end) (new t timeout).

End Driver.

Definition NAME : list Z := str "agilent-82357".

#[export] Instance Agilent_backend (T : Type) `{Transport T} : GpibBackend (GpibController T) := {|
  gb_init b p := init p (with_my_pad p b);
  gb_write b p d e := write p d e b;
  gb_read b p n := read p n b;
  gb_device_clear b p := device_clear p b;
  gb_trigger b p := trigger p b;
  gb_ifc b := ifc b;
  gb_ren b e := ren e b;
  gb_go_to_remote b p := go_to_remote p b;
  gb_go_to_local b p := go_to_local p b;
  gb_local_lockout b := local_lockout b;
  gb_serial_poll b p := serial_poll p b;
  gb_srq_asserted b := srq_asserted b;
  gb_bus_lines b := bus_lines b;
  gb_set_listen_only b e := set_listen_only e b;
  gb_listen_only b := listen_only b;
  gb_set_device_mode b _ := (Err (NAME ++ str " cannot act as a GPIB device"), b);
  gb_device_address _ := None;
  gb_send_bus_command b c := send_bus_command c b;
  gb_set_atn b a := set_atn a b;
  gb_controller_pad b := my_pad b;
  gb_set_controller_pad b p := set_controller_pad p b;
  gb_send_data_unaddressed b d e := send_data_unaddressed d e b;
  gb_read_unaddressed b n := read_unaddressed n b;
  gb_set_eos b c e := set_eos c e b;
  gb_eos b := eos b;
  gb_set_timeout b t := set_timeout t b;
  gb_read_slice_ms _ := None;
  gb_name _ := NAME;
  now b := tr_now (transport b);
  sleep b d := with_transport (tr_sleep (transport b) d) b;
|}.

(** ** Histories of a driver

    One call of the trait after [open]; [OInit] is the front-end's [++rst]. *)
Inductive Op : Type :=
| OInit (pad : Z) | OWrite (pad : Z) (d : list byte) (e : bool) | ORead (pad n : Z) | OClear (pad : Z) | OTrigger (pad : Z) | OIfc
| ORen (e : bool) | OGoToRemote (pad : Z) | OGoToLocal (pad : Z) | OLockout | OPoll (pad : Z) | OSrq | OBusLines
| OListenOnly (e : bool) | OBusCommand (c : list byte) | OAtn (a : bool) | OSetPad (pad : Z)
| OSend (d : list byte) (e : bool) | OReadUnaddressed (n : Z) | OSetEos (c : Z) (e : bool) | OSetTimeout (t : Z).

Section Histories.
Context {T : Type} `{Transport T}.
Notation St := (GpibController T).

Definition run_op (o : Op) (b : St) : St :=
  match o with
  | OInit p => (gb_init b p).2
  | OWrite p d e => (write p d e b).2
  | ORead p n => (read p n b).2
  | OClear p => (device_clear p b).2
  | OTrigger p => (trigger p b).2
  | OIfc => (ifc b).2
  | ORen e => (ren e b).2
  | OGoToRemote p => (go_to_remote p b).2
  | OGoToLocal p => (go_to_local p b).2
  | OLockout => (local_lockout b).2
  | OPoll p => (serial_poll p b).2
  | OSrq => (srq_asserted b).2
  | OBusLines => (bus_lines b).2
  | OListenOnly e => (set_listen_only e b).2
  | OBusCommand c => (send_bus_command c b).2
  | OAtn a => (set_atn a b).2
  | OSetPad p => (set_controller_pad p b).2
  | OSend d e => (send_data_unaddressed d e b).2
  | OReadUnaddressed n => (read_unaddressed n b).2
  | OSetEos c e => set_eos c e b
  | OSetTimeout t => set_timeout t b
  end.

Inductive reachable : St -> Prop :=
| reach_open t timeout : reachable (open t timeout).2
| reach_op b o : reachable b -> reachable (run_op o b).

End Histories.

(** ** An adapter

    A transport that executes register packets at once, unless it is [mute], and
    completes every write, unless it is [deaf]; each data read brings the next
    entry of a script, or nothing within the wait. *)
Record Bench : Type := mkBench {
  answer : option (list byte);
  script : list (option (list byte));
  deaf : bool;
  mute : bool;
  bench_clock : Z;
}.

#[export] Instance Bench_transport : Transport Bench := {|
  write_bulk p t :=
    let op := at_ p 0 in
    (Ok tt, mkBench (if mute t then None
                     else if op =? bulk_cmd WrRegs then Some (reply WrRegs UGP_SUCCESS [])
                     else if op =? bulk_cmd RdRegs then Some (reply RdRegs UGP_SUCCESS (replicate 8 x2d))
                     else None) (script t) (deaf t) (mute t) (bench_clock t));
  read_bulk f w t :=
    match answer t, script t with
    | Some r, _ => (Some (Ok r), f, mkBench None (script t) (deaf t) (mute t) (bench_clock t))
    | None, Some r :: rs => (Some (Ok (ztake (wanted f) r)), f, mkBench None rs (deaf t) (mute t) (bench_clock t))
    | None, None :: rs => (None, f, mkBench None rs (deaf t) (mute t) (bench_clock t + Z.max 0 w))
    | None, [] => (None, f, mkBench None [] (deaf t) (mute t) (bench_clock t + Z.max 0 w))
    end;
  control_in _ v _ n t :=
    (Ok (if v =? XFER_ABORT then [b8 (not_u8 (as_u8 XFER_ABORT)); b8 UGP_SUCCESS] else replicate (Z.to_nat n) x00), t);
  await_write_complete t :=
    (if deaf t then Err (str "timeout waiting for write-complete interrupt") else Ok tt, t);
  drain_write_complete t := t;
  drain_bulk_in := default_drain_bulk_in;
  tr_now := bench_clock;
  tr_sleep t d := mkBench (answer t) (script t) (deaf t) (mute t) (bench_clock t + Z.max 0 d);
|}.

End Agilent.
