(* ===== verification/AgilentProofs.v ===== *)
(** * The Agilent 82357 driver keeps its promises

    [AgilentLaws] is what the transport guarantees.  [ext P] says that an
    operation only adds events satisfying [P] to the trace and leaves the
    settings alone; [chip] replays the register writes, accepted or lost, and
    says what is known of the chip's listen-only bit. *)

From S2P Require Import Prelude RustStr Backend Bus Effect AgilentMsg Agilent.

Module AgilentProofs.
Import RustStr Backend Bus AgilentMsg Effect Agilent.

Class AgilentLaws (T : Type) `{Transport T} : Prop := {
  write_bulk_now : forall p t, tr_now t <= tr_now (write_bulk p t).2;
  read_bulk_now : forall f w t, tr_now t <= tr_now (read_bulk f w t).2;
  control_in_now : forall q v i n t, tr_now t <= tr_now (control_in q v i n t).2;
  await_now : forall t, tr_now t <= tr_now (await_write_complete t).2;
  drain_writes_now : forall t, tr_now t <= tr_now (drain_write_complete t);
  drain_in_now : forall t, tr_now t <= tr_now (drain_bulk_in t);
  tr_sleep_now : forall t d, 0 <= d -> tr_now t + d <= tr_now (tr_sleep t d);
}.

(** The adapter answers a read with no more than it was asked for. *)
Class AgilentHonest (T : Type) `{Transport T} : Prop :=
  read_bulk_bound : forall f w t, 0 <= wanted f -> zlen (so_far f) <= wanted f ->
    match read_bulk f w t with
    | (Some (Ok raw), _, _) => zlen raw <= wanted f
    | (Some (Err _), _, _) => True
    | (None, f', _) => wanted f' = wanted f /\ zlen (so_far f') <= wanted f
    end.

(** ** What an operation adds to the trace *)

Section Ext.
Context {T : Type} `{AgilentLaws T} (P : Event -> Prop).
Notation St := (GpibController T).

Definition settings (b : St) : Z * Z * bool * bool * Z :=
  (timeout_ms b, eos_char b, eos_enabled b, listen_only b, my_pad b).

Definition ext (b b' : St) : Prop :=
  tr_now (transport b) <= tr_now (transport b') /\ settings b' = settings b /\
  exists es, trace b' = trace b ++ es /\ Forall P es.

#[export] Instance ext_preorder : PreOrder ext.
Proof.
  split.
  - intros b. split_and!; [lia|done|]. exists []. by rewrite app_nil_r.
  - intros b c d (H1 & H2 & es & E1 & F1) (H3 & H4 & es' & E2 & F2). split_and!; [lia|congruence|].
    exists (es ++ es'). rewrite E2, E1, app_assoc. split; [done|]. by apply Forall_app.
Qed.

Lemma ext_record e t (b : St) : P e -> tr_now (transport b) <= tr_now t -> ext b (record e t b).
Proof. intros He Ht. split_and!; [done|done|]. exists [e]. by rewrite Forall_singleton. Qed.

(** Calls that put nothing on the bus are always allowed. *)
Hypothesis passive : forall e, (forall p ok, e <> Sent p ok) -> P e.

Lemma agext_send p : (forall ok, P (Sent p ok)) -> keeps ext (send (T := T) p).
Proof.
  intros Hp b. unfold send. pose proof (write_bulk_now (frame p) (transport b)) as Hn.
  destruct (write_bulk _ _) as [r t]. by apply ext_record.
Qed.
Lemma ext_poll f w : keeps ext (poll_read (T := T) f w).
Proof.
  intros b. unfold poll_read. pose proof (read_bulk_now f w (transport b)) as Hn.
  destruct (read_bulk _ _ _) as [[r f'] t]. apply ext_record; [by apply passive|done].
Qed.
Lemma ext_control v i n : keeps ext (control (T := T) v i n).
Proof.
  intros b. unfold control. pose proof (control_in_now CONTROL_REQUEST v i n (transport b)) as Hn.
  destruct (control_in _ _ _ _ _) as [r t]. apply ext_record; [by apply passive|done].
Qed.
Lemma ext_wait : keeps ext (wait_write_or_timeout (T := T)).
Proof.
  intros b. unfold wait_write_or_timeout. pose proof (await_now (transport b)) as Hn.
  destruct (await_write_complete _) as [r t]. apply ext_record; [by apply passive|done].
Qed.
Lemma ext_drain_writes : keeps ext (drain_writes (T := T)).
Proof. intros b. apply ext_record; [by apply passive|apply drain_writes_now]. Qed.
Lemma ext_drain_in : keeps ext (drain_in (T := T)).
Proof. intros b. apply ext_record; [by apply passive|apply drain_in_now]. Qed.
Lemma agext_sleep d : 0 <= d -> keeps ext (sleep_ (T := T) d).
Proof.
  intros Hd b. split_and!; [|done|by exists []; rewrite app_nil_r].
  pose proof (tr_sleep_now (transport b) d Hd). simpl. lia.
Qed.
Lemma ext_hw h : keeps ext (modify (with_hw_control_bits (T := T) h)).
Proof. intros b. split_and!; [simpl; lia|done|by exists []; rewrite app_nil_r]. Qed.
Hint Resolve ext_poll ext_control ext_wait ext_drain_writes ext_drain_in ext_hw : keeps.
Hint Extern 1 (keeps ext (sleep_ _)) => (apply agext_sleep; vm_compute; discriminate) : keeps.

Lemma ext_register_reply e : keeps ext (register_reply (T := T) e).
Proof. unfold register_reply. keeps_auto. Qed.
Hint Resolve ext_register_reply : keeps.
Lemma ext_write_registers regs : (forall ok, P (Sent (PWrRegs regs) ok)) -> keeps ext (write_registers (T := T) regs).
Proof. intros Hp. unfold write_registers. keeps_auto. by apply agext_send. Qed.
Lemma ext_read_registers regs : (forall ok, P (Sent (PRdRegs (map address regs)) ok)) ->
  keeps ext (read_registers (T := T) regs).
Proof. intros Hp. unfold read_registers. keeps_auto. by apply agext_send. Qed.
Lemma ext_abort f : keeps ext (abort (T := T) f).
Proof. unfold abort. keeps_auto. Qed.
Lemma ext_status : keeps ext (get_xfer_status (T := T)).
Proof. unfold get_xfer_status. keeps_auto. Qed.
Hint Resolve ext_abort ext_status : keeps.
Lemma ext_try_command c : (forall ok, P (Sent (PCommand c) ok)) -> keeps ext (try_command_bytes (T := T) c).
Proof. intros Hp. unfold try_command_bytes. keeps_auto. by apply agext_send. Qed.

Lemma ext_await_data f : keeps ext (await_data (T := T) f).
Proof. unfold await_data. keeps_auto. Qed.
Hint Resolve ext_await_data : keeps.

(** Resetting the bus. *)
Section Pulse.
Hypothesis pulse : forall v ok, P (Sent (PWrRegs [auxcr v]) ok).

Lemma agext_ifc : keeps ext (ifc (T := T)).
Proof. unfold ifc. keeps_auto; by apply ext_write_registers. Qed.
Hint Resolve agext_ifc : keeps.
Lemma ext_recover : keeps ext (recover_from_stall (T := T)).
Proof. unfold recover_from_stall. keeps_auto. Qed.
Hint Resolve ext_recover : keeps.
Lemma ext_await_transfer : keeps ext (await_transfer (T := T)).
Proof. unfold await_transfer. keeps_auto. Qed.
Hint Resolve ext_await_transfer : keeps.
Lemma agext_send_command c : (forall ok, P (Sent (PCommand c) ok)) -> keeps ext (send_command_bytes (T := T) c).
Proof. intros Hp. unfold send_command_bytes. keeps_auto. by apply agext_send. Qed.
Lemma ext_send_data d e : (forall ok, P (Sent (PData d e) ok)) -> keeps ext (send_data_bytes (T := T) d e).
Proof. intros Hp. unfold send_data_bytes. keeps_auto. by apply agext_send. Qed.
Lemma agext_read_data n : (forall eos c ok, P (Sent (PRead (as_u32 n) eos c true) ok)) -> keeps ext (read_data_body (T := T) n).
Proof.
  intros Hp. unfold read_data_body. keeps_auto; [by apply ext_write_registers|]. by apply agext_send.
Qed.

End Pulse.
End Ext.

(** ** The contract of the front-ends *)

Section Contract.
Context {T : Type} `{AgilentLaws T}.
Notation St := (GpibController T).
Notation any := (fun _ : Event => True).

Lemma ext_any_data n : keeps (ext any) (read_data_body (T := T) n).
Proof. by apply agext_read_data. Qed.
Lemma ext_any_command c : keeps (ext any) (send_command_bytes (T := T) c).
Proof. by apply agext_send_command. Qed.
Lemma ext_any_send d e : keeps (ext any) (send_data_bytes (T := T) d e).
Proof. by apply ext_send_data. Qed.
Lemma ext_any_poll_read f w : keeps (ext any) (poll_read (T := T) f w).
Proof. by apply ext_poll. Qed.
Lemma ext_any_recover : keeps (ext any) (recover_from_stall (T := T)).
Proof. by apply ext_recover. Qed.
Hint Resolve ext_any_data ext_any_command ext_any_send ext_any_poll_read ext_any_recover : keeps.
Hint Extern 1 (keeps (ext _) (write_registers _)) => (by apply ext_write_registers) : keeps.
Hint Extern 1 (keeps (ext _) (read_registers _)) => (by apply ext_read_registers) : keeps.
Hint Extern 1 (keeps (ext _) (send _)) => (by apply agext_send) : keeps.

Lemma ext_read p n : keeps (ext any) (read (T := T) p n).
Proof. unfold read. keeps_auto. Qed.
Lemma ext_write p d e : keeps (ext any) (write (T := T) p d e).
Proof. unfold write. keeps_auto. Qed.
Lemma ext_send_unaddressed d e : keeps (ext any) (send_data_unaddressed (T := T) d e).
Proof. unfold send_data_unaddressed. keeps_auto. Qed.
Lemma agext_serial_poll p : keeps (ext any) (serial_poll (T := T) p).
Proof. unfold serial_poll, begin_poll, end_poll, poll_outcome. keeps_auto. Qed.
Lemma ext_srq : keeps (ext any) (srq_asserted (T := T)).
Proof. unfold srq_asserted, bus_lines. keeps_auto. Qed.

Lemma await_data_bound `{!AgilentHonest T} f (b : St) : 0 <= wanted f -> zlen (so_far f) <= wanted f ->
  wp (await_data f) (fun r _ => match r.2 with Some (Ok raw) => zlen raw <= wanted f | _ => True end) (fun _ _ => True) b.
Proof.
  intros Hw Hf. unfold await_data. wp_auto. unfold wp at 1, poll_read.
  pose proof (read_bulk_bound f (from_millis (timeout_ms b)) (transport b) Hw Hf) as Hb.
  destruct (read_bulk f _ _) as [[[[raw|e]|] f'] t]; [by wp_auto..|]. destruct Hb as [Hw' Hf'].
  destruct (listen_only b); [|by wp_auto]. wp_auto. apply wp_any; intros ? b1; wp_auto; unfold wp at 1, poll_read;
    rewrite <- Hw' in *; pose proof (read_bulk_bound f' (from_millis 1000) (transport b1) Hw Hf') as Hb;
    by destruct (read_bulk f' _ _) as [[[[raw|e']|] f2] t2].
Qed.

Lemma decoded_shorter raw n : 0 <= n -> zlen raw <= n + 1 -> zlen (decode_gpib_read_response raw).1.1 <= n.
Proof.
  intros Hn Hr. unfold decode_gpib_read_response. destruct (last raw) eqn:E; [|done]. cbn [fst].
  unfold zlen in *. rewrite length_take. destruct raw; [done|]. cbn [length] in *. lia.
Qed.

Lemma read_data_bound `{!AgilentHonest T} n (b : St) : 0 <= n ->
  wp (read_data_body n) (fun r _ => zlen r.1 <= n) (fun _ _ => True) b.
Proof.
  intros Hn. unfold read_data_body. wp_auto. apply wp_any; [|done]. intros _ b1. wp_auto. apply wp_any; [|done]. intros _ b2.
  wp_auto. eapply wp_mono; [apply await_data_bound; [cbn; lia|change (0 <= n + 1); lia]| |done]. intros [salvaged outcome] b3 Ho. wp_auto.
  apply wp_any; [|done]. intros _ b4. destruct outcome as [[raw|e]|].
  - pose proof (decoded_shorter raw n Hn Ho) as Hd. destruct (decode_gpib_read_response raw) as [[d eom] t]. by wp_auto.
  - wp_auto. by apply wp_any.
  - wp_auto. by apply wp_any.
Qed.

Lemma agilent_read_bound_wp `{!AgilentHonest T} p n (b : St) : 0 <= n -> wp (read p n) (fun r _ => zlen r.1 <= n) (fun _ _ => True) b.
Proof. intros Hn. unfold read. wp_auto. apply wp_any; [|done]. intros. by apply read_data_bound. Qed.

Lemma ext_eos (P : Event -> Prop) (b b' : St) : ext P b b' -> eos b' = eos b.
Proof. intros (_ & E & _). unfold settings in E. unfold eos. congruence. Qed.

#[export] Instance Agilent_laws `{!AgilentHonest T} : BackendLaws (GpibController T).
Proof.
  refine {| timeout_of b := timeout_ms b |}; simpl; intros; try done.
  - apply (wp_run _ _ _ _ (agilent_read_bound_wp pad n b ltac:(lia))) in H2. done.
  - apply (wp_run _ _ _ _ (read_data_bound n b ltac:(lia))) in H2. done.
  - apply ext_read.
  - apply ext_any_data.
  - apply (ext_eos _ _ _ (ext_read pad n b)).
  - apply (ext_eos _ _ _ (ext_any_data n b)).
  - apply ext_write.
  - apply ext_send_unaddressed.
  - apply agext_serial_poll.
  - apply ext_srq.
  - by apply tr_sleep_now.
Defined.

End Contract.

#[export] Instance Bench_laws : AgilentLaws Bench.
Proof.
  split; intros; simpl; repeat case_match; simpl; unfold default_drain_bulk_in; lia.
Qed.

(** ** Transfers *)

(** The steps of an interface clear, as far as it got. *)
Definition clear_steps (es : list Event) : Prop :=
  exists ok rest, es = Sent (PWrRegs [auxcr (Z.lor AUX_SIC AUX_CS)]) ok :: rest.

(** The recovery of a stalled transfer: flush, drain, finalize, reset the bus. *)
Definition recovery (es : list Event) : Prop :=
  exists r1 r2 f2 r3 cs, es = [Control XFER_ABORT XA_FLUSH r1; Polled (reading 0x20) (from_millis 100) r2 f2; Control XFER_ABORT 0 r3; DrainedWrites] ++
    cs ++ [DrainedWrites] /\ clear_steps cs.

(** A packet the adapter took and completed. *)
Definition transferred (p : Packet) (es : list Event) : Prop :=
  exists st, es = [Sent p true; Awaited true; Control XFER_STATUS 0 (Ok st)].

(** One that it did not take, or that stalled and was recovered from. *)
Definition stalled (p : Packet) (es : list Event) : Prop :=
  es = [Sent p false] \/
  exists rec, recovery rec /\
    (es = [Sent p true; Awaited false] ++ rec \/
     exists st, es = [Sent p true; Awaited true; Control XFER_STATUS 0 st] ++ rec).

Section Transfers.
Context {T : Type} `{Transport T}.
Notation St := (GpibController T).

(** What [m] adds to the trace. *)
Definition adds {A} (m : Act St A) (Q E : list Event -> Prop) (b : St) : Prop :=
  wp m (fun _ b' => exists es, trace b' = trace b ++ es /\ Q es) (fun _ b' => exists es, trace b' = trace b ++ es /\ E es) b.

Lemma adds_bind {A B} (m : Act St A) (k : A -> Act St B) (Q1 E1 Q E : list Event -> Prop) (b : St) :
  adds m Q1 E1 b -> (forall es, E1 es -> E es) ->
  (forall a b' es, Q1 es -> trace b' = trace b ++ es ->
     adds (k a) (fun es' => Q (es ++ es')) (fun es' => E (es ++ es')) b') ->
  adds (bind m k) Q E b.
Proof.
  intros Hm HE Hk. apply wp_bind. eapply wp_mono; [exact Hm| |].
  - intros a b' (es & Et & Hq). eapply wp_mono; [by apply (Hk a b' es)|..]; intros ? b2 (es' & Et' & ?);
      (exists (es ++ es'); split; [by rewrite Et', Et, app_assoc|done]).
  - intros e b' (es & Et & He). exists es. split; [done|]. by apply HE.
Qed.

Lemma adds_mono {A} (m : Act St A) (Q E Q' E' : list Event -> Prop) b : adds m Q E b ->
  (forall es, Q es -> Q' es) -> (forall es, E es -> E' es) -> adds m Q' E' b.
Proof. intros Hm HQ HE. eapply wp_mono; [exact Hm|..]; intros ? b' (es & ? & ?); exists es; auto. Qed.
Lemma adds_ret {A} (a : A) (Q E : list Event -> Prop) b : Q [] -> adds (ret a) Q E b.
Proof. intros HQ. exists []. by rewrite app_nil_r. Qed.
Lemma adds_bail {A} e (Q E : list Event -> Prop) b : E [] -> adds (bail (A := A) e) Q E b.
Proof. intros HE. exists []. by rewrite app_nil_r. Qed.
Lemma adds_attempt {A} (m : Act St A) (Q E E' : list Event -> Prop) b : adds m Q E b -> adds (attempt m) (fun es => Q es \/ E es) E' b.
Proof. intros Hm. apply wp_attempt. eapply wp_mono; [exact Hm|..]; intros ? b' (es & ? & ?); exists es; auto. Qed.

Lemma adds_send p b : adds (send p) (fun es => es = [Sent p true]) (fun es => es = [Sent p false]) b.
Proof. unfold adds, wp, send. destruct (write_bulk _ _) as [[] t]; by eexists. Qed.
Lemma adds_poll f w b : adds (poll_read f w) (fun es => exists r f', es = [Polled f w r f']) (fun _ => False) b.
Proof. unfold adds, wp, poll_read. destruct (read_bulk _ _ _) as [[r f'] t]. eexists. split; [done|]. by eexists _, _. Qed.
Lemma adds_control v i n b :
  adds (control v i n) (fun es => exists r, es = [Control v i (Ok r)]) (fun es => exists e, es = [Control v i (Err e)]) b.
Proof. unfold adds, wp, control. destruct (control_in _ _ _ _ _) as [[] t]; eexists; (split; [done|by eexists]). Qed.
Lemma adds_wait b : adds wait_write_or_timeout (fun es => es = [Awaited true]) (fun es => es = [Awaited false]) b.
Proof. unfold adds, wp, wait_write_or_timeout. destruct (await_write_complete _) as [[] t]; by eexists. Qed.
Lemma adds_drain b : adds drain_writes (fun es => es = [DrainedWrites]) (fun _ => False) b.
Proof. by eexists. Qed.

Lemma adds_any `{!AgilentLaws T} {A} (m : Act St A) b : keeps (ext (fun _ => True)) m -> adds m (fun _ => True) (fun _ => True) b.
Proof. intros Hm. apply (wp_keeps _ _ _ _ _ Hm); intros ? b' (_ & _ & es & ? & _); by exists es. Qed.

Lemma adds_abort (f : bool) (b : St) : let one (es : list Event) := exists r : result (list byte) Error, es = [Control XFER_ABORT (if f then XA_FLUSH else 0) r] in
  adds (abort f) one one b.
Proof.
  intros one. unfold abort. eapply adds_bind; [apply adds_control|by intros es [e ->]; eexists|].
  intros resp b' es [r ->] _. repeat case_match; (apply adds_ret || apply adds_bail); by eexists.
Qed.

Lemma adds_status b :
  adds get_xfer_status (fun es => exists r, es = [Control XFER_STATUS 0 (Ok r)]) (fun es => exists r, es = [Control XFER_STATUS 0 r]) b.
Proof.
  unfold get_xfer_status. eapply adds_bind; [apply adds_control|by intros es [e ->]; eexists|].
  intros resp b' es [r ->] _. case_match; [apply adds_bail|apply adds_ret]; by eexists.
Qed.

(** The first packet of a register write, and whatever follows. *)
Lemma adds_write_registers `{!AgilentLaws T} regs b : let first (es : list Event) := exists (ok : bool) (rest : list Event), es = Sent (PWrRegs regs) ok :: rest in
  adds (write_registers regs) first first b.
Proof.
  intros first. unfold write_registers. eapply adds_bind; [apply adds_send|by intros es ->; do 2 eexists|].
  intros _ b' es -> _. eapply adds_mono; [apply adds_any|by intros; do 2 eexists..]. keeps_auto. by apply ext_register_reply.
Qed.

Lemma adds_ifc `{!AgilentLaws T} b : adds ifc clear_steps clear_steps b.
Proof.
  unfold ifc. eapply adds_bind; [apply adds_write_registers|done|]. intros _ b' es (ok & rest & ->) _.
  eapply adds_mono; [apply adds_any|by intros; do 2 eexists..]. keeps_auto; [by apply agext_sleep|by apply ext_write_registers].
Qed.

Lemma adds_recover `{!AgilentLaws T} b : adds recover_from_stall recovery (fun _ => False) b.
Proof.
  unfold recover_from_stall.
  eapply adds_bind; [apply adds_attempt, adds_abort|exact (fun _ H => H)|]. intros _ b1 es1 [[r1 ->]|[r1 ->]] _;
  (eapply adds_bind; [apply adds_poll|done|]; intros _ b2 es2 (r2 & f2 & ->) _;
   eapply adds_bind; [apply adds_attempt, adds_abort|exact (fun _ H => H)|]; intros _ b3 es3 H3 _;
   assert (exists r3, es3 = [Control XFER_ABORT 0 r3]) as [r3 ->] by (by destruct H3);
   eapply adds_bind; [apply adds_drain|done|]; intros _ b4 es4 -> _;
   eapply adds_bind; [apply adds_attempt, adds_ifc|exact (fun _ H => H)|]; intros _ b5 es5 H5 _;
   eapply adds_mono; [apply adds_drain| |done]; intros es6 ->; exists r1, r2, f2, r3, es5; split; [done|by destruct H5]).
Qed.

Lemma adds_await_transfer `{!AgilentLaws T} p b :
  adds await_transfer (fun es => transferred p (Sent p true :: es)) (fun es => stalled p (Sent p true :: es)) b.
Proof.
  unfold await_transfer, adds. apply wp_bind, wp_attempt. eapply wp_mono; [apply adds_wait|..]; simpl.
  - intros _ b1 (es1 & E1 & ->). apply wp_bind, wp_attempt. eapply wp_mono; [apply adds_status|..]; simpl.
    + intros _ b2 (es2 & E2 & st & ->). apply wp_ret. eexists. split; [by rewrite E2, E1, <- app_assoc|]. by eexists.
    + intros e b2 (es2 & E2 & st & ->). apply wp_bind. eapply wp_mono; [apply adds_recover|..]; intros ? b3 (es3 & E3 & Hr); [|done].
      apply wp_bail. eexists. split; [by rewrite E3, E2, E1, <- !app_assoc|]. right. exists es3. split; [done|]. right. by exists st.
  - intros e b1 (es1 & E1 & ->). apply wp_bind. eapply wp_mono; [apply adds_recover|..]; intros ? b3 (es3 & E3 & Hr); [|done].
    apply wp_bail. eexists. split; [by rewrite E3, E1, <- app_assoc|]. right. exists es3. split; [done|]. by left.
Qed.

Lemma adds_transfer `{!AgilentLaws T} p b :
  adds (let! _ := send p in await_transfer) (transferred p) (stalled p) b.
Proof.
  eapply adds_bind; [apply adds_send|by intros es ->; left|]. intros _ b' es -> _. apply adds_await_transfer.
Qed.

End Transfers.

(** ** Capture *)

(** No interface clear. *)
Definition no_pulse (e : Event) : Prop :=
  match e with Sent (PWrRegs regs) _ => auxcr (Z.lor AUX_SIC AUX_CS) ∉ regs | _ => True end.
(** Nothing said on the bus at all. *)
Definition silent (e : Event) : Prop :=
  match e with
  | Sent (PCommand _) _ | Sent (PData _ _) _ => False
  | _ => no_pulse e
  end.

Section Capture.
Context {T : Type} `{AgilentLaws T}.
Notation St := (GpibController T).

Lemma silent_passive e : (forall p ok, e <> Sent p ok) -> silent e.
Proof. destruct e; simpl; try done. intros He. by destruct (He p ok). Qed.
Lemma no_pulse_passive e : (forall p ok, e <> Sent p ok) -> no_pulse e.
Proof. destruct e; simpl; try done. intros He. by destruct (He p ok). Qed.
Hint Resolve silent_passive no_pulse_passive : core.

Lemma ext_add P (a b c : St) : ext P a b -> ext P b c -> ext P a c.
Proof. apply transitivity. Qed.

Lemma regs_silent regs ok : bool_decide (auxcr (Z.lor AUX_SIC AUX_CS) ∈ regs) = false -> silent (Sent (PWrRegs regs) ok).
Proof. intros Hr%bool_decide_eq_false. exact Hr. Qed.
Lemma gts_silent : keeps (ext silent) (write_registers (T := T) [auxcr AUX_GTS]).
Proof. apply (ext_write_registers silent silent_passive). intros ok. by apply regs_silent. Qed.

(** *** The path of a capture read *)

Definition GTS : list RegisterPairlet := [auxcr AUX_GTS].

(** A register write that was answered, or that failed, as the trace has it. *)
Definition wrote (regs : list RegisterPairlet) (es : list Event) : Prop :=
  exists w resp f, es = [Sent (PWrRegs regs) true; Polled (reading 0x20) w (Some (Ok resp)) f] /\
    decode_wr_regs_response resp = Ok tt.
Definition not_wrote (regs : list RegisterPairlet) (es : list Event) : Prop :=
  es = [Sent (PWrRegs regs) false] \/ exists w r f, es = [Sent (PWrRegs regs) true; Polled (reading 0x20) w r f] /\
    forall resp, r = Some (Ok resp) -> decode_wr_regs_response resp <> Ok tt.

(** The wait of a capture read of [n] bytes and its outcome: the transfer came
    within [limit] milliseconds; or it did not, and the very same read was waited
    for again, for a second, after an abort asked the adapter to end it, which
    another abort then finalizes. *)
Definition waited (n limit : Z) (outcome : option (result (list byte) Error)) (es : list Event) : Prop :=
  (exists f, outcome <> None /\ es = [Polled (reading (n + 1)) (from_millis limit) outcome f]) \/
  (exists f a f' a', es = [Polled (reading (n + 1)) (from_millis limit) None f; Control XFER_ABORT XA_FLUSH a;
     Polled f (from_millis 1000) outcome f';
     Control XFER_ABORT 0 a']).

Definition read_request (n : Z) (b : St) : Packet := PRead (as_u32 n) (eos_enabled b) (eos_char b) true.

(** What a failed capture read leaves in the trace. *)
Definition capture_failed (n : Z) (b : St) (es : list Event) : Prop :=
  not_wrote GTS es \/
  exists gts, wrote GTS gts /\
    (es = gts ++ [Sent (read_request n b) false] \/
     (exists ws a a', waited n (timeout_ms b) None ws /\ es = gts ++ [Sent (read_request n b) true] ++ ws ++
        [Control XFER_ABORT XA_FLUSH a; Control XFER_ABORT 0 a'; DrainedWrites; DrainedIn]) \/
     (exists e ws rec, waited n (timeout_ms b) (Some (Err e)) ws /\ recovery rec /\
        es = gts ++ [Sent (read_request n b) true] ++ ws ++ rec)).

Lemma adds_registers regs (b : St) : adds (write_registers regs) (wrote regs) (not_wrote regs) b.
Proof.
  unfold write_registers, register_reply, adds. wp_auto. unfold wp at 1, send. destruct (write_bulk _ _) as [[[]|e] t].
  2:{ eexists. split; [reflexivity|]. by left. }
  wp_auto. unfold wp at 1, poll_read. destruct (read_bulk _ _ _) as [[r f] t'].
  set (b2 := record (Polled _ _ _ _) t' _). set (limit := from_millis _) in b2.
  assert (Et : trace b2 = trace b ++ [Sent (PWrRegs regs) true; Polled (reading 0x20) limit r f])
    by (unfold b2; cbn [trace record]; by rewrite <- app_assoc).
  destruct r as [[resp|e]|]; wp_auto.
  - destruct (decode_wr_regs_response resp) as [[]|e] eqn:Ed; cbn [map_err]; eexists; (split; [exact Et|]).
    + by exists limit, resp, f.
    + right. exists limit, (Some (Ok resp)), f. split; [done|]. by intros ? [= <-]; rewrite Ed.
  - eexists. split; [exact Et|]. right. by eexists _, _, _.
  - eexists. split; [exact Et|]. right. by eexists _, _, _.
Qed.

(** Abort and salvage: the two waits, with the second abort still to come. *)
Lemma await_data_capture n (b : St) : listen_only b = true ->
  wp (await_data (reading (n + 1)))
    (fun r b' => settings b' = settings b /\ exists es, trace b' = trace b ++ es /\
       if r.1 : bool then forall a', waited n (timeout_ms b) r.2 (es ++ [Control XFER_ABORT 0 a']) else r.2 <> None /\ waited n (timeout_ms b) r.2 es)
    (fun _ _ => False) b.
Proof.
  intros Hl. unfold await_data. wp_auto. rewrite Hl. unfold wp at 1, poll_read.
  destruct (read_bulk _ _ _) as [[[r|] f] t].
  - wp_auto. split; [done|]. eexists. split; [reflexivity|]. split; [done|]. left. by exists f.
  - set (b1 := record _ t b). wp_auto. unfold wp at 1, control. destruct (control_in _ _ _ _ _) as [rc t1].
    assert (Hend : forall b2 : St, settings b2 = settings b -> trace b2 = trace b1 ++ [Control XFER_ABORT XA_FLUSH rc] ->
      wp (let! (r, _) := poll_read f (from_millis 1000) in ret (true, r))
        (fun r b' => settings b' = settings b /\ exists es, trace b' = trace b ++ es /\
           if r.1 : bool then forall a', waited n (timeout_ms b) r.2 (es ++ [Control XFER_ABORT 0 a']) else r.2 <> None /\ waited n (timeout_ms b) r.2 es)
        (fun _ _ => False) b2).
    { intros b2 Hs Et. wp_auto. unfold wp at 1, poll_read. destruct (read_bulk f _ _) as [[r f'] t2]. wp_auto. split; [exact Hs|].
      exists [Polled (reading (n + 1)) (from_millis (timeout_ms b)) None f; Control XFER_ABORT XA_FLUSH rc;
        Polled f (from_millis 1000) r f']. split.
      { cbn [trace record]. rewrite Et. unfold b1. cbn [trace record]. by rewrite <- !app_assoc. }
      intros a'. right. by exists f, rc, f', a'. }
    pose proof (Hend (record (Control XFER_ABORT XA_FLUSH rc) t1 b1) eq_refl eq_refl) as Hw. by destruct rc.
Qed.

(** The wait, and the abort that finalizes a salvage. *)
Lemma finish_wait_capture n (b : St) : listen_only b = true ->
  wp (let! (salvaged, outcome) := await_data (reading (n + 1)) in
      let! _ := if salvaged : bool then let! _ := attempt (abort false) in ret tt else ret tt in ret outcome)
    (fun outcome b' => settings b' = settings b /\ exists ws, trace b' = trace b ++ ws /\ waited n (timeout_ms b) outcome ws)
    (fun _ _ => False) b.
Proof.
  intros Hl. wp_auto. eapply wp_mono; [by apply await_data_capture| |done]. intros [[] outcome] b1 (Hs & es & E1 & Hw); cbn [fst snd] in *.
  - assert (Hx := ext_abort silent silent_passive false b1). assert (Ha := adds_abort false b1). unfold adds, wp in Ha.
    wp_auto. unfold wp. destruct (abort false b1) as [[[]|e] b2]; destruct Ha as (es2 & E2 & a' & ->), Hx as (_ & Hs2 & _);
      (split; [by rewrite <- Hs|]; eexists; split; [by rewrite E2, E1, <- app_assoc|apply Hw]).
  - wp_auto. split; [done|]. exists es. by split; [|apply Hw].
Qed.

Lemma read_data_body_eq n (b : St) : read_data_body n b =
  (let! _ := write_registers GTS in
   let! eos := gets eos_enabled in
   let! c := gets eos_char in
   let! _ := send (PRead (as_u32 n) eos c true) in
   let! outcome := (let! (salvaged, outcome) := await_data (reading (n + 1)) in
                    let! _ := if salvaged : bool then let! _ := attempt (abort false) in ret tt else ret tt in ret outcome) in
   match outcome with
   | Some (Ok raw) => let '(data, eom, _) := decode_gpib_read_response raw in ret (data, eom)
   | Some (Err e) => let! _ := recover_from_stall in bail e
   | None =>
       let! lon := gets listen_only in
       let! _ :=
         if lon then
           let! _ := attempt (abort true) in
           let! _ := attempt (abort false) in
           let! _ := drain_writes in
           drain_in
         else recover_from_stall in
       let! timeout := gets timeout_ms in
       bail (str "gpib read timed out after " ++ to_string timeout ++ str " ms")
   end) b.
Proof.
  unfold read_data_body, bind. fold GTS. destruct (write_registers GTS b) as [[[]|e] b1]; [|done]. cbn [gets].
  destruct (send _ b1) as [[[]|e] b2]; [|done]. destruct (await_data _ b2) as [[[[] outcome]|e] b3]; [| |done].
  - destruct (attempt (abort false) b3) as [[?|e] b4] eqn:E; [done|]. unfold attempt in E. by destruct (abort false b3).
  - done.
Qed.

(** The clean-up of a capture read that never completed. *)
Lemma capture_cleanup (b : St) :
  adds (let! _ := attempt (abort true) in let! _ := attempt (abort false) in let! _ := drain_writes in drain_in)
    (fun es => exists a a', es = [Control XFER_ABORT XA_FLUSH a; Control XFER_ABORT 0 a'; DrainedWrites; DrainedIn])
    (fun _ => False) b.
Proof.
  eapply adds_bind; [apply adds_attempt, adds_abort|exact (fun _ H => H)|]. intros _ b1 es1 H1 _.
  assert (exists a, es1 = [Control XFER_ABORT XA_FLUSH a]) as [a ->] by by destruct H1.
  eapply adds_bind; [apply adds_attempt, adds_abort|exact (fun _ H => H)|]. intros _ b2 es2 H2 _.
  assert (exists a', es2 = [Control XFER_ABORT 0 a']) as [a' ->] by by destruct H2.
  eapply adds_bind; [apply adds_drain|done|]. intros _ b3 es3 -> _. eexists. split; [reflexivity|]. by exists a, a'.
Qed.

Lemma read_capture_wp n (b : St) : listen_only b = true ->
  wp (read_data_body n)
    (fun r b' => exists gts ws raw, trace b' = trace b ++ gts ++ [Sent (read_request n b) true] ++ ws /\
       wrote GTS gts /\ waited n (timeout_ms b) (Some (Ok raw)) ws /\ r = (decode_gpib_read_response raw).1)
    (fun _ b' => exists es, trace b' = trace b ++ es /\ capture_failed n b es) b.
Proof.
  intros Hl. unfold wp. rewrite read_data_body_eq. match goal with |- match ?m b with _ => _ end => change (wp m
    (fun r b' => exists gts ws raw, trace b' = trace b ++ gts ++ [Sent (read_request n b) true] ++ ws /\
       wrote GTS gts /\ waited n (timeout_ms b) (Some (Ok raw)) ws /\ r = (decode_gpib_read_response raw).1)
    (fun _ b' => exists es, trace b' = trace b ++ es /\ capture_failed n b es) b) end.
  wp_auto. eapply wp_mono.
  { apply wp_conj; [apply adds_registers|]. apply (wp_keeps (ext silent)); [apply gts_silent|intros ? ? Hx; exact Hx..]. }
  2:{ intros e b1 [(es & E1 & H1) _]. exists es. split; [done|]. by left. }
  intros _ b1 [(gts & E1 & H1) (_ & Hs1 & _)]. wp_auto. eapply wp_mono.
  { apply wp_conj; [apply adds_send|]. apply (wp_keeps (ext silent)); [by apply (agext_send silent)|intros ? ? Hx; exact Hx..]. }
  all: assert (Hreq : PRead (as_u32 n) (eos_enabled b1) (eos_char b1) true = read_request n b)
    by (unfold read_request, settings in *; congruence); rewrite Hreq.
  2:{ intros e b2 [(es & E2 & ->) _]. eexists. split; [by rewrite E2, E1, <- app_assoc|]. right. exists gts. auto. }
  intros _ b2 [(es & E2 & ->) (_ & Hs2 & _)]. apply wp_bind. eapply wp_mono; [apply finish_wait_capture| |done].
  { unfold settings in *. congruence. }
  intros outcome b3 (Hs3 & ws & E3 & Hw). assert (Et : trace b3 = trace b ++ gts ++ [Sent (read_request n b) true] ++ ws)
    by by rewrite E3, E2, E1, <- !app_assoc.
  replace (timeout_ms b2) with (timeout_ms b) in Hw by (unfold settings in *; congruence).
  destruct outcome as [[raw|e]|].
  - destruct (decode_gpib_read_response raw) as [[d eom] tr] eqn:Ed. wp_auto. exists gts, ws, raw. by rewrite Ed.
  - wp_auto. eapply wp_mono; [apply adds_recover| |by intros ? ? (? & _ & [])]. intros _ b4 (rec & E4 & Hr). wp_auto.
    eexists. split; [by rewrite E4, Et, <- !app_assoc|]. right. exists gts. split; [done|]. right; right. by exists e, ws, rec.
  - wp_auto. replace (listen_only b3) with true by (unfold settings in *; congruence).
    eapply wp_mono; [apply capture_cleanup| |by intros ? ? (? & _ & [])]. intros _ b4 (es & E4 & a & a' & ->). wp_auto.
    eexists. split; [by rewrite E4, Et, <- !app_assoc|]. right. exists gts. split; [done|]. right; left. by exists ws, a, a'.
Qed.

(** On every path but the one where the transfer itself failed, nothing is said. *)
Lemma gts_wrote_silent es : wrote GTS es -> Forall silent es.
Proof. intros (w & resp & f & -> & _). repeat constructor. by apply regs_silent. Qed.
Lemma waited_silent n limit o es : waited n limit o es -> Forall silent es.
Proof. intros [(f & _ & ->)|(f & a & f' & a' & ->)]; by repeat constructor. Qed.
Lemma capture_failed_silent n (b : St) es : capture_failed n b es ->
  Forall silent es \/ exists e pre post ws, es = pre ++ ws ++ post /\ waited n (timeout_ms b) (Some (Err e)) ws /\ recovery post.
Proof.
  intros [Hn|(gts & Hg & H1)].
  - left. destruct Hn as [->|(w & r & f & -> & _)]; repeat constructor; by apply regs_silent.
  - apply gts_wrote_silent in Hg. destruct H1 as [->|[(ws & a & a' & Hw%waited_silent & ->)|(e & ws & rec & Hw & Hr & ->)]].
    + left. apply Forall_app. split; [done|]. by repeat constructor.
    + left. rewrite !Forall_app. split_and!; try done; by repeat constructor.
    + right. exists e, (gts ++ [Sent (read_request n b) true]), rec, ws. by rewrite <- app_assoc.
Qed.

(** Entering listen-only: the mode bit goes out last. *)
Definition passive (e : Event) : Prop := forall p ok, e <> Sent p ok.

Lemma registers_last regs (b : St) :
  wp (write_registers regs) (fun _ b' => exists es, trace b' = trace b ++ Sent (PWrRegs regs) true :: es /\ Forall passive es)
    (fun _ _ => True) b.
Proof.
  unfold write_registers. wp_auto. eapply wp_mono; [apply adds_send| |done]. intros _ b1 (es & E1 & ->).
  wp_auto. eapply (wp_keeps (ext passive)); [by apply (ext_register_reply passive)| |done].
  intros resp b2 (_ & _ & es2 & E2 & F2). wp_auto. destruct (map_err _ _); [|done]. exists es2.
  split; [by rewrite E2, E1, <- app_assoc|done].
Qed.

Lemma enter_listen_only_wp (b : St) :
  wp (set_listen_only true)
    (fun _ b' => listen_only b' = true /\ exists es1 es2,
       trace b' = trace b ++ es1 ++ Sent (PWrRegs (listen_only_registers true)) true :: es2 /\
       Forall no_pulse es1 /\ Forall passive es2)
    (fun _ b' => ext no_pulse b b') b.
Proof.
  assert (Hlo : forall ok, no_pulse (Sent (PWrRegs (listen_only_registers true)) ok)).
  { intros ok. cbn [no_pulse]. apply (bool_decide_eq_false (_ ∈ _)). by vm_compute. }
  unfold set_listen_only. apply wp_bind. eapply (wp_keeps (ext no_pulse)); [| |intros e b1 H1; exact H1].
  { pose proof (ext_abort no_pulse no_pulse_passive). pose proof (ext_drain_writes no_pulse no_pulse_passive).
    pose proof (ext_drain_in no_pulse no_pulse_passive). keeps_auto. by apply (ext_try_command no_pulse no_pulse_passive). }
  intros _ b1 H1. wp_auto. eapply wp_mono.
  { apply wp_conj; [|apply registers_last]. eapply wp_keeps; [by apply (ext_write_registers no_pulse no_pulse_passive)|..];
      intros ? b2 H2; by apply (ext_add _ _ _ _ H1 H2). }
  - intros _ b2 [_ (es & E2 & F2)]. wp_auto. split; [done|]. destruct H1 as (_ & _ & es1 & E1 & F1). exists es1, es.
    split; [|done]. cbn [trace with_listen_only]. by rewrite E2, E1, <- app_assoc.
  - by intros e b2 [? _].
Qed.

End Capture.

(** ** The mode of the chip *)

(** The listen-only bit, by the register writes alone: set or cleared by a mode
    switch, cleared by a reset of the chip, or not known - before the first
    reset, and after a write of it that was not taken, not answered or
    refused. *)
Inductive ChipMode : Type := Listening | NotListening | AfterReset | Unsure.

(** What writing a register says of the bit. *)
Definition reg_mode (r : RegisterPairlet) : option ChipMode :=
  if address r =? TMS_AUXCR then
    if value r =? Z.lor AUX_LON AUX_CS then Some Listening
    else if value r =? AUX_LON then Some NotListening
    else if value r =? AUX_CHIP_RESET then Some AfterReset else None
  else if (address r =? REG_RESET_TO_POWERUP) && (value r =? RESET_SPACEBALL) then Some AfterReset
  else None.
Definition apply_reg (m : ChipMode) (r : RegisterPairlet) : ChipMode := default m (reg_mode r).
Definition touches (regs : list RegisterPairlet) : bool := existsb (fun r => bool_decide (is_Some (reg_mode r))) regs.

(** What becomes of a write of [regs] whose fate is not known. *)
Definition lost (regs : list RegisterPairlet) (m : ChipMode) : ChipMode := if touches regs then Unsure else m.

(** The mode, and a register write waiting for its answer, which is what the
    next read brings. *)
Definition chip_step (c : ChipMode * option (list RegisterPairlet)) (e : Event) : ChipMode * option (list RegisterPairlet) :=
  match e, c.2 with
  | Polled _ _ (Some (Ok resp)) _, Some regs =>
      (if is_ok (decode_wr_regs_response resp) then foldl apply_reg c.1 regs else lost regs c.1, None)
  | _, p =>
      let m := match p with Some regs => lost regs c.1 | None => c.1 end in
      match e with
      | Sent (PWrRegs regs) true => (m, Some regs)
      | Sent (PWrRegs regs) false => (lost regs m, None)
      | _ => (m, None)
      end
  end.
Definition chip (tr : list Event) : ChipMode * option (list RegisterPairlet) := foldl chip_step (Unsure, None) tr.

Section Mode.
Context {T : Type} `{Transport T}.
Notation St := (GpibController T).

(** A chip in mode [m], nothing outstanding, stays so, and so does the flag. *)
Definition stays (m : ChipMode) (b b' : St) : Prop :=
  chip (trace b) = (m, None) -> chip (trace b') = (m, None) /\ listen_only b' = listen_only b.

#[export] Instance stays_preorder m : PreOrder (stays m).
Proof.
  split; [by intros b|]. intros b c d H1 H2 Hc. destruct (H1 Hc) as [Hc' ?]. destruct (H2 Hc') as [? ?].
  split; [done|congruence].
Qed.

Lemma chip_snoc tr e : chip (tr ++ [e]) = chip_step (chip tr) e.
Proof. unfold chip. by rewrite foldl_app. Qed.

Definition quiet_event (e : Event) : bool := match e with Sent (PWrRegs _) _ => false | _ => true end.

Lemma stays_record m e t (b : St) : quiet_event e = true -> stays m b (record e t b).
Proof.
  intros He Hc. split; [|done]. cbn [trace record]. rewrite chip_snoc, Hc.
  destruct e as [[] []|? ? [[]|] ?| | | |]; done.
Qed.

Lemma stays_send m p : (forall regs, p <> PWrRegs regs) -> keeps (stays m) (send (T := T) p).
Proof.
  intros Hp b. unfold send. destruct (write_bulk _ _) as [r t]. apply stays_record.
  destruct p; try done. by destruct (Hp regs).
Qed.
Lemma stays_poll m f w : keeps (stays m) (poll_read (T := T) f w).
Proof. intros b. unfold poll_read. destruct (read_bulk _ _ _) as [[r f'] t]. by apply stays_record. Qed.
Lemma stays_control m v i n : keeps (stays m) (control (T := T) v i n).
Proof. intros b. unfold control. destruct (control_in _ _ _ _ _) as [r t]. by apply stays_record. Qed.
Lemma stays_wait m : keeps (stays m) (wait_write_or_timeout (T := T)).
Proof. intros b. unfold wait_write_or_timeout. destruct (await_write_complete _) as [r t]. by apply stays_record. Qed.
Lemma stays_drain_writes m : keeps (stays m) (drain_writes (T := T)).
Proof. intros b. by apply stays_record. Qed.
Lemma stays_drain_in m : keeps (stays m) (drain_in (T := T)).
Proof. intros b. by apply stays_record. Qed.
Lemma stays_sleep m d : keeps (stays m) (sleep_ (T := T) d).
Proof. by intros b. Qed.
Lemma stays_modify_hw m f : keeps (stays m) (modify (fun b : St => with_hw_control_bits (f b) b)).
Proof. by intros b. Qed.
Lemma stays_modify_pad m p : keeps (stays m) (modify (with_my_pad (T := T) p)).
Proof. by intros b. Qed.
Hint Resolve stays_poll stays_control stays_wait stays_drain_writes stays_drain_in stays_sleep stays_modify_hw
  stays_modify_pad : keeps.
Hint Extern 1 (keeps (stays _) (send _)) => (by apply stays_send) : keeps.

(** A register write that is accepted takes effect; any other may have. *)
Lemma write_registers_mode m regs (b : St) : chip (trace b) = (m, None) ->
  wp (write_registers regs)
    (fun _ b' => chip (trace b') = (foldl apply_reg m regs, None) /\ listen_only b' = listen_only b)
    (fun _ b' => chip (trace b') = (lost regs m, None) /\ listen_only b' = listen_only b) b.
Proof.
  intros Hc. unfold write_registers, register_reply. wp_auto. unfold wp at 1, send.
  destruct (write_bulk _ _) as [[[]|e] t].
  2: { simpl. by rewrite chip_snoc, Hc. }
  wp_auto. unfold wp at 1, poll_read. set (b1 := record _ t b).
  assert (Hc1 : chip (trace b1) = (m, Some regs)) by (unfold b1; cbn [trace record]; by rewrite chip_snoc, Hc).
  destruct (read_bulk _ _ _) as [[r f'] t']. set (b2 := record _ t' b1).
  assert (Hc2 : chip (trace b2) = chip_step (m, Some regs) (Polled (reading 32) (from_millis (timeout_ms b1)) r f')).
  { unfold b2. cbn [trace record]. by rewrite chip_snoc, Hc1. }
  destruct r as [[resp|e]|]; wp_auto; try (split; [exact Hc2|done]). cbn [chip_step fst snd] in Hc2.
  by destruct (decode_wr_regs_response resp); cbn [map_err is_ok] in *.
Qed.

Lemma untouched regs m : touches regs = false -> foldl apply_reg m regs = m /\ lost regs m = m.
Proof.
  intros Ht. split; [|unfold lost; by rewrite Ht]. induction regs as [|r regs IH]; [done|].
  cbn [touches existsb] in Ht. apply orb_false_iff in Ht as [Hr Ht]. cbn [foldl]. unfold apply_reg at 2.
  destruct (reg_mode r) eqn:E; [|by apply IH]. by rewrite bool_decide_true in Hr.
Qed.

Lemma stays_write_registers m regs : touches regs = false -> keeps (stays m) (write_registers (T := T) regs).
Proof.
  intros Hr b Hc. pose proof (write_registers_mode m regs b Hc) as Hw. unfold wp in Hw.
  destruct (untouched regs m Hr) as [H1 H2]. rewrite H1, H2 in Hw. by destruct (write_registers regs b) as [[] b'].
Qed.
Hint Extern 1 (keeps (stays _) (write_registers _)) => (by apply stays_write_registers) : keeps.

Lemma stays_read_registers m regs : keeps (stays m) (read_registers (T := T) regs).
Proof. unfold read_registers, register_reply. keeps_auto. Qed.
Lemma stays_abort m f : keeps (stays m) (abort (T := T) f).
Proof. unfold abort. keeps_auto. Qed.
Lemma stays_status m : keeps (stays m) (get_xfer_status (T := T)).
Proof. unfold get_xfer_status. keeps_auto. Qed.
Lemma stays_ifc m : keeps (stays m) (ifc (T := T)).
Proof. unfold ifc. keeps_auto. Qed.
Lemma stays_ren m e : keeps (stays m) (ren (T := T) e).
Proof. unfold ren. destruct e; keeps_auto. Qed.
Hint Resolve stays_read_registers stays_abort stays_status stays_ifc stays_ren : keeps.
Lemma stays_recover m : keeps (stays m) (recover_from_stall (T := T)).
Proof. unfold recover_from_stall. keeps_auto. Qed.
Hint Resolve stays_recover : keeps.
Lemma stays_await_transfer m : keeps (stays m) (await_transfer (T := T)).
Proof. unfold await_transfer. keeps_auto. Qed.
Hint Resolve stays_await_transfer : keeps.
Lemma stays_command m c : keeps (stays m) (send_command_bytes (T := T) c).
Proof. unfold send_command_bytes. keeps_auto. Qed.
Lemma stays_data m d e : keeps (stays m) (send_data_bytes (T := T) d e).
Proof. unfold send_data_bytes. keeps_auto. Qed.
Lemma stays_read_data m n : keeps (stays m) (read_data_body (T := T) n).
Proof. unfold read_data_body, await_data. keeps_auto. Qed.
Hint Resolve stays_command stays_data stays_read_data : keeps.
Lemma stays_serial_poll m p : keeps (stays m) (serial_poll (T := T) p).
Proof. unfold serial_poll, begin_poll, end_poll, poll_outcome. keeps_auto. Qed.
Hint Resolve stays_serial_poll : keeps.

(** *** Initialisation *)

(** The flag stays; the bit stays as it was, is cleared by a reset, or is lost. *)
Definition reinit (b b' : St) : Prop :=
  (chip (trace b)).2 = None ->
  (chip (trace b')).2 = None /\ listen_only b' = listen_only b /\
  ((chip (trace b')).1 = (chip (trace b)).1 \/ (chip (trace b')).1 = AfterReset \/ (chip (trace b')).1 = Unsure).

#[export] Instance reinit_preorder : PreOrder reinit.
Proof.
  split; [by intros b; unfold reinit; auto|]. intros b c d H1 H2 Hb. destruct (H1 Hb) as (Hc & Hl & Hm).
  destruct (H2 Hc) as (Hd & Hl' & Hm'). split_and!; [done|congruence|]. destruct Hm' as [->|?]; auto.
Qed.

Lemma reinit_stays {A} (m : Act St A) : (forall c, keeps (stays c) m) -> keeps reinit m.
Proof.
  intros Hm b Hb. destruct (chip (trace b)) as [c p] eqn:Ec. cbn [snd] in Hb. subst p. destruct (Hm c b Ec) as [-> ->]. auto.
Qed.
Lemma reinit_write_registers regs : (forall m, foldl apply_reg m regs = AfterReset) -> keeps reinit (write_registers (T := T) regs).
Proof.
  intros Hr b Hb. destruct (chip (trace b)) as [c p] eqn:Ec. cbn [snd] in Hb. subst p.
  pose proof (write_registers_mode c regs b Ec) as Hw. unfold wp, lost in Hw. rewrite Hr in Hw.
  destruct (write_registers regs b) as [[] b']; cbn [snd]; destruct Hw as [-> ->]; [by auto|]. destruct (touches regs); auto.
Qed.

Lemma reinit_init p : keeps reinit (init (T := T) p).
Proof.
  unfold init, request_system_control.
  keeps_auto; try (by apply reinit_write_registers); apply reinit_stays; intros c; keeps_auto.
Qed.

(** An initialisation that succeeds reset the chip. *)
Lemma init_resets p (b : St) : (chip (trace b)).2 = None ->
  wp (init p) (fun _ b' => chip (trace b') = (AfterReset, None)) (fun _ _ => True) b.
Proof.
  intros Hb. unfold init, request_system_control. destruct (chip (trace b)) as [c q] eqn:Ec. cbn [snd] in Hb. subst q.
  wp_auto. eapply (wp_keeps (stays c)); [apply stays_drain_in| |done]. intros _ b1 H1. destruct (H1 Ec) as [E1 _]. wp_auto.
  eapply wp_mono; [by apply write_registers_mode| |done]. intros _ b2 [E2 _]. wp_auto.
  eapply (wp_keeps (stays _)); [apply stays_sleep| |done]. intros _ b3 H3. destruct (H3 E2) as [E3 _]. wp_auto.
  eapply wp_mono; [by apply write_registers_mode| |done]. intros _ b4 [E4 _].
  eapply (wp_keeps (stays AfterReset)); [|intros ? b5 H5; by destruct (H5 E4)|done]. keeps_auto.
Qed.

Lemma reinit_open n : forall e, keeps reinit (open_attempts (T := T) n e).
Proof.
  induction n as [|n IH]; intros e; cbn [open_attempts]; keeps_auto; try apply reinit_init;
    try (apply reinit_stays; intros c; keeps_auto).
Qed.

Lemma open_resets n : forall e (b : St), (chip (trace b)).2 = None -> is_Some e \/ (0 < n)%nat ->
  wp (open_attempts n e) (fun r b' => r = None -> chip (trace b') = (AfterReset, None)) (fun _ _ => True) b.
Proof.
  induction n as [|n IH]; intros e b Hb He; cbn [open_attempts].
  { wp_auto. intros ->. by destruct He as [[]|]; [|lia]. }
  assert (Ha : forall f, keeps reinit (attempt (abort (T := T) f))) by (intros f; apply reinit_stays; intros c; keeps_auto).
  apply wp_bind. eapply (wp_keeps reinit); [apply Ha| |done]. intros _ b1 H1. destruct (H1 Hb) as [Hb1 _].
  apply wp_bind. eapply (wp_keeps reinit); [apply Ha| |done]. intros _ b2 H2. destruct (H2 Hb1) as [Hb2 _].
  wp_auto. eapply wp_mono.
  { apply wp_conj; [by apply (init_resets 0)|]. apply (wp_keeps reinit); [apply reinit_init|intros ? ? Hx; exact Hx..]. }
  - intros _ b3 [E3 _]. by wp_auto.
  - intros e' b3 [_ H3]. destruct (H3 Hb2) as [Hb3 _]. wp_auto. apply IH; [exact Hb3|]. left. eauto.
Qed.

(** *** The mode switch *)

Lemma switch_mode e (b : St) m : chip (trace b) = (m, None) ->
  wp (set_listen_only e)
    (fun _ b' => listen_only b' = e /\ chip (trace b') = (if e then Listening else NotListening, None))
    (fun _ b' => listen_only b' = listen_only b /\ (chip (trace b') = (m, None) \/ chip (trace b') = (Unsure, None))) b.
Proof.
  intros Hb. unfold set_listen_only, try_command_bytes. apply wp_bind. eapply (wp_keeps (stays m)); [destruct e; keeps_auto|..].
  - intros _ b1 H1. destruct (H1 Hb) as [Hc1 Hl1]. wp_auto. eapply wp_mono; [by apply write_registers_mode|..].
    + intros _ b2 [Hc2 Hl2]. wp_auto. split; [done|]. cbn [trace with_listen_only]. rewrite Hc2. by destruct e.
    + intros e' b2 [Hc2 Hl2]. split; [congruence|]. right. rewrite Hc2. by destruct e.
  - intros e' b1 H1. destruct (H1 Hb). split; [done|]. by left.
Qed.

(** *** Every operation *)

(** What an operation does to the flag and to the bit, and when it fails. *)
Definition flag_after (o : Op) (b : St) : bool :=
  match o with
  | OListenOnly e => if is_ok (set_listen_only e b).1 then e else listen_only b
  | _ => listen_only b
  end.
Definition mode_after (o : Op) (b : St) (m m' : ChipMode) : Prop :=
  match o with
  | OListenOnly e => if is_ok (set_listen_only e b).1 then m' = (if e then Listening else NotListening) else m' = m \/ m' = Unsure
  | OInit p => if is_ok (gb_init b p).1 then m' = AfterReset else m' = m \/ m' = AfterReset \/ m' = Unsure
  | _ => m' = m
  end.

Lemma init_mode p (b : St) m : chip (trace b) = (m, None) ->
  (chip (trace (run_op (OInit p) b))).2 = None /\ listen_only (run_op (OInit p) b) = listen_only b /\
  mode_after (OInit p) b m (chip (trace (run_op (OInit p) b))).1.
Proof.
  intros Hb. assert (Hb' : (chip (trace (with_my_pad p b))).2 = None) by by cbn [trace with_my_pad]; rewrite Hb.
  destruct (reinit_init p (with_my_pad p b) Hb') as (H1 & H2 & H3). cbn [trace with_my_pad] in H3. rewrite Hb in H3.
  unfold run_op, mode_after. cbn [gb_init Agilent_backend]. split_and!; [exact H1|exact H2|].
  pose proof (init_resets p (with_my_pad p b) Hb') as Hr. unfold wp in Hr.
  destruct (init p (with_my_pad p b)) as [[] b']; cbn [fst snd is_ok] in *; [by rewrite Hr|exact H3].
Qed.

Lemma run_op_mode o (b : St) m : chip (trace b) = (m, None) ->
  (chip (trace (run_op o b))).2 = None /\ listen_only (run_op o b) = flag_after o b /\
  mode_after o b m (chip (trace (run_op o b))).1.
Proof.
  intros Hb. assert (Hstay : forall b' : St, stays m b b' -> (chip (trace b')).2 = None /\ listen_only b' = listen_only b /\
    (chip (trace b')).1 = m) by (intros b' Hs; destruct (Hs Hb) as [-> ->]; done).
  destruct o; try (by apply init_mode); cbn [flag_after mode_after]; try (by cbn [run_op]; apply Hstay).
  all: try (pose proof (switch_mode e b m Hb) as Hw; unfold wp in Hw; cbn [run_op];
    destruct (set_listen_only e b) as [[] b']; cbn [fst snd is_ok]; [by destruct Hw as [-> ->]|];
    destruct Hw as [-> [-> | ->]]; by auto).
  all: apply Hstay; cbn [run_op]; match goal with |- stays _ _ (?f _).2 => enough (keeps (stays m) f) as Hk by (apply Hk) end.
  all: unfold write, read, device_clear, trigger, go_to_remote, go_to_local, local_lockout, srq_asserted, bus_lines,
    send_bus_command, set_atn, set_controller_pad, send_data_unaddressed, read_unaddressed; keeps_auto.
  by destruct a; apply stays_write_registers.
Qed.

(** Where the bit is known to follow a switch, the flag is what the switch set. *)
Definition in_step (b : St) : Prop :=
  (chip (trace b)).2 = None /\
  match (chip (trace b)).1 with
  | Listening => listen_only b = true
  | NotListening => listen_only b = false
  | AfterReset | Unsure => True
  end.

Lemma open_in_step t timeout : let b := (open (T := T) t timeout).2 in
  in_step b /\ listen_only b = false /\ (is_ok (open t timeout).1 = true -> (chip (trace b)).1 = AfterReset).
Proof.
  unfold open, bind. pose proof (reinit_open 3 None (new t timeout) eq_refl) as (H1 & H2 & H3).
  pose proof (open_resets 3 None (new t timeout) eq_refl ltac:(right; lia)) as Hr. unfold wp in Hr.
  assert (Hs : in_step (open_attempts 3 None (new t timeout)).2).
  { split; [done|]. destruct H3 as [->|[->| ->]]; done. }
  destruct (open_attempts 3 None (new t timeout)) as [[[e|]|e] b']; cbn in *; split_and!; try done.
  intros _. by rewrite Hr.
Qed.

Lemma reachable_in_step (b : St) : reachable b -> in_step b.
Proof.
  induction 1 as [t timeout|b o Hr [Hp IH]]; [apply open_in_step|]. destruct (chip (trace b)) as [m p] eqn:Ec.
  cbn [fst snd] in *. subst p. destruct (run_op_mode o b m Ec) as (H1 & H2 & H3). split; [done|].
  rewrite H2. destruct o; cbn [flag_after mode_after] in *; try (by rewrite H3); case_match; try (by rewrite H3; destruct e);
    try (destruct H3 as [->|[-> | ->]]; done); try (destruct H3 as [-> | ->]; done). by rewrite H3.
Qed.

End Mode.

(** ** Serial poll *)

Section Polls.
Context {T : Type} `{AgilentLaws T}.
Notation St := (GpibController T).

Definition starts (p : Packet) (es : list Event) : Prop := exists ok rest, es = Sent p ok :: rest.

Lemma adds_command c (b : St) : adds (send_command_bytes c) (starts (PCommand c)) (starts (PCommand c)) b.
Proof.
  eapply adds_mono; [apply adds_transfer|..]; intros es.
  - intros [st ->]. by do 2 eexists.
  - intros [->|(rec & _ & [->|[st ->]])]; by do 2 eexists.
Qed.

(** The outcome [r] of the read of the status byte, and what came of it. *)
Definition polled (b b' : St) (r : option (result (list byte) Error)) : Prop :=
  exists f rec ok es, trace b' = trace b ++ [Polled (reading 2) (from_millis (timeout_ms b)) r f] ++ rec ++ Sent (PCommand poll_end) ok :: es /\
    match r with Some (Ok _) => rec = [] | _ => recovery rec end.

Lemma agilent_end_poll_wp pad (b : St) :
  wp (end_poll pad)
    (fun stb b' => exists raw c d, polled b b' (Some (Ok raw)) /\ (decode_gpib_read_response raw).1.1 = c :: d /\ stb = u8 c)
    (fun _ b' => exists r, polled b b' r) b.
Proof.
  unfold end_poll, poll_outcome. wp_auto. unfold wp at 1, poll_read. destruct (read_bulk _ _ _) as [[r f] t].
  set (b1 := record (Polled (reading 2) _ r f) t b). wp_auto.
  assert (Hbad : forall e, (forall raw, r <> Some (Ok raw)) ->
    wp (let! _ := recover_from_stall in let! _ := attempt (send_command_bytes poll_end) in bail (A := Z) e)
      (fun _ _ => False) (fun _ b' => polled b b' r) b1).
  { intros e Hr. wp_auto. eapply wp_mono; [apply adds_recover| |by intros ? ? (? & _ & [])]. intros _ b2 (rec & E2 & Hrec).
    wp_auto. eapply wp_mono; [apply adds_command|..]; intros ? b3 (es & E3 & ok & rest & ->); wp_auto; exists f, rec, ok, rest;
      (split; [by rewrite E3, E2; cbn; rewrite <- !app_assoc|]; destruct r as [[raw'|]|]; [by destruct (Hr raw')|done..]). }
  destruct r as [[raw|e]|]; cbn iota beta.
  - wp_auto. eapply wp_mono; [apply adds_command|..]; intros ? b2 (es & E2 & ok & rest & ->).
    + assert (Hp : polled b b2 (Some (Ok raw))) by (exists f, [], ok, rest; split; [by rewrite E2; cbn; rewrite <- app_assoc|done]).
      destruct (decode_gpib_read_response raw).1.1 as [|c d] eqn:Ed; wp_auto; [by exists (Some (Ok raw))|]. by exists raw, c, d.
    + exists (Some (Ok raw)), f, [], ok, rest. split; [by rewrite E2; cbn; rewrite <- app_assoc|done].
  - eapply wp_mono; [exact (Hbad e ltac:(done))|by intros ? ? []|]. intros ? b' Hp. eexists. exact Hp.
  - eapply wp_mono; [exact (Hbad _ ltac:(done))|by intros ? ? []|]. intros ? b' Hp. eexists. exact Hp.
Qed.

Lemma begin_poll_wp pad (b : St) :
  wp (begin_poll pad)
    (fun _ b' => exists es1 es2, trace b' = trace b ++ es1 ++ es2 ++ [Sent (PRead 1 false 0 true) true] /\
       transferred (PCommand (poll_addressing pad)) es1 /\ starts (PWrRegs [auxcr AUX_GTS]) es2) (fun _ _ => True) b.
Proof.
  unfold begin_poll. wp_auto. eapply wp_mono; [apply adds_transfer| |done]. intros _ b1 (es1 & E1 & H1). wp_auto.
  eapply wp_mono; [apply adds_write_registers| |done]. intros _ b2 (es2 & E2 & H2).
  eapply wp_mono; [apply adds_send| |done]. intros _ b3 (es3 & E3 & ->). exists es1, es2. split; [|done].
  by rewrite E3, E2, E1, <- !app_assoc.
Qed.

End Polls.

(** ** Properties *)

(** a write is two transfers.  Outside listen-only mode a write that succeeds sent
    the addressing - which makes the controller the talker and the instrument the
    only listener - and then the data, each completed and its status fetched, and
    nothing else.  One that fails did so at a packet the adapter did not take, or
    at a transfer that stalled, and then the recovery ran whole: flush, drain,
    finalize, and an interface clear.  In listen-only mode nothing is sent. *)
Theorem agilent_write_message {T} `{AgilentLaws T} (b : GpibController T) pad d e :
  let address := PCommand (write_addressing pad) in
  (listen_only b = true -> write pad d e b = (Err listen_only_refusal, b)) /\
  (listen_only b = false ->
     wp (write pad d e)
       (fun _ b' => exists es1 es2, trace b' = trace b ++ es1 ++ es2 /\ transferred address es1 /\ transferred (PData d e) es2)
       (fun _ b' => exists es1 es2, trace b' = trace b ++ es1 ++ es2 /\
          ((stalled address es1 /\ es2 = []) \/ (transferred address es1 /\ stalled (PData d e) es2))) b) /\
  (in_range pad -> let k := foldl command_byte unknown (write_addressing pad) in
   talks k = Some (Some 0) /\ listens k = Some [pad]).
Proof.
  intros address. split_and!.
  - intros Hl. unfold write, bind, gets. by rewrite Hl.
  - intros Hl. unfold write. wp_auto. rewrite Hl. apply wp_bind. eapply wp_mono; [apply adds_transfer|..].
    + intros _ b1 (es1 & E1 & H1). eapply wp_mono; [apply adds_transfer|..]; intros ? b2 (es2 & E2 & H2); exists es1, es2;
        (split; [by rewrite E2, E1, app_assoc|]); auto.
    + intros e' b1 (es1 & E1 & H1). exists es1, []. rewrite app_nil_r. auto.
  - intros Hp k. unfold k, write_addressing. cbn [foldl].
    pose proof (mla_byte (command_byte (command_byte unknown (b8 GPIB_UNL)) (b8 (talk_address 0))) pad Hp) as Hm.
    change (mla pad) with (listen_address pad) in Hm. by rewrite Hm.
Qed.

Definition bench : Bench := mkBench None [Some (as_bytes (str "+1.5E0") ++ [x01]); None; Some (as_bytes (str "PAGE") ++ [x10])] false false 0.

Lemma agilent_write_message_witness :
  (exists es1 es2, trace (write 22 (as_bytes (str "*RST")) true (new bench 1000)).2 = [] ++ es1 ++ es2 /\
     transferred (PCommand (write_addressing 22)) es1 /\ transferred (PData (as_bytes (str "*RST")) true) es2) /\
  listens (foldl command_byte unknown (write_addressing 22)) = Some [22].
Proof.
  pose proof (agilent_write_message (new bench 1000) 22 (as_bytes (str "*RST")) true) as (_ & Hw & Hk).
  split; [|by apply Hk]. exact (wp_ok _ _ _ _ tt (Hw eq_refl) ltac:(by vm_compute)).
Defined.

(** C36: capture leaves the bus alone.  Entering listen-only mode never clears the
    interface; when it succeeds, the register write that sets the mode is the
    last packet sent.  In listen-only mode a read goes to standby, sends one read
    request and waits for that transfer: within the timeout, or - a timed-out
    one, the normal state of a capture - by an abort that asks the adapter to end
    it, a second wait for the very same transfer and an abort that finalizes.
    The data it returns are those of that transfer.  It fails where the register
    write or the request failed, where the salvage brought nothing - and then it
    only aborts and drains - or where the transfer itself failed, the one case
    in which the recovery may clear the interface: on every other path, success
    included, no command byte, no data and no interface clear go out. *)
Theorem agilent_capture_quiet {T} `{AgilentLaws T} (b : GpibController T) :
  wp (set_listen_only true)
    (fun _ b' => listen_only b' = true /\ exists es1 es2,
       trace b' = trace b ++ es1 ++ Sent (PWrRegs (listen_only_registers true)) true :: es2 /\
       Forall no_pulse es1 /\ Forall passive es2)
    (fun _ b' => ext no_pulse b b') b /\
  (listen_only b = true -> forall pad n,
   wp (read pad n)
     (fun r b' => exists gts ws raw, trace b' = trace b ++ gts ++ [Sent (read_request n b) true] ++ ws /\
        wrote GTS gts /\ waited n (timeout_ms b) (Some (Ok raw)) ws /\ r = (decode_gpib_read_response raw).1 /\
        Forall silent (gts ++ [Sent (read_request n b) true] ++ ws))
     (fun _ b' => exists es, trace b' = trace b ++ es /\ capture_failed n b es /\
        (Forall silent es \/ exists e pre post ws, es = pre ++ ws ++ post /\ waited n (timeout_ms b) (Some (Err e)) ws /\ recovery post)) b).
Proof.
  split; [apply enter_listen_only_wp|]. intros Hl pad n. unfold read. wp_auto. rewrite Hl. wp_auto.
  eapply wp_mono; [by apply read_capture_wp|..].
  - intros r b' (gts & ws & raw & Et & Hg & Hw & Hr). exists gts, ws, raw. split_and!; try done. rewrite !Forall_app.
    split_and!; [by apply gts_wrote_silent|by repeat constructor|by eapply waited_silent].
  - intros e b' (es & Et & Hf). exists es. split_and!; try done. by eapply capture_failed_silent.
Qed.

(** A capture: one page arrives, then a quiet interval in which the abort brings
    what had been collected. *)
Lemma agilent_capture_quiet_witness :
  let b := (read 0 100 (set_listen_only true (new bench 1000)).2).2 in
  (read 0 100 b).1 = Ok (as_bytes (str "PAGE"), false) /\
  exists gts ws raw, trace (read 0 100 b).2 = trace b ++ gts ++ [Sent (read_request 100 b) true] ++ ws /\
    wrote GTS gts /\ waited 100 1000 (Some (Ok raw)) ws /\ length ws = 4%nat.
Proof.
  intros b. assert (E : (read 0 100 b).1 = Ok (as_bytes (str "PAGE"), false)) by by vm_compute. split; [exact E|].
  assert (Hl : listen_only b = true) by by vm_compute.
  destruct (wp_ok _ _ _ _ _ (proj2 (agilent_capture_quiet b) Hl 0 100) E) as (gts & ws & raw & Et & Hg & Hw & _).
  exists gts, ws, raw. split_and!; [exact Et|exact Hg|exact Hw|].
  assert (El : (length (trace (read 0 100 b).2) = length (trace b) + 7)%nat) by by vm_compute.
  rewrite Et, !length_app in El. destruct Hg as (w & resp & f & -> & _). cbn [length] in El. lia.
Defined.

(** C35: the mode flag and the chip's listen-only bit.  The bit is what the
    register writes, a reply of success to each, make of it; a write of it that
    was lost or refused leaves it unknown.  [open] leaves the flag clear and,
    when it succeeds, a chip that was reset.  In every state reachable from
    there, initialisations by [++rst] included, a bit that a mode switch left
    set or clear is what the flag says.  From there an operation other than a
    mode switch and [init] moves neither; a switch that succeeds sets both, and
    one that fails keeps the flag and the bit, or leaves the bit unknown; [init]
    resets the chip - and leaves the flag as it was. *)
Theorem agilent_mode_in_step {T} `{Transport T} (b : GpibController T) : reachable b ->
  match (chip (trace b)).1 with
  | Listening => listen_only b = true
  | NotListening => listen_only b = false
  | AfterReset | Unsure => True
  end /\
  (forall o, listen_only (run_op o b) = flag_after o b /\ mode_after o b (chip (trace b)).1 (chip (trace (run_op o b))).1) /\
  (forall (t : T) timeout, listen_only (open t timeout).2 = false /\
     (is_ok (open t timeout).1 = true -> (chip (trace (open t timeout).2)).1 = AfterReset)).
Proof.
  intros [Hp Hb]%reachable_in_step. split_and!; [done| |intros t timeout; apply open_in_step].
  intros o. apply run_op_mode. destruct (chip (trace b)) as [m p]. cbn [snd] in Hp. by subst p.
Qed.

Lemma agilent_mode_in_step_witness :
  let b := run_op (OListenOnly true) (open bench 1000).2 in
  match (chip (trace b)).1 with Listening => listen_only b = true | NotListening => listen_only b = false | _ => True end /\
  (chip (trace b)).1 = Listening /\ mode_after (OInit 0) b Listening (chip (trace (run_op (OInit 0) b))).1.
Proof.
  intros b. assert (Hr : reachable b) by apply reach_op, reach_open.
  destruct (agilent_mode_in_step b Hr) as (H1 & H2 & _). split_and!; [exact H1|by vm_compute|exact (proj2 (H2 (OInit 0)))].
Defined.

(** [++lon 1] and then [++rst]: the chip is reset out of listen-only mode and the
    flag stays set, so that a write is refused by a controller in charge. *)
Example reset_keeps_listen_only_flag :
  let b := run_op (OInit 0) (run_op (OListenOnly true) (open (mkBench None [] false false 0) 1000).2) in
  (chip (trace b)).1 = AfterReset /\ listen_only b = true /\ (write 22 [x2a] true b).1 = Err listen_only_refusal.
Proof. by vm_compute. Qed.

(** a serial poll ends the poll.  Once the poll was enabled and the read of the
    status byte requested - a read of one byte that no EOS character cuts short -
    serial poll disable and untalk go out whatever the read brings: at once after
    a byte, after the recovery of a read that failed or timed out.  A status byte
    that is returned is the first byte that read brought. *)
Theorem agilent_poll_restores {T} `{AgilentLaws T} (b b1 : GpibController T) pad : begin_poll pad b = (Ok tt, b1) ->
  (exists es1 es2, trace b1 = trace b ++ es1 ++ es2 ++ [Sent (PRead 1 false 0 true) true] /\
     transferred (PCommand (poll_addressing pad)) es1 /\ starts (PWrRegs [auxcr AUX_GTS]) es2) /\
  wp (serial_poll pad)
    (fun stb b' => exists raw c d, polled b1 b' (Some (Ok raw)) /\ (decode_gpib_read_response raw).1.1 = c :: d /\ stb = u8 c)
    (fun _ b' => exists r, polled b1 b' r) b.
Proof.
  intros Hb. split; [exact (wp_run _ _ _ _ (begin_poll_wp pad b) _ _ Hb)|].
  unfold serial_poll, wp. rewrite (bind_run _ _ _ _ _ Hb). apply agilent_end_poll_wp.
Qed.

Lemma agilent_poll_restores_witness : let b := new (mkBench None [Some [x50; x01]] false false 0) 1000 in
  (serial_poll 22 b).1 = Ok 0x50 /\
  exists raw c d, polled (begin_poll 22 b).2 (serial_poll 22 b).2 (Some (Ok raw)) /\
    (decode_gpib_read_response raw).1.1 = c :: d /\ 0x50 = u8 c.
Proof.
  intros b. assert (E : (serial_poll 22 b).1 = Ok 0x50) by by vm_compute. split; [exact E|].
  assert (Hb : begin_poll 22 b = (Ok tt, (begin_poll 22 b).2)) by by vm_compute.
  exact (wp_ok _ _ _ _ _ (proj2 (agilent_poll_restores b _ 22 Hb)) E).
Defined.

(** The controller's own address is not used for addressing: after it is changed,
    a read still asks address 0 to listen. *)
Example pad_ignored :
  let b := (set_controller_pad 5 (new bench 1000)).2 in
  my_pad b = 5 /\ In (Sent (PCommand (read_addressing 22)) true) (trace (read 22 100 b).2) /\
  read_addressing 22 = [b8 GPIB_UNL; x20; x56].
Proof. split; [by vm_compute|]. split; [vm_compute; tauto|by vm_compute]. Qed.

(** A register write that fails between enabling the poll and the read leaves the
    bus in serial-poll mode. *)
Example poll_left_on :
  let b := (serial_poll 22 (new (mkBench None [] false true 0) 1000)).2 in
  In (Sent (PCommand (poll_addressing 22)) true) (trace b) /\ forall ok, ~ In (Sent (PCommand poll_end) ok) (trace b).
Proof. split; [vm_compute; tauto|]. intros ok. vm_compute. intros [?|[?|[?|[?|[?|[]]]]]]; discriminate. Qed.

End AgilentProofs.
