(* ===== verification/AgilentHost.v ===== *)
(** * The Agilent transport over the USB stack: [src/backend/agilent_82357/usb.rs]

    How a read is collected from packets and resumed after a timeout, the
    write-complete notification and its single permit, draining, the reactions
    of the interrupt poller; the way from a cold adapter is [AgilentBoot].
    The transport implements [Transport]. *)

From S2P Require Import Prelude RustStr Backend Effect Usb AgilentMsg Agilent AgilentProofs.

Module AgilentHost.
Import RustStr Backend AgilentMsg Effect Usb Agilent AgilentProofs.

Record UsbTransport (U : Type) : Type := mkUsbTransport {
  host : U;
  permit : bool;       (* [write_complete] holds a notification *)
  srq_sent : Z;        (* service requests announced *)
  open_timeout_ms : Z; (* the timeout the transport was opened with *)
}.
Arguments mkUsbTransport {U}.
Arguments host {U}.
Arguments permit {U}.
Arguments srq_sent {U}.
Arguments open_timeout_ms {U}.

Section Transport.
Context {U : Type} `{UsbHost U}.
Notation Tr := (UsbTransport U).

Definition with_host (t : Tr) (u : U) : Tr := mkUsbTransport u (permit t) (srq_sent t) (open_timeout_ms t).
Definition with_permit (p : bool) (t : Tr) : Tr := mkUsbTransport (host t) p (srq_sent t) (open_timeout_ms t).

Definition usb_write_bulk (data : list byte) : Act Tr unit := fun t =>
  let '(r, u) := urb_out_done data (host t) in (map_err (fun e => str "bulk-out failed: " ++ e) r, with_host t u).

(** [(max_len - data.len()).max(1).div_ceil(mps) * mps]. *)
Definition request_size (mps left_ : Z) : Z := (Z.max left_ 1 + (mps - 1)) / mps * mps.

(** The loop of [read_bulk], until [deadline]: each turn but the last brings at
    least one byte, so one turn per byte still wanted and one more for a transfer
    already submitted are enough. *)
Fixpoint collect (fuel : nat) (mps deadline : Z) (f : Reading) (u : U) : option (result (list byte) Error) * Reading * U :=
  match fuel with
  | O => (Some (Err []), f, u)
  | S fuel =>
      if negb (submitted f) && negb (zlen (so_far f) <? wanted f) then (Some (Ok (so_far f)), f, u)
      else
        let wait := Z.max 0 (deadline - usb_now u) in
        let '(c, u) := if submitted f then next_in wait u
                       else urb_in (request_size mps (wanted f - zlen (so_far f))) wait u in
        match c with
        | Completed chunk =>
            let f := mkReading (wanted f) (so_far f ++ chunk) false in
            if negb (zlen chunk mod mps =? 0) || bool_decide (chunk = []) then (Some (Ok (so_far f)), f, u)
            else collect fuel mps deadline f u
        | Failed e => (Some (Err (str "bulk-in failed: " ++ e)), f, u)
        | TimedOut => (None, mkReading (wanted f) (so_far f) true, u)
        end
  end.

Definition fuel_for (f : Reading) : nat := S (S (Z.to_nat (wanted f - zlen (so_far f)))).

Definition usb_read_bulk (f : Reading) (wait : Z) (t : Tr) : option (result (list byte) Error) * Reading * Tr :=
  let mps := Z.max (max_packet_size (host t)) 1 in
  let '(r, f', u) := collect (fuel_for f) mps (usb_now (host t) + wait) f (host t) in (r, f', with_host t u).

Definition usb_control_in (q v i n : Z) : Act Tr (list byte) := fun t =>
  let '(r, u) := host_control_in (mkControlIn Vendor ToDevice q v i (as_u16 n)) (host t) in
  (map_err (fun e => str "control-in failed: " ++ e) r, with_host t u).

(** *** Interrupts *)

Definition irq_flags (packet : list byte) : Z := at_ packet 0.
Definition write_completes (packet : list byte) : bool := has_flag (irq_flags packet) (Z.shiftl 1 AIF_WRITE_COMPLETE_BN).

(** One completed packet, as [interrupt_poller] treats it while nobody waits. *)
Definition on_interrupt (t : Tr) (packet : list byte) : Tr :=
  mkUsbTransport (host t) (permit t || write_completes packet)
    (srq_sent t + if has_flag (irq_flags packet) (Z.shiftl 1 AIF_SRQ_BN) then 1 else 0) (open_timeout_ms t).

(** The packets that arrive while a caller waits for a notification: the first
    write-complete is his, later ones leave a permit. *)
Fixpoint notified (packets : list (list byte)) (t : Tr) : bool * Tr :=
  match packets with
  | [] => (false, t)
  | p :: ps =>
      let t' := on_interrupt t p in
      if write_completes p then (true, foldl on_interrupt (with_permit false t') ps) else notified ps t'
  end.

Definition elapsed : Error := str "deadline has elapsed".

Definition usb_await_write_complete : Act Tr unit := fun t =>
  if permit t then (Ok tt, with_permit false t)
  else
    let '(packets, u) := interrupts_within (from_millis (open_timeout_ms t + 1000)) (host t) in
    let '(done_, t') := notified packets (with_host t u) in
    (if done_ then Ok tt else Err (in_context (str "timeout waiting for write-complete interrupt") elapsed), t').

Definition usb_drain_write_complete (t : Tr) : Tr := with_permit false t.

(** [for _ in 0..8] of [drain_bulk_in]. *)
Fixpoint drain_reads (n : nat) (t : Tr) : Tr :=
  match n with
  | O => t
  | S n =>
      match usb_read_bulk (reading 1024) (from_millis 50) t with
      | (Some (Ok (_ :: _)), _, t') => drain_reads n t'
      | (_, _, t') => t'
      end
  end.
Definition usb_drain_bulk_in (t : Tr) : Tr := drain_reads 8 t.

(** [for _ in 0..3] of [quiesce_bulk]. *)
Fixpoint quiesce_reads (n : nat) (u : U) : U :=
  match n with
  | O => u
  | S n =>
      let mps := Z.max (max_packet_size u) 1 in
      match urb_in ((0x40 + (mps - 1)) / mps * mps) (from_millis 100) u with
      | (Completed (_ :: _), u') => quiesce_reads n u'
      | (_, u') => u'
      end
  end.
Definition quiesce_bulk (t : Tr) : Tr :=
  with_host t (quiesce_reads 3 (clear_halt_in (clear_halt_out (host t)).2).2).

(** [UsbTransport::new], and [open_transport] once the interface is claimed. *)
Definition new_transport (u : U) (timeout : Z) : Tr := mkUsbTransport u false 0 timeout.
Definition open_claimed (u : U) (timeout : Z) : Tr := quiesce_bulk (new_transport u timeout).

End Transport.

#[export] Instance UsbTransport_transport (U : Type) `{UsbHost U} : Transport (UsbTransport U) := {|
  write_bulk := usb_write_bulk;
  read_bulk := usb_read_bulk;
  control_in := usb_control_in;
  await_write_complete := usb_await_write_complete;
  drain_write_complete := usb_drain_write_complete;
  drain_bulk_in := usb_drain_bulk_in;
  tr_now t := usb_now (host t);
  tr_sleep t d := with_host t (usb_sleep (host t) d);
|}.

(** ** The interrupt poller *)

(** The errors of the USB library the poller tells apart. *)
Inductive TransferError : Type := Cancelled | Disconnected | OtherError.
Inductive PollerAction : Type := Recover | Stop.

Definition classify_error (e : TransferError) : PollerAction :=
  match e with Cancelled | Disconnected => Stop | OtherError => Recover end.

Definition IRQ_RECOVER_MIN : Z := from_millis 50.
Definition IRQ_RECOVER_MAX : Z := from_millis 1000.

(** What the poller does after one completion: go on at once, pause, or stop; and
    the next pause. *)
Inductive Poller : Type := Resubmit (backoff : Z) | Pause (for_ backoff : Z) | Ended.
Definition poller_step (backoff : Z) (status : result unit TransferError) : Poller :=
  match status with
  | Ok _ => Resubmit IRQ_RECOVER_MIN
  | Err e =>
      match classify_error e with
      | Stop => Ended
      | Recover => Pause backoff (Z.min (backoff * 2) IRQ_RECOVER_MAX)
      end
  end.

(** The poller over a run of completions. *)
Fixpoint poller_run (backoff : Z) (statuses : list (result unit TransferError)) : list Z * bool :=
  match statuses with
  | [] => ([], true)
  | s :: ss =>
      match poller_step backoff s with
      | Resubmit b => poller_run b ss
      | Pause d b => let '(ds, alive) := poller_run b ss in (d :: ds, alive)
      | Ended => ([], false)
      end
  end.

(** ** Lemmas *)

Section Reads.
Context {U : Type} `{UsbHost U}.

(** A read keeps what it has collected, in time or not, and always ends. *)
Definition resumes (f : Reading) (out : option (result (list byte) Error) * Reading * U) : Prop :=
  match out with
  | (Some (Ok d), _, _) => exists k, d = so_far f ++ k
  | (Some (Err e), _, _) => e <> []
  | (None, f', _) => submitted f' = true /\ wanted f' = wanted f /\ exists k, so_far f' = so_far f ++ k
  end.

Lemma collect_resumes fuel : forall mps deadline f (u : U), 0 < mps ->
  Z.max 0 (wanted f - zlen (so_far f)) + (if submitted f then 1 else 0) < Z.of_nat fuel ->
  resumes f (collect fuel mps deadline f u).
Proof.
  induction fuel as [|fuel IH]; intros mps deadline f u Hm Hf; [destruct (submitted f); lia|]. cbn [collect].
  destruct (negb (submitted f) && negb (zlen (so_far f) <? wanted f)) eqn:Eend.
  { exists []. by rewrite app_nil_r. }
  set (step := if submitted f then next_in _ u else _). destruct step as [[chunk|e|] u1]; [|done|].
  - destruct (negb (zlen chunk mod mps =? 0) || bool_decide (chunk = [])) eqn:Es; [by exists chunk|].
    apply orb_false_iff in Es as [Es Hne%bool_decide_eq_false].
    assert (Hpos : 1 <= zlen chunk) by (destruct chunk; [done|]; zlen_solve).
    set (f1 := mkReading _ _ false). assert (Hr : resumes f1 (collect fuel mps deadline f1 u1)).
    { apply IH; [done|]. unfold f1. cbn [wanted so_far submitted]. rewrite zlen_app.
      destruct (submitted f); [lia|]. cbn [negb andb] in Eend. apply negb_false_iff, Z.ltb_lt in Eend. lia. }
    unfold resumes in *. destruct (collect fuel mps deadline f1 u1) as [[[[d|e]|] f2] u2]; [|exact Hr|].
    + destruct Hr as [k ->]. exists (chunk ++ k). by rewrite app_assoc.
    + destruct Hr as (H1 & H2 & k & H3). split_and!; [done|done|]. exists (chunk ++ k). by rewrite H3, app_assoc.
  - split_and!; [done|done|]. exists []. by rewrite app_nil_r.
Qed.

Lemma read_bulk_resumes f wait (t : UsbTransport U) :
  match usb_read_bulk f wait t with (r, f', t') => resumes f (r, f', host t') end.
Proof.
  unfold usb_read_bulk. pose proof (collect_resumes (fuel_for f) (Z.max (max_packet_size (host t)) 1)
    (usb_now (host t) + wait) f (host t) ltac:(lia)) as Hr.
  destruct (collect _ _ _ _ _) as [[r f'] u]. apply Hr. unfold fuel_for. destruct (submitted f); lia.
Qed.

End Reads.

Section Clock.
Context {U : Type} `{UsbClock U}.

Lemma agilent_collect_now fuel : forall mps deadline f (u : U), usb_now u <= usb_now (collect fuel mps deadline f u).2.
Proof.
  induction fuel as [|fuel IH]; intros mps deadline f u; cbn [collect]; [simpl; lia|].
  destruct (_ && _); [simpl; lia|]. set (w := Z.max _ _). set (k := request_size _ _).
  pose proof (next_in_now w u) as H1. pose proof (urb_in_now k w u) as H2.
  destruct (submitted f); [destruct (next_in w u) as [[chunk|e|] u1]|destruct (urb_in k w u) as [[chunk|e|] u1]];
    simpl in *; try lia; destruct (_ || _); simpl; try lia; (etrans; [|apply IH]; lia).
Qed.
Lemma read_bulk_clock f w (t : UsbTransport U) : usb_now (host t) <= usb_now (host (usb_read_bulk f w t).2).
Proof.
  unfold usb_read_bulk. set (m := Z.max _ _). pose proof (agilent_collect_now (fuel_for f) m (usb_now (host t) + w) f (host t)) as Hc.
  by destruct (collect _ _ _ _ _) as [[r f'] u].
Qed.
Lemma on_interrupts_host ps : forall t : UsbTransport U, host (foldl on_interrupt t ps) = host t.
Proof. induction ps as [|p ps IH]; intros t; [done|]. cbn [foldl]. by rewrite IH. Qed.
Lemma notified_host ps : forall t : UsbTransport U, host (notified ps t).2 = host t.
Proof.
  induction ps as [|p ps IH]; intros t; cbn [notified]; [done|].
  destruct (write_completes p); [|by rewrite IH]. cbn [snd]. by rewrite on_interrupts_host.
Qed.
Lemma drain_reads_clock n : forall t : UsbTransport U, usb_now (host t) <= usb_now (host (drain_reads n t)).
Proof.
  induction n as [|n IH]; intros t; cbn [drain_reads]; [lia|]. pose proof (read_bulk_clock (reading 1024) (from_millis 50) t) as Hr.
  destruct (usb_read_bulk _ _ _) as [[[[[|c d]|e]|] f] t1]; simpl in Hr; try done. etrans; [exact Hr|apply IH].
Qed.

#[export] Instance UsbTransport_laws : AgilentLaws (UsbTransport U).
Proof.
  split; intros; simpl.
  - unfold usb_write_bulk. pose proof (urb_out_done_now p (host t)) as Hu. by destruct (urb_out_done _ _).
  - apply read_bulk_clock.
  - unfold usb_control_in. pose proof (host_control_now (mkControlIn Vendor ToDevice q v i (as_u16 n)) (host t)) as Hu.
    by destruct (host_control_in _ _).
  - unfold usb_await_write_complete. destruct (permit t); [simpl; lia|]. set (w := from_millis _).
    pose proof (interrupts_now w (host t)) as Hu. destruct (interrupts_within w (host t)) as [ps u]. simpl in Hu.
    pose proof (notified_host ps (with_host t u)) as Hn. destruct (notified ps _) as [d t']. simpl in *. by rewrite Hn.
  - lia.
  - apply drain_reads_clock.
  - by apply usb_sleep_now.
Qed.

End Clock.

(** *** A queue of packets *)

Definition full (mps : Z) (c : list byte) : Prop := c <> [] /\ zlen c mod mps = 0.
Definition short (mps : Z) (c : list byte) : Prop := zlen c mod mps <> 0.

Lemma agilent_request_size_ge mps k : 1 <= mps -> k <= request_size mps k.
Proof.
  intros Hm. unfold request_size. set (a := Z.max k 1).
  pose proof (Z.div_mod (a + (mps - 1)) mps ltac:(lia)). pose proof (Z.mod_pos_bound (a + (mps - 1)) mps ltac:(lia)). lia.
Qed.

Lemma collect_queue mps deadline fuel : forall fulls c rest n d (u : Queue), 1 <= mps -> q_mps u = mps ->
  q_replies u = fulls ++ c :: rest -> Forall (full mps) fulls -> short mps c ->
  zlen d + zlen (concat fulls) + zlen c <= n -> Z.max 0 (n - zlen d) < Z.of_nat fuel ->
  exists f, collect fuel mps deadline (mkReading n d false) u =
    (Some (Ok (d ++ concat fulls ++ c)), f, mkQueue rest (q_sent u) (q_mps u) (q_clock u)).
Proof.
  induction fuel as [|fuel IH]; intros fulls c rest n d u Hm Hu Hq Hf Hc Hn Hfuel; [lia|]. cbn [collect submitted so_far wanted negb andb].
  assert (Hcpos : 1 <= zlen c).
  { destruct c; [|rewrite zlen_cons; pose proof (zlen_nonneg c); lia]. exfalso. apply Hc. change (zlen (@nil byte)) with 0. apply Z.mod_0_l. lia. }
  pose proof (zlen_nonneg (concat fulls)) as Hz. rewrite (proj2 (Z.ltb_lt _ _)) by lia. cbn [negb].
  cbn [urb_in Queue_host]. rewrite Hq. pose proof (agilent_request_size_ge mps (n - zlen d) Hm) as Hs. destruct fulls as [|p fulls].
  - cbn [app concat]. rewrite ztake_all by lia. unfold short in Hc. rewrite (proj2 (Z.eqb_neq _ _) Hc). cbn [negb orb].
    by eexists.
  - apply Forall_cons in Hf as [[Hp Hpm] Hf]. cbn [app concat] in *. rewrite zlen_app in Hn. pose proof (zlen_nonneg (concat fulls)).
    assert (Hpp : 1 <= zlen p) by (destruct p; [done|]; rewrite zlen_cons; pose proof (zlen_nonneg p); lia).
    rewrite ztake_all by lia. rewrite Hpm, bool_decide_false by done. cbn [Z.eqb negb orb].
    destruct (IH fulls c rest n (d ++ p) (mkQueue (fulls ++ c :: rest) (q_sent u) (q_mps u) (q_clock u))) as [f E];
      try done; try (rewrite zlen_app; lia).
    exists f. rewrite E. cbn [q_sent q_mps q_clock]. by rewrite <- !app_assoc.
Qed.

(** ** Properties *)

(** reads survive timeouts.  A read of the bulk pipe always ends; one that was
    given up keeps what had arrived, and when it is waited for again - as a
    capture does after asking the adapter to end the transfer - what it returns
    begins with those bytes.  Packets are put together until a short one, and
    what lies behind it stays in the pipe. *)
Theorem agilent_read_resumes {U} `{UsbHost U} (b : GpibController (UsbTransport U)) (t : UsbTransport Queue) n wait :
  (listen_only b = true -> forall f b1 salvaged outcome b2,
   poll_read (reading n) (from_millis (timeout_ms b)) b = (Ok (None, f), b1) ->
   await_data (reading n) b = (Ok (salvaged, outcome), b2) ->
   salvaged = true /\ outcome <> Some (Err []) /\ forall raw, outcome = Some (Ok raw) -> exists k, raw = so_far f ++ k) /\
  (forall fulls c rest, 1 <= q_mps (host t) -> q_replies (host t) = fulls ++ c :: rest ->
   Forall (full (q_mps (host t))) fulls -> short (q_mps (host t)) c -> zlen (concat fulls ++ c) <= n ->
   exists f', usb_read_bulk (reading n) wait t =
     (Some (Ok (concat fulls ++ c)), f', with_host t (mkQueue rest (q_sent (host t)) (q_mps (host t)) (q_clock (host t))))).
Proof.
  split.
  - intros Hl f b1 salvaged outcome b2 Hp Ha. unfold await_data, bind, gets in Ha. rewrite Hp, Hl in Ha. unfold attempt in Ha.
    destruct (control XFER_ABORT XA_FLUSH 2 b1) as [rc b3]. unfold poll_read in Ha.
    pose proof (read_bulk_resumes f (from_millis 1000) (transport b3)) as Hr. cbn [read_bulk UsbTransport_transport] in Ha.
    destruct (usb_read_bulk f (from_millis 1000) (transport b3)) as [[r f3] t3]. injection Ha as <- <- <-. split_and!; [done|..].
    + intros ->. by apply Hr.
    + intros raw ->. exact Hr.
  - intros fulls c rest Hm Hq Hf Hc Hn. rewrite zlen_app in Hn. unfold usb_read_bulk. cbn [max_packet_size Queue_host].
    replace (Z.max (q_mps (host t)) 1) with (q_mps (host t)) by lia.
    destruct (collect_queue (q_mps (host t)) (usb_now (host t) + wait) (fuel_for (reading n)) fulls c rest n [] (host t)) as [f' E];
      try done; [unfold fuel_for; cbn [wanted so_far reading]; change (zlen (@nil byte)) with 0; lia|].
    exists f'. change (mkReading n [] false) with (reading n) in E. by rewrite E.
Qed.

(** A host whose device pauses: [None] lets one wait go by. *)
Record Slow : Type := mkSlow { packets : list (option (list byte)); slow_mps : Z; slow_clock : Z }.
Definition slow_next (w : Z) (u : Slow) : Completion (list byte) * Slow :=
  match packets u with
  | Some c :: ps => (Completed c, mkSlow ps (slow_mps u) (slow_clock u))
  | None :: ps => (TimedOut, mkSlow ps (slow_mps u) (slow_clock u + Z.max 0 w))
  | [] => (TimedOut, mkSlow [] (slow_mps u) (slow_clock u + Z.max 0 w))
  end.
#[export] Instance Slow_host : UsbHost Slow := {|
  urb_out _ _ u := (Completed tt, u);
  urb_in _ w u := slow_next w u;
  urb_out_done _ u := (Ok tt, u);
  next_in := slow_next;
  max_packet_size := slow_mps;
  discard_in u := u;
  discard_out u := u;
  clear_halt_in u := (Ok tt, u);
  clear_halt_out u := (Ok tt, u);
  host_control_in c u := (Ok [b8 (not_u8 (as_u8 XFER_ABORT)); b8 UGP_SUCCESS], u);
  interrupts_within _ u := ([], u);
  usb_now := slow_clock;
  usb_sleep u d := mkSlow (packets u) (slow_mps u) (slow_clock u + Z.max 0 d);
|}.

(** A page of which one packet arrives in time and the rest after the abort. *)
Definition slow_page : GpibController (UsbTransport Slow) :=
  with_listen_only true
    (new (new_transport (mkSlow [Some (as_bytes (str "PA")); None; Some (as_bytes (str "G") ++ [x10]); Some [x00]] 2 0) 1000) 1000).

Lemma agilent_read_resumes_witness :
  exists raw k, (await_data (reading 100) slow_page).1 = Ok (true, Some (Ok raw)) /\ raw = as_bytes (str "PA") ++ k.
Proof.
  assert (Ep : poll_read (reading 100) (from_millis (timeout_ms slow_page)) slow_page =
    (Ok (None, mkReading 100 (as_bytes (str "PA")) true), (poll_read (reading 100) (from_millis 1000) slow_page).2)) by by vm_compute.
  set (raw := as_bytes (str "PAG") ++ [x10; x00]).
  assert (Ea : await_data (reading 100) slow_page = (Ok (true, Some (Ok raw)), (await_data (reading 100) slow_page).2)) by by vm_compute.
  destruct (proj2 (proj2 (proj1 (agilent_read_resumes slow_page (new_transport (mkQueue [] [] 2 0) 0) 100 0) eq_refl _ _ _ _ _ Ep Ea))
    raw eq_refl) as [k Hk].
  exists raw, k. split; [by vm_compute|exact Hk].
Defined.

End AgilentHost.
