(* ===== verification/AgilentBoot.v ===== *)
(** * From a cold Agilent 82357 to an open one: [src/backend/agilent_82357/usb.rs], [mod.rs]

    Finding the adapter of a model, uploading its firmware - twice where the
    first upload brings it up cold again - and waiting for it to come back under
    its new identity.  What the USB library reports and does is the class
    [World]; [steps] records the uploads and the opening. *)

From S2P Require Import Prelude RustStr Backend Effect Usb AgilentMsg Firmware.

Module AgilentBoot.
Import RustStr Backend AgilentMsg Effect Firmware.

(** Endpoint addresses and the firmware image matter to the library only. *)
Record Model : Type := mkModel {
  id : list Z; description : list Z; usb_ids : list (Z * Z); pid_preinit : Z; pid_ready : Z; bulk_out_ep : Z; irq_in_ep : Z;
  firmware : option (list byte); cpucs_addr : Z;
}.

Section Models.
(** The two [include_bytes!] blobs. *)
Context (FIRMWARE_82357B FIRMWARE_82357A : list byte).
Definition MODEL_82357B : Model :=
  mkModel (str "agilent-82357b") (str "Agilent/Keysight 82357B USB-GPIB adapter")
    [(USB_VID_AGILENT, USB_PID_82357B_PREINIT); (USB_VID_AGILENT, USB_PID_82357B)]
    USB_PID_82357B_PREINIT USB_PID_82357B EP_82357B_BULK_OUT EP_82357B_IRQ_IN
    (Some FIRMWARE_82357B) 0xE600.
Definition MODEL_82357A : Model :=
  mkModel (str "agilent-82357a") (str "Agilent 82357A USB-GPIB adapter")
    [(USB_VID_AGILENT, USB_PID_82357A_PREINIT); (USB_VID_AGILENT, USB_PID_82357A)]
    USB_PID_82357A_PREINIT USB_PID_82357A EP_82357A_BULK_OUT EP_82357A_IRQ_IN
    (Some FIRMWARE_82357A) 0x7F92.
End Models.

Record DeviceInfo : Type := mkDeviceInfo {
  vendor_id : Z; product_id : Z; port_id : list Z; bus_id : list Z; device_address : Z;
}.
#[export] Instance DeviceInfo_eq_dec : EqDecision DeviceInfo.
Proof. solve_decision. Defined.

Class World (W : Type) : Type := {
  list_devices : W -> result (list DeviceInfo) Error * W;
  open_device : DeviceInfo -> Act W unit;
  upload : DeviceInfo -> list byte -> Z -> Act W unit;  (* [upload_firmware] on an open device *)
  claim : DeviceInfo -> Act W unit;                     (* [open_transport] *)
  w_now : W -> Z;
  w_sleep : W -> Z -> W;
}.

Inductive Step : Type := Uploaded (dev : DeviceInfo) (image : list byte) | Opened (dev : DeviceInfo).
Record Boot (W : Type) : Type := mkBoot { world : W; steps : list Step }.
Arguments mkBoot {W}.
Arguments world {W}.
Arguments steps {W}.

(** A device of the model, at the port asked for. *)
Definition of_model (m : Model) (dev : DeviceInfo) : bool :=
  (vendor_id dev =? USB_VID_AGILENT) && ((product_id dev =? pid_ready m) || (product_id dev =? pid_preinit m)).
Definition at_port (port : option (list Z)) (dev : DeviceInfo) : bool :=
  match port with Some want => bool_decide (port_id dev = want) | None => true end.

(** The loop over the devices, in [find_device] and in [wait_for_renumeration]. *)
Fixpoint first_match (m : Model) (port : option (list Z)) (devs : list DeviceInfo) : option DeviceInfo :=
  match devs with
  | [] => None
  | dev :: devs => if of_model m dev && at_port port dev then Some dev else first_match m port devs
  end.

Definition quoted (s : list Z) : list Z := [34] ++ s ++ [34].

Section Boot.
Context {W : Type} `{World W}.
Notation St := (Boot W).

Definition in_world {A} (m : Act W A) : Act St A := zoom world (fun b w => mkBoot w (steps b)) m.
Definition pause (d : Z) : Act St unit := modify (fun b => mkBoot (w_sleep (world b) d) (steps b)).
Definition note (s : Step) : Act St unit := modify (fun b => mkBoot (world b) (steps b ++ [s])).
Definition now_ : Act St Z := gets (fun b => w_now (world b)).

Definition listed : Act St (list DeviceInfo) := context (str "failed to list USB devices") (in_world list_devices).

Definition find_device (m : Model) (port : option (list Z)) : Act St (DeviceInfo * Z) :=
  let! devs := listed in
  match first_match m port devs, port with
  | Some dev, _ => ret (dev, product_id dev)
  | None, Some want => bail (str "no " ++ id m ++ str " found at USB port " ++ quoted want)
  | None, None =>
      bail (str "no " ++ id m ++ str " found (expected VID " ++ hex_u16 USB_VID_AGILENT ++ str ", PID " ++
            hex_u16 (pid_preinit m) ++ str " or " ++ hex_u16 (pid_ready m) ++ str ")")
  end.

Definition elapsed : Error := str "deadline has elapsed".

(** What a wait under [timeout] comes to; [OutOfTurns] never does. *)
Inductive Waited (A : Type) : Type := Got (a : A) | Late | OutOfTurns.
Arguments Got {A} a.
Arguments Late {A}.
Arguments OutOfTurns {A}.

(** A sleep inside [timeout]: whether it ran to its end. *)
Definition sleep_within (deadline d : Z) : Act St bool :=
  let! t := now_ in
  if deadline <? t + d then let! _ := pause (Z.max 0 (deadline - t)) in ret false
  else let! _ := pause d in ret true.

(** Phase 1: the old address goes away, or three seconds pass.  A turn sleeps
    50 ms, so 61 turns are enough. *)
Fixpoint wait_gone (n : nat) (deadline started : Z) (old : DeviceInfo) : Act St (Waited unit) :=
  match n with
  | O => ret OutOfTurns
  | S n =>
      let! devs := listed in
      if negb (existsb (fun d => bool_decide (bus_id d = bus_id old) && (device_address d =? device_address old)) devs)
      then ret (Got tt)
      else
        let! t := now_ in
        if from_millis 3000 <=? t - started then ret (Got tt)
        else
          let! slept := sleep_within deadline (from_millis 50) in
          if slept then wait_gone n deadline started old else ret Late
  end.

(** Phase 2: a device of the model appears.  A turn sleeps 100 ms and the whole
    wait is cut off after ten seconds, so 101 turns are enough. *)
Fixpoint wait_back (n : nat) (deadline : Z) (m : Model) (port : option (list Z)) : Act St (Waited (DeviceInfo * Z)) :=
  match n with
  | O => ret OutOfTurns
  | S n =>
      let! devs := listed in
      match first_match m port devs with
      | Some dev => ret (Got (dev, product_id dev))
      | None =>
          let! slept := sleep_within deadline (from_millis 100) in
          if slept then wait_back n deadline m port else ret Late
      end
  end.

Definition wait_for_renumeration (deadline : Z) (m : Model) (port : option (list Z)) (old : DeviceInfo)
    : Act St (Waited (DeviceInfo * Z)) :=
  let! started := now_ in
  let! gone := wait_gone 61 deadline started old in
  match gone with
  | Got _ =>
      let! slept := sleep_within deadline (from_millis 300) in
      if slept then wait_back 101 deadline m port else ret Late
  | Late => ret Late
  | OutOfTurns => ret OutOfTurns
  end.

(** [wait_for_pid]: a device of the identity, or the deadline; a turn sleeps
    200 ms. *)
Fixpoint await_pid (n : nat) (deadline pid : Z) : Act St (Waited DeviceInfo) :=
  match n with
  | O => ret OutOfTurns
  | S n =>
      let! devs := listed in
      match List.find (fun d => (vendor_id d =? USB_VID_AGILENT) && (product_id d =? pid)) devs with
      | Some dev => ret (Got dev)
      | None =>
          let! t := now_ in
          if deadline <=? t then ret Late
          else let! _ := pause (from_millis 200) in await_pid n deadline pid
      end
  end.
Definition pid_turns (timeout : Z) : nat := Z.to_nat (timeout / from_millis 200 + 2).
Definition wait_for_pid (pid timeout : Z) : Act St DeviceInfo :=
  let! t := now_ in
  let! r := await_pid (pid_turns timeout) (t + timeout) pid in
  match r with
  | Got dev => ret dev
  | Late => bail (str "timed out waiting for device 0x0957:" ++ hex_u16 pid ++ str " to appear")
  | OutOfTurns => bail []
  end.

Definition open_transport (dev : DeviceInfo) : Act St unit :=
  let! _ := note (Opened dev) in in_world (claim dev).

Definition attempt_text (what : list Z) (k : Z) : list Z := what ++ str " (attempt " ++ to_string k ++ str ")".

(** [for attempt in 1..=2], with [n] attempts left, this one the [k]th. *)
Fixpoint uploads (n : nat) (k : Z) (m : Model) (port : option (list Z)) (image : list byte) (current : DeviceInfo)
    : Act St DeviceInfo :=
  match n with
  | O => bail (str "device still pre-init (" ++ hex_u16 (pid_preinit m) ++ str ") after two upload attempts")
  | S n =>
      let! _ := context (attempt_text (str "failed to open pre-init device") k) (in_world (open_device current)) in
      let! _ := note (Uploaded current image) in
      let! _ := context (attempt_text (str "firmware upload failed") k) (in_world (upload current image (cpucs_addr m))) in
      let! t := now_ in
      let! r := wait_for_renumeration (t + from_millis 10000) m port current in
      match r with
      | OutOfTurns => bail []
      | Late => bail (in_context (str "timeout waiting for renumeration on attempt " ++ to_string k) elapsed)
      | Got (dev, pid) =>
          if pid =? pid_ready m then
            let! _ := pause (from_millis 200) in
            let! _ := open_transport dev in ret dev
          else uploads n (k + 1) m port image dev
      end
  end.

Definition initialize_device (m : Model) (port : option (list Z)) : Act St DeviceInfo :=
  let! (dev, pid) := find_device m port in
  if pid =? pid_ready m then let! _ := open_transport dev in ret dev
  else
    match firmware m with
    | None =>
        bail (id m ++ str " is in pre-firmware state (PID " ++ hex_u16 (pid_preinit m) ++
              str ") but its firmware image is not bundled; load it externally (e.g. fxload) or connect an already-initialized adapter")
    | Some image => uploads 2 1 m port image dev
    end.

End Boot.

Arguments Got {A} a.
Arguments Late {A}.
Arguments OutOfTurns {A}.

(** ** Lemmas *)

(** Time does not run backwards, and a sleep lasts. *)
Class WorldClock (W : Type) `{World W} : Prop := {
  list_now : forall w, w_now w <= w_now (list_devices w).2;
  w_sleep_now : forall w d, 0 <= d -> w_now w + d <= w_now (w_sleep w d);
}.

Lemma first_match_sound m port devs dev : first_match m port devs = Some dev ->
  of_model m dev = true /\ at_port port dev = true.
Proof.
  induction devs as [|d devs IH]; cbn [first_match]; [done|].
  destruct (of_model m d && at_port port d) eqn:E; [|done]. intros [= <-]. by apply andb_true_iff.
Qed.

Section Proofs.
Context {W : Type} `{WorldClock W}.
Notation St := (Boot W).

(** Waiting uploads nothing and opens nothing. *)
Definition waits (b b' : St) : Prop := steps b' = steps b /\ w_now (world b) <= w_now (world b').

Definition unlisted (e : Error) : Prop := exists e', e = in_context (str "failed to list USB devices") e'.
Lemma listed_wp_err (b : St) : wp listed (fun _ => waits b) (fun e b' => waits b b' /\ unlisted e) b.
Proof.
  unfold listed, wp, context, in_world, zoom, waits. pose proof (list_now (world b)) as Hl.
  destruct (list_devices (world b)) as [[] w]; [done|]. split; [done|by eexists].
Qed.
Lemma listed_wp (b : St) : wp listed (fun _ => waits b) (fun _ => waits b) b.
Proof. eapply wp_mono; [apply listed_wp_err|done|by intros ? ? []]. Qed.

Lemma sleep_within_wp deadline d (b : St) : 0 <= d ->
  wp (sleep_within deadline d) (fun slept b' => waits b b' /\
    if slept : bool then w_now (world b) + d <= w_now (world b') /\ w_now (world b) + d <= deadline else True) (fun _ _ => False) b.
Proof.
  intros Hd. unfold sleep_within, now_, pause. wp_auto. unfold waits.
  destruct (Z.ltb_spec deadline (w_now (world b) + d)); wp_auto; cbn.
  - pose proof (w_sleep_now (world b) (Z.max 0 (deadline - w_now (world b))) ltac:(lia)). by split; [split; [done|lia]|].
  - pose proof (w_sleep_now (world b) d Hd). split; [split; [done|lia]|lia].
Qed.

Lemma waits_trans (a b c : St) : waits a b -> waits b c -> waits a c.
Proof. intros [] []. split; [congruence|lia]. Qed.

Ltac chain_waits :=
  cbv beta in *; repeat match goal with Hw : waits _ _ |- _ => destruct Hw end; unfold waits; split; [congruence|lia].

Lemma wait_gone_wp n deadline started old : forall b : St, (1 <= n)%nat ->
  from_millis 3000 - (Z.of_nat n - 1) * from_millis 50 <= w_now (world b) - started ->
  wp (wait_gone n deadline started old) (fun r b' => waits b b' /\ r <> OutOfTurns) (fun _ b' => waits b b') b.
Proof.
  induction n as [|n IH]; intros b Hn Ht; [lia|]. cbn [wait_gone]. wp_auto. eapply wp_mono; [apply listed_wp| |done].
  intros devs b1 H1. destruct (negb _); [by wp_auto|]. unfold now_ at 1. wp_auto.
  destruct (Z.leb_spec (from_millis 3000) (w_now (world b1) - started)) as [|Hlt]; [by wp_auto|]. wp_auto.
  eapply wp_mono; [apply sleep_within_wp; done| |done]. intros [] b2 [H2 Hs]; [|wp_auto; split; [by chain_waits|done]].
  pose proof H1 as [E1 C1]. destruct n as [|n]; [unfold from_millis in *; lia|].
  eapply wp_mono; [apply IH; [lia|unfold from_millis in *; lia]|..].
  - intros r b3 [H3 Hr]. split; [|done]. by chain_waits.
  - intros e b3 H3. by chain_waits.
Qed.

Lemma wait_back_wp n deadline m port : forall b : St, (1 <= n)%nat ->
  deadline - (Z.of_nat n - 1) * from_millis 100 <= w_now (world b) ->
  wp (wait_back n deadline m port)
    (fun r b' => waits b b' /\ match r with
                               | Got (dev, pid) => pid = product_id dev /\ of_model m dev = true /\ at_port port dev = true
                               | Late => True
                               | OutOfTurns => False
                               end) (fun _ b' => waits b b') b.
Proof.
  induction n as [|n IH]; intros b Hn Ht; [lia|]. cbn [wait_back]. wp_auto. eapply wp_mono; [apply listed_wp| |done].
  intros devs b1 H1. destruct (first_match m port devs) as [dev|] eqn:Ef.
  { apply first_match_sound in Ef as []. by wp_auto. }
  wp_auto. eapply wp_mono; [apply sleep_within_wp; done| |done]. intros [] b2 [H2 Hs]; [|wp_auto; split; [by chain_waits|done]].
  pose proof H1 as [E1 C1]. destruct n as [|n]; [unfold from_millis in *; lia|].
  eapply wp_mono; [apply IH; [lia|unfold from_millis in *; lia]|..].
  - intros r b3 [H3 Hr]. split; [|done]. by chain_waits.
  - intros e b3 H3. by chain_waits.
Qed.

Lemma wait_for_renumeration_wp m port old (b : St) :
  wp (wait_for_renumeration (w_now (world b) + from_millis 10000) m port old)
    (fun r b' => waits b b' /\ match r with
                               | Got (dev, pid) => pid = product_id dev /\ of_model m dev = true /\ at_port port dev = true
                               | Late => True
                               | OutOfTurns => False
                               end) (fun _ b' => waits b b') b.
Proof.
  unfold wait_for_renumeration. unfold now_ at 1. wp_auto.
  eapply wp_mono; [apply wait_gone_wp; [lia|unfold from_millis; lia]| |done]. intros [[]| |] b1 [H1 Hr]; [|by wp_auto|done].
  wp_auto. eapply wp_mono; [by apply sleep_within_wp| |done]. intros [] b2 [H2 Hs].
  2: { wp_auto. split; [by chain_waits|done]. }
  pose proof H1 as [_ C1]. pose proof H2 as [_ C2].
  eapply wp_mono; [apply (wait_back_wp 101); [lia|unfold from_millis in *; lia]|..].
  - intros r b3 [H3 Hr3]. split; [|done]. by chain_waits.
  - intros e b3 H3. by chain_waits.
Qed.

Lemma await_pid_wp n deadline pid : forall b : St, (1 <= n)%nat ->
  deadline - (Z.of_nat n - 1) * from_millis 200 <= w_now (world b) ->
  wp (await_pid n deadline pid)
    (fun r b' => waits b b' /\ match r with
                               | Got dev => vendor_id dev = USB_VID_AGILENT /\ product_id dev = pid
                               | Late => deadline <= w_now (world b')
                               | OutOfTurns => False
                               end) (fun e b' => waits b b' /\ unlisted e) b.
Proof.
  induction n as [|n IH]; intros b Hn Ht; [lia|]. cbn [await_pid]. wp_auto. eapply wp_mono; [apply listed_wp_err| |done].
  intros devs b1 H1. destruct (List.find _ devs) as [dev|] eqn:Ef.
  { apply find_some in Ef as [_ Ef]. rewrite andb_true_iff, !Z.eqb_eq in Ef. by wp_auto. }
  unfold now_ at 1. wp_auto. destruct (Z.leb_spec deadline (w_now (world b1))) as [|Hlt]; [by wp_auto|].
  pose proof H1 as [E1 C1]. destruct n as [|n]; [unfold from_millis in *; lia|]. unfold pause. wp_auto.
  set (b2 := mkBoot _ _). assert (H2 : w_now (world b1) + from_millis 200 <= w_now (world b2)) by (by apply w_sleep_now).
  assert (W2 : waits b b2) by (split; [done|unfold from_millis in *; lia]).
  eapply wp_mono; [apply IH; [lia|unfold from_millis in *; lia]|..].
  - intros r b3 [H3 Hr]. split; [|done]. by eapply waits_trans.
  - intros e b3 [H3 He]. split; [by eapply waits_trans|done].
Qed.

(** A device of the identity is found, or the listing failed, or the whole time
    has passed; the turns are enough. *)
Lemma wait_for_pid_wp pid timeout (b : St) : 0 <= timeout ->
  wp (wait_for_pid pid timeout)
    (fun dev b' => waits b b' /\ vendor_id dev = USB_VID_AGILENT /\ product_id dev = pid)
    (fun e b' => waits b b' /\ (w_now (world b) + timeout <= w_now (world b') \/
       unlisted e)) b.
Proof.
  intros Ht. unfold wait_for_pid. unfold now_ at 1. wp_auto.
  assert (Hn : (1 <= pid_turns timeout)%nat /\
    w_now (world b) + timeout - (Z.of_nat (pid_turns timeout) - 1) * from_millis 200 <= w_now (world b)).
  { unfold pid_turns. unfold from_millis. Z.to_euclidean_division_equations. lia. }
  eapply wp_mono; [apply await_pid_wp; apply Hn| |by intros e b1 []; auto].
  intros [dev| |] b1 [H1 Hr]; wp_auto; [done|by auto|done].
Qed.

Definition ready (m : Model) (port : option (list Z)) (dev : DeviceInfo) : Prop :=
  vendor_id dev = USB_VID_AGILENT /\ product_id dev = pid_ready m /\ at_port port dev = true.
Definition cold (m : Model) (port : option (list Z)) (s : Step) : Prop :=
  match s with
  | Uploaded dev image => firmware m = Some image /\ vendor_id dev = USB_VID_AGILENT /\
      product_id dev = pid_preinit m /\ product_id dev <> pid_ready m /\ at_port port dev = true
  | Opened _ => False
  end.

(** At most [n] uploads, each to a cold adapter, and then what was opened. *)
Definition booted (m : Model) (port : option (list Z)) (n : nat) (b b' : St) (opened : option DeviceInfo) : Prop :=
  exists ups, steps b' = steps b ++ ups ++ match opened with Some dev => [Opened dev] | None => [] end /\
    (length ups <= n)%nat /\ Forall (cold m port) ups /\ (forall dev, opened = Some dev -> ready m port dev).

Lemma of_model_ready m port dev : of_model m dev = true -> at_port port dev = true ->
  product_id dev =? pid_ready m = true -> ready m port dev.
Proof. unfold of_model, ready. rewrite !andb_true_iff, !Z.eqb_eq. by intros [-> _] Ha ->. Qed.

Lemma of_model_cold m port dev image : of_model m dev = true -> at_port port dev = true ->
  product_id dev =? pid_ready m = false -> firmware m = Some image -> cold m port (Uploaded dev image).
Proof.
  unfold of_model, cold. intros Hm Ha Hp Hf. rewrite Hp in Hm. apply Z.eqb_neq in Hp.
  rewrite andb_true_iff, orb_false_l, !Z.eqb_eq in Hm. by destruct Hm.
Qed.

Lemma open_transport_wp m port dev n (b b' : St) : ready m port dev -> booted m port n b b' None ->
  wp (open_transport dev) (fun _ b2 => booted m port n b b2 (Some dev)) (fun _ b2 => booted m port n b b2 (Some dev)) b'.
Proof.
  intros Hr (ups & E & Hl & Hc & _). unfold open_transport, note. wp_auto.
  unfold wp, in_world, zoom. destruct (claim dev _) as [[] w].
  all: exists ups; cbn; rewrite E, app_nil_r, app_assoc; split_and!; [done..|by intros ? [= <-]].
Qed.

Lemma booted_refl m port n (b b' : St) : steps b' = steps b -> booted m port n b b' None.
Proof. intros E. exists []. rewrite E, !app_nil_r. split_and!; [done|cbn; lia|constructor|done]. Qed.

(** One more upload in front. *)
Lemma booted_upload m port n dev image (b b1 b' : St) o : cold m port (Uploaded dev image) ->
  steps b1 = steps b ++ [Uploaded dev image] -> booted m port n b1 b' o -> booted m port (S n) b b' o.
Proof.
  intros Hc E (ups & E' & Hl & Hu & Ho). exists (Uploaded dev image :: ups).
  rewrite E', E, <- app_assoc. split_and!; [done|cbn; lia|by constructor|done].
Qed.

Lemma in_world_steps {A} (act : Act W A) : keeps (fun x y => steps y = steps x) (in_world act).
Proof. intros x. unfold in_world, zoom. by destruct (act (world x)). Qed.

Lemma uploads_wp m port image n : firmware m = Some image -> forall k current b,
  cold m port (Uploaded current image) ->
  wp (uploads n k m port image current)
    (fun dev b' => booted m port n b b' (Some dev)) (fun _ b' => exists opened, booted m port n b b' opened) b.
Proof.
  intros Hf. induction n as [|n IH]; intros k current b Hc; cbn [uploads]; wp_auto.
  { exists None. by apply booted_refl. }
  eapply wp_keeps; [apply in_world_steps|cbv beta|intros e b1 E1; exists None; by apply booted_refl].
  intros _ b1 E1. unfold note. wp_auto.
  set (b2 := mkBoot _ _). assert (E2 : steps b2 = steps b ++ [Uploaded current image]) by (cbn; by rewrite E1).
  clearbody b2. eapply wp_keeps; [apply in_world_steps|cbv beta|].
  2: { intros e b3 E3. exists None. apply (booted_upload m port n current image b b2); [exact Hc|exact E2|]. by apply booted_refl. }
  intros _ b3 E3. unfold now_ at 1. wp_auto.
  eapply wp_mono; [apply wait_for_renumeration_wp|cbv beta|].
  2: { intros e b4 [E4 _]. exists None. apply (booted_upload m port n current image b b2); [exact Hc|exact E2|]. apply booted_refl. congruence. }
  intros [[dev pid]| |] b4 [[E4 _] Hr]; [|wp_auto|done].
  2: { exists None. apply (booted_upload m port n current image b b2); [exact Hc|exact E2|]. apply booted_refl. congruence. }
  destruct Hr as (-> & Hm & Ha). assert (Hw : steps b4 = steps b2) by congruence.
  destruct (product_id dev =? pid_ready m) eqn:Ep.
  - unfold pause. wp_auto. eapply wp_mono; [apply (open_transport_wp m port dev n b2)|..].
    + by apply of_model_ready.
    + by apply booted_refl.
    + intros [] b5 Hb. wp_auto. by apply (booted_upload m port n current image b b2).
    + intros e b5 Hb. exists (Some dev). by apply (booted_upload m port n current image b b2).
  - assert (Hd : cold m port (Uploaded dev image)) by by apply of_model_cold.
    assert (E5 : steps b4 = steps b ++ [Uploaded current image]) by congruence.
    eapply wp_mono; [by apply IH|..]; cbv beta.
    + intros d b5. by apply booted_upload with (dev := current) (image := image).
    + intros e b5 [o Ho]. exists o. by apply (booted_upload m port n current image b b4).
Qed.

(** C38: An adapter is handed on only when it answers to the ready identity at the
    port asked for: [initialize_device] uploads at most twice, only the model's
    own firmware and only to adapters of the model, at that port, that are still
    cold, and opens the adapter last, whether or not the opening works out; a
    failure on the way leaves no more than that behind. *)
Theorem boot_sound (m : Model) (port : option (list Z)) (b : St) :
  match initialize_device m port b with
  | (Ok dev, b') => booted m port 2 b b' (Some dev)
  | (Err _, b') => exists opened, booted m port 2 b b' opened
  end.
Proof.
  change (wp (initialize_device m port) (fun dev b' => booted m port 2 b b' (Some dev))
            (fun _ b' => exists opened, booted m port 2 b b' opened) b).
  unfold initialize_device, find_device. wp_auto.
  eapply wp_mono; [apply listed_wp|cbv beta|intros e b1 [E1 _]; exists None; by apply booted_refl].
  intros devs b1 [E1 _]. destruct (first_match m port devs) as [dev|] eqn:Ef.
  2: { destruct port; wp_auto; exists None; by apply booted_refl. }
  apply first_match_sound in Ef as [Hm Ha]. wp_auto. destruct (product_id dev =? pid_ready m) eqn:Ep.
  - wp_auto. eapply wp_mono; [apply (open_transport_wp m port dev 2 b)|..].
    + by apply of_model_ready.
    + by apply booted_refl.
    + by intros [] b2.
    + intros e b2 Hb. by exists (Some dev).
  - destruct (firmware m) as [image|] eqn:Ei; [|wp_auto; exists None; by apply booted_refl].
    eapply wp_mono; [apply uploads_wp; [done|by apply of_model_cold]|..]; unfold booted; by rewrite E1.
Qed.

End Proofs.

(** ** An adapter on the desk

    It needs its firmware twice: after an upload it is gone for 400 ms and comes
    back under the next address, cold again the first time. *)
Record Desk : Type := mkDesk { clock : Z; done_uploads : Z; since : Z }.
Definition desk_dev (uploaded : Z) : DeviceInfo :=
  mkDeviceInfo USB_VID_AGILENT (if uploaded <? 2 then USB_PID_82357B_PREINIT else USB_PID_82357B)
    (str "1-4") (str "1") (10 + uploaded).
#[export] Instance Desk_world : World Desk := {|
  list_devices d := (Ok (if clock d <? since d + from_millis 400 then [] else [desk_dev (done_uploads d)]), d);
  open_device _ d := (Ok tt, d);
  upload _ _ _ d := (Ok tt, mkDesk (clock d) (done_uploads d + 1) (clock d));
  claim _ d := (Ok tt, d);
  w_now := clock;
  w_sleep d t := mkDesk (clock d + t) (done_uploads d) (since d);
|}.
#[export] Instance Desk_clock : WorldClock Desk.
Proof. split; intros; cbn; lia. Qed.

Lemma boot_sound_witness :
  let m := MODEL_82357B [x01] in
  let b := mkBoot (mkDesk (from_millis 1000) 0 0) [] in
  let dev := desk_dev 2 in
  let b' := (initialize_device m (Some (str "1-4")) b).2 in
  (initialize_device m (Some (str "1-4")) b).1 = Ok dev /\
  steps b' = [Uploaded (desk_dev 0) [x01]; Uploaded (desk_dev 1) [x01]; Opened dev] /\
  booted m (Some (str "1-4")) 2 b b' (Some dev).
Proof.
  intros m b dev b'.
  assert (E : (initialize_device m (Some (str "1-4")) b).1 = Ok dev) by by vm_compute.
  split; [exact E|]. split; [by vm_compute|].
  exact (wp_ok _ _ _ b dev (boot_sound m (Some (str "1-4")) b) E).
Defined.

End AgilentBoot.
