(* ===== verification/Attach.v ===== *)
(** * Attaching to a device: the [open]s of [src/backend/*/usb.rs] and [mod.rs]

    Finding a device on the bus, opening it, claiming its interface and its
    endpoints, quiescing it and initialising the driver; for the NI adapter with
    its three attempts and the configuration that is re-applied between them.
    What the USB library does to the bus is the class [UsbBus]; [events] records
    what was claimed, how an initialisation ended, each reset of a configuration,
    done or failed, and the pauses. *)

From S2P Require Import Prelude RustStr Backend Effect Usb NiMsg NiUsb NiProofs NiHost Usbtmc UsbtmcUsb AgilentMsg Agilent AgilentHost.

Module Attach.
Import RustStr Backend Effect Usb.
#[local] Existing Instances NiHost.NiUsbTransport_transport NiHost.NiUsbTransport_laws UsbtmcUsb.UsbtmcTransport_transport.

(** A bus [U] with devices [D]; handles that are dropped are given back. *)
Class UsbBus (D U : Type) : Type := {
  list_devices : U -> result (list D) Error * U;
  open_device : D -> Act U unit;
  claim_interface : D -> Z -> Act U unit;     (* [detach_and_claim_interface] *)
  open_endpoint : D -> Z -> Act U unit;       (* [interface.endpoint(address)] *)
  release : D -> U -> U;
  active_configuration : D -> U -> option Z;
  set_configuration : D -> Z -> Act U unit;
}.

Inductive Event (D : Type) : Type :=
| Claimed (dev : D) (interface : Z)
| Initialised (dev : D) (r : result unit Error)
| Reapplied (dev : D) (active : option Z) (configuration : Z)
| NotReapplied (e : Error)
| Paused (d : Z).
Arguments Claimed {D} dev interface.
Arguments Initialised {D} dev r.
Arguments Reapplied {D} dev active configuration.
Arguments NotReapplied {D} e.
Arguments Paused {D} d.

Record Bench (D U : Type) : Type := mkBench { bus : U; events : list (Event D) }.
Arguments mkBench {D U}.
Arguments bus {D U}.
Arguments events {D U}.

Section Bus.
Context {D U : Type} `{UsbHost U} `{UsbBus D U}.

Definition on_bus {A} (m : Act U A) : Act (Bench D U) A := zoom bus (fun s u => mkBench u (events s)) m.
Definition note (e : Event D) : Act (Bench D U) unit := modify (fun s => mkBench (bus s) (events s ++ [e])).
Definition pause (d : Z) : Act (Bench D U) unit :=
  modify (fun s => mkBench (usb_sleep (bus s) d) (events s ++ [Paused d])).

(** A failure is recorded too. *)
Definition noting {A} (failed : Error -> Event D) (m : Act (Bench D U) A) : Act (Bench D U) A := fun s =>
  match m s with (Err e, s) => (Err e, mkBench (bus s) (events s ++ [failed e])) | done => done end.

Lemma wp_noting {A} failed (m : Act (Bench D U) A) Q R s :
  wp m Q (fun e s => R e (mkBench (bus s) (events s ++ [failed e]))) s -> wp (noting failed m) Q R s.
Proof. unfold wp, noting. by destruct (m s) as [[|] ?]. Qed.

(** What holds the interface of [dev] gives it back when it fails. *)
Definition give_back (dev : D) (s : Bench D U) : Bench D U := mkBench (release dev (bus s)) (events s).
Definition holding {A} (dev : D) (m : Act (Bench D U) A) : Act (Bench D U) A := fun s =>
  match m s with (Err e, s) => (Err e, give_back dev s) | kept => kept end.

Lemma wp_holding {A} dev (m : Act (Bench D U) A) Q R s :
  wp m Q (fun e s => R e (give_back dev s)) s -> wp (holding dev m) Q R s.
Proof. unfold wp, holding. by destruct (m s) as [[|] ?]. Qed.

(** [interface.endpoint(address).with_context(..)] *)
Definition endpoint (kind : list Z) (dev : D) (address : Z) : Act (Bench D U) unit :=
  context (str "open " ++ kind ++ str " endpoint " ++ hex_byte address) (on_bus (open_endpoint dev address)).

End Bus.

(** An em dash. *)
Definition dash : list Z := [0x2014].

(** ** The NI adapter *)

Section Ni.
Context {U : Type} `{UsbHost U} `{!UsbBus NiHost.DeviceInfo U}.
Notation St := (Bench NiHost.DeviceInfo U).

Definition ni_find_device (port : option (list Z)) : Act St (NiHost.DeviceInfo * Z) :=
  let! devs := attempt (on_bus list_devices) in of_result (NiHost.find_device port devs).

(** [NiUsbTransport::open], as far as the bus is concerned. *)
Definition ni_open_transport (port : option (list Z)) : Act St (NiHost.DeviceInfo * Z) :=
  let! (dev, pid) := ni_find_device port in
  let! _ := context (str "failed to open NI USB device") (on_bus (open_device dev)) in
  let! _ := context (str "failed to claim NI GPIB interface 0 " ++ dash ++ str " is another process using the adapter?")
              (on_bus (claim_interface dev 0)) in
  let! _ := note (Claimed dev 0) in
  let eps := NiHost.endpoints_for pid in
  holding dev
    (let! _ := endpoint (str "bulk-out") dev (NiHost.bulk_out_ep eps) in
     let! _ := endpoint (str "bulk-in") dev (NiHost.bulk_in_ep eps) in
     let! _ := endpoint (str "interrupt") dev (NiHost.interrupt_in_ep eps) in
     ret (dev, pid)).

Definition reset_configuration (port : option (list Z)) : Act St unit := noting NotReapplied (
  let! (dev, _) := ni_find_device port in
  let! _ := context (str "failed to reopen NI USB device") (on_bus (open_device dev)) in
  let! active := gets (fun s => active_configuration dev (bus s)) in
  let config := default 1 active in
  let! _ := context (str "failed to re-apply USB configuration " ++ to_string config)
              (on_bus (set_configuration dev config)) in
  note (Reapplied dev active config)).

Definition ni_gave_up : list Z :=
  str "ni adapter initialization failed; if it stays stuck, unplug the adapter and plug it back in".

(** [for attempt in 1..=3], with [n] attempts left. *)
Fixpoint ni_attempts (n : nat) (timeout : Z) (port : option (list Z)) (last_err : Error)
    : Act St (NiUsb.NiUsbHsBackend (NiHost.NiUsbTransport U)) := fun s =>
  match n with
  | O => (Err (in_context ni_gave_up last_err), s)
  | S n =>
      match ni_open_transport port s with
      | (Err e, s) => (Err e, s)
      | (Ok (dev, pid), s) =>
          let t := NiHost.quiesce (NiHost.open_transport (bus s) pid timeout) in
          match NiUsb.init 0 (NiUsb.new t timeout) with
          | (Ok _, ctrl) =>
              (Ok ctrl, mkBench (NiHost.host (NiUsb.transport ctrl)) (events s ++ [Initialised dev (Ok tt)]))
          | (Err e, ctrl) =>
              let s := give_back dev (mkBench (NiHost.host (NiUsb.transport ctrl)) (events s ++ [Initialised dev (Err e)])) in
              let s := (reset_configuration port s).2 in
              let s := (pause (from_millis 500) s).2 in
              ni_attempts n timeout port e s
          end
      end
  end.
Definition ni_open (timeout : Z) (port : option (list Z)) : Act St (NiUsb.NiUsbHsBackend (NiHost.NiUsbTransport U)) :=
  ni_attempts 3 timeout port [].

End Ni.

(** The [interrupt_reader]s over their completions: after a failed one they clear
    the halt of their endpoint, whatever comes of that, wait 50 ms and go on; the
    pauses are the second component. *)
Section Readers.
Context {T : Type} (on_interrupt : T -> list byte -> T).
Definition reader_turn (acc : T * list Z) (c : result (list byte) Error) : T * list Z :=
  match c with
  | Ok packet => (on_interrupt acc.1 packet, acc.2)
  | Err _ => (acc.1, acc.2 ++ [from_millis 50])
  end.
Definition interrupt_reader (t : T) (cs : list (result (list byte) Error)) : T * list Z := foldl reader_turn (t, []) cs.

Definition packet (c : result (list byte) Error) : option (list byte) := match c with Ok p => Some p | Err _ => None end.

(** Every packet is taken, in order, whatever failed in between. *)
Lemma reader_takes_all t cs : (interrupt_reader t cs).1 = foldl on_interrupt t (omap packet cs).
Proof.
  unfold interrupt_reader. generalize (@nil Z). revert t. induction cs as [|[p|e] cs IH]; intros t l; [done|apply IH..].
Qed.
End Readers.

Definition ni_interrupt_reader {U} (t : NiHost.NiUsbTransport U) (cs : list (result (list byte) Error)) :=
  interrupt_reader NiHost.on_interrupt t cs.
Definition tmc_interrupt_reader {U} (t : UsbtmcUsb.UsbtmcTransport U) (cs : list (result (list byte) Error)) :=
  interrupt_reader UsbtmcUsb.on_interrupt t cs.

(** ** USBTMC *)

Section Tmc.
Context {U : Type} `{UsbHost U} `{!UsbBus UsbtmcUsb.DeviceInfo U}.
(** The endpoints of the claimed interface's descriptor, if it has one. *)
Context (descriptor : UsbtmcUsb.DeviceInfo -> U -> option (list UsbtmcUsb.EndpointInfo)).
Notation St := (Bench UsbtmcUsb.DeviceInfo U).

Definition tmc_find_device (port : option (list Z)) : Act St (UsbtmcUsb.DeviceInfo * UsbtmcUsb.UsbtmcInterface) :=
  let! devs := attempt (on_bus list_devices) in of_result (UsbtmcUsb.find_device port devs).

Definition tmc_open_transport (port : option (list Z)) : Act St (UsbtmcUsb.DeviceInfo * UsbtmcUsb.UsbtmcTransport U) :=
  let! (dev, tmc) := tmc_find_device port in
  let! _ := context (str "failed to open USBTMC device") (on_bus (open_device dev)) in
  let! _ := context (str "failed to claim USBTMC interface " ++ to_string (UsbtmcUsb.number tmc) ++ str " " ++ dash ++
                     str " is another process using the device?")
              (on_bus (claim_interface dev (UsbtmcUsb.number tmc))) in
  let! _ := note (Claimed dev (UsbtmcUsb.number tmc)) in
  let! t := holding dev
    (let! desc := gets (fun s => descriptor dev (bus s)) in
     match desc with
     | None => bail (str "USBTMC interface has no descriptor")
     | Some eps =>
         let! (i, o, intr) := of_result (UsbtmcUsb.endpoint_addresses eps) in
         let! _ := endpoint (str "bulk-out") dev o in
         let! _ := endpoint (str "bulk-in") dev i in
         let! _ := match intr with Some a => endpoint (str "interrupt") dev a | None => ret tt end in
         let! u := gets bus in of_result (UsbtmcUsb.open_endpoints u tmc eps)
     end) in
  ret (dev, t).

(** [open] of [usbtmc/mod.rs]. *)
Definition tmc_open (timeout : Z) (port : option (list Z)) : Act St (Usbtmc.UsbtmcBackend (UsbtmcUsb.UsbtmcTransport U)) := fun s =>
  match tmc_open_transport port s with
  | (Err e, s) => (Err e, s)
  | (Ok (dev, t), s) =>
      let '(r, b) := Usbtmc.open t timeout in
      let s := mkBench (UsbtmcUsb.usb (Usbtmc.transport b)) (events s ++ [Initialised dev r]) in
      match r with Ok _ => (Ok b, s) | Err e => (Err e, give_back dev s) end
  end.

End Tmc.

(** ** The Agilent adapter, once it is ready *)

Section Agilent.
Context {D U : Type} `{UsbHost U} `{!UsbBus D U}.
Notation St := (Bench D U).

(** [UsbTransport::new] with the endpoints of the model. *)
Definition agilent_new (dev : D) (bulk_out_ep bulk_in_ep irq_in_ep timeout : Z) : Act St (AgilentHost.UsbTransport U) :=
  let! _ := endpoint (str "interrupt") dev irq_in_ep in
  let! _ := endpoint (str "bulk-out") dev bulk_out_ep in
  let! _ := endpoint (str "bulk-in") dev bulk_in_ep in
  gets (fun s => AgilentHost.new_transport (bus s) timeout).

Definition agilent_open_transport (dev : D) (bulk_out_ep irq_in_ep timeout : Z) : Act St (AgilentHost.UsbTransport U) :=
  let! _ := context (str "failed to open USB device") (on_bus (open_device dev)) in
  let! _ := context (str "failed to claim interface 0 " ++ dash ++ str " is another process using the adapter?")
              (on_bus (claim_interface dev 0)) in
  let! _ := note (Claimed dev 0) in
  let! t := holding dev (agilent_new dev bulk_out_ep AgilentMsg.EP_BULK_IN irq_in_ep timeout) in
  ret (AgilentHost.quiesce_bulk t).

End Agilent.

(** ** Lemmas *)

(** A device the NI driver supports, at the port asked for. *)
Definition ni_supported (port : option (list Z)) (dev : NiHost.DeviceInfo) : Prop :=
  (NiHost.vendor_id dev, NiHost.device_pid dev) ∈ NiUsb.USB_IDS /\ forall want, port = Some want -> NiHost.device_port dev = want.

Lemma ni_find_in_sound port devs dev pid : NiHost.find_in port devs = Ok (dev, pid) ->
  ni_supported port dev /\ pid = NiHost.device_pid dev /\ dev ∈ devs.
Proof.
  induction devs as [|d devs IH]; cbn [NiHost.find_in]; [done|].
  destruct (Z.eqb_spec (NiHost.vendor_id d) NiUsb.USB_VENDOR_ID_NI) as [Ev|]; cbn [negb].
  2: { intros (? & ? & ?)%IH. split_and!; try done. by right. }
  case_bool_decide as Ei; cbn [negb]; [|intros (? & ? & ?)%IH; split_and!; try done; by right].
  rewrite <- Ev in Ei. destruct port as [want|].
  - destruct (decide (NiHost.device_port d = want)) as [Ep|]; [|intros (? & ? & ?)%IH; split_and!; try done; by right].
    intros [= <- <-]. split_and!; [|done|left]. split; [done|]. by intros ? [= <-].
  - intros [= <- <-]. split_and!; [|done|left]. by split.
Qed.

Section NiDriver.
Context {T : Type} `{NiProofs.NiLaws T}.
Import NiMsg NiUsb NiProofs.
Notation St := (NiUsbHsBackend T).

Definition settings (b : St) : Z * Z * bool * option Z := (timeout_ms b, my_pad b, listen_only b, device_address b).

(** Nothing but control requests: no exchange, no setting changed. *)
Definition quiet (b b' : St) : Prop := trace b' = trace b /\ settings b' = settings b /\ eos_mode b' = eos_mode b.
#[export] Instance quiet_preorder : PreOrder quiet.
Proof. split; unfold quiet; [done|]. intros a b c (?&?&?) (?&?&?). split_and!; congruence. Qed.
Lemma quiet_via {A} (m : Act T A) : keeps quiet (via m).
Proof. intros b. unfold via, zoom. by destruct (m (transport b)). Qed.
Lemma quiet_on_transport f : keeps quiet (on_transport (T := T) f).
Proof. by intros b. Qed.
Hint Resolve quiet_via quiet_on_transport : keeps.
Lemma quiet_poll_ready n : forall e, keeps quiet (poll_ready (T := T) n e).
Proof. induction n; intros; simpl; keeps_auto. Qed.
Hint Resolve quiet_poll_ready : keeps.
Lemma quiet_wait_for_ready : keeps quiet (wait_for_ready (T := T)).
Proof. unfold wait_for_ready. keeps_auto. Qed.
Lemma quiet_hs_plus : keeps quiet (hs_plus_extra_init (T := T)).
Proof. unfold hs_plus_extra_init. keeps_auto. Qed.
Lemma quiet_monitor bits : keeps quiet (set_interrupt_monitor (T := T) bits).
Proof. unfold set_interrupt_monitor. keeps_auto. Qed.

(** The controller addressed as talker, as far as the adapter lets it. *)
Definition talker_addressed (pad : Z) (es : list Exchange) : Prop :=
  exists w r rest, es = mkExchange (RTakeControl true) w r :: rest /\
    if is_ok r then exists tc w' r', rest = [mkExchange (RCommand [b8 GPIB_UNL; b8 (talk_address pad)] tc) w' r'] else rest = [].

(** The exchanges of an initialisation that succeeded, in their order: the
    register sequence, acknowledged register by register; the interface clear,
    answered; remote enable, acknowledged; then, whatever comes of them, the
    controller's own addressing and a priming write of one byte. *)
Definition set_up (pad mode : Z) (es : list Exchange) : Prop :=
  exists w1 w2 w3 r1 r2 r3 addressing w4 tc r4, es = [mkExchange (RRegWrite (setup_init pad mode)) w1 (Ok r1);
    mkExchange RInterfaceClear w2 (Ok r2); mkExchange (RRegWrite [tnt REG_AUXMR AUX_SREN]) w3 (Ok r3)] ++
    addressing ++ [mkExchange (RDataWrite [x00] false tc) w4 r4] /\
    (exists s1, parse_register_write_response r1 = Ok (s1, zlen (setup_init pad mode))) /\
    (exists s3, parse_register_write_response r3 = Ok (s3, 1)) /\ talker_addressed pad addressing.

(** The last request made of the transport armed the service-request monitor, and
    was answered with a whole status block. *)
Definition monitor_armed (b : St) : Prop :=
  exists t reply, ni_control_in NI_USB_WAIT_REQUEST 0x300 IBSTA_SRQI 8 t = (Ok reply, transport b) /\ zlen reply = 8.

Lemma acknowledged_write_wp regs (b : St) :
  wp (register_write regs) (fun _ b' => exists w r s, trace b' = trace b ++ [mkExchange (RRegWrite regs) w (Ok r)] /\
      parse_register_write_response r = Ok (s, zlen regs) /\ settings b' = settings b)
    (fun _ _ => True) b.
Proof.
  unfold register_write, transact. wp_auto. unfold wp at 1.
  destruct (ni_transact _ _ (transport b)) as [[r|e] t]; [|done]. wp_auto.
  destruct (parse_register_write_response r) as [[s n]|] eqn:E; [|done].
  destruct (Z.eqb_spec n (zlen regs)) as [->|]; cbn [negb]; wp_auto; [|done]. by eexists _, r, s.
Qed.

Lemma ifc_wp (b : St) :
  wp ifc (fun _ b' => exists w r, trace b' = trace b ++ [mkExchange RInterfaceClear w (Ok r)] /\ settings b' = settings b)
    (fun _ _ => True) b.
Proof.
  unfold ifc, transact. wp_auto. unfold wp at 1. destruct (ni_transact _ _ _) as [[r|e] t]; [|done]. wp_auto.
  by eexists _, r.
Qed.

(** What follows may add exchanges and changes no setting. *)
Lemma ext_settings (b b' : St) : ext false None b b' -> settings b' = settings b /\ exists es, trace b' = trace b ++ es.
Proof.
  intros Hx. destruct (Hx ltac:(done)) as (_ & _ & _ & Ht & Hm & Hl & Hd & _ & es & E & _).
  unfold settings. split; [congruence|by exists es].
Qed.

Lemma init_tail_ext pad : keeps (ext (T := T) false None)
  (let! _ := attempt (send_command_bounded [b8 GPIB_UNL; b8 (talk_address pad)] false 100) in
   let! tc := adapter_timeout_code 10 in
   let! _ := attempt (transact (RDataWrite [x00] false tc) OP_RESP_LEN) in
   set_interrupt_monitor IBSTA_SRQI).
Proof.
  keeps_step; [apply keeps_attempt, ext_send_command|]. apply ext_arm. keeps_step; [|apply ext_monitor].
  apply keeps_attempt, ext_transact; [|done]. apply armed_floor. by intros tc [= <-].
Qed.

Lemma talker_addressed_wp pad (b : St) :
  wp (attempt (send_command_bounded [b8 GPIB_UNL; b8 (talk_address pad)] false 100))
    (fun _ b' => exists es, trace b' = trace b ++ es /\ talker_addressed pad es) (fun _ _ => False) b.
Proof.
  unfold send_command_bounded, adapter_timeout_code. wp_auto. destruct (timeout_code_floor 100) as [tc w].
  unfold on_transport. wp_auto.
  apply wp_transact; [|intros e t _; eexists; split; [reflexivity|]; by eexists _, (Err e), []]. intros r1 t1 _. wp_auto.
  cbn [chunks_16 length take drop send_chunks]. wp_auto. set (b1 := record_exchange _ t1 _).
  assert (Hend : forall w2 r t2, let b' := record_exchange (mkExchange (RCommand [b8 GPIB_UNL; b8 (talk_address pad)] tc) w2 r) t2 b1 in
    exists es, trace b' = trace b ++ es /\ talker_addressed pad es).
  { intros w2 r t2. eexists. split; [simpl; rewrite <- app_assoc; reflexivity|]. eexists _, (Ok r1), _. split; [reflexivity|].
    by eexists _, _, _. }
  apply wp_transact; [|intros e t2 _; apply Hend]. intros r2 t2 _. wp_auto.
  destruct (parse_write_response r2 _); [|apply Hend]. wp_auto. apply Hend.
Qed.

Lemma init_tail_wp pad (b : St) :
  wp (let! _ := attempt (send_command_bounded [b8 GPIB_UNL; b8 (talk_address pad)] false 100) in
      let! tc := adapter_timeout_code 10 in
      let! _ := attempt (transact (RDataWrite [x00] false tc) OP_RESP_LEN) in
      set_interrupt_monitor IBSTA_SRQI)
    (fun _ b' => monitor_armed b' /\ exists es w tc r, trace b' = trace b ++ es ++ [mkExchange (RDataWrite [x00] false tc) w r] /\
       talker_addressed pad es) (fun _ _ => True) b.
Proof.
  apply wp_bind. eapply wp_mono; [apply talker_addressed_wp|cbv beta|done]. intros _ b1 (es & E1 & Ha).
  unfold adapter_timeout_code. destruct (timeout_code_floor 10) as [tc w]. unfold on_transport. wp_auto.
  set (b2 := with_transport _ b1).
  assert (Hend : forall r t w', let b3 := record_exchange (mkExchange (RDataWrite [x00] false tc) w' r) t b2 in
    wp (set_interrupt_monitor IBSTA_SRQI)
      (fun _ b' => monitor_armed b' /\ exists es w tc r, trace b' = trace b ++ es ++ [mkExchange (RDataWrite [x00] false tc) w r] /\
         talker_addressed pad es) (fun _ _ => True) b3).
  { intros r t w' b3. unfold set_interrupt_monitor. wp_auto. unfold via, zoom, wp at 1.
    destruct (ni_control_in _ _ _ _ (transport b3)) as [[reply|e] t4] eqn:Ec; [|done].
    destruct (Z.eqb_spec (zlen reply) 8) as [E8|]; cbn [negb]; wp_auto; [|done].
    split; [by eexists _, _|]. exists es, w', tc, r. split; [|done]. cbn. by rewrite E1, <- app_assoc. }
  apply wp_transact; intros r t _; wp_auto; apply Hend.
Qed.

(** An initialisation that succeeds has set the adapter up. *)
Lemma init_wp pad (b : St) :
  wp (init pad) (fun _ b' => settings b' = (timeout_ms b, pad, listen_only b, device_address b) /\
      monitor_armed b' /\ exists es, trace b' = trace b ++ es /\ set_up pad (eos_mode b) es) (fun _ _ => True) b.
Proof.
  unfold init. wp_auto.
  set (b0 := with_read_addressing None (with_my_pad pad b)).
  assert (Q0 : trace b0 = trace b /\ settings b0 = (timeout_ms b, pad, listen_only b, device_address b) /\ eos_mode b0 = eos_mode b) by done.
  clearbody b0. destruct Q0 as (T0 & S0 & M0).
  eapply wp_keeps; [apply quiet_on_transport|cbv beta|done]. intros _ b1 (T1 & S1 & M1).
  wp_auto. eapply wp_keeps; [apply quiet_wait_for_ready|cbv beta|done]. intros _ b2 (T2 & S2 & M2). wp_auto.
  eapply (wp_keeps quiet); [destruct (_ =? _); [apply quiet_hs_plus|apply keeps_ret, _]|cbv beta|done].
  intros _ b3 (T3 & S3 & M3). wp_auto.
  eapply wp_mono; [apply acknowledged_write_wp|cbv beta|done]. intros _ b4 (w1 & r1 & s1 & T4 & P1 & S4). wp_auto.
  eapply wp_mono; [apply ifc_wp|cbv beta|done]. intros _ b5 (w2 & r2 & T5 & S5). wp_auto.
  eapply wp_mono; [apply acknowledged_write_wp|cbv beta|done]. intros _ b6 (w3 & r3 & s3 & T6 & P3 & S6).
  eapply wp_mono; [apply wp_conj; [apply init_tail_wp|]|cbv beta|done].
  { eapply wp_keeps; [apply init_tail_ext|intros ? ? Hx; exact Hx..]. }
  intros _ b7 [(Hm & addr & w4 & tc & r4 & T7 & Ha) [S7 _]%ext_settings].
  rewrite M3, M2, M1, M0 in *. split; [congruence|]. split; [done|].
  eexists. split; [|exists w1, w2, w3, r1, r2, r3, addr, w4, tc, r4; split; [reflexivity|by eauto]].
  rewrite T7, T6, T5, T4, T3, T2, T1, T0. by rewrite <- !app_assoc.
Qed.

End NiDriver.

Section NiOpen.
Context {U : Type} `{UsbClock U} `{!UsbBus NiHost.DeviceInfo U}.
Notation St := (Bench NiHost.DeviceInfo U).
Notation Round := (Error * list (Event NiHost.DeviceInfo))%type.

Lemma on_bus_events {D} `{!UsbBus D U} {A} (m : Act U A) : keeps (fun x y => events y = events x) (on_bus (D := D) m).
Proof. intros s. unfold on_bus, zoom. by destruct (m (bus s)). Qed.

Lemma ni_find_device_wp port (s : St) :
  wp (ni_find_device port) (fun r s' => events s' = events s /\ ni_supported port r.1 /\ r.2 = NiHost.device_pid r.1)
    (fun _ s' => events s' = events s) s.
Proof.
  unfold ni_find_device. wp_auto. eapply wp_keeps; [apply on_bus_events|..]; cbv beta; intros ? s1 E; wp_auto; [|done].
  unfold NiHost.find_device. cbn [map_err rbind]. destruct (NiHost.find_in port a) as [[dev pid]|] eqn:Ef; [|done].
  by apply ni_find_in_sound in Ef as (? & ? & _).
Qed.

(** The device is claimed once it is found and opened; endpoints come after. *)
Definition claimed (port : option (list Z)) (s s' : St) : Prop :=
  events s' = events s \/ exists dev, ni_supported port dev /\ events s' = events s ++ [Claimed dev 0].

Lemma ni_open_transport_wp port (s : St) :
  wp (ni_open_transport port) (fun r s' => ni_supported port r.1 /\ events s' = events s ++ [Claimed r.1 0])
    (fun _ s' => claimed port s s') s.
Proof.
  unfold ni_open_transport. wp_auto. eapply wp_mono; [apply ni_find_device_wp|cbv beta|intros e s1 E; by left].
  intros [dev pid] s1 (E1 & Hs & Hp). cbn [fst snd] in *. wp_auto.
  eapply wp_keeps; [apply on_bus_events|cbv beta|intros e s2 E2; left; congruence]. intros _ s2 E2. wp_auto.
  eapply wp_keeps; [apply on_bus_events|cbv beta|intros e s3 E3; left; congruence]. intros _ s3 E3. unfold note. wp_auto.
  set (s4 := mkBench _ _). assert (E4 : events s4 = events s ++ [Claimed dev 0]) by (cbn; congruence). clearbody s4.
  apply wp_holding. unfold endpoint, give_back. wp_auto.
  eapply wp_keeps; [apply on_bus_events|cbv beta|intros e s5 E5; right; exists dev; split; [done|cbn [events]; congruence]]. intros _ s5 E5. wp_auto.
  eapply wp_keeps; [apply on_bus_events|cbv beta|intros e s6 E6; right; exists dev; split; [done|cbn [events]; congruence]]. intros _ s6 E6. wp_auto.
  eapply wp_keeps; [apply on_bus_events|cbv beta|intros e s7 E7; right; exists dev; split; [done|cbn [events]; congruence]]. intros _ s7 E7. wp_auto.
  split; [done|]. cbn [fst]. congruence.
Qed.

(** One reset of a configuration, and how it went: the active configuration, or
    the first where none is known, applied to a supported adapter; or not. *)
Definition reset_tried (port : option (list Z)) (ev : Event NiHost.DeviceInfo) : Prop :=
  match ev with
  | Reapplied dev active c => ni_supported port dev /\ c = default 1 active
  | NotReapplied _ => True
  | _ => False
  end.

Lemma reset_configuration_events port (s : St) :
  exists ev, events (reset_configuration port s).2 = events s ++ [ev] /\ reset_tried port ev.
Proof.
  enough (Hw : wp (reset_configuration port)
    (fun _ s' => exists ev, events s' = events s ++ [ev] /\ reset_tried port ev)
    (fun _ s' => exists ev, events s' = events s ++ [ev] /\ reset_tried port ev) s).
  { unfold wp in Hw. by destruct (reset_configuration port s) as [[|] s']. }
  unfold reset_configuration. apply wp_noting.
  enough (Hw : wp (let! (dev, _) := ni_find_device port in
      let! _ := context (str "failed to reopen NI USB device") (on_bus (open_device dev)) in
      let! active := gets (fun s => active_configuration dev (bus s)) in
      let! _ := context (str "failed to re-apply USB configuration " ++ to_string (default 1 active))
                  (on_bus (set_configuration dev (default 1 active))) in
      note (Reapplied dev active (default 1 active)))
    (fun _ s' => exists ev, events s' = events s ++ [ev] /\ reset_tried port ev) (fun _ s' => events s' = events s) s).
  { eapply wp_mono; [exact Hw|done|]. intros e s' E. eexists. cbn. by rewrite E. }
  wp_auto. eapply wp_mono; [apply ni_find_device_wp|cbv beta|done].
  intros [dev pid] s1 (E1 & Hs & _). wp_auto.
  eapply wp_keeps; [apply on_bus_events|cbv beta|intros; congruence]. intros _ s2 E2. wp_auto.
  eapply wp_keeps; [apply on_bus_events|cbv beta|intros; congruence]. intros _ s3 E3. unfold note. wp_auto.
  eexists. split; [cbn; by rewrite E3, E2, E1|]. by split.
Qed.

(** A round that failed with [e]. *)
Definition ni_round (port : option (list Z)) (r : Round) : Prop :=
  exists dev reset, ni_supported port dev /\ reset_tried port reset /\
    r.2 = [Claimed dev 0; Initialised dev (Err r.1); reset; Paused (from_millis 500)].

(** How a run of [n] attempts ends. *)
Definition ni_opened (n : nat) (timeout : Z) (port : option (list Z)) (s : St)
    (ctrl : NiUsb.NiUsbHsBackend (NiHost.NiUsbTransport U)) (s' : St) : Prop :=
  exists (rounds : list Round) dev,
    events s' = events s ++ concat (map snd rounds) ++ [Claimed dev 0; Initialised dev (Ok tt)] /\
    (length rounds < n)%nat /\ Forall (ni_round port) rounds /\ ni_supported port dev /\
    NiUsb.reachable ctrl /\ settings ctrl = (timeout, 0, false, None) /\ set_up 0 0 (NiUsb.trace ctrl) /\
    monitor_armed ctrl /\ bus s' = NiHost.host (NiUsb.transport ctrl).
Definition ni_failed (n : nat) (port : option (list Z)) (last : Error) (s : St) (e : Error) (s' : St) : Prop :=
  exists (rounds : list Round) rest, events s' = events s ++ concat (map snd rounds) ++ rest /\ Forall (ni_round port) rounds /\
    (((length rounds < n)%nat /\ (rest = [] \/ exists dev, ni_supported port dev /\ rest = [Claimed dev 0])) \/
     (length rounds = n /\ rest = [] /\ e = in_context ni_gave_up (foldl (fun _ r => r.1) last rounds))).

(** One failed round in front. *)
Lemma ni_opened_cons n timeout port (s s1 s' : St) ctrl r : events s1 = events s ++ r.2 -> ni_round port r ->
  ni_opened n timeout port s1 ctrl s' -> ni_opened (S n) timeout port s ctrl s'.
Proof.
  intros E Hr (rounds & dev & E' & Hl & Hf & Hrest). exists (r :: rounds), dev.
  split_and!; [|cbn; lia|by constructor|apply Hrest..]. rewrite E', E. cbn. by rewrite <- !app_assoc.
Qed.
Lemma ni_failed_cons n port last (s s1 s' : St) e r : events s1 = events s ++ r.2 -> ni_round port r ->
  ni_failed n port r.1 s1 e s' -> ni_failed (S n) port last s e s'.
Proof.
  intros E Hr (rounds & rest & E' & Hf & Hend). exists (r :: rounds), rest.
  split_and!; [|by constructor|].
  - rewrite E', E. cbn. by rewrite <- !app_assoc.
  - destruct Hend as [[Hl Hrest]|(Hl & Hrest & He)]; [left|right]; cbn [length foldl]; split_and!; try done; lia.
Qed.

Lemma ni_attempts_wp timeout port n : forall last (s : St),
  wp (ni_attempts n timeout port last) (ni_opened n timeout port s) (ni_failed n port last s) s.
Proof.
  induction n as [|n IH]; intros last s; unfold wp; cbn [ni_attempts].
  { exists [], []. rewrite !app_nil_r. split_and!; [done|constructor|]. by right. }
  pose proof (ni_open_transport_wp port s) as Ho. unfold wp in Ho.
  destruct (ni_open_transport port s) as [[[dev pid]|e] s1].
  2: { destruct Ho as [E|(dev & Hs & E)]; [exists [], []|exists [], [Claimed dev 0]]; rewrite ?app_nil_r.
       all: split_and!; [done|constructor|left; split; [cbn; lia|eauto]]. }
  destruct Ho as [Hs E]. cbn [fst] in *. set (b := NiUsb.new _ timeout).
  pose proof (init_wp 0 b) as Hi. unfold wp in Hi.
  assert (Hreach : NiUsb.reachable (NiUsb.init 0 b).2) by (apply (NiUsb.reach_op _ (NiUsb.OInit 0)), NiUsb.reach_new).
  destruct (NiUsb.init 0 b) as [[[]|e] ctrl] eqn:Ei.
  { destruct Hi as (Hset & Hm & es & Et & Hup). exists [], dev. cbn [events map concat app].
    split_and!; [by rewrite E, <- app_assoc|cbn; lia|constructor|done|done|done|by rewrite Et|done|done]. }
  set (s2 := give_back dev _). destruct (reset_configuration_events port s2) as (reset & E3 & Hr).
  set (s4 := (pause _ _).2).
  assert (E4 : events s4 = events s ++ (e, [Claimed dev 0; Initialised dev (Err e); reset; Paused (from_millis 500)]).2).
  { cbn. rewrite E3. cbn. rewrite E, <- !app_assoc. done. }
  assert (Hround : ni_round port (e, [Claimed dev 0; Initialised dev (Err e); reset; Paused (from_millis 500)])).
  { by exists dev, reset. }
  change (wp (ni_attempts n timeout port e) (ni_opened (S n) timeout port s) (ni_failed (S n) port last s) s4).
  eapply wp_mono; [apply IH|..]; cbv beta.
  - intros c s'. by apply ni_opened_cons with (r := (e, [Claimed dev 0; Initialised dev (Err e); reset; Paused (from_millis 500)])).
  - intros e' s'. by apply ni_failed_cons with (r := (e, [Claimed dev 0; Initialised dev (Err e); reset; Paused (from_millis 500)])).
Qed.

(** ** Properties *)

(** C37: an NI adapter is handed on only when it is set up.  [open] makes at
    most three attempts, each on an adapter of the supported models at the port
    asked for, claims its interface before initialising it, and after every
    failed initialisation tries once to re-apply the configuration of such an
    adapter - its active one, or the first - and pauses for half a second.  What
    it returns is a driver in a reachable state, at address 0, controller in
    charge with the timeout asked for, whose exchanges with the adapter were
    these and no others: the register sequence and remote enable, each
    acknowledged register by register, with an answered interface clear between
    them, then - whatever came of them, which the code ignores - the addressing
    of the controller itself and a priming write; and whose last request armed
    the service-request monitor and was answered in full.  When it fails it is
    because no adapter could be opened, or with the error of the third
    initialisation.  (The ready polls and the HS+ model's extra requests, which
    are control transfers, come before and are not part of the statement.) *)
Theorem ni_open_sound timeout port (s : St) :
  wp (ni_open timeout port) (ni_opened 3 timeout port s) (ni_failed 3 port [] s) s.
Proof. apply ni_attempts_wp. Qed.

End NiOpen.

(** ** An adapter on the shelf

    It answers every request but leaves the register writes of its first
    sessions unanswered. *)
Record Shelf : Type := mkShelf { adapter : NiUsb.Adapter; asked : option (list byte); stuck : nat; sh_clock : Z }.
Definition shelf_dev : NiHost.DeviceInfo := NiHost.mkDeviceInfo NiUsb.USB_VENDOR_ID_NI NiUsb.PID_NI_USB_HS (str "2-1").

#[export] Instance Shelf_host : UsbHost Shelf := {|
  urb_out c _ u := (Completed tt, mkShelf (adapter u) (Some c) (stuck u) (sh_clock u));
  urb_in n w u :=
    match asked u with
    | None => (TimedOut, mkShelf (adapter u) None (stuck u) (sh_clock u + Z.max 0 w))
    | Some req =>
        if (NiMsg.at_ req 0 =? NiMsg.NIUSB_REG_WRITE_ID) && (0 <? stuck u)%nat then
          (TimedOut, mkShelf (adapter u) None (pred (stuck u)) (sh_clock u + Z.max 0 w))
        else let '(r, a) := NiUsb.adapter_reply req (adapter u) in (Completed (ztake n r), mkShelf a None (stuck u) (sh_clock u))
    end;
  urb_out_done _ u := (Ok tt, u);
  next_in w u := (TimedOut, mkShelf (adapter u) (asked u) (stuck u) (sh_clock u + Z.max 0 w));
  max_packet_size _ := 64;
  discard_in u := u;
  discard_out u := u;
  clear_halt_in u := (Ok tt, u);
  clear_halt_out u := (Ok tt, u);
  host_control_in c u := (Ok (replicate (Z.to_nat (length_ c)) x01), u);
  interrupts_within _ u := ([], u);
  usb_now := sh_clock;
  usb_sleep u d := mkShelf (adapter u) (asked u) (stuck u) (sh_clock u + Z.max 0 d);
|}.
#[export] Instance Shelf_clock : UsbClock Shelf.
Proof.
  split; intros; cbn; try lia. destruct (asked u); cbn; [|lia]. destruct (_ && _); [cbn; lia|].
  by destruct (NiUsb.adapter_reply _ _); cbn; lia.
Qed.
#[export] Instance Shelf_bus : UsbBus NiHost.DeviceInfo Shelf := {|
  list_devices u := (Ok [shelf_dev], u);
  open_device _ u := (Ok tt, u);
  claim_interface _ _ u := (Ok tt, u);
  open_endpoint _ _ u := (Ok tt, u);
  release _ u := u;
  active_configuration _ _ := Some 1;
  set_configuration _ _ u := (Ok tt, u);
|}.

Lemma ni_open_sound_witness :
  let s := mkBench (mkShelf (NiUsb.mkAdapter [] None 0 0 false None) None 1 0) [] in
  let s' := (ni_open 3000 (Some (str "2-1")) s).2 in
  length (events s') = 6%nat /\ exists ctrl, (ni_open 3000 (Some (str "2-1")) s).1 = Ok ctrl /\
    ni_opened 3 3000 (Some (str "2-1")) s ctrl s'.
Proof.
  intros s s'. split; [by vm_compute|].
  destruct ((ni_open 3000 (Some (str "2-1")) s).1) as [ctrl|e] eqn:E; [|by vm_compute in E].
  exists ctrl. split; [done|]. exact (wp_ok _ _ _ s ctrl (ni_open_sound 3000 (Some (str "2-1")) s) E).
Defined.

End Attach.
