(* ===== verification/Stream.v ===== *)
(** * A client's end of a TCP connection

    The bytes still to arrive and the bytes sent so far.  Neither end waits for
    the other here: a session of two parties is a pair of byte streams, each
    being what the other party sends. *)

From S2P Require Import Prelude Xdr Rpc.

Module Stream.
Import Rpc.Io.

(** [write_error]: why writing fails, if it does. *)
Record Stream : Type := mkStream { inbox : Reader; outbox : list byte; write_error : option IoError }.

(** [write_all] and [flush]. *)
Definition transmit (wire : list byte) (st : Stream) : result unit IoError * Stream :=
  match write_error st with
  | Some e => (Err e, st)
  | None => (Ok tt, mkStream (inbox st) (outbox st ++ wire) None)
  end.

Definition with_inbox (rd : Reader) (st : Stream) : Stream := mkStream rd (outbox st) (write_error st).

End Stream.
