(* ===== verification/Vxi11Client.v ===== *)
(** * The VXI-11 client: [src/vxi11/client.rs]

    The core-channel client the command line and the tests use, the receiver of
    service requests and the one-shot abort.  A connection is the bytes still to
    arrive and the bytes sent so far; where a read fails, what it leaves of the
    incoming bytes is a parameter.  Each constructor of [ClientError] is one of
    the errors the code builds, with the values its text prints.

    The theorems put this client in front of [Vxi11Server.serve_connection]:
    what travels between them is the byte streams alone. *)

From S2P Require Import Prelude RustStr Lock Backend Xdr Rpc Messages Vxi11Ops Vxi11Server Stream.

Module Vxi11Client.
Import RustStr Backend Messages Rpc.Io Vxi11Ops Vxi11Server Stream.

Record Vxi11Client : Type := mkClient { stream : Stream; xid : Z }.

(** A decoded RPC-level outcome. *)
Inductive Reply : Type := Success (results : list byte) | Accepted (stat : Z) | Denied (stat : Z).

Inductive ClientError : Type :=
| IoFailed (e : Io.IoError)
| Closed                                   (* the server closed the connection mid-call *)
| BadReply (e : Rpc.ReplyError)
| BadResult (e : Xdr.XdrError)
| CoreAccepted (stat proc : Z)
| CoreDenied (stat proc : Z)
| AbortFailed (r : Reply).

Section Client.
(** What a failed read leaves to be read, and [std::process::id()]. *)
Variable left_over : Reader -> Reader.
Variable pid : Z.

Definition Run (A : Type) : Type := Vxi11Client -> result A ClientError * Vxi11Client.

Definition connect (st : Stream) : Vxi11Client := mkClient st 1.

(** [write_record] and [read_record] on the stream; the fuel of the latter is
    always enough ([Rpc.read_record_total]). *)
Definition send_record (record : list byte) (st : Stream) : result unit Io.IoError * Stream :=
  match Rpc.write_record record with
  | Err e => (Err e, st)
  | Ok wire => transmit wire st
  end.
Definition receive_record (max : Z) (st : Stream) : result (option (list byte)) Io.IoError * Stream :=
  match Rpc.read_record (inbox st) max with
  | Some (Ok (r, rd)) => (Ok r, with_inbox rd st)
  | Some (Err e) => (Err e, with_inbox (left_over (inbox st)) st)
  | None => (Err InvalidData, st)
  end.

Definition call (prog vers proc : Z) (args : list byte) : Run Reply := fun c =>
  let xid := as_u32 (xid c + 1) in
  let record := Rpc.encode_call xid prog vers proc args in
  let '(sent, st) := send_record record (stream c) in
  match sent with
  | Err e => (Err (IoFailed e), mkClient st xid)
  | Ok _ =>
      let '(received, st) := receive_record Rpc.RECORD_MAX st in
      (match received with
       | Err e => Err (IoFailed e)
       | Ok None => Err Closed
       | Ok (Some reply) =>
           match Rpc.decode_reply reply xid with
           | Err e => Err (BadReply e)
           | Ok (Rpc.Success results) => Ok (Success results)
           | Ok (Rpc.Accepted stat) => Ok (Accepted stat)
           | Ok (Rpc.Denied stat) => Ok (Denied stat)
           end
       end, mkClient st xid)
  end.

Definition core (proc : Z) (args : list byte) : Run (list byte) := fun c =>
  let '(r, c) := call DEVICE_CORE_PROG DEVICE_CORE_VERS proc args c in
  (match r with
   | Err e => Err e
   | Ok (Success results) => Ok results
   | Ok (Accepted stat) => Err (CoreAccepted stat proc)
   | Ok (Denied stat) => Err (CoreDenied stat proc)
   end, c).

(** [let results = self.core(proc, &args).await?; Ok(T::decode(&results)?)]. *)
Definition core_as {A} (dec : list byte -> result A Xdr.XdrError) (proc : Z) (args : list byte) : Run A := fun c =>
  let '(r, c) := core proc args c in
  (match r with Err e => Err e | Ok results => map_err BadResult (dec results) end, c).

Definition create_link (device : list Z) : Run CreateLinkResp :=
  core_as CreateLinkResp_decode CREATE_LINK (CreateLinkParms_encode (mkCreateLinkParms (as_i32 pid) false 0 (as_bytes device)) []).

Definition device_write (lid : Z) (data : list byte) (end_ : bool) (io_timeout_ms : Z) : Run DeviceWriteResp :=
  core_as DeviceWriteResp_decode DEVICE_WRITE
    (DeviceWriteParms_encode (mkDeviceWriteParms lid io_timeout_ms 0 (if end_ then OP_FLAG_END else 0) data) []).

Definition U32_MAX : Z := 4294967295.

Definition device_read (lid request_size io_timeout_ms : Z) (term_char : option Z) : Run DeviceReadResp :=
  core_as (fun d => DeviceReadResp_decode d U32_MAX) DEVICE_READ
    (DeviceReadParms_encode (mkDeviceReadParms lid request_size io_timeout_ms 0
       (match term_char with Some _ => OP_FLAG_TERMCHRSET | None => 0 end) (default 0 term_char)) []).

Definition generic (lid io_timeout_ms : Z) : list byte :=
  DeviceGenericParms_encode (mkDeviceGenericParms lid 0 0 io_timeout_ms) [].

Definition device_readstb (lid io_timeout_ms : Z) : Run DeviceReadStbResp :=
  core_as DeviceReadStbResp_decode DEVICE_READSTB (generic lid io_timeout_ms).
Definition device_trigger (lid : Z) : Run Z := core_as decode_device_error DEVICE_TRIGGER (generic lid 0).
Definition device_clear (lid : Z) : Run Z := core_as decode_device_error DEVICE_CLEAR (generic lid 0).
Definition device_remote (lid : Z) : Run Z := core_as decode_device_error DEVICE_REMOTE (generic lid 0).
Definition device_local (lid : Z) : Run Z := core_as decode_device_error DEVICE_LOCAL (generic lid 0).

Definition destroy_link (lid : Z) : Run Z := core_as decode_device_error DESTROY_LINK (Xdr.put_i32 [] lid).

Definition create_link_locked (device : list Z) (lock_timeout_ms : Z) : Run CreateLinkResp :=
  core_as CreateLinkResp_decode CREATE_LINK
    (CreateLinkParms_encode (mkCreateLinkParms (as_i32 pid) true lock_timeout_ms (as_bytes device)) []).

Definition device_lock (lid : Z) (waitlock : bool) (lock_timeout_ms : Z) : Run Z :=
  core_as decode_device_error DEVICE_LOCK
    (DeviceLockParms_encode (mkDeviceLockParms lid (if waitlock then OP_FLAG_WAITLOCK else 0) lock_timeout_ms) []).

Definition device_unlock (lid : Z) : Run Z := core_as decode_device_error DEVICE_UNLOCK (Xdr.put_i32 [] lid).

Definition device_write_flags (lid : Z) (data : list byte) (flags lock_timeout_ms : Z) : Run DeviceWriteResp :=
  core_as DeviceWriteResp_decode DEVICE_WRITE
    (DeviceWriteParms_encode (mkDeviceWriteParms lid 0 lock_timeout_ms flags data) []).

Definition device_enable_srq (lid : Z) (enable : bool) (handle : list byte) : Run Z :=
  core_as decode_device_error DEVICE_ENABLE_SRQ (DeviceEnableSrqParms_encode (mkDeviceEnableSrqParms lid enable handle) []).

Definition create_intr_chan (host_addr host_port prog_num prog_vers prog_family : Z) : Run Z :=
  core_as decode_device_error CREATE_INTR_CHAN
    (DeviceRemoteFunc_encode (mkDeviceRemoteFunc host_addr host_port prog_num prog_vers prog_family) []).

Definition destroy_intr_chan : Run Z := core_as decode_device_error DESTROY_INTR_CHAN [].

Definition device_docmd (lid cmd : Z) (network_order : bool) (datasize : Z) (data_in : list byte) : Run DeviceDocmdResp :=
  core_as DeviceDocmdResp_decode DEVICE_DOCMD
    (DeviceDocmdParms_encode (mkDeviceDocmdParms lid 0 0 0 cmd network_order datasize data_in) []).

(** One-shot, over a connection of its own to the abort channel. *)
Definition device_abort (lid : Z) (st : Stream) : result Z ClientError * Vxi11Client :=
  let '(r, c) := call DEVICE_ASYNC_PROG DEVICE_ASYNC_VERS DEVICE_ABORT (Xdr.put_i32 [] lid) (connect st) in
  (match r with
   | Err e => Err e
   | Ok (Success results) => map_err BadResult (decode_device_error results)
   | Ok other => Err (AbortFailed other)
   end, c).

(** ** Receiving service requests: [IntrServer]

    One connection of [run]: the handles it passes on.  The loop turns once per
    record, so the bytes that arrive are enough fuel ([intr_turns_enough]). *)
Fixpoint intr_connection (fuel : nat) (st : Stream) : option (list (list byte) * Stream) :=
  match fuel with
  | O => None
  | S fuel =>
      let '(received, st) := receive_record 4096 st in
      match received with
      | Ok (Some record) =>
          match Rpc.decode_call record with
          | Err _ => Some ([], st)
          | Ok (header, args) =>
              if negb (Rpc.prog header =? DEVICE_INTR_PROG) || negb (Rpc.proc header =? DEVICE_INTR_SRQ) then
                intr_connection fuel (send_record (Rpc.reply_prog_unavail (Rpc.xid header)) st).2
              else
                let got := match DeviceSrqParms_decode args with Ok parms => [dsp_handle parms] | Err _ => [] end in
                match send_record (Rpc.reply_success (Rpc.xid header) []) st with
                | (Err _, st) => Some (got, st)
                | (Ok _, st) => '(more, st) ← intr_connection fuel st; Some (got ++ more, st)
                end
          end
      | _ => Some ([], st)
      end
  end.

Definition intr_serve (st : Stream) : option (list (list byte) * Stream) :=
  intr_connection (S (length (avail (inbox st)))) st.

(** ** A session *)

Inductive Request : Type :=
| CreateLink (device : list Z)
| CreateLinkLocked (device : list Z) (lock_timeout_ms : Z)
| DeviceWrite (lid : Z) (data : list byte) (end_ : bool) (io_timeout_ms : Z)
| DeviceWriteFlags (lid : Z) (data : list byte) (flags lock_timeout_ms : Z)
| DeviceRead (lid request_size io_timeout_ms : Z) (term_char : option Z)
| DeviceReadstb (lid io_timeout_ms : Z)
| DeviceTrigger (lid : Z) | DeviceClear (lid : Z) | DeviceRemote (lid : Z) | DeviceLocal (lid : Z)
| DestroyLink (lid : Z)
| DeviceLock (lid : Z) (waitlock : bool) (lock_timeout_ms : Z)
| DeviceUnlock (lid : Z)
| DeviceEnableSrq (lid : Z) (enable : bool) (handle : list byte)
| CreateIntrChan (host_addr host_port prog_num prog_vers prog_family : Z)
| DestroyIntrChan
| DeviceDocmd (lid cmd : Z) (network_order : bool) (datasize : Z) (data_in : list byte).

Inductive Response : Type :=
| RLink (r : CreateLinkResp) | RWrite (r : DeviceWriteResp) | RRead (r : DeviceReadResp) | RStb (r : DeviceReadStbResp)
| RError (e : Z) | RDocmd (r : DeviceDocmdResp).

Definition as_ {A} (f : A -> Response) (m : Run A) : Run Response := fun c =>
  let '(r, c) := m c in (match r with Ok a => Ok (f a) | Err e => Err e end, c).

Definition request (r : Request) : Run Response :=
  match r with
  | CreateLink d => as_ RLink (create_link d)
  | CreateLinkLocked d t => as_ RLink (create_link_locked d t)
  | DeviceWrite l d e t => as_ RWrite (device_write l d e t)
  | DeviceWriteFlags l d f t => as_ RWrite (device_write_flags l d f t)
  | DeviceRead l n t c => as_ RRead (device_read l n t c)
  | DeviceReadstb l t => as_ RStb (device_readstb l t)
  | DeviceTrigger l => as_ RError (device_trigger l)
  | DeviceClear l => as_ RError (device_clear l)
  | DeviceRemote l => as_ RError (device_remote l)
  | DeviceLocal l => as_ RError (device_local l)
  | DestroyLink l => as_ RError (destroy_link l)
  | DeviceLock l w t => as_ RError (device_lock l w t)
  | DeviceUnlock l => as_ RError (device_unlock l)
  | DeviceEnableSrq l e h => as_ RError (device_enable_srq l e h)
  | CreateIntrChan h p n v f => as_ RError (create_intr_chan h p n v f)
  | DestroyIntrChan => as_ RError destroy_intr_chan
  | DeviceDocmd l c o n d => as_ RDocmd (device_docmd l c o n d)
  end.

(** Request after request, until one fails. *)
Fixpoint requests (rs : list Request) : Run (list Response) := fun c =>
  match rs with
  | [] => (Ok [], c)
  | r :: rs =>
      let '(a, c) := request r c in
      match a with
      | Err e => (Err e, c)
      | Ok a => let '(l, c) := requests rs c in (match l with Ok l => Ok (a :: l) | Err e => Err e end, c)
      end
  end.

End Client.

(** ** What the procedures do, without the wire *)

Section Direct.
Context {B : Type} `{GpibBackend B}.
Variable instrument_for : Z -> Z.
Variable pid : Z.

Definition write_direct (ce : CallEnv (B := B)) (s : Shared) (conn : ConnState) (b : B) (p : DeviceWriteParms)
    : option (Response * Shared * ConnState * B) :=
  if max_recv_size (config s) <? zlen (dwp_data p)
  then Some (RWrite (mkDeviceWriteResp (error_as_u32 ParameterError) 0), s, conn, b)
  else '(resp, s, b) ← Vxi11Ops.device_write (c_env ce) (c_fuel ce) s b p; Some (RWrite resp, s, conn, b).

Definition link_direct (ce : CallEnv (B := B)) (s : Shared) (conn : ConnState) (b : B) (p : CreateLinkParms)
    : option (Response * Shared * ConnState * B) :=
  '(resp, s, conn) ← Vxi11Server.create_link instrument_for (e_turns (c_env ce)) (now b) s conn p;
  Some (RLink resp, s, conn, b).

Definition simple_direct (proc lid : Z) (ce : CallEnv (B := B)) (s : Shared) (conn : ConnState) (b : B)
    : option (Response * Shared * ConnState * B) :=
  '(e, s, b) ← device_simple (c_env ce) s b proc (mkDeviceGenericParms lid 0 0 0); Some (RError e, s, conn, b).

(** The handler a request means, called in place. *)
Definition direct (ce : CallEnv (B := B)) (s : Shared) (conn : ConnState) (b : B) (r : Request)
    : option (Response * Shared * ConnState * B) :=
  let env := c_env ce in
  let code e s conn b := Some (RError (error_as_u32 e), s, conn, b) in
  match r with
  | CreateLink d => link_direct ce s conn b (mkCreateLinkParms (as_i32 pid) false 0 (as_bytes d))
  | CreateLinkLocked d t => link_direct ce s conn b (mkCreateLinkParms (as_i32 pid) true t (as_bytes d))
  | DeviceWrite l d e t => write_direct ce s conn b (mkDeviceWriteParms l t 0 (if e then OP_FLAG_END else 0) d)
  | DeviceWriteFlags l d f t => write_direct ce s conn b (mkDeviceWriteParms l 0 t f d)
  | DeviceRead l n t c =>
      '(resp, s, b) ← Vxi11Ops.device_read env (c_fuel ce) s b
        (mkDeviceReadParms l n t 0 (match c with Some _ => OP_FLAG_TERMCHRSET | None => 0 end) (default 0 c));
      Some (RRead resp, s, conn, b)
  | DeviceReadstb l t =>
      '(resp, s, b) ← Vxi11Ops.device_readstb env s b (mkDeviceGenericParms l 0 0 t); Some (RStb resp, s, conn, b)
  | DeviceTrigger l => simple_direct DEVICE_TRIGGER l ce s conn b
  | DeviceClear l => simple_direct DEVICE_CLEAR l ce s conn b
  | DeviceRemote l => simple_direct DEVICE_REMOTE l ce s conn b
  | DeviceLocal l => simple_direct DEVICE_LOCAL l ce s conn b
  | DestroyLink l => let '(e, s, conn) := Vxi11Server.destroy_link s conn l in code e s conn b
  | DeviceLock l w t =>
      '(e, s) ← Vxi11Ops.device_lock (c_wakes ce) s b (mkDeviceLockParms l (if w then OP_FLAG_WAITLOCK else 0) t);
      code e s conn b
  | DeviceUnlock l => let '(e, s) := Vxi11Ops.device_unlock s l in code e s conn b
  | DeviceEnableSrq l e h =>
      let '(e, s, conn, b) := Vxi11Server.device_enable_srq env s conn b (mkDeviceEnableSrqParms l e h) in code e s conn b
  | CreateIntrChan a p n v f =>
      let '(e, conn) := Vxi11Server.create_intr_chan (c_connect ce) conn (mkDeviceRemoteFunc a p n v f) in code e s conn b
  | DestroyIntrChan => let '(e, conn) := Vxi11Server.destroy_intr_chan conn in code e s conn b
  | DeviceDocmd l c o n d =>
      '(resp, s, b) ← Vxi11Ops.device_docmd env s b (mkDeviceDocmdParms l 0 0 0 c o n d); Some (RDocmd resp, s, conn, b)
  end.

End Direct.

(** ** The wire *)

Section Wire.
Variable pid : Z.

(** The procedure and the arguments of a request, and the response's results. *)
Definition proc_of (r : Request) : Z :=
  match r with
  | CreateLink _ | CreateLinkLocked _ _ => CREATE_LINK
  | DeviceWrite _ _ _ _ | DeviceWriteFlags _ _ _ _ => DEVICE_WRITE
  | DeviceRead _ _ _ _ => DEVICE_READ
  | DeviceReadstb _ _ => DEVICE_READSTB
  | DeviceTrigger _ => DEVICE_TRIGGER
  | DeviceClear _ => DEVICE_CLEAR
  | DeviceRemote _ => DEVICE_REMOTE
  | DeviceLocal _ => DEVICE_LOCAL
  | DestroyLink _ => DESTROY_LINK
  | DeviceLock _ _ _ => DEVICE_LOCK
  | DeviceUnlock _ => DEVICE_UNLOCK
  | DeviceEnableSrq _ _ _ => DEVICE_ENABLE_SRQ
  | CreateIntrChan _ _ _ _ _ => CREATE_INTR_CHAN
  | DestroyIntrChan => DESTROY_INTR_CHAN
  | DeviceDocmd _ _ _ _ _ => DEVICE_DOCMD
  end.

Definition args_of (r : Request) : list byte :=
  match r with
  | CreateLink d => CreateLinkParms_encode (mkCreateLinkParms (as_i32 pid) false 0 (as_bytes d)) []
  | CreateLinkLocked d t => CreateLinkParms_encode (mkCreateLinkParms (as_i32 pid) true t (as_bytes d)) []
  | DeviceWrite l d e t => DeviceWriteParms_encode (mkDeviceWriteParms l t 0 (if e then OP_FLAG_END else 0) d) []
  | DeviceWriteFlags l d f t => DeviceWriteParms_encode (mkDeviceWriteParms l 0 t f d) []
  | DeviceRead l n t c =>
      DeviceReadParms_encode
        (mkDeviceReadParms l n t 0 (match c with Some _ => OP_FLAG_TERMCHRSET | None => 0 end) (default 0 c)) []
  | DeviceReadstb l t => generic l t
  | DeviceTrigger l | DeviceClear l | DeviceRemote l | DeviceLocal l => generic l 0
  | DestroyLink l | DeviceUnlock l => Xdr.put_i32 [] l
  | DeviceLock l w t => DeviceLockParms_encode (mkDeviceLockParms l (if w then OP_FLAG_WAITLOCK else 0) t) []
  | DeviceEnableSrq l e h => DeviceEnableSrqParms_encode (mkDeviceEnableSrqParms l e h) []
  | CreateIntrChan a p n v f => DeviceRemoteFunc_encode (mkDeviceRemoteFunc a p n v f) []
  | DestroyIntrChan => []
  | DeviceDocmd l c o n d => DeviceDocmdParms_encode (mkDeviceDocmdParms l 0 0 0 c o n d) []
  end.

Definition results_of (a : Response) : list byte :=
  match a with
  | RLink r => CreateLinkResp_encode r
  | RWrite r => DeviceWriteResp_encode r
  | RRead r => DeviceReadResp_encode r
  | RStb r => DeviceReadStbResp_encode r
  | RError e => encode_device_error e
  | RDocmd r => DeviceDocmdResp_encode r
  end.

Definition parse (r : Request) (d : list byte) : result Response Xdr.XdrError :=
  match r with
  | CreateLink _ | CreateLinkLocked _ _ => let? a := CreateLinkResp_decode d in Ok (RLink a)
  | DeviceWrite _ _ _ _ | DeviceWriteFlags _ _ _ _ => let? a := DeviceWriteResp_decode d in Ok (RWrite a)
  | DeviceRead _ _ _ _ => let? a := DeviceReadResp_decode d U32_MAX in Ok (RRead a)
  | DeviceReadstb _ _ => let? a := DeviceReadStbResp_decode d in Ok (RStb a)
  | DeviceDocmd _ _ _ _ _ => let? a := DeviceDocmdResp_decode d in Ok (RDocmd a)
  | _ => let? a := decode_device_error d in Ok (RError a)
  end.

(** Arguments in the range of their types, and variable parts within what the
    server's decoder takes. *)
Definition Request_wf (r : Request) : Prop :=
  match r with
  | CreateLink d => zlen (as_bytes d) <= DEVICE_NAME_MAX
  | CreateLinkLocked d t => in_u32 t /\ zlen (as_bytes d) <= DEVICE_NAME_MAX
  | DeviceWrite l d _ t => in_i32 l /\ in_u32 t /\ in_u32 (zlen d)
  | DeviceWriteFlags l d f t => in_i32 l /\ in_u32 f /\ in_u32 t /\ in_u32 (zlen d)
  | DeviceRead l n t c => in_i32 l /\ in_u32 n /\ in_u32 t /\ in_u8 (default 0 c)
  | DeviceReadstb l t => in_i32 l /\ in_u32 t
  | DeviceTrigger l | DeviceClear l | DeviceRemote l | DeviceLocal l | DestroyLink l | DeviceUnlock l => in_i32 l
  | DeviceLock l _ t => in_i32 l /\ in_u32 t
  | DeviceEnableSrq l _ h => in_i32 l /\ zlen h <= SRQ_HANDLE_MAX
  | CreateIntrChan a p n v f => in_u32 a /\ in_u16 p /\ in_u32 n /\ in_u32 v /\ in_u32 f
  | DestroyIntrChan => True
  | DeviceDocmd l c _ n d => in_i32 l /\ in_i32 c /\ in_i32 n /\ zlen d <= DATA_MAX
  end.

(** The values that come from the server's configuration and from an
    instrument, in the range of their types. *)
Definition Response_typed (a : Response) : Prop :=
  match a with
  | RLink r => in_i32 (clr_lid r) /\ in_u16 (clr_abort_port r) /\ in_u32 (clr_max_recv_size r)
  | RStb r => in_u8 (dsr_stb r)
  | _ => True
  end.

Definition Response_wf (a : Response) : Prop :=
  match a with
  | RLink r => CreateLinkResp_wf r
  | RWrite r => DeviceWriteResp_wf r
  | RRead r => DeviceReadResp_wf MAX_READ r
  | RStb r => DeviceReadStbResp_wf r
  | RError e => in_u32 e
  | RDocmd r => DeviceDocmdResp_wf r
  end.

Definition record_of (x : Z) (r : Request) : list byte :=
  Rpc.encode_call x DEVICE_CORE_PROG DEVICE_CORE_VERS (proc_of r) (args_of r).

End Wire.

Lemma request_core lo pid r c :
  request lo pid r c =
  let '(a, c) := core lo (proc_of r) (args_of pid r) c in
  (match a with Err e => Err e | Ok d => map_err BadResult (parse r d) end, c).
Proof.
  destruct r; cbn [request]; unfold as_, create_link, create_link_locked, device_write, device_write_flags, device_read,
    device_readstb, device_trigger, device_clear, device_remote, device_local, destroy_link, device_lock, device_unlock,
    device_enable_srq, create_intr_chan, destroy_intr_chan, device_docmd, core_as; cbn [proc_of args_of parse];
    destruct (core _ _ _ _) as [[d|e] c']; try reflexivity;
    match goal with |- context [map_err _ ?d] => by destruct d end.
Qed.

(** ** Lemmas *)

Lemma error_code_range e : in_u32 (error_as_u32 e).
Proof. destruct e; by vm_compute. Qed.

(** An error code, evaluated or not, in range. *)
Ltac code_range := cbn; first [apply error_code_range | vm_compute; by split].

Lemma device_error_roundtrip e : in_u32 e -> decode_device_error (encode_device_error e) = Ok e.
Proof.
  intros He. unfold decode_device_error, encode_device_error, Xdr.put_u32. rewrite app_nil_l.
  assert (Hc : Xdr.at_rest (Xdr.new (be_bytes 4 e)) (be_bytes 4 e ++ [])).
  { rewrite app_nil_r. apply Xdr.at_rest_new. by apply Rpc.vec_ok_fits. }
  by xdr_read.
Qed.

Lemma link_id_roundtrip l : in_i32 l -> exists c, Xdr.i32 (Xdr.new (Xdr.put_i32 [] l)) = Ok (l, c).
Proof.
  intros Hl. assert (Hc : Xdr.at_rest (Xdr.new (be_bytes 4 l)) (be_bytes 4 l ++ [])).
  { rewrite app_nil_r. apply Xdr.at_rest_new. by apply Rpc.vec_ok_fits. }
  destruct (Xdr.i32_put l _ _ Hc Hl) as (c & E & _). by exists c.
Qed.

Lemma xdr_exact `{HX : XdrStruct A enc dec wf} a : wf a -> Rpc.vec_ok (enc a) -> dec (enc a) = Ok a.
Proof. intros Ha Hv. rewrite <- (app_nil_r (enc a)). apply xdr_roundtrip; [done|]. rewrite app_nil_r. by apply Rpc.vec_ok_fits. Qed.

Lemma zlen_put_u32 buf v : zlen (Xdr.put_u32 buf v) = zlen buf + 4.
Proof. unfold Xdr.put_u32. zlen_solve. Qed.
Lemma zlen_put_i32 buf v : zlen (Xdr.put_i32 buf v) = zlen buf + 4.
Proof. unfold Xdr.put_i32. zlen_solve. Qed.
Lemma zlen_put_opaque buf d : zlen buf + zlen d + 4 <= zlen (Xdr.put_opaque buf d) <= zlen buf + zlen d + 7.
Proof. rewrite Xdr.put_opaque_wire, zlen_app, Rpc.zlen_opaque_wire. pose proof (Xdr.pad_of_range (zlen d)). lia. Qed.

Lemma zlen_encode_call x p v q args : zlen (Rpc.encode_call x p v q args) = 40 + zlen args.
Proof.
  pose proof (Rpc.encode_call_wire (Rpc.mkCallHeader x p v q) args) as E. cbn [Rpc.xid Rpc.prog Rpc.vers Rpc.proc] in E.
  rewrite E. unfold Rpc.call_wire. autorewrite with zlen. rewrite !Rpc.zlen_opaque_wire. change (Xdr.pad_of (zlen [])) with 0. zlen_solve.
Qed.
Lemma zlen_reply_success x d : zlen (Rpc.reply_success x d) = 24 + zlen d.
Proof.
  unfold Rpc.reply_success. rewrite Rpc.accepted_wire. autorewrite with zlen. rewrite Rpc.zlen_opaque_wire.
  change (Xdr.pad_of (zlen [])) with 0. zlen_solve.
Qed.
Lemma zlen_srq_args h : zlen h <= SRQ_HANDLE_MAX -> zlen (DeviceSrqParms_encode (mkDeviceSrqParms h)) <= 47.
Proof.
  intros Hh. unfold DeviceSrqParms_encode, SRQ_HANDLE_MAX in *. cbn [dsp_handle]. pose proof (zlen_put_opaque [] h).
  change (zlen (@nil byte)) with 0 in *. lia.
Qed.

(** Responses are far below the record limit. *)
Lemma results_size a : Response_wf a -> zlen (results_of a) <= MAX_READ + 100.
Proof.
  unfold MAX_READ. destruct a; cbn [Response_wf results_of];
    unfold CreateLinkResp_encode, DeviceWriteResp_encode, DeviceReadResp_encode, DeviceReadStbResp_encode,
      encode_device_error, DeviceDocmdResp_encode, DeviceReadResp_wf, DeviceDocmdResp_wf, DATA_MAX, MAX_READ; intros Hw;
    repeat first [rewrite zlen_put_u32|rewrite zlen_put_i32];
    try match goal with |- context [Xdr.put_opaque ?b ?d] => pose proof (zlen_put_opaque b d); rewrite !zlen_put_u32 in * end;
    change (zlen (@nil byte)) with 0 in *; lia.
Qed.

Lemma parse_results r a : Response_wf a ->
  match r, a with
  | (CreateLink _ | CreateLinkLocked _ _), RLink _ | (DeviceWrite _ _ _ _ | DeviceWriteFlags _ _ _ _), RWrite _
  | DeviceRead _ _ _ _, RRead _ | DeviceReadstb _ _, RStb _ | DeviceDocmd _ _ _ _ _, RDocmd _
  | (DeviceTrigger _ | DeviceClear _ | DeviceRemote _ | DeviceLocal _ | DestroyLink _ | DeviceLock _ _ _ | DeviceUnlock _
    | DeviceEnableSrq _ _ _ | CreateIntrChan _ _ _ _ _ | DestroyIntrChan), RError _ => parse r (results_of a) = Ok a
  | _, _ => True
  end.
Proof.
  intros Ha. pose proof (results_size a Ha) as Hs. unfold MAX_READ in Hs.
  assert (Hv : Rpc.vec_ok (results_of a)) by (unfold Rpc.vec_ok; lia). clear Hs.
  destruct r, a; try done; cbn [parse results_of Response_wf] in *;
    first [by rewrite (xdr_exact (HX := CreateLinkResp_xdr)) | by rewrite (xdr_exact (HX := DeviceWriteResp_xdr))
          | by rewrite (xdr_exact (HX := DeviceReadStbResp_xdr)) | by rewrite (xdr_exact (HX := DeviceDocmdResp_xdr))
          | by rewrite device_error_roundtrip | idtac].
  rewrite (xdr_exact (dec := fun d => DeviceReadResp_decode d U32_MAX) (HX := DeviceReadResp_xdr U32_MAX ltac:(by vm_compute))); [done| |done].
  destruct Ha as (? & ? & ?). unfold DeviceReadResp_wf, MAX_READ, U32_MAX in *. split_and!; [done..|lia].
Qed.

(** The client's half of one call: the record goes out, the reply at the head of
    the inbox is taken. *)
Lemma call_run lo prog vers proc args rd out x results wire tail e sent :
  inbox rd = mkReader (wire ++ tail) e -> outbox rd = out -> write_error rd = None -> Rpc.vec_ok results ->
  zlen (Rpc.reply_success (as_u32 (x + 1)) results) <= Rpc.RECORD_MAX ->
  Rpc.write_record (Rpc.reply_success (as_u32 (x + 1)) results) = Ok wire ->
  Rpc.write_record (Rpc.encode_call (as_u32 (x + 1)) prog vers proc args) = Ok sent ->
  call lo prog vers proc args (mkClient rd x) =
    (Ok (Success results), mkClient (mkStream (mkReader tail e) (out ++ sent) None) (as_u32 (x + 1))).
Proof.
  intros Hi <- Hw Hv Hm Er Es. unfold call, send_record, transmit. cbn [stream xid]. rewrite Es, Hw.
  unfold receive_record, with_inbox. cbn [inbox outbox write_error]. rewrite Hi.
  rewrite (Rpc.write_read_record_aux _ _ tail e Rpc.RECORD_MAX Er Hm) by done.
  unfold Rpc.reply_success. rewrite Rpc.decode_accepted; [done|apply as_u32_range|done|by apply Rpc.fits_accepted].
Qed.

(** Decide the closed comparisons of [dispatch]. *)
Ltac pick_arm :=
  repeat match goal with
  | |- context [?a =? ?b] =>
      let v := eval vm_compute in (a =? b) in
      match v with true => idtac | false => idtac end; change (a =? b) with v
  end; cbn [negb orb].

Section Handlers.
Context {B : Type} `{BackendLaws B}.

Lemma read_loop_bound fuel : forall l a tc rs d sm checks s (b : B) data o data' s' b', 0 < rs ->
  zlen data < Z.min rs MAX_READ ->
  read_loop fuel l a tc rs d sm checks s b data = Some (o, data', s', b') -> zlen data' <= MAX_READ.
Proof.
  induction fuel as [|fuel IH]; intros l a tc rs d sm checks s b data o data' s' b' Hrs Hd; [done|].
  cbn [read_loop]. destruct (take_abort checks s a) as [[ab c1] s1].
  destruct ab; [intros; simplify_eq; lia|]. destruct (_ =? 0); [intros; simplify_eq; lia|].
  destruct (slice_of _ _) as [sl|]; [|done]. cbn [mbind option_bind].
  destruct (read_attempt _ _ _ _) as [r b1] eqn:E. apply read_attempt_facts in E as (_ & _ & Hr); [|done|lia].
  destruct r as [[chunk e]|e].
  - specialize (Hr _ _ eq_refl). destruct (_ || (_ =? Z.min rs MAX_READ)) eqn:Eo; [intros; simplify_eq; zlen_solve|].
    apply orb_false_iff in Eo as [_ Eo%Z.eqb_neq]. apply IH; [done|]. revert Eo. rewrite zlen_app. lia.
  - destruct (says _ _ || says _ _); [by apply IH|intros; simplify_eq; lia].
Qed.

Lemma read_reason_range tc rs d e : in_u32 (read_reason tc rs d e).
Proof. unfold read_reason, in_u32. destruct e, tc; repeat case_bool_decide; destruct (_ =? _); vm_compute; by split. Qed.

Lemma read_loop_reason fuel : forall l a tc rs d sm checks s (b : B) data reason data' s' b',
  read_loop fuel l a tc rs d sm checks s b data = Some (Terminated reason, data', s', b') -> in_u32 reason.
Proof.
  induction fuel as [|fuel IH]; intros l a tc rs d sm checks s b data reason data' s' b'; [done|].
  cbn [read_loop]. destruct (take_abort checks s a) as [[ab c1] s1].
  destruct ab; [done|]. destruct (_ =? 0); [done|].
  destruct (slice_of _ _) as [sl|]; [|done]. cbn [mbind option_bind].
  destruct (read_attempt _ _ _ _) as [[[chunk e]|e] b1].
  - destruct (_ || _); [intros; simplify_eq; apply read_reason_range|apply IH].
  - destruct (says _ _ || says _ _); [apply IH|done].
Qed.

Lemma device_read_wf env fuel s (b : B) p r s' b' : in_u32 (drp_request_size p) ->
  Vxi11Ops.device_read env fuel s b p = Some (r, s', b') -> DeviceReadResp_wf MAX_READ r.
Proof.
  assert (Hnil : forall e n, in_u32 n -> DeviceReadResp_wf MAX_READ (mkDeviceReadResp (error_as_u32 e) n [])).
  { intros e n Hn. split; [apply error_code_range|]. split; [done|]. by vm_compute. }
  intros Hn. unfold Vxi11Ops.device_read. destruct (link_for _ _) as [[a l]|]; [|intros; simplify_eq; by apply Hnil].
  destruct (Z.eqb_spec (drp_request_size p) 0); [intros; simplify_eq; by apply Hnil|].
  destruct (acquire_access _ _ _ _ _ _) as [[[[]|e] s1]|]; cbn [mbind option_bind]; [|intros; simplify_eq; by apply Hnil|done].
  destruct (read_loop _ _ _ _ _ _ _ _ _ _ _) as [[[[o d] s2] b2]|] eqn:E; [|done]. cbn [mbind option_bind].
  intros; simplify_eq. unfold in_u32 in Hn.
  assert (Hd : zlen d <= MAX_READ).
  { eapply read_loop_bound; [| |exact E]; [lia|]. change (zlen (@nil byte)) with 0. unfold MAX_READ. lia. }
  destruct o as [reason| | |err]; cbn [read_resp]; [| | |by apply Hnil].
  - apply read_loop_reason in E. by split_and!; [apply error_code_range|..].
  - by split_and!; [apply error_code_range|..].
  - by split_and!; [apply error_code_range|..].
Qed.

Lemma device_write_wf env fuel s (b : B) p r s' b' :
  Vxi11Ops.device_write env fuel s b p = Some (r, s', b') -> DeviceWriteResp_wf r.
Proof.
  assert (Hz : forall e n, in_u32 n -> DeviceWriteResp_wf (mkDeviceWriteResp (error_as_u32 e) n)).
  { intros e n Hn. split; [apply error_code_range|done]. }
  unfold Vxi11Ops.device_write. destruct (link_for _ _) as [[a l]|]; [|intros; simplify_eq; by apply Hz].
  destruct (acquire_access _ _ _ _ _ _) as [[[[]|e] s1]|]; cbn [mbind option_bind]; [|intros; simplify_eq; by apply Hz|done].
  destruct (write_loop _ _ _ _ _ _ _ _ _ _) as [[[[[o w] ck] s2] b2]|]; [|done]. cbn [mbind option_bind].
  case_bool_decide; [destruct (take_abort _ _ _) as [[ab c] s3]|]; intros [= <- _ _]; apply Hz, as_u32_range.
Qed.

Lemma device_readstb_wf env s (b : B) p r s' b' : in_u8 (dsr_stb r) ->
  Vxi11Ops.device_readstb env s b p = Some (r, s', b') -> DeviceReadStbResp_wf r.
Proof.
  intros Hr. assert (He : forall e, in_u32 (error_as_u32 e)) by apply error_code_range.
  unfold Vxi11Ops.device_readstb. destruct (link_for _ _) as [[a l]|]; [|(intros [= <- _ _]; split; [code_range|exact Hr])].
  destruct (is_interface l); [(intros [= <- _ _]; split; [code_range|exact Hr])|].
  destruct (acquire_access _ _ _ _ _ _) as [[[[]|e] s1]|]; cbn [mbind option_bind]; [|(intros [= <- _ _]; split; [code_range|exact Hr])|done].
  destruct (_ ≫= _); [(intros [= <- _ _]; split; [code_range|exact Hr])|]. destruct (gb_serial_poll _ _) as [polled b1].
  destruct (take_abort _ _ _) as [[ab c] s3]. destruct ab; [|destruct polled]; (intros [= <- _ _]; split; [code_range|exact Hr]).
Qed.

Lemma device_simple_wf env s (b : B) proc p r s' b' : device_simple env s b proc p = Some (r, s', b') -> in_u32 r.
Proof.
  assert (He : forall e, in_u32 (error_as_u32 e)) by apply error_code_range.
  unfold device_simple. destruct (link_for _ _) as [[a l]|]; [|by intros [= <- _ _]].
  destruct (acquire_access _ _ _ _ _ _) as [[[[]|e] s1]|]; cbn [mbind option_bind]; [|by intros [= <- _ _]|done].
  destruct (simple_bus _ _ _ _) as [[[o|e] b1]|]; cbn [mbind option_bind]; [|by intros [= <- _ _]|done].
  destruct (take_abort _ _ _) as [[ab c] s3]. destruct ab; [|destruct o]; by intros [= <- _ _].
Qed.

Lemma docmd_command_wf env l (b : B) p : zlen (ddp_data_in p) <= DATA_MAX ->
  match (docmd_command env l b p).1 with inl r | inr r => DeviceDocmdResp_wf r end.
Proof.
  intros Hd. assert (He : forall e, in_u32 (error_as_u32 e)) by apply error_code_range.
  assert (Hn : zlen (@nil byte) <= DATA_MAX) by by vm_compute.
  assert (Hu : forall v o, zlen (uint_out v 2 o) <= DATA_MAX) by (intros v []; by vm_compute).
  unfold docmd_command.
  repeat match goal with
  | |- context [if ?c then _ else _] => destruct c; cbn [fst]
  | |- context [bus_status ?e ?l ?b ?v] => destruct (bus_status e l b v) as [[] ?]; cbn [fst]
  | |- context [match ?x.1 with Ok _ => _ | Err _ => _ end] => destruct x as [[] ?]; cbn [fst]
  end; (split; [code_range|first [exact Hd|exact Hn|apply Hu]]).
Qed.

Lemma device_docmd_wf env s (b : B) p r s' b' : zlen (ddp_data_in p) <= DATA_MAX ->
  Vxi11Ops.device_docmd env s b p = Some (r, s', b') -> DeviceDocmdResp_wf r.
Proof.
  intros Hd. assert (Hf : forall e, DeviceDocmdResp_wf (mkDeviceDocmdResp (error_as_u32 e) [])).
  { intros e. split; [apply error_code_range|by vm_compute]. }
  unfold Vxi11Ops.device_docmd. destruct (link_for _ _) as [[a l]|]; [|by intros [= <- _ _]].
  destruct (negb _); [by intros [= <- _ _]|].
  destruct (acquire_access _ _ _ _ _ _) as [[[[]|e] s1]|]; cbn [mbind option_bind]; [|by intros [= <- _ _]|done].
  pose proof (docmd_command_wf env l b p Hd) as Hc. destruct (docmd_command _ _ _ _) as [[r1|r1] b1]; cbn [fst] in Hc.
  - by intros [= <- _ _].
  - destruct (take_abort _ _ _) as [[ab c] s3]. destruct ab; by intros [= <- _ _].
Qed.

Lemma link_direct_wf ifor ce s conn (b : B) p a s' conn' b' : Response_typed a ->
  link_direct ifor ce s conn b p = Some (a, s', conn', b') -> Response_wf a /\ exists r, a = RLink r.
Proof.
  unfold link_direct. intros Ht. destruct (Vxi11Server.create_link _ _ _ _ _ _) as [[[r s1] c1]|] eqn:E; [|done].
  cbn [mbind option_bind]. intros [= <- _ _ _]. split; [|by eexists]. destruct Ht as (? & ? & ?). split_and!; [|done..].
  revert E. unfold Vxi11Server.create_link. destruct (parse_device_name _ _) as [k|e].
  2: { intros [= <- _ _]. code_range. }
  destruct (_ <=? _); [intros [= <- _ _]; code_range|]. destruct (clp_lock_device p); [|intros [= <- _ _]; code_range].
  destruct (link_for _ _) as [[? ?]|]; [|done]. cbn [mbind option_bind].
  destruct (Lock.request _ _ _ _ _ _) as [[? ?]|]; [|done]. cbn [mbind option_bind].
  destruct (negb _); intros [= <- _ _]; code_range.
Qed.

Lemma write_direct_wf ce s conn (b : B) p a s' conn' b' :
  write_direct ce s conn b p = Some (a, s', conn', b') -> Response_wf a /\ exists r, a = RWrite r.
Proof.
  unfold write_direct. destruct (_ <? _).
  - intros [= <- _ _ _]. split; [|by eexists]. by split; code_range.
  - destruct (Vxi11Ops.device_write _ _ _ _ _) as [[[r s1] b1]|] eqn:E; [|done].
    apply device_write_wf in E. intros [= <- _ _ _]. by eauto.
Qed.

Lemma simple_direct_wf proc l ce s conn (b : B) a s' conn' b' :
  simple_direct proc l ce s conn b = Some (a, s', conn', b') -> Response_wf a /\ exists e, a = RError e.
Proof.
  unfold simple_direct. destruct (device_simple _ _ _ _ _) as [[[r s1] b1]|] eqn:E; [|done].
  apply device_simple_wf in E. intros [= <- _ _ _]. by eauto.
Qed.

(** What a request is answered with decodes, at the client, to the answer. *)
Lemma direct_parse ifor pid ce s conn (b : B) r a s' conn' b' : Request_wf r -> Response_typed a ->
  direct ifor pid ce s conn b r = Some (a, s', conn', b') -> Response_wf a /\ parse r (results_of a) = Ok a.
Proof.
  assert (He : forall e, Response_wf (RError (error_as_u32 e))) by (intros; apply error_code_range).
  assert (Hcode : forall e s1 c1 b1, Some (RError (error_as_u32 e), s1, c1, b1) = Some (a, s', conn', b') ->
    Response_wf a /\ parse DestroyIntrChan (results_of a) = Ok a).
  { intros e s1 c1 b1 [= <- _ _ _]. split; [done|]. exact (parse_results DestroyIntrChan _ (He e)). }
  intros Hr Ht. destruct r; cbn [direct].
  1-2: intros [Hw [x ->]]%link_direct_wf; [|done]; split; [done|]; exact (parse_results (CreateLink []) _ Hw).
  1-2: intros [Hw [x ->]]%write_direct_wf; split; [done|]; exact (parse_results (DeviceWrite 0 [] false 0) _ Hw).
  3-6: intros [Hw [x ->]]%simple_direct_wf; split; [done|]; exact (parse_results (DeviceTrigger 0) _ Hw).
  - destruct (Vxi11Ops.device_read _ _ _ _ _) as [[[x s1] b1]|] eqn:E; [|done]. apply device_read_wf in E; [|apply Hr].
    intros [= <- _ _ _]. split; [done|]. exact (parse_results (DeviceRead 0 0 0 None) (RRead x) E).
  - destruct (Vxi11Ops.device_readstb _ _ _ _) as [[[x s1] b1]|] eqn:E; [|done]. intros [= <- _ _ _].
    apply device_readstb_wf in E; [|done]. split; [done|]. exact (parse_results (DeviceReadstb 0 0) (RStb x) E).
  - destruct (Vxi11Server.destroy_link _ _ _) as [[e s1] c1]. apply Hcode.
  - destruct (Vxi11Ops.device_lock _ _ _ _) as [[e s1]|]; [|done]. apply Hcode.
  - destruct (Vxi11Ops.device_unlock _ _) as [e s1]. apply Hcode.
  - destruct (Vxi11Server.device_enable_srq _ _ _ _ _) as [[[e s1] c1] b1]. apply Hcode.
  - destruct (Vxi11Server.create_intr_chan _ _ _) as [e c1]. apply Hcode.
  - destruct (Vxi11Server.destroy_intr_chan _) as [e c1]. apply Hcode.
  - destruct (Vxi11Ops.device_docmd _ _ _ _) as [[[x s1] b1]|] eqn:E; [|done]. apply device_docmd_wf in E; [|apply Hr].
    intros [= <- _ _ _]. split; [done|]. exact (parse_results (DeviceDocmd 0 0 false 0 []) (RDocmd x) E).
Qed.

Lemma write_too_long p m : in_u32 (zlen (dwp_data p)) -> m < zlen (dwp_data p) ->
  in_i32 (dwp_lid p) -> in_u32 (dwp_io_timeout_ms p) -> in_u32 (dwp_lock_timeout_ms p) -> in_u32 (dwp_flags p) ->
  Rpc.vec_ok (DeviceWriteParms_encode p []) ->
  exists n k, DeviceWriteParms_decode (DeviceWriteParms_encode p []) m = Err (Xdr.TooLong n k).
Proof.
  intros Hz Hm ?????%Rpc.vec_ok_fits. destruct p as [l io lk fl d].
  cbn [dwp_lid dwp_io_timeout_ms dwp_lock_timeout_ms dwp_flags dwp_data] in *.
  assert (Hc : Xdr.at_rest (Xdr.new (DeviceWriteParms_encode (mkDeviceWriteParms l io lk fl d) []))
            (be_bytes 4 l ++ be_bytes 4 io ++ be_bytes 4 lk ++ be_bytes 4 fl ++ be_bytes 4 (zlen d) ++ d ++
             replicate (Z.to_nat (Xdr.pad_of (zlen d))) x00)).
  { replace (be_bytes 4 l ++ _) with (DeviceWriteParms_encode (mkDeviceWriteParms l io lk fl d) []); [by apply Xdr.at_rest_new|].
    unfold DeviceWriteParms_encode. cbn. xdr_wire. unfold Xdr.opaque_wire. by rewrite as_u32_id. }
  unfold DeviceWriteParms_decode. xdr_read. xdr_read. xdr_read. xdr_read. unfold Xdr.opaque. xdr_read.
  rewrite (proj2 (Z.ltb_lt _ _)) by done. by do 2 eexists.
Qed.

(** The parameters of a well-formed request are well-formed. *)
Ltac args_wf :=
  autounfold with messages; cbn; destruct_and?;
  repeat match goal with |- context [if ?c then _ else _] => destruct c | |- context [match ?c with Some _ => _ | None => _ end] => destruct c end;
  unfold in_u8, in_u32, in_i32, DEVICE_NAME_MAX, DATA_MAX, SRQ_HANDLE_MAX, OP_FLAG_END, OP_FLAG_WAITLOCK, OP_FLAG_TERMCHRSET in *;
  cbn in *; lia.

Lemma dispatch_direct ifor pid ce s conn (b : B) r x a s' conn' b' : Request_wf r ->
  in_u32 (max_recv_size (config s)) -> Rpc.vec_ok (args_of pid r) ->
  direct ifor pid ce s conn b r = Some (a, s', conn', b') ->
  dispatch ifor ce s conn b (Rpc.mkCallHeader x DEVICE_CORE_PROG DEVICE_CORE_VERS (proc_of r)) (args_of pid r) =
    Some (Ok (Rpc.reply_success x (results_of a)), s', conn', b').
Proof.
  assert (Hp : in_i32 (as_i32 pid)) by apply as_i32_range.
  intros Hr Hm Hv. destruct r; cbn [direct proc_of args_of Request_wf] in *; unfold dispatch;
    cbn [Rpc.prog Rpc.vers Rpc.proc Rpc.xid]; pick_arm.
  1-2: rewrite (xdr_exact (HX := CreateLinkParms_xdr)) by (done || args_wf); unfold link_direct;
    destruct (Vxi11Server.create_link _ _ _ _ _ _) as [[[resp s1] c1]|]; [|done]; by intros [= <- <- <- <-].
  1-2: unfold write_direct; cbn [dwp_data]; destruct (Z.ltb_spec (max_recv_size (config s)) (zlen data));
    [edestruct write_too_long as (n & k & ->); [..|by intros [= <- <- <- <-]]; cbn; (done || args_wf)
    |rewrite (xdr_exact (HX := DeviceWriteParms_xdr _ (proj2 Hm))) by (done || args_wf);
     destruct (Vxi11Ops.device_write _ _ _ _ _) as [[[resp s1] b1]|]; [|done]; by intros [= <- <- <- <-]].
  3-6: unfold generic, simple_direct; rewrite (xdr_exact (HX := DeviceGenericParms_xdr)) by (done || args_wf);
    destruct (device_simple _ _ _ _ _) as [[[resp s1] b1]|]; [|done]; by intros [= <- <- <- <-].
  - rewrite (xdr_exact (HX := DeviceReadParms_xdr)) by (done || args_wf).
    destruct (Vxi11Ops.device_read _ _ _ _ _) as [[[resp s1] b1]|]; [|done]. by intros [= <- <- <- <-].
  - unfold generic. rewrite (xdr_exact (HX := DeviceGenericParms_xdr)) by (done || args_wf).
    destruct (Vxi11Ops.device_readstb _ _ _ _) as [[[resp s1] b1]|]; [|done]. by intros [= <- <- <- <-].
  - destruct (link_id_roundtrip _ Hr) as [c ->]. destruct (Vxi11Server.destroy_link _ _ _) as [[e s1] c1]. by intros [= <- <- <- <-].
  - rewrite (xdr_exact (HX := DeviceLockParms_xdr)) by (done || args_wf).
    destruct (Vxi11Ops.device_lock _ _ _ _) as [[e s1]|]; [|done]. by intros [= <- <- <- <-].
  - destruct (link_id_roundtrip _ Hr) as [c ->]. destruct (Vxi11Ops.device_unlock _ _) as [e s1]. by intros [= <- <- <- <-].
  - rewrite (xdr_exact (HX := DeviceEnableSrqParms_xdr)) by (done || args_wf).
    destruct (Vxi11Server.device_enable_srq _ _ _ _ _) as [[[e s1] c1] b1]. by intros [= <- <- <- <-].
  - rewrite (xdr_exact (HX := DeviceRemoteFunc_xdr)) by (done || args_wf).
    destruct (Vxi11Server.create_intr_chan _ _ _) as [e c1]. by intros [= <- <- <- <-].
  - destruct (Vxi11Server.destroy_intr_chan _) as [e c1]. by intros [= <- <- <- <-].
  - rewrite (xdr_exact (HX := DeviceDocmdParms_xdr)) by (done || args_wf).
    destruct (Vxi11Ops.device_docmd _ _ _ _) as [[[resp s1] b1]|]; [|done]. by intros [= <- <- <- <-].
Qed.

(** ** Sessions *)

Section Sessions.
Variables (ifor : Z -> Z) (pid : Z).

(** Requests handled in place one after the other, [ces] being what happens
    around each; a request's record is within what the server reads. *)
Inductive session : list Request -> list (CallEnv (B := B)) -> Shared -> ConnState -> B ->
    list Response -> Shared -> ConnState -> B -> Prop :=
| session_nil s conn b : session [] [] s conn b [] s conn b
| session_cons r rs ce ces s conn b a s1 conn1 b1 l s2 conn2 b2 :
    Request_wf r -> in_u32 (max_recv_size (config s)) ->
    zlen (record_of pid 0 r) <= Z.min (max_recv_size (config s) * 2 + 1024) 0x7FFFFFFF ->
    direct ifor pid ce s conn b r = Some (a, s1, conn1, b1) -> Response_typed a ->
    session rs ces s1 conn1 b1 l s2 conn2 b2 ->
    session (r :: rs) (ce :: ces) s conn b (a :: l) s2 conn2 b2.

Lemma zlen_record_of x r : zlen (record_of pid x r) = 40 + zlen (args_of pid r).
Proof. unfold record_of. apply zlen_encode_call. Qed.

Lemma proc_of_range r : in_u32 (proc_of r).
Proof. destruct r; by vm_compute. Qed.

(** The server's half of one call. *)
Lemma answer_direct ce s conn (b : B) r x a s1 conn1 b1 : Request_wf r -> in_u32 (max_recv_size (config s)) -> in_u32 x ->
  Rpc.vec_ok (args_of pid r) -> direct ifor pid ce s conn b r = Some (a, s1, conn1, b1) ->
  answer ifor ce s conn b (record_of pid x r) = Some (Some (Rpc.reply_success x (results_of a)), s1, conn1, b1).
Proof.
  intros Hr Hm Hx Hv E. unfold answer, record_of.
  pose proof (Rpc.call_roundtrip_aux (Rpc.mkCallHeader x DEVICE_CORE_PROG DEVICE_CORE_VERS (proc_of r)) (args_of pid r)) as Hc.
  cbn [Rpc.xid Rpc.prog Rpc.vers Rpc.proc] in Hc. rewrite Hc; [|split_and!; [done|by vm_compute..|apply proc_of_range]|done].
  by rewrite (dispatch_direct _ _ _ _ _ _ _ _ _ _ _ _ Hr Hm Hv E).
Qed.

Lemma write_record_Ok d : zlen d <= 0x7FFFFFFF -> exists w, Rpc.write_record d = Ok w.
Proof. intros Hd. unfold Rpc.write_record. rewrite (proj2 (Z.ltb_ge _ _)) by done. by eexists. Qed.

Lemma session_wire lo last rs ces s conn b l s' conn' b' x o : session rs ces s conn b l s' conn' b' -> in_u32 x ->
  exists sent out x',
    serve_connection ifor (map (fun ce => (ce, None)) (ces ++ [last])) (mkReader sent None) s conn b =
      Some (Ok tt, cleanup s' conn', conn', b', out) /\
    requests lo pid rs (mkClient (mkStream (mkReader (concat out) None) o None) x) =
      (Ok l, mkClient (mkStream (mkReader [] None) (o ++ sent) None) x').
Proof.
  intros Hs Hx. revert x o Hx. induction Hs as [s conn b|r rs ce ces s conn b a s1 conn1 b1 l s2 conn2 b2 Hr Hm Hz E Ht Hs IH]; intros x o Hx.
  { exists [], [], x. by rewrite app_nil_r. }
  set (y := as_u32 (x + 1)). assert (Hy : in_u32 y) by apply as_u32_range.
  destruct (direct_parse _ _ _ _ _ _ _ _ _ _ _ Hr Ht E) as [Hw Hp]. pose proof (results_size _ Hw) as Hsz. unfold MAX_READ in Hsz.
  rewrite zlen_record_of in Hz. assert (Hv : Rpc.vec_ok (args_of pid r)) by (unfold Rpc.vec_ok; lia).
  assert (Hrp : zlen (Rpc.reply_success y (results_of a)) <= Rpc.RECORD_MAX) by (rewrite zlen_reply_success; unfold Rpc.RECORD_MAX; lia).
  destruct (write_record_Ok (record_of pid y r)) as [w Ew]; [rewrite zlen_record_of; lia|].
  destruct (write_record_Ok (Rpc.reply_success y (results_of a))) as [v Ev]; [unfold Rpc.RECORD_MAX in Hrp; lia|].
  destruct (IH y (o ++ w) Hy) as (sent & out & x' & Hsrv & Hcl). exists (w ++ sent), (v :: out), x'. split.
  - cbn [map app serve_connection]. rewrite (Rpc.write_read_record_aux _ _ sent None _ Ew);
      [|rewrite zlen_record_of; lia|unfold in_u32 in Hm; lia].
    cbn [mbind option_bind]. rewrite (answer_direct _ _ _ _ _ _ _ _ _ _ Hr Hm Hy Hv E). cbn [mbind option_bind].
    rewrite Ev, Hsrv. by cbn [mbind option_bind].
  - cbn [requests]. rewrite request_core. unfold core.
    erewrite (call_run lo _ _ _ _ _ o x (results_of a) v (concat out) None w); [|done..|unfold Rpc.vec_ok; lia|done|done|exact Ew].
    rewrite Hp. cbn [map_err]. fold y. by rewrite Hcl, app_assoc.
Qed.

End Sessions.
End Handlers.

(** ** Service requests *)

Lemma read_fragments_consumes fuel : forall m rec rd r rd',
  Rpc.read_fragments fuel m rec rd = Some (Ok (Some r, rd')) -> (length (avail rd') < length (avail rd))%nat.
Proof.
  induction fuel as [|fuel IH]; intros m rec rd r rd'; [done|]. cbn [Rpc.read_fragments].
  destruct (read_exact 4 rd) as [[h r1]|] eqn:E1; [|case_match; intros; simplify_eq].
  apply read_exact_Ok in E1 as (L1 & A1 & _); [|lia]. destruct (_ <? _); [done|].
  destruct (read_exact _ r1) as [[d r2]|] eqn:E2; [|done].
  apply read_exact_Ok in E2 as (_ & A2 & _); [|apply Z.land_nonneg; right; lia].
  assert (Hl : (length (avail r2) < length (avail rd))%nat) by (rewrite A1, A2, !length_app; unfold zlen in L1; lia).
  destruct (has_flag _ _); [by intros [= _ <-]|]. intros E%IH. lia.
Qed.

(** The turns of [IntrServer] are enough for whatever arrives. *)
Lemma intr_turns_enough lo st : is_Some (intr_serve lo st).
Proof.
  unfold intr_serve. assert (Hf : (length (avail (inbox st)) < S (length (avail (inbox st))))%nat) by lia.
  revert Hf. generalize (S (length (avail (inbox st)))) as fuel. intros fuel. revert st.
  induction fuel as [|fuel IH]; intros st Hf; [lia|]. cbn [intr_connection]. unfold receive_record, with_inbox.
  destruct (Rpc.read_record (inbox st) 4096) as [[[[record|] rd]|e]|] eqn:E; try done.
  apply read_fragments_consumes in E. destruct (Rpc.decode_call record) as [[header args]|]; [|done].
  destruct (_ || _).
  - apply IH. unfold send_record, transmit. destruct (Rpc.write_record _); cbn [snd inbox]; [|lia]. cbn [write_error].
    destruct (write_error st); cbn [snd inbox]; lia.
  - unfold send_record, transmit. cbn [write_error inbox outbox]. destruct (Rpc.write_record _) as [w|e]; [|done].
    destruct (write_error st); [done|].
    destruct (IH (mkStream rd (outbox st ++ w) None)) as [[more st'] ->]; [cbn; lia|]. done.
Qed.

Lemma intr_one lo fuel x h tail e o w v :
  in_u32 x -> zlen h <= SRQ_HANDLE_MAX ->
  Rpc.write_record (Rpc.encode_call x DEVICE_INTR_PROG DEVICE_INTR_VERS DEVICE_INTR_SRQ (DeviceSrqParms_encode (mkDeviceSrqParms h))) = Ok w ->
  Rpc.write_record (Rpc.reply_success x []) = Ok v ->
  intr_connection lo (S fuel) (mkStream (mkReader (w ++ tail) e) o None) =
    '(more, st) ← intr_connection lo fuel (mkStream (mkReader tail e) (o ++ v) None); Some (h :: more, st).
Proof.
  intros Hx Hh Hw Hv. pose proof (zlen_srq_args h Hh) as Ha. set (args := DeviceSrqParms_encode (mkDeviceSrqParms h)) in *.
  assert (Hva : Rpc.vec_ok args) by (unfold Rpc.vec_ok; lia).
  pose proof (Rpc.call_roundtrip_aux (Rpc.mkCallHeader x DEVICE_INTR_PROG DEVICE_INTR_VERS DEVICE_INTR_SRQ) args) as Hc.
  cbn [Rpc.xid Rpc.prog Rpc.vers Rpc.proc] in Hc. cbn [intr_connection]. unfold receive_record, with_inbox. cbn [inbox outbox write_error].
  rewrite (Rpc.write_read_record_aux _ _ tail e 4096 Hw); [|rewrite zlen_encode_call; lia|done].
  rewrite Hc; [|by split_and!|done]. cbn [Rpc.prog Rpc.proc Rpc.xid]. pick_arm.
  unfold args in *. rewrite (xdr_exact (HX := DeviceSrqParms_xdr)) by done. unfold send_record, transmit. by rewrite Hv.
Qed.

(** A record as [write_record] frames it. *)
Definition framed (record : list byte) : list byte := match Rpc.write_record record with Ok w => w | Err _ => [] end.

(** The replies the sender waits for, one per handle, under its ids. *)
Fixpoint acknowledgements (x : Z) (handles : list (list byte)) : list (list byte) :=
  match handles with
  | [] => []
  | _ :: handles => Rpc.reply_success (as_u32 (x + 1)) [] :: acknowledgements (as_u32 (x + 1)) handles
  end.

Lemma srq_wire lo : forall hs x o fuel, Forall (fun h => zlen h <= SRQ_HANDLE_MAX) hs -> (length hs < fuel)%nat ->
  intr_connection lo fuel (mkStream (mkReader (concat (map framed (sender x hs))) None) o None) =
    Some (hs, mkStream (mkReader [] None) (o ++ concat (map framed (acknowledgements x hs))) None).
Proof.
  induction hs as [|h hs IH]; intros x o fuel Hh Hf; (destruct fuel as [|fuel]; [cbn in Hf; lia|]).
  { cbn. by rewrite app_nil_r. }
  apply Forall_cons in Hh as [Hh Hhs]. cbn [sender map concat acknowledgements]. set (y := as_u32 (x + 1)).
  assert (Hy : in_u32 y) by apply as_u32_range. pose proof (zlen_srq_args h Hh) as Ha.
  destruct (write_record_Ok (Rpc.encode_call y DEVICE_INTR_PROG DEVICE_INTR_VERS DEVICE_INTR_SRQ
    (DeviceSrqParms_encode (mkDeviceSrqParms h)))) as [w Ew]; [rewrite zlen_encode_call; lia|].
  destruct (write_record_Ok (Rpc.reply_success y [])) as [v Ev]; [by rewrite zlen_reply_success|].
  unfold framed at 1 3. rewrite Ew, Ev, (intr_one lo fuel y h _ None o w v Hy Hh Ew Ev).
  rewrite IH; [|done|cbn in Hf; lia]. cbn [mbind option_bind]. by rewrite app_assoc.
Qed.

Lemma framed_length record : zlen record <= 0x7FFFFFFF -> zlen (framed record) = 4 + zlen record.
Proof. intros Hr. unfold framed, Rpc.write_record. rewrite (proj2 (Z.ltb_ge _ _)) by done. zlen_solve. Qed.

Lemma sender_fuel : forall hs x, Forall (fun h => zlen h <= SRQ_HANDLE_MAX) hs ->
  (length hs <= length (concat (map framed (sender x hs))))%nat.
Proof.
  induction hs as [|h hs IH]; intros x Hh; [done|]. apply Forall_cons in Hh as [Hh Hhs].
  cbn [sender map concat]. rewrite length_app. specialize (IH (as_u32 (x + 1)) Hhs). pose proof (zlen_srq_args h Hh) as Ha.
  pose proof (framed_length (Rpc.encode_call (as_u32 (x + 1)) DEVICE_INTR_PROG DEVICE_INTR_VERS DEVICE_INTR_SRQ
    (DeviceSrqParms_encode (mkDeviceSrqParms h)))) as Hf. rewrite zlen_encode_call in Hf.
  specialize (Hf ltac:(lia)). pose proof (zlen_nonneg (DeviceSrqParms_encode (mkDeviceSrqParms h))). unfold zlen in Hf at 1. cbn [length]. lia.
Qed.

(** ** Properties *)

(** C5: a remote session is a local one.  Whatever requests a client makes on one
    connection, the bytes it sends, served by the server's connection loop, come
    back as bytes from which the client reads exactly the responses the handlers
    give when they are called in place, one after the other; the server ends in
    the state those handlers leave, cleaned up for the hang-up, and neither side
    has a byte left over.  A write beyond the negotiated size is the one answer
    the wire gives by itself. *)
Theorem rpc_transparent {B} `{BackendLaws B} lo ifor pid last rs ces s conn (b : B) l s' conn' b' :
  session ifor pid rs ces s conn b l s' conn' b' ->
  exists sent out x',
    serve_connection ifor (map (fun ce => (ce, None)) (ces ++ [last])) (mkReader sent None) s conn b =
      Some (Ok tt, cleanup s' conn', conn', b', out) /\
    requests lo pid rs (connect (mkStream (mkReader (concat out) None) [] None)) =
      (Ok l, mkClient (mkStream (mkReader [] None) sent None) x').
Proof. intros Hs. exact (session_wire ifor pid lo last rs ces s conn b l s' conn' b' 1 [] Hs ltac:(by vm_compute)). Qed.

(** Opening a link, a query and its answer, and closing, against a scripted
    instrument. *)
Definition no_links : Shared := mkShared default_config ∅ ∅ 0 1 0 Lock.new_registry.
Definition alone : CallEnv (B := Mock) := mkCallEnv quiet [] true 20.
Definition demo_requests : list Request :=
  [CreateLink (str "gpib0,18"); DeviceWrite 1 (as_bytes (str "*IDN?")) true 0; DeviceRead 1 100 0 None; DestroyLink 1].

Lemma rpc_transparent_witness : exists sent out x' s' b',
  serve_connection (fun p => p) (map (fun ce => (ce, None)) [alone; alone; alone; alone; alone]) (mkReader sent None)
    no_links (mkConn [] None) (demo_bus [(Ok ([x31; x0a], true), 40)]) = Some (Ok tt, s', mkConn [] None, b', out) /\
  requests (fun rd => rd) 7 demo_requests (connect (mkStream (mkReader (concat out) None) [] None)) =
    (Ok [RLink (mkCreateLinkResp 0 1 0 65536); RWrite (mkDeviceWriteResp 0 5);
         RRead (mkDeviceReadResp 0 RX_END [x31; x0a]); RError 0],
     mkClient (mkStream (mkReader [] None) sent None) x').
Proof.
  edestruct (rpc_transparent (fun rd => rd) (fun p => p) 7 alone demo_requests [alone; alone; alone; alone] no_links
    (mkConn [] None) (demo_bus [(Ok ([x31; x0a], true), 40)])) as (sent & out & x' & Hs & Hc).
  - do 4 (eapply session_cons; [by vm_compute|by vm_compute|by vm_compute|vm_compute; reflexivity|by vm_compute|]).
    apply session_nil.
  - exists sent, out, x'. do 2 eexists. exact (conj Hs Hc).
Defined.

(** service requests arrive.  What the server's sender writes for a list of
    handles, the client's interrupt server receives as exactly those handles, in
    order, and answers each call under its own id with the void reply. *)
Theorem srq_delivered lo x hs : Forall (fun h => zlen h <= SRQ_HANDLE_MAX) hs ->
  intr_serve lo (mkStream (mkReader (concat (map framed (sender x hs))) None) [] None) =
    Some (hs, mkStream (mkReader [] None) (concat (map framed (acknowledgements x hs))) None).
Proof.
  intros Hh. unfold intr_serve. cbn [inbox avail].
  rewrite srq_wire; [done|done|]. pose proof (sender_fuel hs x Hh). lia.
Qed.

Lemma srq_delivered_witness :
  intr_serve (fun rd => rd) (mkStream (mkReader (concat (map framed (sender 4294967294 [[x01]; [x02; x03]]))) None) [] None) =
    Some ([[x01]; [x02; x03]],
          mkStream (mkReader [] None) (concat (map framed (acknowledgements 4294967294 [[x01]; [x02; x03]]))) None).
Proof. apply srq_delivered. by repeat constructor. Defined.

Definition abort_call (id : Z) : list byte :=
  Rpc.encode_call 2 DEVICE_ASYNC_PROG DEVICE_ASYNC_VERS DEVICE_ABORT (Xdr.put_i32 [] id).

Lemma abort_call_wire id : exists w, Rpc.write_record (abort_call id) = Ok w /\ zlen (abort_call id) = 44.
Proof.
  assert (zlen (abort_call id) = 44) as E by (unfold abort_call; rewrite zlen_encode_call, zlen_put_i32; done).
  destruct (write_record_Ok (abort_call id)) as [w Hw]; [rewrite E; lia|]. by exists w.
Qed.

Lemma abort_call_decodes id :
  Rpc.decode_call (abort_call id) = Ok (Rpc.mkCallHeader 2 DEVICE_ASYNC_PROG DEVICE_ASYNC_VERS DEVICE_ABORT, Xdr.put_i32 [] id).
Proof.
  apply (Rpc.call_roundtrip_aux (Rpc.mkCallHeader 2 DEVICE_ASYNC_PROG DEVICE_ASYNC_VERS DEVICE_ABORT) (Xdr.put_i32 [] id)).
  - unfold Rpc.wf_header, in_u32, DEVICE_ASYNC_PROG, DEVICE_ASYNC_VERS, DEVICE_ABORT. cbn. lia.
  - unfold Rpc.vec_ok. rewrite zlen_put_i32. by vm_compute.
Qed.

(** The client's side, given the server's answer. *)
Lemma abort_client lo id e w v : Rpc.write_record (abort_call id) = Ok w ->
  Rpc.write_record (Rpc.reply_success 2 (encode_device_error (error_as_u32 e))) = Ok v ->
  device_abort lo id (mkStream (mkReader v None) [] None) = (Ok (error_as_u32 e), mkClient (mkStream (mkReader [] None) w None) 2).
Proof.
  intros Ew Ev. unfold device_abort, connect.
  erewrite (call_run lo _ _ _ _ _ [] 1 (encode_device_error (error_as_u32 e)) v [] None w);
    [|cbn; by rewrite app_nil_r|done..|rewrite zlen_reply_success; unfold encode_device_error; rewrite zlen_put_u32; by vm_compute|exact Ev|exact Ew].
  by rewrite device_error_roundtrip by apply error_code_range.
Qed.

(** an abort gets through.  What [device_abort] sends, served by the abort
    channel's loop, whatever other tasks do meanwhile, delivers the abort once to
    the link that has the id at that moment, and the client reads 0; for an id
    no link has it changes nothing and the client reads the invalid-link code. *)
Theorem abort_delivered lo s id (f g : step) : in_i32 id ->
  exists sent wire e s', (e, s') = match link_for (f s) id with
                                   | Some (a, _) => (NoError, deliver_abort (f s) a)
                                   | None => (InvalidLinkIdentifier, f s)
                                   end /\
    abort_connection [(f, None); (g, None)] (mkReader sent None) s = Some (g s', [wire]) /\
    device_abort lo id (mkStream (mkReader wire None) [] None) =
      (Ok (error_as_u32 e), mkClient (mkStream (mkReader [] None) sent None) 2).
Proof.
  intros Hid. destruct (abort_call_wire id) as (w & Ew & Hw).
  destruct (match link_for (f s) id with Some (a, _) => (NoError, deliver_abort (f s) a) | None => (InvalidLinkIdentifier, f s) end)
    as [e s'] eqn:Es.
  destruct (write_record_Ok (Rpc.reply_success 2 (encode_device_error (error_as_u32 e)))) as [v Ev].
  { rewrite zlen_reply_success. unfold encode_device_error. rewrite zlen_put_u32. by vm_compute. }
  exists w, v, e, s'. split_and!; [done| |by apply abort_client].
  assert (Hd : abort_dispatch (f s) (Rpc.mkCallHeader 2 DEVICE_ASYNC_PROG DEVICE_ASYNC_VERS DEVICE_ABORT) (Xdr.put_i32 [] id) =
    (Rpc.reply_success 2 (encode_device_error (error_as_u32 e)), s')).
  { unfold abort_dispatch. cbn [Rpc.prog Rpc.vers Rpc.proc Rpc.xid]. pick_arm. destruct (link_id_roundtrip _ Hid) as [c ->].
    destruct (link_for (f s) id) as [[a l]|]; by simplify_eq. }
  cbn [abort_connection]. rewrite <- (app_nil_r w).
  rewrite (Rpc.write_read_record_aux _ _ [] None 4096 Ew ltac:(rewrite Hw; lia)) by done. cbn [mbind option_bind].
  rewrite abort_call_decodes, Hd, Ev. done.
Qed.

Lemma abort_delivered_witness : exists sent wire s',
  abort_connection [(fun s => s, None); (fun s => s, None)] (mkReader sent None) demo = Some (s', [wire]) /\
  (device_abort (fun rd => rd) 1 (mkStream (mkReader wire None) [] None)).1 = Ok (error_as_u32 NoError).
Proof.
  destruct (abort_delivered (fun rd => rd) demo 1 (fun s => s) (fun s => s) ltac:(by vm_compute)) as (sent & wire & e & s' & He & Hs & Hd).
  exists sent, wire, s'. split; [exact Hs|]. rewrite Hd. change (link_for demo 1) with (Some (0%nat, demo_link 1)) in He. by injection He as -> _.
Defined.

End Vxi11Client.
