(* ===== verification/HislipClient.v ===== *)
(** * The HiSLIP client: [src/hislip/client.rs]

    Both channels of a session as byte streams, the handshake, and every request
    the command line makes.  Each constructor of [ClientError] is one of the
    errors the code builds.  The theorems put the client in front of the server's
    synchronous loop, its session set-up and its asynchronous steps. *)

From S2P Require Import Prelude RustStr Lock Backend Xdr Rpc HislipMsg Hislip Stream.

Module HislipClient.
Import RustStr Backend Rpc.Io HislipMsg Hislip Stream.

Definition MAX_MESSAGE_SIZE : Z := 16 * 1024 * 1024.

Record HislipClient : Type := mkClient {
  sync : Stream;
  async : Stream;
  message_id : Z;
  last_srq : option Z;
}.

Inductive ClientError : Type :=
| IoFailed (e : IoError)
| Protocol (e : HislipMsg.Error)
| Handshake (expected got : MessageType) (payload : option (list Z))
| Unexpected (expected got : MessageType)
| IdMismatch (got id : Z)
| QueryInterrupted (id : Z)
| DeviceError (text : list Z)
| FatalReply (text : list Z)
| UnexpectedSync (t : MessageType).

#[export] Instance MessageType_eq_dec : EqDecision MessageType.
Proof. solve_decision. Defined.

Section Client.
(** Whether a payload can be allocated, and what a failed read leaves. *)
Variable alloc : Z -> bool.
Variable left_over : Reader -> Reader.

Definition read_msg (st : Stream) : result Message ClientError * Stream :=
  match read_from alloc (inbox st) MAX_MESSAGE_SIZE with
  | Ok (Ok m, rd) => (Ok m, with_inbox rd st)
  | Ok (Err proto, rd) => (Err (Protocol proto), with_inbox rd st)
  | Err e => (Err (IoFailed e), with_inbox (left_over (inbox st)) st)
  end.

Definition write_msg (m : Message) (st : Stream) : result unit ClientError * Stream :=
  let '(r, st) := transmit (write_to m) st in (map_err IoFailed r, st).

(** A request and the reply it must get, in the handshake; only the first
    refusal prints the payload of what came instead. *)
Definition exchange (m : Message) (expect : MessageType) (st : Stream) : result Message ClientError * Stream :=
  match write_msg m st with
  | (Err e, st) => (Err e, st)
  | (Ok _, st) =>
      let '(r, st) := read_msg st in
      (let? resp := r in
       if bool_decide (message_type resp = expect) then Ok resp
       else Err (Handshake expect (message_type resp)
              (if bool_decide (expect = InitializeResponse) then Some (from_utf8_lossy (payload resp)) else None)), st)
  end.

(** On the two connections; what was exchanged is in the streams returned. *)
Definition connect (sync async : Stream) (subaddress : list Z) (vendor_id : Z)
    : result HislipClient ClientError * (Stream * Stream) :=
  let init := with_payload (message_params Initialize 0 (as_parameter SUPPORTED_PROTOCOL vendor_id)) (as_bytes subaddress) in
  match exchange init InitializeResponse sync with
  | (Err e, sync) => (Err e, (sync, async))
  | (Ok resp, sync) =>
      let sid := session_id (message_parameter resp) in
      match exchange (message_params AsyncInitialize 0 sid) AsyncInitializeResponse async with
      | (Err e, async) => (Err e, (sync, async))
      | (Ok _, async) =>
          let size := with_payload (message_params AsyncMaximumMessageSize 0 0) (be_bytes 8 MAX_MESSAGE_SIZE) in
          match exchange size AsyncMaximumMessageSizeResponse async with
          | (Err e, async) => (Err e, (sync, async))
          | (Ok _, async) => (Ok (mkClient sync async FIRST_MESSAGE_ID None), (sync, async))
          end
      end
  end.

Definition Run (A : Type) : Type := HislipClient -> result A ClientError * HislipClient.

Definition next_message_id (c : HislipClient) : Z * HislipClient :=
  (message_id c, mkClient (sync c) (async c) (as_u32 (message_id c + 2)) (last_srq c)).

Definition with_sync (st : Stream) (c : HislipClient) : HislipClient := mkClient st (async c) (message_id c) (last_srq c).
Definition with_async (st : Stream) (srq : option Z) (c : HislipClient) : HislipClient := mkClient (sync c) st (message_id c) srq.

Definition send_data (cmd : list byte) (id : Z) : Run unit := fun c =>
  let '(r, st) := write_msg (with_payload (message_params DataEnd 0 id) cmd) (sync c) in (r, with_sync st c).

Definition write (cmd : list byte) : Run unit := fun c =>
  let '(id, c) := next_message_id c in send_data cmd id c.

Definition trigger : Run unit := fun c =>
  let '(id, c) := next_message_id c in
  let '(r, st) := write_msg (message_params TriggerMessage 0 id) (sync c) in (r, with_sync st c).

(** The loop of [async_request]: one turn per message, so the bytes that arrive
    are enough turns ([await_turns_enough]). *)
Fixpoint await_reply (fuel : nat) (expect : MessageType) (st : Stream) (srq : option Z)
    : option (result Message ClientError * Stream * option Z) :=
  match fuel with
  | O => None
  | S fuel =>
      let '(r, st) := read_msg st in
      match r with
      | Err e => Some (Err e, st, srq)
      | Ok resp =>
          if bool_decide (message_type resp = AsyncServiceRequest) then await_reply fuel expect st (Some (control_code resp))
          else if negb (bool_decide (message_type resp = expect)) then Some (Err (Unexpected expect (message_type resp)), st, srq)
          else Some (Ok resp, st, srq)
      end
  end.

Definition async_request (req : Message) (expect : MessageType) (c : HislipClient)
    : option (result Message ClientError * HislipClient) :=
  match write_msg req (async c) with
  | (Err e, st) => Some (Err e, with_async st (last_srq c) c)
  | (Ok _, st) =>
      '(r, st, srq) ← await_reply (S (length (avail (inbox st)))) expect st (last_srq c);
      Some (r, with_async st srq c)
  end.

Definition take_service_request (c : HislipClient) : option Z * HislipClient :=
  (last_srq c, with_async (async c) None c).

Definition clear (c : HislipClient) : option (result unit ClientError * HislipClient) :=
  '(r, c) ← async_request (message_params AsyncDeviceClear 0 0) AsyncDeviceClearAcknowledge c;
  Some (let? _ := r in Ok tt, c).

Definition remote (on : bool) (c : HislipClient) : option (result unit ClientError * HislipClient) :=
  '(r, c) ← async_request (message_params AsyncRemoteLocalControl (if on then 3 else 0) 0) AsyncRemoteLocalResponse c;
  Some (let? _ := r in Ok tt, c).

Definition status (c : HislipClient) : option (result Z ClientError * HislipClient) :=
  let most_recent := as_u32 (message_id c - 2) in
  '(r, c) ← async_request (message_params AsyncStatusQuery 0 most_recent) AsyncStatusResponse c;
  Some (let? resp := r in Ok (control_code resp), c).

(** The loop of [query], with what was collected; one turn per message. *)
Fixpoint collect (fuel : nat) (id : Z) (st : Stream) (out : list byte) : option (result (list byte) ClientError * Stream) :=
  match fuel with
  | O => None
  | S fuel =>
      let '(r, st) := read_msg st in
      match r with
      | Err e => Some (Err e, st)
      | Ok msg =>
          match message_type msg with
          | Data | DataEnd =>
              if negb (message_parameter msg =? id) then Some (Err (IdMismatch (message_parameter msg) id), st)
              else
                let out := out ++ payload msg in
                if bool_decide (message_type msg = DataEnd) then Some (Ok out, st) else collect fuel id st out
          | Interrupted => Some (Err (QueryInterrupted (message_parameter msg)), st)
          | ErrorMessage => Some (Err (DeviceError (from_utf8_lossy (payload msg))), st)
          | FatalError => Some (Err (FatalReply (from_utf8_lossy (payload msg))), st)
          | other => Some (Err (UnexpectedSync other), st)
          end
      end
  end.

Definition query (cmd : list byte) (c : HislipClient) : option (result (list byte) ClientError * HislipClient) :=
  let '(id, c) := next_message_id c in
  match send_data cmd id c with
  | (Err e, c) => Some (Err e, c)
  | (Ok _, c) =>
      '(r, st) ← collect (S (length (avail (inbox (sync c))))) id (sync c) [];
      Some (r, with_sync st c)
  end.

(** ** A session on the synchronous channel *)

Inductive Op : Type := Write (cmd : list byte) | Query (cmd : list byte) | Trigger.

Definition run_op (o : Op) (c : HislipClient) : option (result (option (list byte)) ClientError * HislipClient) :=
  match o with
  | Write cmd => let '(r, c) := write cmd c in Some (let? _ := r in Ok None, c)
  | Query cmd => '(r, c) ← query cmd c; Some (let? d := r in Ok (Some d), c)
  | Trigger => let '(r, c) := trigger c in Some (let? _ := r in Ok None, c)
  end.

(** Until one fails. *)
Fixpoint run_ops (os : list Op) (c : HislipClient) : option (result (list (option (list byte))) ClientError * HislipClient) :=
  match os with
  | [] => Some (Ok [], c)
  | o :: os =>
      '(r, c) ← run_op o c;
      match r with
      | Err e => Some (Err e, c)
      | Ok a => '(l, c) ← run_ops os c; Some (let? l := l in Ok (a :: l), c)
      end
  end.

End Client.

(** ** Lemmas *)

Section Proofs.
Variables (alloc : Z -> bool) (lo : Reader -> Reader).

Lemma read_from_consumes al rd m r rd' : read_from al rd m = Ok (r, rd') -> (16 + length (avail rd') <= length (avail rd))%nat.
Proof.
  unfold read_from. intros ([buf r1] & E & H)%rbind_Ok. apply read_exact_Ok in E as (L1 & A1 & _); [|lia].
  assert (Hl : (16 + length (avail r1) <= length (avail rd))%nat) by (rewrite A1, length_app; unfold zlen in L1; lia).
  destruct (negb _); [by simplify_eq|]. destruct (_ <? _); [by simplify_eq|]. destruct (negb _); [by simplify_eq|].
  apply rbind_Ok in H as ([p r2] & E2 & H).
  assert (Hl2 : (length (avail r2) <= length (avail r1))%nat).
  { revert E2. unfold take_to_end. destruct (_ <=? _); [|destruct (ending r1)]; intros [= _ <-]; cbn; [|lia].
    unfold zdrop. rewrite length_drop. lia. }
  destruct (from_message_type _); simplify_eq; lia.
Qed.

Lemma read_msg_consumes st m st' : read_msg alloc lo st = (Ok m, st') ->
  (length (avail (inbox st')) < length (avail (inbox st)))%nat.
Proof.
  unfold read_msg. destruct (read_from _ _ _) as [[[x|e] rd]|] eqn:E; intros [= <- <-].
  apply read_from_consumes in E. cbn. lia.
Qed.

(** The turns of the two loops are enough, whatever arrives. *)
Lemma await_turns_enough fuel : forall expect st srq, (length (avail (inbox st)) < fuel)%nat ->
  is_Some (await_reply alloc lo fuel expect st srq).
Proof.
  induction fuel as [|fuel IH]; intros expect st srq Hf; [lia|]. cbn [await_reply].
  destruct (read_msg alloc lo st) as [[m|e] st'] eqn:E; [|done]. apply read_msg_consumes in E.
  destruct (bool_decide _); [apply IH; lia|]. by destruct (negb _).
Qed.

Lemma collect_turns_enough fuel : forall id st out, (length (avail (inbox st)) < fuel)%nat ->
  is_Some (collect alloc lo fuel id st out).
Proof.
  induction fuel as [|fuel IH]; intros id st out Hf; [lia|]. cbn [collect].
  destruct (read_msg alloc lo st) as [[m|e] st'] eqn:E; [|done]. apply read_msg_consumes in E.
  destruct (message_type m); try done; (destruct (negb _); [done|]; destruct (bool_decide _); [done|apply IH; lia]).
Qed.

Definition acceptable (m : Message) : Prop :=
  message_wf m /\ zlen (payload m) <= MAX_MESSAGE_SIZE /\ alloc (zlen (payload m)) = true.

Lemma read_msg_head m tail e o w : acceptable m ->
  read_msg alloc lo (mkStream (mkReader (write_to m ++ tail) e) o w) = (Ok m, mkStream (mkReader tail e) o w).
Proof. intros (Hw & Hl & Ha). unfold read_msg, with_inbox. cbn [inbox outbox write_error]. by rewrite read_write_message. Qed.

(** The messages of one reply, collected. *)
Lemma collect_reply id tail e o w : forall ms out fuel, (length ms <= fuel)%nat ->
  Forall (fun m => acceptable m /\ message_parameter m = id) ms ->
  map message_type ms = replicate (pred (length ms)) Data ++ [DataEnd] ->
  collect alloc lo fuel id (mkStream (mkReader (concat (map write_to ms) ++ tail) e) o w) out =
    Some (Ok (out ++ concat (map payload ms)), mkStream (mkReader tail e) o w).
Proof.
  induction ms as [|m ms IH]; intros out fuel Hf Hms Ht; [done|]. destruct fuel as [|fuel]; [cbn in Hf; lia|].
  apply Forall_cons in Hms as [[Ha Hid] Hms]. cbn [map concat]. rewrite <- app_assoc. cbn [collect]. rewrite read_msg_head by done.
  rewrite Hid, Z.eqb_refl. destruct ms as [|m' ms].
  - injection Ht as ->. by rewrite app_nil_r.
  - cbn [length pred replicate app map] in Ht. injection Ht as -> Ht. cbn [negb bool_decide].
    rewrite bool_decide_eq_false_2 by done. rewrite IH; [|cbn in *; lia|done|exact Ht]. by rewrite <- app_assoc.
Qed.

End Proofs.

(** ** The server's side of a session *)

Definition op_message (id : Z) (o : Op) : Message :=
  match o with
  | Write cmd | Query cmd => with_payload (message_params DataEnd 0 id) cmd
  | Trigger => message_params TriggerMessage 0 id
  end.

Section Session.
Context {B : Type} `{GpibBackend B}.
Variables (config : Config) (display : Backend.Error -> list Z).

(** The session as the server has it when it handles a message, and the command
    a [DataEnd] completes. *)
Definition seen (env : SyncEnv (B := B)) (st : SyncState (B := B)) (m : Message) : SessionEntry :=
  note_client_message (v_before env (entry st)) m.
Definition command (env : SyncEnv (B := B)) (st : SyncState (B := B)) (m : Message) : list byte :=
  (if clear_epoch (v_before env (entry st)) =? epoch st then buffer st else []) ++ payload m.

(** The instrument answers the command with [data], in synchronized mode and with
    the reply size the client announced. *)
Definition answers (env : SyncEnv (B := B)) (st : SyncState (B := B)) (m : Message) (data : list byte) : Prop :=
  let e := seen env st m in
  (exists ex b, execute (v_srq env) (v_bus env (bus st)) (device e) (command env st m) (query_hint (command env st m)) = (Ok ex, b) /\
                ex_data ex = Some data) /\
  overlapped (v_during env e) = false /\ in_u32 (next_server_message_id (v_during env e)) /\
  client_max_message_size (v_during env e) <= MAX_MESSAGE_SIZE.

(** Operations handled by the server's step one after the other: a command and
    a trigger without a reply, a query with one. *)
Inductive session : Z -> list Op -> list (SyncEnv (B := B)) -> SyncState (B := B) ->
    list (option (list byte)) -> SyncState (B := B) -> Prop :=
| session_nil id st : session id [] [] st [] st
| session_quiet id o os env envs st st1 l st2 : match o with Query _ => False | _ => True end ->
    sync_step config display env st (Ok (op_message id o)) = Some ([], st1, Continue) ->
    session (as_u32 (id + 2)) os envs st1 l st2 ->
    session id (o :: os) (env :: envs) st (None :: l) st2
| session_query id cmd os env envs st data out st1 l st2 :
    sync_step config display env st (Ok (op_message id (Query cmd))) = Some (out, st1, Continue) ->
    answers env st (op_message id (Query cmd)) data ->
    session (as_u32 (id + 2)) os envs st1 l st2 ->
    session id (Query cmd :: os) (env :: envs) st (Some data :: l) st2.

(** What the server sends for an answered query. *)
Lemma query_reply env st m data out st1 : message_type m = DataEnd -> answers env st m data ->
  sync_step config display env st (Ok m) = Some (out, st1, Continue) ->
  out = (write_response (set_mav true (v_during env (seen env st m))) (message_parameter m) data).1.
Proof.
  intros Hm ((ex & b & Ex & Ed) & _) E. revert E. unfold sync_step, with_entry. rewrite Hm.
  unfold seen, command in *.
  destruct (clear_epoch (v_before env (entry st)) =? epoch st) eqn:Ec; cbn [entry epoch locks bus buffer]; rewrite Ec;
    cbn [entry epoch locks bus buffer].
  all: unfold run_command; cbn [entry epoch locks bus buffer]; destruct (wait_access _ _ _) as [reg|]; [|done].
  all: cbn [mbind option_bind]; rewrite Ex, Ed.
  all: destruct (write_response _ _ _) as [o e1]; by intros [= <- _].
Qed.

Variables (alloc salloc : Z -> bool) (lo : Reader -> Reader).
Hypothesis alloc_ok : forall n, 0 <= n <= MAX_MESSAGE_SIZE -> alloc n = true.

Lemma messages_length ms tail : (length ms <= length (concat (map write_to ms) ++ tail))%nat.
Proof.
  induction ms as [|m ms IH]; cbn [map concat length]; [lia|]. rewrite <- app_assoc, length_app.
  unfold write_to at 1. cbn [app length]. lia.
Qed.

(** A reply of the server is one the client takes. *)
Lemma reply_acceptable e id data : overlapped e = false -> in_u32 (next_server_message_id e) -> in_u32 id ->
  client_max_message_size e <= MAX_MESSAGE_SIZE ->
  let out := (write_response e id data).1 in
  Forall (fun m => acceptable alloc m /\ message_parameter m = id) out /\
  map message_type out = replicate (pred (length out)) Data ++ [DataEnd] /\ concat (map payload out) = data.
Proof.
  intros Hov Hn Hid Hmax out. destruct (write_response e id data) as [out' e'] eqn:E. unfold out; clear out. cbn [fst].
  pose proof (write_response_control e id data) as Hc. rewrite E in Hc. cbn [fst] in Hc.
  apply write_response_spec in E as (Hp & Ht & Hz & Hm); [|done]. rewrite Hov in Hm. split_and!; [|done..].
  apply Forall_forall. intros m Hin.
  assert (Hmp : message_parameter m = id).
  { apply (list_elem_of_fmap_2 message_parameter) in Hin. change (message_parameter <$> out') with (map message_parameter out') in Hin. rewrite Hm in Hin. by apply elem_of_replicate in Hin as [? _]. }
  assert (Hty : type_wf (message_type m)).
  { apply (list_elem_of_fmap_2 message_type) in Hin. change (message_type <$> out') with (map message_type out') in Hin. rewrite Ht in Hin.
    apply elem_of_app in Hin as [Hin|Hin]; [apply elem_of_replicate in Hin as [-> _]; done|].
    by apply list_elem_of_singleton in Hin as ->. }
  rewrite Forall_forall in Hz, Hc. specialize (Hz m Hin). specialize (Hc m Hin). rewrite zlen_write_to in Hz.
  pose proof (zlen_nonneg (payload m)). unfold MIN_CHUNK, MAX_MESSAGE_SIZE in *. split; [|done].
  assert (Hl : zlen (payload m) <= 16 * 1024 * 1024) by lia.
  split_and!; [split_and!; [done|by rewrite Hc|by rewrite Hmp|lia]|done|apply alloc_ok; unfold MAX_MESSAGE_SIZE; lia].
Qed.

Lemma op_message_wf id o : in_u32 id -> match o with Write cmd | Query cmd => zlen cmd < 2 ^ 64 | Trigger => True end ->
  message_wf (op_message id o).
Proof. intros Hid Ho. by destruct o; (split; [done|]; split; [done|]; split). Qed.

(** What a client can send: within the server's limit and allocatable there. *)
Definition Op_wf (o : Op) : Prop :=
  match o with
  | Write cmd | Query cmd => zlen cmd <= max_message_size config /\ zlen cmd < 2 ^ 64 /\ salloc (zlen cmd) = true
  | Trigger => 0 <= max_message_size config /\ salloc 0 = true
  end.

Lemma op_sendable id o : in_u32 id -> Op_wf o -> sendable config salloc (op_message id o).
Proof.
  intros Hid Ho. destruct o; cbn [Op_wf] in Ho; destruct_and? Ho;
    (split; [by apply op_message_wf|split; cbn; done]).
Qed.

Lemma hislip_session_wire last os envs st l st' id o a srq : session id os envs st l st' -> Forall Op_wf os -> in_u32 id ->
  exists sent outs id',
    sync_loop config display salloc (envs ++ [last]) (mkReader sent None) st = Some (Err UnexpectedEof, outs, st') /\
    run_ops alloc lo os (mkClient (mkStream (mkReader (concat (map write_to outs)) None) o None) a id srq) =
      Some (Ok l, mkClient (mkStream (mkReader [] None) (o ++ sent) None) a id' srq).
Proof.
  intros Hs. revert o. induction Hs as [id st|id op os env envs st st1 l st2 Hop E Hs IH|id cmd os env envs st data out st1 l st2 E Ha Hs IH];
    intros o Hos Hid.
  { exists [], [], id. rewrite app_nil_r. done. }
  - apply Forall_cons in Hos as [Ho Hos].
    destruct (IH (o ++ write_to (op_message id op)) Hos (as_u32_range _)) as (sent & outs & id' & Hsrv & Hcl).
    exists (write_to (op_message id op) ++ sent), outs, id'. split.
    + cbn [app]. rewrite sync_loop_message by (by apply op_sendable). rewrite E. cbn [mbind option_bind]. by rewrite Hsrv.
    + destruct op as [cmd|cmd|]; [|done|]; cbn [run_ops run_op op_message] in *; unfold write, trigger, send_data, write_msg, transmit, next_message_id, with_sync;
        cbn [sync async message_id last_srq inbox outbox write_error map_err rbind with_sync mbind option_bind];
        by rewrite Hcl, app_assoc.
  - apply Forall_cons in Hos as [Ho Hos].
    destruct (IH (o ++ write_to (op_message id (Query cmd))) Hos (as_u32_range _)) as (sent & outs & id' & Hsrv & Hcl).
    exists (write_to (op_message id (Query cmd)) ++ sent), (out ++ outs), id'. split.
    + cbn [app]. rewrite sync_loop_message by (by apply op_sendable). rewrite E. cbn [mbind option_bind]. by rewrite Hsrv.
    + pose proof Ha as (_ & Hov & Hn & Hm). apply (query_reply env st _ data) in E; [|done|done].
      destruct (reply_acceptable (set_mav true (v_during env (seen env st (op_message id (Query cmd))))) id data Hov Hn Hid Hm) as (Hacc & Ht & Hd).
      change (message_parameter (op_message id (Query cmd))) with id in E. cbv zeta in Hacc, Ht, Hd.
      rewrite <- E in Hacc, Ht, Hd. cbn [run_ops run_op op_message] in *. unfold query, next_message_id, send_data, write_msg, transmit, with_sync.
      cbn [sync async message_id last_srq inbox outbox write_error map_err with_sync]. rewrite map_app, concat_app.
      cbn [avail]. rewrite (collect_reply alloc lo id _ None _ None out [] _); [| |exact Hacc|exact Ht].
      2: { pose proof (messages_length out (concat (map write_to outs))). lia. }
      cbn [mbind option_bind with_sync sync async message_id last_srq rbind]. rewrite Hd. by rewrite Hcl, app_assoc.
Qed.

End Session.

(** ** Set-up and status *)

Lemma init_sync_accepted config device_for reg init out reg' sid :
  init_sync config device_for reg init = Some (out, reg', Some sid) ->
  let proto := Z.min SUPPORTED_PROTOCOL (client_protocol (message_parameter init)) in
  let ov := prefers_overlapped (modes config) in
  in_u16 sid /\ reg !! sid = None /\
  out = [message_params InitializeResponse (InitializeResponseControl_new ov false false) (InitializeResponseParameter_new proto sid)] /\
  exists name dev, device_for name = Some dev /\ reg' = <[sid := new_entry sid proto dev (max_message_size config) ov]> reg.
Proof.
  intros E proto ov. revert E. unfold init_sync. destruct (from_utf8 _) as [s|]; [|done].
  destruct (device_for _) as [dev|] eqn:Ed; [|done]. destruct (_ <=? _); [done|].
  pose proof (free_id_spec reg (S (size reg)) 0 ltac:(lia) ltac:(lia) ltac:(lia)) as Hfree.
  change (2 * Z.of_nat 0) with 0 in Hfree. destruct (free_id (S (size reg)) reg 0) as [[sid'|]|]; [|done|done].
  cbn [mbind option_bind]. intros [= <- <- <-]. destruct Hfree as (Hn & Hu & _). split_and!; [done|done|done|by eauto].
Qed.

Lemma proto_range v : in_u16 (Z.min SUPPORTED_PROTOCOL (client_protocol v)).
Proof.
  assert (0 <= client_protocol v) by (unfold client_protocol, bits; apply Z.land_nonneg; right; by vm_compute).
  unfold in_u16, SUPPORTED_PROTOCOL, PROTOCOL_2_0. lia.
Qed.

Lemma vendor_range v : in_u16 v -> AsyncInitializeResponseParameter_new v = v.
Proof.
  unfold in_u16. intros Hv. unfold AsyncInitializeResponseParameter_new, set_bits. rewrite Z.land_0_l, Z.lor_0_l.
  change (15 - 0 + 1) with 16. rewrite !Z.shiftl_0_r, !Z.land_ones by lia. change (2 ^ 16) with 65536. by rewrite !Z.mod_small by lia.
Qed.

Section Setup.
Variables (alloc : Z -> bool) (lo : Reader -> Reader).
Hypothesis alloc_ok : forall n, 0 <= n <= MAX_MESSAGE_SIZE -> alloc n = true.

Lemma plain_acceptable t c p : type_wf t -> in_u8 c -> in_u32 p -> acceptable alloc (message_params t c p).
Proof. intros Ht Hc Hp. split; [split_and!; done|]. split; [by vm_compute|]. apply alloc_ok. by vm_compute. Qed.

Lemma exchange_head m resp tail e o : acceptable alloc resp ->
  exchange alloc lo m (message_type resp) (mkStream (mkReader (write_to resp ++ tail) e) o None) =
    (Ok resp, mkStream (mkReader tail e) (o ++ write_to m) None).
Proof.
  intros Ha. unfold exchange, write_msg, transmit. cbn [write_error inbox outbox map_err]. rewrite read_msg_head by done.
  cbn [rbind]. by rewrite bool_decide_eq_true_2.
Qed.

(** Pushed service requests are passed over, the last one remembered. *)
Lemma await_pushes expect e : forall stbs resp tail o srq fuel, (length stbs < fuel)%nat -> Forall in_u8 stbs ->
  acceptable alloc resp -> message_type resp = expect -> expect <> AsyncServiceRequest ->
  await_reply alloc lo fuel expect
    (mkStream (mkReader (concat (map (fun x => write_to (message_params AsyncServiceRequest x 0)) stbs) ++ write_to resp ++ tail) e) o None) srq =
    Some (Ok resp, mkStream (mkReader tail e) o None, match last stbs with Some x => Some x | None => srq end).
Proof.
  induction stbs as [|x stbs IH]; intros resp tail o srq fuel Hf Hs Ha Ht Hne; (destruct fuel as [|fuel]; [cbn in Hf; lia|]).
  - cbn [map concat app await_reply]. rewrite read_msg_head by done. rewrite Ht.
    rewrite bool_decide_eq_false_2 by done. by rewrite bool_decide_eq_true_2.
  - apply Forall_cons in Hs as [Hx Hs]. cbn [map concat await_reply]. rewrite <- app_assoc.
    rewrite read_msg_head by (apply plain_acceptable; [done|done|by vm_compute]). cbn [message_type message_params].
    rewrite bool_decide_eq_true_2 by done. cbn [control_code message_params].
    rewrite IH; [|cbn in Hf; lia|done..]. rewrite last_cons. by destruct (last stbs).
Qed.

End Setup.

Lemma log2_u8 x : 0 <= x -> (x < 256 <-> Z.log2 x < 8).
Proof.
  intros Hx. destruct (Z.eq_dec x 0) as [->|]; [by vm_compute|]. change 256 with (2 ^ 8). apply Z.log2_lt_pow2. lia.
Qed.

Lemma lor_u8 a c : in_u8 a -> in_u8 c -> in_u8 (Z.lor a c).
Proof.
  unfold in_u8. intros [Ha Ha'] [Hc Hc']. assert (Hn : 0 <= Z.lor a c) by (apply Z.lor_nonneg; lia). split; [done|].
  apply log2_u8; [done|]. rewrite Z.log2_lor by lia. apply log2_u8 in Ha', Hc'; lia.
Qed.

Lemma land_u8 a c : in_u8 a -> 0 <= c -> in_u8 (Z.land a c).
Proof.
  unfold in_u8. intros [Ha Ha'] Hc. assert (Hn : 0 <= Z.land a c) by (apply Z.land_nonneg; lia). split; [done|].
  apply log2_u8; [done|]. pose proof (Z.log2_land a c Ha Hc). apply log2_u8 in Ha'; lia.
Qed.

Lemma status_response_u8 e polled id : (forall stb, polled = Ok stb -> in_u8 stb) ->
  (forall stb, consumed_stb e = Some stb -> in_u8 stb) -> in_u8 (status_response e polled id).1.
Proof.
  intros Hp Hc. unfold status_response. cbn [fst]. apply lor_u8.
  - apply land_u8; [|by vm_compute]. destruct polled as [stb|]; [specialize (Hp stb eq_refl)|];
      (destruct (_ =? 0); [destruct (consumed_stb e) as [c|]; [by apply Hc|]|]); done.
  - unfold mav_bit. destruct (overlapped e); [by destruct (_ =? _)|]. destruct (mav e); [|done]. by destruct (_ =? _).
Qed.

(** ** Properties *)

(** a remote instrument is a local one.  Whatever a client does on the
    synchronous channel - commands, triggers, queries - the bytes it sends, run
    through the server's loop, come back as messages from which every query reads
    exactly the data the instrument answered with, however the server cuts them
    up; the server ends in the state its steps leave, and no byte is left over. *)
Theorem hislip_transparent {B} `{GpibBackend B} config display alloc salloc lo last os envs (st : SyncState (B := B)) l st' async :
  (forall n, 0 <= n <= MAX_MESSAGE_SIZE -> alloc n = true) -> Forall (Op_wf config salloc) os ->
  session config display FIRST_MESSAGE_ID os envs st l st' ->
  exists sent outs id',
    sync_loop config display salloc (envs ++ [last]) (mkReader sent None) st = Some (Err UnexpectedEof, outs, st') /\
    run_ops alloc lo os (mkClient (mkStream (mkReader (concat (map write_to outs)) None) [] None) async FIRST_MESSAGE_ID None) =
      Some (Ok l, mkClient (mkStream (mkReader [] None) sent None) async id' None).
Proof.
  intros Ha Hos Hs.
  exact (hislip_session_wire config display alloc salloc lo Ha last os envs st l st' FIRST_MESSAGE_ID [] async None Hs Hos ltac:(by vm_compute)).
Qed.

(** A query, a command that answers nothing, and a second query on a scripted
    instrument; the client takes at most 256 bytes of data per message. *)
Definition demo_state : SyncState (B := Mock) :=
  mkSync (set_client_max 272 (new_entry 0 SUPPORTED_PROTOCOL 18 65536 false)) Lock.new_registry
    (mkMock [(Ok (replicate 600 x41, true), 10); (Ok ([x31; x0a], true), 5)] 0 (10, true) 3000 None 0 false) [] 0.
Definition demo_ops : list Op := [Query (as_bytes (str "CURV?")); Write (as_bytes (str "*RST")); Query (as_bytes (str "*OPC?"))].

Lemma hislip_transparent_witness : exists sent outs id' st',
  sync_loop default_config (fun e => e) (fun _ => true) (replicate 4 idle_env) (mkReader sent None) demo_state =
    Some (Err UnexpectedEof, outs, st') /\
  run_ops (fun _ => true) (fun rd => rd) demo_ops
    (mkClient (mkStream (mkReader (concat (map write_to outs)) None) [] None) (mkStream (mkReader [] None) [] None) FIRST_MESSAGE_ID None) =
    Some (Ok [Some (replicate 600 x41); None; Some [x31; x0a]],
          mkClient (mkStream (mkReader [] None) sent None) (mkStream (mkReader [] None) [] None) id' None).
Proof.
  edestruct (hislip_transparent default_config (fun e => e) (fun _ => true) (fun _ => true) (fun rd => rd) idle_env demo_ops
    [idle_env; idle_env; idle_env] demo_state) as (sent & outs & id' & Hs & Hc).
  - done.
  - by repeat constructor.
  - eapply (session_query default_config (fun e => e) _ _ _ _ _ _ (replicate 600 x41)); [by vm_compute| |].
    { split; [by do 2 eexists|]. by vm_compute. }
    eapply session_quiet; [done|by vm_compute|].
    eapply (session_query default_config (fun e => e) _ _ _ _ _ _ [x31; x0a]); [by vm_compute| |apply session_nil].
    split; [by do 2 eexists|]. by vm_compute.
  - exists sent, outs, id'. eexists. exact (conj Hs Hc).
Defined.

(** the handshake ends on both sides alike.  When the server accepts the
    client's first message, the rest of the handshake goes through: the client
    gets its two channels with nothing unread on either, its first message id and
    no service request; and in the server's table the session it was given - new,
    on the instrument the name stands for - is bound to the asynchronous channel,
    takes replies of up to 16 MiB, and has the id before the first as the last one
    seen, which is the one the client's next status query quotes. *)
Theorem connect_establishes {B} `{GpibBackend B} config device_for reg alloc lo name vendor turns t hold lreg (b : B) out1 reg1 sid :
  (forall n, 0 <= n <= MAX_MESSAGE_SIZE -> alloc n = true) -> in_u16 (vendor_id config) ->
  let init := with_payload (message_params Initialize 0 (as_parameter SUPPORTED_PROTOCOL vendor)) (as_bytes name) in
  let join := message_params AsyncInitialize 0 sid in
  let size := with_payload (message_params AsyncMaximumMessageSize 0 0) (be_bytes 8 MAX_MESSAGE_SIZE) in
  first_message config device_for reg (Ok init) = Some (out1, reg1, Some sid) ->
  exists out2 reg2 e2 out3 e3 c,
    first_message config device_for reg1 (Ok join) = Some (out2, reg2, Some sid) /\ reg2 !! sid = Some e2 /\
    async_step config turns t hold e2 lreg b (Ok size) = Some (out3, e3, lreg, b, Continue) /\
    connect alloc lo (mkStream (mkReader (concat (map write_to out1)) None) [] None)
      (mkStream (mkReader (concat (map write_to (out2 ++ out3))) None) [] None) name vendor = (Ok c, (sync c, async c)) /\
    c = mkClient (mkStream (mkReader [] None) (write_to init) None)
                 (mkStream (mkReader [] None) (write_to join ++ write_to size) None) FIRST_MESSAGE_ID None /\
    reg !! sid = None /\ delete sid reg2 = reg /\ async_bound e3 = true /\ client_max_message_size e3 = MAX_MESSAGE_SIZE /\
    (exists s, device_for s = Some (device e3)) /\ last_message_id e3 = as_u32 (message_id c - 2).
Proof.
  intros Ha Hv init join size E. unfold first_message in E. cbn [message_type with_payload message_params init] in E.
  apply init_sync_accepted in E as (Hsid & Hnone & -> & s & dev & Hdev & ->).
  set (proto := Z.min _ _). assert (Hp : in_u16 proto) by apply proto_range. set (ov := prefers_overlapped _).
  assert (Hland : Z.land sid 0xFFFF = sid).
  { change 0xFFFF with (Z.ones 16). rewrite Z.land_ones by lia. apply Z.mod_small, Hsid. }
  assert (Hpar : in_u32 (InitializeResponseParameter_new proto sid) /\ session_id (InitializeResponseParameter_new proto sid) = sid).
  { rewrite halves_new by done. destruct (halves_bits proto sid Hp Hsid) as [_ Hb]. split; [|exact Hb].
    unfold in_u16, in_u32 in *. lia. }
  destruct Hpar as [Hpar Hses].
  do 5 eexists. exists (mkClient (mkStream (mkReader [] None) (write_to init) None)
    (mkStream (mkReader [] None) (write_to join ++ write_to size) None) FIRST_MESSAGE_ID None). split_and!.
  - unfold first_message, join, init_async. cbn [message_type message_params message_parameter].
    rewrite Hland, lookup_insert_eq. cbn [async_bound new_entry]. reflexivity.
  - by rewrite lookup_insert_eq.
  - reflexivity.
  - unfold connect. fold init. cbn [map concat app]. rewrite <- (app_nil_r (write_to (message_params InitializeResponse _ _) ++ [])), <- app_assoc.
    cbn [app].
    rewrite (exchange_head alloc lo init (message_params InitializeResponse _ _)).
    2: { apply plain_acceptable; [done|done|destruct ov; by vm_compute|done]. }
    cbn [message_parameter message_params]. rewrite Hses. fold join.
    rewrite (exchange_head alloc lo join (message_params AsyncInitializeResponse _ _)).
    2: { apply plain_acceptable; [done|done|by vm_compute|rewrite vendor_range by done; unfold in_u16, in_u32 in *; lia]. }
    fold size. rewrite (exchange_head alloc lo size (with_payload (message_params AsyncMaximumMessageSizeResponse 0 0) _)).
    2: { split; [split_and!; [done|by vm_compute..|]|split]; cbn; rewrite ?zlen_be_bytes; [by vm_compute..|apply Ha; by vm_compute]. }
    reflexivity.
  - done.
  - done.
  - by rewrite insert_insert_eq, delete_insert_id.
  - done.
  - by vm_compute.
  - by exists s.
  - by vm_compute.
Qed.

Lemma connect_establishes_witness : exists out1 reg1,
  let init := with_payload (message_params Initialize 0 (as_parameter SUPPORTED_PROTOCOL 0x5858)) (as_bytes (str "hislip18")) in
  first_message default_config parse_subaddress_pad ∅ (Ok init) = Some (out1, reg1, Some 0) /\
  exists out2 reg2 out3 c,
    first_message default_config parse_subaddress_pad reg1 (Ok (message_params AsyncInitialize 0 0)) = Some (out2, reg2, Some 0) /\
    connect (fun _ => true) (fun rd => rd) (mkStream (mkReader (concat (map write_to out1)) None) [] None)
      (mkStream (mkReader (concat (map write_to (out2 ++ out3))) None) [] None) (str "hislip18") 0x5858 = (Ok c, (sync c, async c)).
Proof.
  do 2 eexists. split; [reflexivity|].
  edestruct (connect_establishes default_config parse_subaddress_pad ∅ (fun _ => true) (fun rd => rd) (str "hislip18") 0x5858
    [] 0 (fun b => b) Lock.new_registry (bus demo_state)) as (out2 & reg2 & e2 & out3 & e3 & c & H2 & _ & _ & Hc & _);
    [done|by vm_compute|reflexivity|].
  exists out2, reg2, out3, c. exact (conj H2 Hc).
Defined.

(** a status query sees the reply.  In synchronized mode, where the last message
    the server saw is the client's last - a query just answered, say - the status
    the client reads is the instrument's, with MAV set exactly when a reply is
    pending; service requests pushed before the answer are passed over, the last
    one kept for [take_service_request]. *)
Theorem status_sees_reply {B} `{GpibBackend B} config alloc lo turns t hold e reg (b : B) c stbs o :
  (forall n, 0 <= n <= MAX_MESSAGE_SIZE -> alloc n = true) -> overlapped e = false ->
  last_message_id e = as_u32 (message_id c - 2) -> (forall stb, consumed_stb e = Some stb -> in_u8 stb) -> Forall in_u8 stbs ->
  (forall stb b', gb_serial_poll (hold b) (device e) = (Ok stb, b') -> in_u8 stb) ->
  let q := message_params AsyncStatusQuery 0 (as_u32 (message_id c - 2)) in
  exists stb e' b',
    async_step config turns t hold e reg b (Ok q) = Some ([message_params AsyncStatusResponse stb 0], e', reg, b', Continue) /\
    has_flag stb STB_MAV = mav e /\
    forall push, push = concat (map (fun x => write_to (async_push (ServiceRequest x))) stbs) ->
    status alloc lo (with_async (mkStream (mkReader (push ++ write_to (message_params AsyncStatusResponse stb 0)) None) o None) (last_srq c) c) =
      Some (Ok stb, with_async (mkStream (mkReader [] None) (o ++ write_to q) None)
                      (match last stbs with Some x => Some x | None => last_srq c end) c).
Proof.
  intros Ha Hov Hid Hc Hs Hp q. cbn [async_step message_type message_params q]. unfold get_status, one_shot.
  destruct (gb_serial_poll (hold b) (device e)) as [polled b1] eqn:Ep.
  assert (Hu : in_u8 (status_response e polled (as_u32 (message_id c - 2))).1).
  { apply status_response_u8; [|done]. intros stb ->. by eapply Hp. }
  assert (Hm : has_flag (status_response e polled (as_u32 (message_id c - 2))).1 STB_MAV = mav e).
  { unfold status_response. cbn [fst]. unfold has_flag. rewrite Z.land_lor_distr_l, <- Z.land_assoc.
    change (Z.land (as_u8 (Z.lnot STB_MAV)) STB_MAV) with 0. rewrite Z.land_0_r, Z.lor_0_l.
    unfold mav_bit. rewrite Hov, Hid, Z.eqb_refl. by destruct (mav e). }
  cbn [message_parameter message_params]. destruct (status_response e polled _) as [stb e'] eqn:Es. cbn [fst] in Hu, Hm.
  exists stb, e', b1. split_and!; [done|done|]. intros push ->. cbn [async_push].
  unfold status, async_request, write_msg, transmit. cbn [with_async async write_error inbox outbox map_err message_id last_srq sync].
  rewrite <- (app_nil_r (write_to (message_params AsyncStatusResponse stb 0))).
  rewrite (await_pushes alloc lo Ha); [by fold q| |done|apply plain_acceptable; [done|done|done|by vm_compute]|done|done].
  cbn [avail]. pose proof (messages_length (map (fun x => message_params AsyncServiceRequest x 0) stbs)
    (write_to (message_params AsyncStatusResponse stb 0) ++ [])) as Hl. rewrite length_map, map_map in Hl. lia.
Qed.

(** After a query was answered: the instrument says 0x41, and a service request
    comes in first. *)
Lemma status_sees_reply_witness :
  let c := mkClient (mkStream (mkReader [] None) [] None) (mkStream (mkReader [] None) [] None) (as_u32 (FIRST_MESSAGE_ID + 2)) None in
  let e := set_mav true (set_last_message_id FIRST_MESSAGE_ID (entry demo_state)) in
  let b := mkMock [] 0 (10, true) 3000 None 0x41 false in
  exists stb e' b',
    async_step default_config [] 0 (fun b => b) e Lock.new_registry b (Ok (message_params AsyncStatusQuery 0 FIRST_MESSAGE_ID)) =
      Some ([message_params AsyncStatusResponse stb 0], e', Lock.new_registry, b', Continue) /\ has_flag stb STB_MAV = true /\
    (status (fun _ => true) (fun rd => rd) (with_async (mkStream (mkReader (concat [write_to (async_push (ServiceRequest 0x50))] ++
       write_to (message_params AsyncStatusResponse stb 0)) None) [] None) None c)) =
      Some (Ok stb, with_async (mkStream (mkReader [] None) (write_to (message_params AsyncStatusQuery 0 FIRST_MESSAGE_ID)) None) (Some 0x50) c).
Proof.
  intros c e b.
  destruct (status_sees_reply default_config (fun _ => true) (fun rd => rd) [] 0 (fun b => b) e Lock.new_registry b c [0x50] [])
    as (stb & e' & b' & H1 & H2 & H3); [done|done|by vm_compute|done|by repeat constructor| |].
  { intros stb b' [= <- _]. by vm_compute. }
  exists stb, e', b'. exact (conj H1 (conj H2 (H3 _ eq_refl))).
Defined.

End HislipClient.
