(* ===== verification/HislipAsync.v ===== *)
(** * The asynchronous HiSLIP channel, both ends: [async_loop] and its tasks of
    [src/hislip/server.rs], [src/hislip/client.rs]

    The loop shares the channel's writer with two tasks that push messages of
    their own: the service-request forwarder and the queue of what the server
    itself has to say.  They run while the loop is parked in its read, so each
    turn of the loop takes what they, and the other tasks of the daemon, did
    before its message.  Every message is written whole under the writer's
    lock. *)

From S2P Require Import Prelude RustStr Rpc Lock Backend HislipMsg Hislip Stream HislipClient.

Module HislipAsync.
Import RustStr Backend Rpc.Io HislipMsg Hislip Stream HislipClient.

Section Channel.
Context {B : Type} `{GpibBackend B}.
Variable config : Config.

Record AsyncState : Type := mkAsync { a_entry : SessionEntry; a_locks : Lock.LockRegistry; a_bus : B }.

(** Enough polls for one notification ([Hislip.srq_recheck_bounded]). *)
Definition FORWARD_TURNS : nat := 26.

Inductive Push : Type :=
| Notified                                    (* the adapter reports SRQ *)
| Queued                                      (* the queue's task takes an entry *)
| Elsewhere (f : AsyncState -> AsyncState).   (* any other task *)

Definition push_step (p : Push) (st : AsyncState) : option (list Message * AsyncState) :=
  match p with
  | Notified =>
      '(out, e, b) ← forward_service_request FORWARD_TURNS (a_entry st) (a_bus st);
      Some (out, mkAsync e (a_locks st) b)
  | Queued =>
      match async_queue (a_entry st) with
      | [] => Some ([], st)
      | p :: q => Some ([async_push p], mkAsync (set_queues q (sync_queue (a_entry st)) (a_entry st)) (a_locks st) (a_bus st))
      end
  | Elsewhere f => Some ([], f st)
  end.

Fixpoint pushes (ps : list Push) (st : AsyncState) : option (list Message * AsyncState) :=
  match ps with
  | [] => Some ([], st)
  | p :: ps =>
      '(out, st) ← push_step p st;
      '(rest, st) ← pushes ps st;
      Some (out ++ rest, st)
  end.

(** Around one message: the pushes before its answer, the turns of a lock wait,
    the clock, and what the bus went through before it was got. *)
Record Turn : Type := mkTurn { before : list Push; turns : list Lock.turn; clock : Z; hold : B -> B }.

Fixpoint async_loop (alloc : Z -> bool) (ts : list Turn) (rd : Reader) (st : AsyncState)
    : option (result unit IoError * list Message * AsyncState) :=
  match ts with
  | [] => None
  | t :: ts =>
      '(pushed, st) ← pushes (before t) st;
      match read_from alloc rd (max_message_size config) with
      | Err e => Some (Err e, pushed, st)
      | Ok (incoming, rd) =>
          '(out, e, reg, b, flow) ← async_step config (turns t) (clock t) (hold t) (a_entry st) (a_locks st) (a_bus st) incoming;
          let st := mkAsync e reg b in
          match flow with
          | Close => Some (Ok tt, pushed ++ out, st)
          | Continue =>
              '(res, rest, st) ← async_loop alloc ts rd st;
              Some (res, pushed ++ out ++ rest, st)
          end
      end
  end.

(** The synchronous channel's own push: the first mirrored fatal error, after
    which its writer is shut down. *)
Definition sync_fatal_pusher (e : SessionEntry) : option (Message * SessionEntry) :=
  match sync_queue e with
  | [] => None
  | (code, msg) :: q => Some (message_from_error (Fatal code msg), set_queues (async_queue e) q e)
  end.
End Channel.

(** ** What a client does on it *)

Inductive AOp : Type := AClear | ARemote (on : bool) | AStatus.

Definition expect (o : AOp) : MessageType :=
  match o with AClear => AsyncDeviceClearAcknowledge | ARemote _ => AsyncRemoteLocalResponse | AStatus => AsyncStatusResponse end.

(** What it sends, the last id it used being [recent]. *)
Definition aop_message (recent : Z) (o : AOp) : Message :=
  match o with
  | AClear => message_params AsyncDeviceClear 0 0
  | ARemote on => message_params AsyncRemoteLocalControl (if on then 3 else 0) 0
  | AStatus => message_params AsyncStatusQuery 0 recent
  end.

Definition aop_result (o : AOp) (reply : Message) : option Z :=
  match o with AStatus => Some (control_code reply) | _ => None end.

Section Client.
Variables (alloc : Z -> bool) (lo : Reader -> Reader).

Definition run_aop (o : AOp) (c : HislipClient) : option (result (option Z) ClientError * HislipClient) :=
  match o with
  | AClear => '(r, c) ← clear alloc lo c; Some (let? _ := r in Ok None, c)
  | ARemote on => '(r, c) ← remote alloc lo on c; Some (let? _ := r in Ok None, c)
  | AStatus => '(r, c) ← status alloc lo c; Some (let? s := r in Ok (Some s), c)
  end.

Fixpoint run_aops (os : list AOp) (c : HislipClient) : option (result (list (option Z)) ClientError * HislipClient) :=
  match os with
  | [] => Some (Ok [], c)
  | o :: os =>
      '(r, c) ← run_aop o c;
      match r with
      | Err e => Some (Err e, c)
      | Ok a => '(l, c) ← run_aops os c; Some (let? l := l in Ok (a :: l), c)
      end
  end.

Lemma run_aop_request o c : run_aop o c =
  '(r, c') ← async_request alloc lo (aop_message (as_u32 (message_id c - 2)) o) (expect o) c;
  Some (let? resp := r in Ok (aop_result o resp), c').
Proof.
  destruct o; unfold run_aop, clear, remote, status; cbn [aop_message expect aop_result];
    (destruct (async_request alloc lo _ _ c) as [[[m|e] c']|]; done).
Qed.
End Client.

Section Session.
Context {B : Type} `{GpibBackend B}.
Variables (config : Config) (alloc salloc : Z -> bool) (lo : Reader -> Reader).
Notation AsyncState := (AsyncState (B := B)).
Notation Turn := (Turn (B := B)).

(** Operations handled by the server's step one after the other, any number of
    service requests pushed before each answer: the results, and the status bytes
    pushed on the way. *)
Inductive asession (recent : Z) : list AOp -> list Turn -> AsyncState -> list (option Z) -> list Z -> AsyncState -> Prop :=
| asession_nil st : asession recent [] [] st [] [] st
| asession_op o os t ts st stbs st1 reply e reg b l srqs st2 :
    pushes (before t) st = Some (map (fun x => message_params AsyncServiceRequest x 0) stbs, st1) -> Forall in_u8 stbs ->
    async_step config (turns t) (clock t) (hold t) (a_entry st1) (a_locks st1) (a_bus st1) (Ok (aop_message recent o)) =
      Some ([reply], e, reg, b, Continue) ->
    in_u8 (control_code reply) ->
    asession recent os ts (mkAsync e reg b) l srqs st2 ->
    asession recent (o :: os) (t :: ts) st (aop_result o reply :: l) (stbs ++ srqs) st2.

(** The answer to each operation is of the type its client waits for. *)
Lemma step_reply turns t hold e reg (b : B) recent o reply e' reg' b' :
  async_step config turns t hold e reg b (Ok (aop_message recent o)) = Some ([reply], e', reg', b', Continue) ->
  reply = message_params (expect o) (control_code reply) 0.
Proof.
  destruct o as [|on|]; cbn [async_step aop_message message_type message_params expect].
  - destruct (wait_access turns e reg); [|done]. cbn [mbind option_bind]. by intros [= <- _ _ _].
  - assert (exists p, remote_local hold (if on then 3 else 0) b (device e) = Some p) as [[? b1] E].
    { destruct on; eexists; reflexivity. }
    cbn [control_code message_params]. rewrite E. by intros [= <- _ _ _].
  - destruct (get_status hold b (device e)) as [polled b1]. destruct (status_response _ _ _) as [stb e1]. by intros [= <- _ _ _].
Qed.

Hypothesis alloc_ok : forall n, 0 <= n <= MAX_MESSAGE_SIZE -> alloc n = true.
Hypothesis limit : 0 <= max_message_size config.
Hypothesis salloc_ok : salloc 0 = true.

Lemma aop_sendable recent o : in_u32 recent -> sendable config salloc (aop_message recent o).
Proof. intros Hr. destruct o as [|[]|]; (split; [split_and!; done|split; done]). Qed.

Lemma async_loop_message t ts m tail e (st : AsyncState) : sendable config salloc m ->
  async_loop config salloc (t :: ts) (mkReader (write_to m ++ tail) e) st =
  '(pushed, st) ← pushes (before t) st;
  '(out, e', reg, b, flow) ← async_step config (turns t) (clock t) (hold t) (a_entry st) (a_locks st) (a_bus st) (Ok m);
  match flow with
  | Close => Some (Ok tt, pushed ++ out, mkAsync e' reg b)
  | Continue =>
      '(res, rest, st) ← async_loop config salloc ts (mkReader tail e) (mkAsync e' reg b);
      Some (res, pushed ++ out ++ rest, st)
  end.
Proof. intros (Hw & Hl & Ha). cbn [async_loop]. by rewrite read_write_message. Qed.

Lemma asession_wire last os ts (st st' : AsyncState) l srqs c o srq : asession (as_u32 (message_id c - 2)) os ts st l srqs st' ->
  before last = [] ->
  exists sent outs,
    async_loop config salloc (ts ++ [last]) (mkReader sent None) st = Some (Err UnexpectedEof, outs, st') /\
    run_aops alloc lo os (with_async (mkStream (mkReader (concat (map write_to outs)) None) o None) srq c) =
      Some (Ok l, with_async (mkStream (mkReader [] None) (o ++ sent) None) (match list.last srqs with Some x => Some x | None => srq end) c).
Proof.
  intros Hs Hlast. revert o srq.
  induction Hs as [st|op os t ts st stbs st1 reply e reg b l srqs st2 Hp Hu Hst Hc Hs IH]; intros o srq.
  { exists [], []. rewrite app_nil_r. cbn [app async_loop]. rewrite Hlast. done. }
  set (m := aop_message (as_u32 (message_id c - 2)) op).
  destruct (IH (o ++ write_to m) (match list.last stbs with Some x => Some x | None => srq end)) as (sent & outs & Hsrv & Hcl).
  pose proof (step_reply _ _ _ _ _ _ _ _ _ _ _ _ Hst) as Hr.
  assert (Ha : acceptable alloc reply).
  { rewrite Hr. apply plain_acceptable; [done|by destruct op|done|by vm_compute]. }
  exists (write_to m ++ sent), (map (fun x => message_params AsyncServiceRequest x 0) stbs ++ [reply] ++ outs). split.
  - cbn [app]. rewrite async_loop_message by (apply aop_sendable, as_u32_range). rewrite Hp. cbn [mbind option_bind].
    fold m in Hst. rewrite Hst. cbn [mbind option_bind]. by rewrite Hsrv.
  - cbn [run_aops]. rewrite run_aop_request. unfold async_request, write_msg, transmit.
    cbn [with_async message_id async write_error inbox outbox map_err last_srq sync]. fold m.
    rewrite map_app, concat_app. cbn [map concat app]. rewrite map_map.
    rewrite (await_pushes alloc lo alloc_ok); [| |done|done|by rewrite Hr|by destruct op].
    2: { cbn [avail]. pose proof (messages_length (map (fun x => message_params AsyncServiceRequest x 0) stbs)
           (write_to reply ++ concat (map write_to outs))) as Hl. rewrite length_map, map_map in Hl. lia. }
    cbn [mbind option_bind rbind]. change (with_async ?s1 ?q1 (with_async ?s2 ?q2 c)) with (with_async s1 q1 c).
    rewrite Hcl. cbn [mbind option_bind rbind]. rewrite <- app_assoc, last_app.
    by destruct (list.last srqs), (list.last stbs).
Qed.
End Session.

(** ** Property *)

(** C21: device clears, remote/local control and status queries survive the pushes.
    Whatever the server's tasks push on the channel in between, each operation
    of a client is answered by the server's own step on the very state it found,
    the client takes that answer and no push for it, the answers come in the
    order of the operations, and of the service requests passed over the last
    one is kept. *)
Theorem hislip_async_transparent {B} `{GpibBackend B} config alloc salloc lo last os ts (st st' : AsyncState (B := B)) l srqs c :
  (forall n, 0 <= n <= MAX_MESSAGE_SIZE -> alloc n = true) -> 0 <= max_message_size config -> salloc 0 = true ->
  asession config (as_u32 (message_id c - 2)) os ts st l srqs st' -> before last = [] ->
  exists sent outs,
    async_loop config salloc (ts ++ [last]) (mkReader sent None) st = Some (Err UnexpectedEof, outs, st') /\
    run_aops alloc lo os (with_async (mkStream (mkReader (concat (map write_to outs)) None) [] None) (last_srq c) c) =
      Some (Ok l, with_async (mkStream (mkReader [] None) sent None)
                    (match list.last srqs with Some x => Some x | None => last_srq c end) c).
Proof.
  intros Ha Hm Hz Hs Hl.
  exact (asession_wire config alloc salloc lo Ha Hm Hz last os ts st st' l srqs c [] (last_srq c) Hs Hl).
Qed.

(** The adapter reports SRQ and the queue holds a request of the server's own
    while the client asks for the status; then it clears the device. *)
Definition busy_state : AsyncState (B := Mock) :=
  mkAsync (set_mav true (push_async (entry demo_state) (ServiceRequest 0x10))) Lock.new_registry (mkMock [] 0 (10, true) 3000 None 0x41 true).
Definition quiet_turn : Turn (B := Mock) := mkTurn [] [] 0 (fun b => b).

Lemma hislip_async_transparent_witness :
  let c := mkClient (mkStream (mkReader [] None) [] None) (mkStream (mkReader [] None) [] None) FIRST_MESSAGE_ID None in
  exists sent outs st',
    async_loop default_config (fun _ => true) [mkTurn [Notified; Queued] [] 0 (fun b => b); quiet_turn; quiet_turn] (mkReader sent None) busy_state =
      Some (Err UnexpectedEof, outs, st') /\
    run_aops (fun _ => true) (fun rd => rd) [AStatus; AClear] (with_async (mkStream (mkReader (concat (map write_to outs)) None) [] None) None c) =
      Some (Ok [Some 0x51; None], with_async (mkStream (mkReader [] None) sent None) (Some 0x10) c).
Proof.
  intros c.
  edestruct (fun st' l srqs => hislip_async_transparent default_config (fun _ => true) (fun _ => true) (fun rd => rd) quiet_turn [AStatus; AClear]
    [mkTurn [Notified; Queued] [] 0 (fun b => b); quiet_turn] busy_state st' l srqs c) as (sent & outs & Hs & Hc).
  - done.
  - by vm_compute.
  - done.
  - eapply (asession_op default_config _ _ _ _ _ _ [0x41; 0x10]);
      [vm_compute; reflexivity|repeat (apply List.Forall_cons; [unfold in_u8; lia|]); constructor|vm_compute; reflexivity|unfold in_u8; cbn; lia|].
    eapply (asession_op default_config _ _ _ _ _ _ []);
      [vm_compute; reflexivity|constructor|vm_compute; reflexivity|unfold in_u8; cbn; lia|apply asession_nil].
  - done.
  - exists sent, outs. eexists. split; [exact Hs|]. exact Hc.
Defined.

End HislipAsync.
