(* ===== verification/HislipServer.v ===== *)
(** * The HiSLIP server as a whole: [run], [handle_connection] and the guards of
    [src/hislip/server.rs]

    All connections at once.  The accept loop spawns a task per connection; the
    tasks share the session table, the lock registry and the bus, and a session
    is two of them: the synchronous connection that made it and the asynchronous
    one that bound it.  [handle] is one event of one task - a connection
    accepted, a first message, a turn of either channel, a guard dropped, a
    detached clean-up run - and a run of the server is any sequence of events.
    A turn runs from one message to the next; what other tasks do meanwhile is
    the turn's [SyncEnv] or lock turns, as in [Hislip], and because a turn
    touches no other entry of the table its place among the other events is free.

    An entry lives as long as a task refers to it: once the clean-up has taken it
    out of the table, an asynchronous connection that is still open keeps its
    own ([Async]'s second argument).  [leaked] is an auxiliary variable: the
    sessions whose announcement failed before their guard existed. *)

From S2P Require Import Prelude RustStr Rpc Lock Backend HislipMsg Hislip Stream HislipClient HislipAsync.

Module HislipServer.
Import RustStr Backend Rpc.Io HislipMsg Hislip HislipAsync.

Inductive Conn : Type :=
| Fresh                                                (* nothing read yet *)
| Announcing (sid : Z)                                 (* in the table, InitializeResponse being written *)
| Sync (sid : Z) (buffer : list byte) (epoch : Z)
| Async (sid : Z) (own : option SessionEntry).

Record Server (B : Type) : Type := mkServer {
  table : gmap Z SessionEntry;
  locks : Lock.LockRegistry;
  bus : B;
  conns : gmap Z Conn;
  cleanups : list Z;                 (* detached tasks of dropped guards *)
  leaked : gset Z;
  sent : list (Z * list Message);
}.
Arguments mkServer {B}.
Arguments table {B}.
Arguments locks {B}.
Arguments bus {B}.
Arguments conns {B}.
Arguments cleanups {B}.
Arguments leaked {B}.
Arguments sent {B}.

Inductive Event (B : Type) : Type :=
| Accept (c : Z)
| First (c : Z) (incoming : option (result Message Error))   (* [None]: the read failed *)
| Announced (c : Z) (written : bool)
| SyncTurn (c : Z) (env : SyncEnv (B := B)) (incoming : result Message Error)
| SyncPush (c : Z)
| SyncGone (c : Z)
| Cleanup (sid : Z)
| AsyncTurn (c : Z) (turns : list Lock.turn) (t : Z) (hold : B -> B) (incoming : result Message Error)
| AsyncPushed (c : Z) (p : Push (B := B))
| AsyncGone (c : Z).
Arguments Accept {B} c.
Arguments First {B} c incoming.
Arguments Announced {B} c written.
Arguments SyncTurn {B} c env incoming.
Arguments SyncPush {B} c.
Arguments SyncGone {B} c.
Arguments Cleanup {B} sid.
Arguments AsyncTurn {B} c turns t hold incoming.
Arguments AsyncPushed {B} c p.
Arguments AsyncGone {B} c.

Section Run.
Context {B : Type} `{GpibBackend B}.
Variable config : Config.
Variable display : Backend.Error -> list Z.
Variable device_for : list Z -> option Z.
Notation St := (Server B).

Definition with_conn (c : Z) (k : Conn) (s : St) : St :=
  mkServer (table s) (locks s) (bus s) (<[c := k]> (conns s)) (cleanups s) (leaked s) (sent s).
Definition close (c : Z) (s : St) : St :=
  mkServer (table s) (locks s) (bus s) (delete c (conns s)) (cleanups s) (leaked s) (sent s).
Definition say (c : Z) (out : list Message) (s : St) : St :=
  mkServer (table s) (locks s) (bus s) (conns s) (cleanups s) (leaked s) (sent s ++ [(c, out)]).
Definition with_table (t : gmap Z SessionEntry) (s : St) : St :=
  mkServer t (locks s) (bus s) (conns s) (cleanups s) (leaked s) (sent s).
(** What a turn leaves of the shared state. *)
Definition with_shared (t : gmap Z SessionEntry) (l : Lock.LockRegistry) (b : B) (s : St) : St :=
  mkServer t l b (conns s) (cleanups s) (leaked s) (sent s).

Definition is_initialize (incoming : result Message Error) : bool :=
  match incoming with Ok m => bool_decide (message_type m = Initialize) | Err _ => false end.

(** The synchronous connection ends and its guard is dropped: the locks at
    once, the table by a task of its own. *)
Definition end_sync (c sid : Z) (s : St) : St :=
  let l := (drop_session sid (table s) (locks s)).2 in
  mkServer (table s) l (bus s) (delete c (conns s)) (cleanups s ++ [sid]) (leaked s) (sent s).

(** The entry goes out of the table; whoever still refers to it keeps it. *)
Definition detach (sid : Z) (e : option SessionEntry) (k : Conn) : Conn :=
  match k with
  | Async sid' None => if sid' =? sid then Async sid' e else k
  | _ => k
  end.
Definition cleanup (sid : Z) (s : St) : St :=
  mkServer (drop_session sid (table s) (locks s)).1 (locks s) (bus s) (detach sid (table s !! sid) <$> conns s)
    (List.remove Z.eq_dec sid (cleanups s)) (leaked s) (sent s).

(** The entry an asynchronous connection refers to, and storing it back. *)
Definition async_entry (sid : Z) (own : option SessionEntry) (s : St) : option SessionEntry :=
  match own with Some e => Some e | None => table s !! sid end.
Definition store_async (c sid : Z) (own : option SessionEntry) (e : SessionEntry) (s : St) : St :=
  match own with
  | Some _ => with_conn c (Async sid (Some e)) s
  | None => with_table (<[sid := e]> (table s)) s
  end.

(** One event; [None] when it cannot happen now. *)
Definition handle (ev : Event B) (s : St) : option St :=
  match ev with
  | Accept c => match conns s !! c with None => Some (with_conn c Fresh s) | Some _ => None end
  | First c incoming =>
      match conns s !! c with
      | Some Fresh =>
          match incoming with
          | None => Some (close c s)
          | Some m =>
              '(out, t, r) ← first_message config device_for (table s) m;
              let s := say c out (with_table t s) in
              Some (match r with
                    | None => close c s
                    | Some sid => with_conn c (if is_initialize m then Announcing sid else Async sid None) s
                    end)
          end
      | _ => None
      end
  | Announced c written =>
      match conns s !! c with
      | Some (Announcing sid) =>
          if written then
            e ← table s !! sid; Some (with_conn c (Sync sid [] (clear_epoch e)) s)
          else
            let s := close c s in
            Some (mkServer (table s) (locks s) (bus s) (conns s) (cleanups s) ({[sid]} ∪ leaked s) (sent s))
      | _ => None
      end
  | SyncTurn c env incoming =>
      match conns s !! c with
      | Some (Sync sid buf ep) =>
          e ← table s !! sid;
          '(out, st, flow) ← sync_step config display env (mkSync e (locks s) (bus s) buf ep) incoming;
          let s := say c out (with_shared (<[sid := Hislip.entry st]> (table s)) (Hislip.locks st) (Hislip.bus st) s) in
          Some (match flow with
                | Continue => with_conn c (Sync sid (Hislip.buffer st) (Hislip.epoch st)) s
                | Close => end_sync c sid s
                end)
      | _ => None
      end
  | SyncPush c =>
      match conns s !! c with
      | Some (Sync sid _ _) =>
          e ← table s !! sid;
          '(m, e) ← sync_fatal_pusher e;
          Some (say c [m] (with_table (<[sid := e]> (table s)) s))
      | _ => None
      end
  | SyncGone c =>
      match conns s !! c with Some (Sync sid _ _) => Some (end_sync c sid s) | _ => None end
  | Cleanup sid => if decide (sid ∈ cleanups s) then Some (cleanup sid s) else None
  | AsyncTurn c turns t hold incoming =>
      match conns s !! c with
      | Some (Async sid own) =>
          e ← async_entry sid own s;
          '(out, e, l, b, flow) ← async_step config turns t hold e (locks s) (bus s) incoming;
          let s := store_async c sid own e (say c out (with_shared (table s) l b s)) in
          Some (match flow with Continue => s | Close => close c s end)
      | _ => None
      end
  | AsyncPushed c p =>
      match conns s !! c with
      | Some (Async sid own) =>
          e ← async_entry sid own s;
          '(out, st) ← push_step p (mkAsync e (locks s) (bus s));
          Some (store_async c sid own (a_entry st) (say c out (with_shared (table s) (a_locks st) (a_bus st) s)))
      | _ => None
      end
  | AsyncGone c => match conns s !! c with Some (Async _ _) => Some (close c s) | _ => None end
  end.

Fixpoint run (evs : list (Event B)) (s : St) : option St :=
  match evs with
  | [] => Some s
  | ev :: evs => s ← handle ev s; run evs s
  end.

Definition start (b : B) : St := mkServer ∅ Lock.new_registry b ∅ [] ∅ [].

End Run.

(** ** A session stays itself *)

Definition same_session (e e' : SessionEntry) : Prop := id e' = id e /\ async_bound e' = async_bound e.
#[export] Instance same_session_preorder : PreOrder same_session.
Proof. split; unfold same_session; [done|]. intros a b c [] []. split; congruence. Qed.

Lemma same_push_async e p : same_session e (push_async e p).
Proof. unfold push_async. by destruct (_ <? _)%nat. Qed.
Lemma same_raise e stb : same_session e (raise_service_request e stb).
Proof. unfold raise_service_request. etrans; [|apply same_push_async]. done. Qed.
Lemma same_mirror_sync e code msg : same_session e (mirror_fatal_to_sync e code msg).
Proof. unfold mirror_fatal_to_sync. by destruct (sync_queue e). Qed.
Lemma same_note e m : same_session e (note_client_message e m).
Proof. unfold note_client_message. by destruct (rmt_delivered _). Qed.
Lemma same_response_id e rid : same_session e (response_message_id e rid).2.
Proof. unfold response_message_id. by destruct (overlapped e). Qed.
Lemma same_send_chunks cs : forall e rid, same_session e (send_chunks e rid cs).2.
Proof.
  induction cs as [|c cs IH]; intros e rid; cbn [send_chunks]; [done|].
  pose proof (same_response_id e rid) as Hr. destruct (response_message_id e rid) as [i e1]. cbn [snd] in Hr.
  specialize (IH e1 rid). destruct (send_chunks e1 rid cs) as [out e2]. cbn [snd] in *. by etrans.
Qed.
Lemma same_write_response e rid data : same_session e (write_response e rid data).2.
Proof.
  unfold write_response. destruct data; [|apply same_send_chunks].
  pose proof (same_response_id e rid) as Hr. by destruct (response_message_id e rid).
Qed.

#[local] Hint Resolve same_push_async same_raise same_mirror_sync same_note same_write_response : core.

Definition env_polite {B} (env : SyncEnv (B := B)) : Prop :=
  (forall e, same_session e (v_before env e)) /\ (forall e, same_session e (v_during env e)).

Section Same.
Context {B : Type} `{GpibBackend B}.
Variables (config : Config) (display : Backend.Error -> list Z).

Lemma same_run_command env (st : SyncState (B := B)) mid cmd out st' : env_polite env ->
  run_command display env st mid cmd = Some (out, st') -> same_session (entry st) (entry st').
Proof.
  intros [_ Hd]. unfold run_command. destruct (wait_access _ _ _); [|done]. cbn [mbind option_bind].
  destruct (execute _ _ _ _ _) as [[ex|err] b]; [|by intros [= <- <-]; cbn].
  set (e := v_during env (entry st)). assert (He : same_session (entry st) e) by apply Hd. clearbody e.
  destruct (ex_data ex) as [d|].
  - pose proof (same_write_response (set_mav true e) mid d) as Hw.
    destruct (write_response _ mid d) as [o e1]. intros [= <- <-]. cbn [entry snd] in *.
    etrans; [exact He|]. destruct (ex_service_request ex); [etrans; [|apply same_raise]|]; exact Hw.
  - intros [= <- <-]. cbn [entry]. destruct (ex_service_request ex); [etrans; [|apply same_raise]|]; exact He.
Qed.

Lemma same_sync_step env (st : SyncState (B := B)) m out st' flow : env_polite env ->
  sync_step config display env st m = Some (out, st', flow) -> same_session (entry st) (entry st').
Proof.
  intros Henv. unfold sync_step. set (st1 := with_entry st (v_before env (entry st))).
  assert (H1 : same_session (entry st) (entry st1)) by apply Henv. clearbody st1.
  destruct m as [m|err].
  2: { intros [= <- <- <-]. destruct err; cbn [entry with_entry]; [etrans; [exact H1|apply same_push_async]|exact H1]. }
  set (st2 := if _ =? _ then st1 else _).
  assert (H2 : same_session (entry st) (entry st2)) by (unfold st2; by destruct (_ =? _)). clearbody st2.
  set (carries := match message_type m with Data | DataEnd | TriggerMessage => true | _ => false end).
  set (e := if carries then note_client_message (entry st2) m else entry st2). cbv zeta.
  assert (H3 : same_session (entry st) e) by (unfold e; destruct carries; [etrans; [exact H2|apply same_note]|exact H2]).
  cbn [entry with_entry Hislip.locks Hislip.bus Hislip.buffer Hislip.epoch]. clearbody e. clear carries.
  unfold sync_unexpected. cbn [entry with_entry].
  destruct (message_type m); try (destruct (_ && _)); try (intros [= <- <- <-]; exact H3);
    try (intros [= <- <- <-]; cbn [entry with_entry]; etrans; [exact H3|apply same_push_async]).
  - destruct (run_command _ _ _ _ _) as [[o st3]|] eqn:E; [|done]. cbn [mbind option_bind]. intros [= <- <- <-].
    etrans; [exact H3|]. exact (same_run_command _ _ _ _ _ _ Henv E).
  - destruct (wait_access _ _ _); [|done]. cbn [mbind option_bind]. intros [= <- <- <-]. etrans; [exact H3|]. apply Henv.
Qed.

Lemma same_async_step turns t hold e l (b : B) m out e' l' b' flow :
  async_step config turns t hold e l b m = Some (out, e', l', b', flow) -> same_session e e'.
Proof.
  unfold async_step, async_unexpected. destruct m as [m|err].
  2: { intros [= <- <- <- <- <-]. destruct err; [apply same_mirror_sync|done]. }
  destruct (message_type m); try (by intros [= <- <- <- <- <-]); try (by destruct (_ <=? _); intros [= <- <- <- <- <-]).
  - destruct (if negb _ then _ else _) as [[a r]|]; [|done]. by intros [= <- <- <- <- <-].
  - destruct (remote_local _ _ _ _) as [[]|]; by intros [= <- <- <- <- <-].
  - destruct (negb _); by intros [= <- <- <- <- <-].
  - destruct (wait_access _ _ _); [|done]. by intros [= <- <- <- <- <-].
  - destruct (get_status _ _ _) as [p b1]. unfold status_response. by intros [= <- <- <- <- <-].
  - destruct (Lock.info _ _). by intros [= <- <- <- <- <-].
Qed.

Definition push_polite (p : Push (B := B)) : Prop :=
  match p with Elsewhere f => forall st, same_session (a_entry st) (a_entry (f st)) | _ => True end.
Lemma same_push_step p (st : AsyncState (B := B)) out st' : push_polite p -> push_step p st = Some (out, st') ->
  same_session (a_entry st) (a_entry st').
Proof.
  destruct p; intros Hp; cbn [push_step].
  - unfold forward_service_request. destruct (poll_for_service_request _ _ _ _) as [[[stb|] b]|]; [..|done]; by intros [= <- <-].
  - destruct (async_queue (a_entry st)); by intros [= <- <-].
  - intros [= <- <-]. apply Hp.
Qed.

Lemma same_fatal_push e m e' : sync_fatal_pusher e = Some (m, e') -> same_session e e'.
Proof. unfold sync_fatal_pusher. destruct (sync_queue e) as [|[] q]; [done|]. by intros [= <- <-]. Qed.

End Same.

(** ** The invariant *)

(** The session a connection made, and the one it is bound to in the table. *)
Definition owner (k : Conn) : option Z := match k with Announcing sid | Sync sid _ _ => Some sid | _ => None end.
Definition bound_to (k : Conn) : option Z := match k with Async sid None => Some sid | _ => None end.

Definition owns (cs : gmap Z Conn) (c sid : Z) : Prop := cs !! c ≫= owner = Some sid.
Definition binds (cs : gmap Z Conn) (c sid : Z) : Prop := cs !! c ≫= bound_to = Some sid.

Record Inv (t : gmap Z SessionEntry) (cs : gmap Z Conn) (cl : list Z) (lk : gset Z) : Prop := mkInv {
  inv_owner : forall c sid, owns cs c sid -> is_Some (t !! sid) /\ sid ∉ cl /\ sid ∉ lk;
  inv_owner_inj : forall c c' sid, owns cs c sid -> owns cs c' sid -> c = c';
  inv_cleanups : NoDup cl /\ forall sid, sid ∈ cl -> is_Some (t !! sid) /\ sid ∉ lk;
  inv_leaked : forall sid, sid ∈ lk -> is_Some (t !! sid);
  inv_table : forall sid e, t !! sid = Some e -> id e = sid /\ ((exists c, owns cs c sid) \/ sid ∈ cl \/ sid ∈ lk);
  inv_bound : forall c sid, binds cs c sid -> exists e, t !! sid = Some e /\ async_bound e = true;
  inv_bound_inj : forall c c' sid, binds cs c sid -> binds cs c' sid -> c = c';
}.

Lemma owns_insert cs c k c' sid : owns (<[c := k]> cs) c' sid <-> if decide (c' = c) then owner k = Some sid else owns cs c' sid.
Proof. unfold owns. destruct (decide (c' = c)) as [->|]; [by rewrite lookup_insert_eq|by rewrite lookup_insert_ne]. Qed.
Lemma binds_insert cs c k c' sid : binds (<[c := k]> cs) c' sid <-> if decide (c' = c) then bound_to k = Some sid else binds cs c' sid.
Proof. unfold binds. destruct (decide (c' = c)) as [->|]; [by rewrite lookup_insert_eq|by rewrite lookup_insert_ne]. Qed.
Lemma owns_delete cs c c' sid : owns (delete c cs) c' sid <-> c' <> c /\ owns cs c' sid.
Proof. unfold owns. destruct (decide (c' = c)) as [->|]; [rewrite lookup_delete_eq|rewrite lookup_delete_ne]; naive_solver. Qed.
Lemma binds_delete cs c c' sid : binds (delete c cs) c' sid <-> c' <> c /\ binds cs c' sid.
Proof. unfold binds. destruct (decide (c' = c)) as [->|]; [rewrite lookup_delete_eq|rewrite lookup_delete_ne]; naive_solver. Qed.

(** The invariant only looks at who owns and who is bound to what. *)
Lemma inv_roles t cs cs' cl lk : (forall c sid, owns cs' c sid <-> owns cs c sid) ->
  (forall c sid, binds cs' c sid -> binds cs c sid) -> Inv t cs cl lk -> Inv t cs' cl lk.
Proof.
  intros Ho Hb [I1 I2 I3 I4 I5 I6 I7]. split; try done.
  - intros c sid H%Ho. by eapply I1.
  - intros c c' sid H%Ho H'%Ho. by eapply I2.
  - intros sid e [He Hw]%I5. split; [done|]. setoid_rewrite Ho. done.
  - intros c sid H%Hb. by eapply I6.
  - intros c c' sid H%Hb H'%Hb. by eapply I7.
Qed.

(** A connection that plays no part, before and after. *)
Lemma inv_idle t cs cl lk c k : cs !! c ≫= owner = None -> owner k = None -> bound_to k = None ->
  Inv t cs cl lk -> Inv t (<[c := k]> cs) cl lk.
Proof.
  intros H1 H3 H4. apply inv_roles; intros c' sid; rewrite ?owns_insert, ?binds_insert; destruct (decide (c' = c)) as [->|]; try done.
  - rewrite H3. unfold owns. rewrite H1. done.
  - by rewrite H4.
Qed.
Lemma inv_close t cs cl lk c : cs !! c ≫= owner = None -> Inv t cs cl lk -> Inv t (delete c cs) cl lk.
Proof.
  intros H1. apply inv_roles; intros c' sid; rewrite ?owns_delete, ?binds_delete; [|by intros []].
  split; [by intros []|]. intros H. split; [|done]. intros ->. unfold owns in H. by rewrite H1 in H.
Qed.
(** The same part. *)
Lemma inv_continue t cs cl lk c k k' : cs !! c = Some k -> owner k' = owner k -> bound_to k' = bound_to k ->
  Inv t cs cl lk -> Inv t (<[c := k']> cs) cl lk.
Proof.
  intros Hk Ho Hb. apply inv_roles; intros c' sid; rewrite ?owns_insert, ?binds_insert; destruct (decide (c' = c)) as [->|]; try done.
  - rewrite Ho. unfold owns. by rewrite Hk.
  - rewrite Hb. unfold binds. by rewrite Hk.
Qed.

(** An entry changes without changing who it is. *)
Lemma inv_update t cs cl lk sid e e' : t !! sid = Some e -> same_session e e' -> Inv t cs cl lk -> Inv (<[sid := e']> t) cs cl lk.
Proof.
  intros He [Hid Hb] [I1 I2 I3 I4 I5 I6 I7].
  assert (Hd : forall s', is_Some (t !! s') -> is_Some (<[sid := e']> t !! s')).
  { intros s' Hs. destruct (decide (s' = sid)) as [->|]; [by rewrite lookup_insert_eq|by rewrite lookup_insert_ne]. }
  split; try done.
  - intros c s' H. destruct (I1 c s' H) as (? & ? & ?). auto.
  - destruct I3 as [Hn I3]. split; [done|]. intros s' []%I3. auto.
  - intros s' H%I4. auto.
  - intros s' x Hx. destruct (decide (s' = sid)) as [->|].
    + rewrite lookup_insert_eq in Hx. injection Hx as <-. rewrite Hid. by apply I5.
    + rewrite lookup_insert_ne in Hx by done. by apply I5.
  - intros c s' (x & Hx & Hxb)%I6. destruct (decide (s' = sid)) as [->|].
    + exists e'. rewrite lookup_insert_eq. split; [done|]. congruence.
    + exists x. by rewrite lookup_insert_ne.
Qed.

(** A new session. *)
Lemma inv_new t cs cl lk c sid e : cs !! c ≫= owner = None -> t !! sid = None -> id e = sid -> Inv t cs cl lk ->
  Inv (<[sid := e]> t) (<[c := Announcing sid]> cs) cl lk.
Proof.
  intros H1 Ht Hid [I1 I2 [I3n I3] I4 I5 I6 I7].
  assert (Hd : forall s', is_Some (t !! s') -> is_Some (<[sid := e]> t !! s') /\ s' <> sid).
  { intros s' Hs. destruct (decide (s' = sid)) as [->|]; [rewrite Ht in Hs; by destruct Hs|by rewrite lookup_insert_ne]. }
  assert (Hcl : sid ∉ cl) by (intros H; destruct (I3 _ H) as [Hs _]; rewrite Ht in Hs; by destruct Hs).
  assert (Hlk : sid ∉ lk) by (intros H; specialize (I4 _ H); rewrite Ht in I4; by destruct I4).
  split.
  - intros c' s'. rewrite owns_insert. destruct (decide (c' = c)) as [->|].
    + intros [= <-]. rewrite lookup_insert_eq. split_and!; [by eexists|done..].
    + intros H. destruct (I1 c' s' H) as (? & ? & ?). split_and!; [by apply Hd|done..].
  - intros c1 c2 s'. rewrite !owns_insert. destruct (decide (c1 = c)) as [->|], (decide (c2 = c)) as [->|]; try done; [| |by apply I2].
    + intros [= <-] H. destruct (I1 _ _ H) as ([? H'] & _). by rewrite Ht in H'.
    + intros H [= <-]. destruct (I1 _ _ H) as ([? H'] & _). by rewrite Ht in H'.
  - split; [done|]. intros s' []%I3. by split; [apply Hd|].
  - intros s' H%I4. by apply Hd.
  - intros s' x Hx. destruct (decide (s' = sid)) as [->|].
    + rewrite lookup_insert_eq in Hx. injection Hx as <-. split; [done|]. left. exists c. rewrite owns_insert. by rewrite decide_True.
    + rewrite lookup_insert_ne in Hx by done. destruct (I5 _ _ Hx) as [? [[c' Hc]|?]]; (split; [done|]); [|by right].
      left. exists c'. rewrite owns_insert. rewrite decide_False; [done|]. intros ->. unfold owns in Hc. by rewrite H1 in Hc.
  - intros c' s'. rewrite binds_insert. destruct (decide (c' = c)); [done|]. intros (x & Hx & Hb)%I6. exists x.
    rewrite lookup_insert_ne; [done|]. intros <-. by rewrite Ht in Hx.
  - intros c1 c2 s'. rewrite !binds_insert. destruct (decide (c1 = c)), (decide (c2 = c)); try done. apply I7.
Qed.

(** An asynchronous channel binds. *)
Lemma inv_bind t cs cl lk c sid e : cs !! c ≫= owner = None -> t !! sid = Some e -> async_bound e = false ->
  Inv t cs cl lk -> Inv (<[sid := set_bound e]> t) (<[c := Async sid None]> cs) cl lk.
Proof.
  intros H1 He Hb HI. assert (Hno : forall c', ~ binds cs c' sid).
  { intros c' Hc. destruct (inv_bound _ _ _ _ HI c' sid Hc) as (x & Hx & Hxb). congruence. }
  assert (Hd : forall s', is_Some (t !! s') -> is_Some (<[sid := set_bound e]> t !! s')).
  { intros s' Hs. destruct (decide (s' = sid)) as [->|]; [by rewrite lookup_insert_eq|by rewrite lookup_insert_ne]. }
  assert (Ho : forall c' s', owns (<[c := Async sid None]> cs) c' s' <-> owns cs c' s').
  { intros c' s'. rewrite owns_insert. destruct (decide (c' = c)) as [->|]; [|done]. unfold owns. by rewrite H1. }
  destruct HI as [I1 I2 [I3n I3] I4 I5 I6 I7]. split.
  - intros c' s' H%Ho. destruct (I1 c' s' H) as (? & ? & ?). auto.
  - intros c1 c2 s' Ha%Ho Hb'%Ho. by eapply I2.
  - split; [done|]. intros s' []%I3. auto.
  - intros s' H%I4. auto.
  - intros s' x Hx. setoid_rewrite Ho. destruct (decide (s' = sid)) as [->|].
    + rewrite lookup_insert_eq in Hx. injection Hx as <-. cbn. by apply (I5 sid e).
    + rewrite lookup_insert_ne in Hx by done. by apply (I5 s' x).
  - intros c' s'. rewrite binds_insert. destruct (decide (c' = c)) as [->|].
    + intros [= <-]. exists (set_bound e). by rewrite lookup_insert_eq.
    + intros H. destruct (I6 _ _ H) as (x & Hx & Hxb). exists x. rewrite lookup_insert_ne; [done|]. intros <-. by destruct (Hno c').
  - intros c1 c2 s'. rewrite !binds_insert. destruct (decide (c1 = c)) as [->|], (decide (c2 = c)) as [->|]; try done; [..|by apply I7].
    + intros [= <-] H. by destruct (Hno c2).
    + intros H [= <-]. by destruct (Hno c1).
Qed.

(** The owner goes: its session is left to a clean-up, or leaked. *)
Lemma inv_disown t cs cl lk c sid cl' lk' : owns cs c sid ->
  (cl' = cl ++ [sid] /\ lk' = lk) \/ (cl' = cl /\ lk' = {[sid]} ∪ lk) -> Inv t cs cl lk -> Inv t (delete c cs) cl' lk'.
Proof.
  intros Ho Hcase [I1 I2 [I3n I3] I4 I5 I6 I7]. destruct (I1 c sid Ho) as (Hs & Hncl & Hnlk).
  assert (Hother : forall c' s', owns (delete c cs) c' s' -> owns cs c' s' /\ s' <> sid).
  { intros c' s' [Hne Hc]%owns_delete. split; [done|]. intros ->. by destruct Hne, (I2 c' c sid). }
  assert (Hcl : forall x, x ∈ cl' \/ x ∈ lk' <-> x = sid \/ x ∈ cl \/ x ∈ lk) by (intros x; destruct Hcase as [[-> ->]|[-> ->]]; set_solver).
  split.
  - intros c' s' [H Hne]%Hother. destruct (I1 c' s' H) as (? & ? & ?).
    split_and!; [done|..]; intros Hx; destruct (proj1 (Hcl s')) as [?|[?|?]]; eauto.
  - intros c1 c2 s' [H _]%Hother [H' _]%Hother. by eapply I2.
  - destruct Hcase as [[-> ->]|[-> ->]]; split; try done.
    + apply NoDup_app. split_and!; [done|intros x Hx ->%list_elem_of_singleton; done|apply NoDup_singleton].
    + intros s' [H|Hx%list_elem_of_singleton]%elem_of_app; [by apply I3|by subst].
    + intros s' H. destruct (I3 s' H) as [? ?]. split; [done|]. intros [->%elem_of_singleton|?]%elem_of_union; done.
  - intros s' H. destruct (proj1 (Hcl s') (or_intror H)) as [->|[Hx|Hx]]; [done|by apply I3|by apply I4].
  - intros s' x Hx. destruct (I5 s' x Hx) as [Hi Hw]. split; [done|]. destruct (decide (s' = sid)) as [->|Hne].
    { right. apply Hcl. by left. }
    destruct Hw as [[c' Hc]|Hw]; [|right; apply Hcl; tauto].
    left. exists c'. rewrite owns_delete. split; [|done]. intros ->. unfold owns in *. congruence.
  - intros c' s' [_ H]%binds_delete. by eapply I6.
  - intros c1 c2 s' [_ H]%binds_delete [_ H']%binds_delete. by eapply I7.
Qed.

Lemma owns_detach cs sid e c s' : owns (detach sid e <$> cs) c s' <-> owns cs c s'.
Proof. unfold owns. rewrite lookup_fmap. destruct (cs !! c) as [[| | |s0 [x|]]|]; cbn; try done. by destruct (s0 =? sid). Qed.
Lemma binds_detach cs sid e c s' : e <> None -> binds (detach sid e <$> cs) c s' <-> binds cs c s' /\ s' <> sid.
Proof.
  intros He. unfold binds. rewrite lookup_fmap. destruct (cs !! c) as [[| | |s0 [x|]]|]; cbn; try naive_solver.
  destruct (Z.eqb_spec s0 sid) as [->|]; cbn; destruct e; naive_solver.
Qed.

Lemma NoDup_remove_list (x : Z) l : NoDup l -> NoDup (List.remove Z.eq_dec x l).
Proof.
  induction 1 as [|y l Hy Hl IH]; cbn; [constructor|]. destruct (Z.eq_dec x y); [done|]. constructor; [|done].
  rewrite list_elem_of_In. intros []%List.in_remove. by apply Hy, list_elem_of_In.
Qed.

(** The clean-up runs. *)
Lemma inv_cleanup t cs cl lk sid : sid ∈ cl -> Inv t cs cl lk ->
  Inv (delete sid t) (detach sid (t !! sid) <$> cs) (List.remove Z.eq_dec sid cl) lk.
Proof.
  intros Hin [I1 I2 [I3n I3] I4 I5 I6 I7]. destruct (I3 sid Hin) as [Hs Hnlk].
  assert (Hrem : forall x, x ∈ List.remove Z.eq_dec sid cl <-> x ∈ cl /\ x <> sid).
  { intros x. rewrite !list_elem_of_In. split; [apply List.in_remove|intros []; by apply List.in_in_remove]. }
  assert (Hlook : forall s', s' <> sid -> delete sid t !! s' = t !! s') by (intros; by apply lookup_delete_ne).
  assert (Hne : t !! sid <> None) by (by destruct Hs as [x ->]).
  split.
  - intros c s' (H & Hcl & Hl)%owns_detach%I1. assert (s' <> sid) by (by intros ->). rewrite Hlook by done.
    split_and!; [done|by rewrite Hrem; intros []|done].
  - intros c c' s' H%owns_detach H'%owns_detach. by eapply I2.
  - split.
    + by apply NoDup_remove_list.
    + intros s' [H ?]%Hrem. rewrite Hlook by done. by apply I3.
  - intros s' H. assert (s' <> sid) by (by intros ->). rewrite Hlook by done. by apply I4.
  - intros s' x Hx. destruct (decide (s' = sid)) as [->|Hd]; [by rewrite lookup_delete_eq in Hx|].
    rewrite Hlook in Hx by done. destruct (I5 s' x Hx) as [? Hw]. split; [done|].
    setoid_rewrite owns_detach. rewrite Hrem. tauto.
  - intros c s' [H ?]%binds_detach; [|done]. rewrite Hlook by done. by eapply I6.
  - intros c c' s' [H _]%binds_detach [H' _]%binds_detach; try done. by eapply I7.
Qed.

Section Reach.
Context {B : Type} `{GpibBackend B}.
Variables (config : Config) (display : Backend.Error -> list Z) (device_for : list Z -> option Z).
Notation St := (Server B).
Notation handle := (handle config display device_for).

(** Other tasks do not turn one session into another. *)
Definition polite (ev : Event B) : Prop :=
  match ev with
  | SyncTurn _ env _ => env_polite env
  | AsyncPushed _ p => push_polite p
  | _ => True
  end.

Definition wf (s : St) : Prop := Inv (table s) (conns s) (cleanups s) (leaked s).

Lemma wf_store_async (s : St) c sid own e e' l b out : wf s -> conns s !! c = Some (Async sid own) ->
  async_entry sid own s = Some e -> same_session e e' ->
  wf (store_async c sid own e' (say c out (with_shared (table s) l b s))).
Proof.
  intros Hw Hc He Hs. destruct own as [x|]; unfold wf; cbn.
  - by eapply inv_continue.
  - by eapply inv_update.
Qed.

Lemma close_async_owner (s : St) c sid own e : conns s !! c = Some (Async sid own) ->
  conns (store_async c sid own e s) !! c ≫= owner = None.
Proof. intros Hc. destruct own; cbn; [by rewrite lookup_insert_eq|by rewrite Hc]. Qed.

Lemma wf_first (s s' : St) c incoming : wf s -> conns s !! c = Some Fresh ->
  handle (First c incoming) s = Some s' -> wf s'.
Proof.
  intros Hw Hc. cbn [HislipServer.handle]. rewrite Hc. assert (Ho : conns s !! c ≫= owner = None) by by rewrite Hc.
  destruct incoming as [m|]; [|intros [= <-]; by apply inv_close].
  destruct (first_message config device_for (table s) m) as [[[out t] r]|] eqn:Ef; [|done]. cbn [mbind option_bind].
  assert (Hback : forall s0 : St, wf s -> table s0 = table s -> conns s0 = conns s -> cleanups s0 = cleanups s ->
    leaked s0 = leaked s -> wf (close c s0)).
  { intros s0 Hs E1 E2 E3 E4. unfold wf, close. cbn. rewrite E1, E2, E3, E4. by apply inv_close. }
  destruct m as [m|err]; cbn [first_message] in Ef; [|injection Ef as <- <- <-; intros [= <-]; by apply Hback].
  destruct (message_type m) eqn:Em; try (injection Ef as <- <- <-; intros [= <-]; by apply Hback).
  - pose proof (session_table config device_for (table s) m) as Ht. rewrite Ef in Ht.
    cbn [is_initialize]. rewrite bool_decide_eq_true_2 by done. destruct r as [sid|]; intros [= <-].
    + destruct Ht as (Hnone & _ & _ & _ & _ & (s1 & dev & _ & ->) & _). unfold wf. cbn. by apply inv_new.
    + destruct Ht as [-> _]. by apply Hback.
  - injection Ef as Ef. unfold init_async in Ef. cbn [is_initialize]. rewrite bool_decide_eq_false_2 by (by rewrite Em).
    destruct (table s !! _) as [e|] eqn:El; [|simplify_eq; intros [= <-]; by apply Hback].
    destruct (async_bound e) eqn:Eb; simplify_eq; intros [= <-]; [by apply Hback|]. unfold wf. cbn. by apply inv_bind.
Qed.

Lemma wf_step (s s' : St) ev : polite ev -> wf s -> handle ev s = Some s' -> wf s'.
Proof.
  intros Hp Hw. destruct ev; cbn [HislipServer.handle polite] in *.
  - destruct (conns s !! c) eqn:Hc; [done|]. intros [= <-]. apply inv_idle; try done. by rewrite Hc.
  - destruct (conns s !! c) as [[]|] eqn:Hc; try done. intros Hs. apply (wf_first s s' c incoming); try done.
    cbn [HislipServer.handle]. by rewrite Hc.
  - destruct (conns s !! c) as [[|sid| |]|] eqn:Hc; try done. destruct written.
    + destruct (table s !! sid) eqn:Et; [|done]. cbn. intros [= <-]. by eapply inv_continue.
    + intros [= <-]. unfold wf. cbn. eapply inv_disown; [|by right|exact Hw]. unfold owns. by rewrite Hc.
  - destruct (conns s !! c) as [[| |sid buf ep|]|] eqn:Hc; try done. destruct (table s !! sid) as [e|] eqn:Et; [|done].
    cbn [mbind option_bind]. destruct (sync_step _ _ _ _ _) as [[[out st] flow]|] eqn:Es; [|done]. cbn [mbind option_bind].
    apply same_sync_step in Es; [|done]. cbn [Hislip.entry] in Es.
    assert (Hw' : Inv (<[sid := Hislip.entry st]> (table s)) (conns s) (cleanups s) (leaked s)) by by eapply inv_update.
    destruct flow; intros [= <-]; unfold wf; cbn.
    + by eapply inv_continue.
    + eapply inv_disown; [|by left|exact Hw']. unfold owns. by rewrite Hc.
  - destruct (conns s !! c) as [[| |sid buf ep|]|] eqn:Hc; try done. destruct (table s !! sid) as [e|] eqn:Et; [|done].
    cbn [mbind option_bind]. destruct (sync_fatal_pusher e) as [[m e']|] eqn:Es; [|done]. intros [= <-].
    apply same_fatal_push in Es. unfold wf. cbn. by eapply inv_update.
  - destruct (conns s !! c) as [[| |sid buf ep|]|] eqn:Hc; try done. intros [= <-]. unfold wf. cbn.
    eapply inv_disown; [|by left|exact Hw]. unfold owns. by rewrite Hc.
  - destruct (decide (sid ∈ cleanups s)); [|done]. intros [= <-]. unfold wf. cbn. by apply inv_cleanup.
  - destruct (conns s !! c) as [[| | |sid own]|] eqn:Hc; try done. destruct (async_entry sid own s) as [e|] eqn:Ee; [|done].
    cbn [mbind option_bind]. destruct (async_step _ _ _ _ _ _ _ _) as [[[[[out e'] l] b] flow]|] eqn:Es; [|done]. cbn [mbind option_bind].
    apply same_async_step in Es. pose proof (wf_store_async s c sid own e e' l b out Hw Hc Ee Es) as Hw'.
    destruct flow; intros [= <-]; [exact Hw'|]. apply inv_close; [|exact Hw']. by apply close_async_owner.
  - destruct (conns s !! c) as [[| | |sid own]|] eqn:Hc; try done. destruct (async_entry sid own s) as [e|] eqn:Ee; [|done].
    cbn [mbind option_bind]. destruct (push_step p _) as [[out st]|] eqn:Es; [|done]. intros [= <-].
    apply same_push_step in Es; [|done]. by eapply wf_store_async.
  - destruct (conns s !! c) as [[| | |sid own]|] eqn:Hc; try done. intros [= <-]. apply inv_close; [|done]. by rewrite Hc.
Qed.

(** The table never grows past its limit. *)
Definition within (s : St) : Prop := Z.of_nat (size (table s)) <= Z.max 0 (max_sessions config).

Lemma size_update {A} (t : gmap Z A) k x y : t !! k = Some x -> size (<[k := y]> t) = size t.
Proof. intros Hk. apply map_size_insert_Some. by rewrite Hk. Qed.

Lemma within_first (s s' : St) c m : within s -> handle (First c m) s = Some s' -> within s'.
Proof.
  intros Hw. cbn [HislipServer.handle]. destruct (conns s !! c) as [[]|]; try done. destruct m as [m|]; [|by intros [= <-]].
  destruct (first_message config device_for (table s) m) as [[[out t] r]|] eqn:Ef; [|done]. cbn [mbind option_bind].
  enough (Z.of_nat (size t) <= Z.max 0 (max_sessions config)) by (intros [= <-]; unfold within; destruct r; cbn; done).
  destruct m as [m|err]; cbn [first_message] in Ef; [|by injection Ef as <- <- <-].
  destruct (message_type m); try (by injection Ef as <- <- <-).
  - pose proof (session_table config device_for (table s) m) as Ht. rewrite Ef in Ht. destruct r as [sid|].
    + destruct Ht as (_ & _ & _ & _ & Hle & _). lia.
    + by destruct Ht as [-> _].
  - injection Ef as Ef. unfold init_async in Ef. destruct (table s !! _) as [e|] eqn:El; [|by simplify_eq].
    destruct (async_bound e); simplify_eq; [done|]. by rewrite (size_update _ _ e).
Qed.

Lemma within_step (s s' : St) ev : within s -> handle ev s = Some s' -> within s'.
Proof.
  intros Hw. destruct ev; try apply (within_first s s' c incoming Hw); cbn [HislipServer.handle].
  - destruct (conns s !! c); [done|]. by intros [= <-].
  - destruct (conns s !! c) as [[|sid| |]|]; try done. destruct written; [|by intros [= <-]].
    destruct (table s !! sid); [|done]. by intros [= <-].
  - destruct (conns s !! c) as [[| |sid buf ep|]|]; try done. destruct (table s !! sid) as [e|] eqn:Et; [|done].
    cbn [mbind option_bind]. destruct (sync_step _ _ _ _ _) as [[[out st] []]|]; [..|done]; intros [= <-];
      unfold within; cbn; by rewrite (size_update _ _ e).
  - destruct (conns s !! c) as [[| |sid buf ep|]|]; try done. destruct (table s !! sid) as [e|] eqn:Et; [|done].
    cbn [mbind option_bind]. destruct (sync_fatal_pusher e) as [[m e']|]; [|done]. intros [= <-].
    unfold within; cbn; by rewrite (size_update _ _ e).
  - destruct (conns s !! c) as [[| |sid buf ep|]|]; try done. by intros [= <-].
  - destruct (decide (sid ∈ cleanups s)); [|done]. intros [= <-]. unfold within. cbn.
    pose proof (map_size_delete sid (table s)) as Hd. unfold within in Hw.
    destruct (table s !! sid); cbn in Hd; lia.
  - destruct (conns s !! c) as [[| | |sid own]|]; try done. destruct (async_entry sid own s) as [e|] eqn:Ee; [|done].
    cbn [mbind option_bind]. destruct (async_step _ _ _ _ _ _ _ _) as [[[[[out e'] l] b] flow]|]; [|done].
    intros [= <-]. unfold within. destruct flow, own; cbn in *; try done; by rewrite (size_update _ _ e).
  - destruct (conns s !! c) as [[| | |sid own]|]; try done. destruct (async_entry sid own s) as [e|] eqn:Ee; [|done].
    cbn [mbind option_bind]. destruct (push_step p _) as [[out st]|]; [|done]. intros [= <-].
    unfold within. destruct own; cbn in *; try done; by rewrite (size_update _ _ e).
  - destruct (conns s !! c) as [[| | |sid own]|]; try done. by intros [= <-].
Qed.

Lemma run_inv b evs s : Forall polite evs -> run config display device_for evs (start b) = Some s -> wf s /\ within s.
Proof.
  assert (H0 : wf (start b) /\ within (start b)).
  { split; [|unfold within; cbn [table start]; rewrite map_size_empty; lia]. split; unfold owns, binds; cbn; try (by setoid_rewrite lookup_empty); try (by set_solver).
    split; [constructor|]. set_solver. }
  revert H0. generalize (start b). induction evs as [|ev evs IH]; intros s0 [Hw Hn] Hp; cbn [run]; [by intros [= <-]|].
  apply Forall_cons in Hp as [Hev Hp]. destruct (HislipServer.handle _ _ _ ev s0) as [s1|] eqn:Eh; [|done]. cbn [mbind option_bind].
  apply IH; [|done]. split; [by eapply wf_step|by eapply within_step].
Qed.

End Reach.

(** ** Properties *)

(** C20: sessions and connections.  Whatever connections come and go and
    however their tasks interleave: the table holds exactly the sessions of the
    synchronous connections that are open, those whose clean-up is still to run
    and those whose announcement failed, each under its own id and never more
    than the limit; two connections never share a session, so the id a client is given belongs to
    nobody else's open session; and at most one asynchronous connection is bound
    to a session of the table. *)
Theorem sessions_follow_connections {B} `{GpibBackend B} config display device_for (b : B) evs s :
  0 <= max_sessions config -> Forall polite evs -> run config display device_for evs (start b) = Some s ->
  (forall sid, is_Some (table s !! sid) <-> (exists c, owns (conns s) c sid) \/ sid ∈ cleanups s \/ sid ∈ leaked s) /\
  (forall sid e, table s !! sid = Some e -> id e = sid) /\
  (forall c c' sid, owns (conns s) c sid -> owns (conns s) c' sid -> c = c') /\
  Z.of_nat (size (table s)) <= max_sessions config /\
  (forall m out t sid, init_sync config device_for (table s) m = Some (out, t, Some sid) -> forall c, ~ owns (conns s) c sid) /\
  (forall c c' sid, binds (conns s) c sid -> binds (conns s) c' sid -> c = c').
Proof.
  intros Hm Hp Hr. destruct (run_inv config display device_for b evs s Hp Hr) as [[I1 I2 [_ I3] I4 I5 I6 I7] Hn].
  split_and!; [|by intros sid e He; apply (I5 sid e He)|done|unfold within in Hn; lia| |done].
  - intros sid. split.
    + intros [e He]. apply (I5 _ _ He).
    + intros [[c Hc]|[Hc|Hc]]; [by apply (I1 c)|by apply I3|by apply I4].
  - intros m out t sid Hi c Hc. pose proof (session_table config device_for (table s) m) as Ht. rewrite Hi in Ht.
    destruct Ht as [Hnone _]. destruct (I1 c sid Hc) as [[x Hx] _]. by rewrite Hnone in Hx.
Qed.

(** *** Runs of a server with an instrument at address 22 *)

Definition quiet_bus : Mock := mkMock [] 0 (10, false) 3000 None 0 false.
Definition desk_device (sub : list Z) : option Z := Some 22.
Definition initialize : result Message Error := Ok (mkMessage Initialize 0 0x01000000 []).
Definition bind_async (sid : Z) : result Message Error := Ok (mkMessage AsyncInitialize 0 sid []).
Definition desk_run (config : Config) (evs : list (Event Mock)) : option (Server Mock) :=
  run config (fun e => e) desk_device evs (start quiet_bus).

(** A client that connects both channels. *)
Definition connects (c1 c2 sid : Z) : list (Event Mock) :=
  [Accept c1; First c1 (Some initialize); Announced c1 true; Accept c2; First c2 (Some (bind_async sid))].

Lemma sessions_follow_connections_witness :
  exists s, desk_run default_config (connects 1 2 0 ++ connects 3 4 2 ++ [SyncGone 1]) = Some s /\
    (forall c c' sid, owns (conns s) c sid -> owns (conns s) c' sid -> c = c') /\ Z.of_nat (size (table s)) <= 16.
Proof.
  destruct (desk_run default_config (connects 1 2 0 ++ connects 3 4 2 ++ [SyncGone 1])) as [s|] eqn:E; [|by vm_compute in E].
  exists s. split; [done|].
  destruct (sessions_follow_connections default_config (fun e => e) desk_device quiet_bus
    (connects 1 2 0 ++ connects 3 4 2 ++ [SyncGone 1]) s) as (_ & _ & Hi & Hn & _).
  - by vm_compute.
  - by repeat constructor.
  - exact E.
  - exact (conj Hi Hn).
Defined.

Definition ask_lock (control : Z) : result Message Error := Ok (mkMessage AsyncLock control 0 []).
Definition now_turn : list Lock.turn := [((fun l => l), 0)].

(** a channel whose session is gone speaks for its successor.  A client
    closes its synchronous connection and keeps the asynchronous one; the next
    client is given the freed id, and with it the same identity in the lock
    registry: a release on the old connection frees the lock the new client
    holds. *)
Theorem stale_channel_unlocks :
  let before := connects 1 2 0 ++ [SyncGone 1; Cleanup 0] ++ connects 3 4 0 ++
    [AsyncTurn 4 now_turn 0 (fun b => b) (ask_lock 1)] in
  let held s := Lock.holds (locks s) (resource_key 22) (Lock.hislip_id 0) in
  exists s s', desk_run default_config before = Some s /\
    desk_run default_config (before ++ [AsyncTurn 2 now_turn 0 (fun b => b) (ask_lock 0)]) = Some s' /\
    owns (conns s) 3 0 /\ binds (conns s) 4 0 /\ ~ binds (conns s) 2 0 /\ held s = true /\ held s' = false.
Proof.
  intros before held. destruct (desk_run default_config before) as [s|] eqn:E; [|by vm_compute in E].
  destruct (desk_run default_config (before ++ [AsyncTurn 2 now_turn 0 (fun b => b) (ask_lock 0)])) as [s'|] eqn:E'; [|by vm_compute in E'].
  exists s, s'. split; [done|]. split; [done|]. vm_compute in E. injection E as <-. vm_compute in E'. injection E' as <-.
  split_and!; by vm_compute.
Qed.

(** sessions nobody owns.  A client that is gone before its
    InitializeResponse is written leaves its session in the table for good:
    sixteen of them, and with no connection open every client is turned away. *)
Theorem announcements_leak :
  let vanishes c := [Accept c; First c (Some initialize); Announced c false] in
  exists s, desk_run default_config (concat (map vanishes (seqZ 0 16))) = Some s /\ conns s = ∅ /\
    forall device_for m, exists out, init_sync default_config device_for (table s) m = Some (out, table s, None).
Proof.
  intros vanishes. destruct (desk_run default_config (concat (map vanishes (seqZ 0 16)))) as [s|] eqn:E; [|by vm_compute in E].
  exists s. split; [done|]. assert (Hs : conns s = ∅ /\ Z.of_nat (size (table s)) = 16).
  { vm_compute in E. injection E as <-. split; by vm_compute. }
  split; [apply Hs|]. intros device_for m. unfold init_sync. destruct (from_utf8 _) as [sub|]; [|by eexists].
  destruct (device_for _); [|by eexists]. rewrite (proj2 (Z.leb_le _ _)); [by eexists|]. rewrite (proj2 Hs). by vm_compute.
Qed.

End HislipServer.
