(* ===== verification/Select.v ===== *)
(** * Choosing an adapter: [src/backend/select.rs] and [BackendKind] of
    [src/backend/mod.rs]

    What is attached is the list of devices the USB library reports; the
    per-platform rules are one definition each, chosen by [TargetOs].  Opening
    the chosen adapter is the drivers' work ([AgilentBoot], [NiHost],
    [UsbtmcUsb]), a parameter here; that the driver then finds the very device
    that was chosen is [open_selected_finds], proved against the three drivers'
    own searches.  Each constructor of [SelectError] is one of the messages the
    code builds, with the values it prints. *)

From S2P Require Import Prelude RustStr Backend AgilentMsg AgilentBoot NiUsb NiHost Usbtmc UsbtmcUsb.

Module Select.
Import RustStr.
Notation Error := Backend.Backend.Error.
Notation Model := AgilentBoot.AgilentBoot.Model.
Notation InterfaceInfo := UsbtmcUsb.UsbtmcUsb.InterfaceInfo.

Inductive TargetOs : Type := Linux | MacOs | Windows | OtherOs.

(** What the USB library tells of a device. *)
Record UsbDevice : Type := mkUsbDevice {
  vendor_id : Z; product_id : Z;
  sysfs_name : option (list Z);        (* [sysfs_path().file_name()] *)
  bus_id : list Z; device_address : Z;
  location_id : Z; instance_id : list Z;
  interfaces : list InterfaceInfo;
  product_string : option (list Z); serial_number : option (list Z);
}.

(** ** Port ids *)

Definition hex_digits8 (n : Z) : list Z :=
  map (fun i => Backend.Backend.hex_digit (n / 16 ^ i mod 16)) [7; 6; 5; 4; 3; 2; 1; 0].

Definition bus_address (dev : UsbDevice) : list Z := bus_id dev ++ str "-addr" ++ to_string (device_address dev).

Definition port_id (os : TargetOs) (dev : UsbDevice) : list Z :=
  match os with
  | Linux => match sysfs_name dev with Some s => s | None => bus_address dev end
  | MacOs => str "0x" ++ hex_digits8 (location_id dev)
  | Windows => instance_id dev
  | OtherOs => bus_address dev
  end.

Definition linux_port_input_matches (canonical_id input : list Z) : bool :=
  bool_decide (input = canonical_id) || bool_decide (last (split 47 input) = Some canonical_id).

Definition hex_digit_value (c : Z) : option Z :=
  if (48 <=? c) && (c <=? 57) then Some (c - 48)
  else if (97 <=? c) && (c <=? 102) then Some (c - 87)
  else if (65 <=? c) && (c <=? 70) then Some (c - 55)
  else None.

Fixpoint parse_hex_digits (acc : Z) (s : list Z) : option Z :=
  match s with
  | [] => Some acc
  | c :: s =>
      match hex_digit_value c with
      | Some d => if 4294967295 <? acc * 16 + d then None else parse_hex_digits (acc * 16 + d) s
      | None => None
      end
  end.

(** [u32::from_str_radix(s, 16)]: one leading [+] is accepted, an empty string
    and a lone sign are not. *)
Definition u32_from_str_radix_16 (s : list Z) : option Z :=
  match s with
  | [] => None
  | [c] => if (c =? 43) || (c =? 45) then None else parse_hex_digits 0 s
  | c :: s' => if c =? 43 then parse_hex_digits 0 s' else parse_hex_digits 0 s
  end.

Definition parse_hex_u32 (s : list Z) : option Z :=
  let t := trim s in
  u32_from_str_radix_16
    match strip_prefix (str "0x") t with
    | Some t => t
    | None => match strip_prefix (str "0X") t with Some t => t | None => t end
    end.

Definition macos_port_input_matches (canonical_id input : list Z) : bool :=
  match parse_hex_u32 canonical_id, parse_hex_u32 input with
  | Some a, Some b => a =? b
  | _, _ => bool_decide (input = canonical_id)
  end.

Definition port_input_matches (os : TargetOs) (canonical_id input : list Z) : bool :=
  match os with
  | Linux => linux_port_input_matches canonical_id input
  | MacOs => macos_port_input_matches canonical_id input
  | _ => bool_decide (input = canonical_id)
  end.

(** ** Kinds of adapter *)

Inductive BackendKind : Type := Agilent82357b | Agilent82357a | NiUsbHs | Usbtmc.
#[export] Instance BackendKind_eq_dec : EqDecision BackendKind.
Proof. solve_decision. Defined.

Definition ALL : list BackendKind := [Agilent82357b; Agilent82357a; NiUsbHs; Usbtmc].

Section Select.
(** The two firmware images. *)
Variables FIRMWARE_82357B FIRMWARE_82357A : list byte.

(** [None] where the code is [unreachable!]. *)
Definition agilent_model (k : BackendKind) : option Model :=
  match k with
  | Agilent82357b => Some (AgilentBoot.MODEL_82357B FIRMWARE_82357B)
  | Agilent82357a => Some (AgilentBoot.MODEL_82357A FIRMWARE_82357A)
  | NiUsbHs | Usbtmc => None
  end.

Definition id (k : BackendKind) : list Z :=
  match k, agilent_model k with
  | NiUsbHs, _ => NiUsb.ID
  | Usbtmc, _ => Usbtmc.Usbtmc.ID
  | _, Some m => AgilentBoot.id m
  | _, None => []
  end.

Definition description (k : BackendKind) : list Z :=
  match k, agilent_model k with
  | NiUsbHs, _ => NiUsb.DESCRIPTION
  | Usbtmc, _ => Usbtmc.Usbtmc.DESCRIPTION
  | _, Some m => AgilentBoot.description m
  | _, None => []
  end.

Definition usb_ids (k : BackendKind) : list (Z * Z) :=
  match k, agilent_model k with
  | NiUsbHs, _ => NiUsb.USB_IDS
  | Usbtmc, _ => []
  | _, Some m => AgilentBoot.usb_ids m
  | _, None => []
  end.

Definition is_preinit_pid (k : BackendKind) (pid : Z) : bool :=
  match agilent_model k with Some m => AgilentBoot.pid_preinit m =? pid | None => false end.

Definition from_id (i : list Z) : option BackendKind := List.find (fun k => bool_decide (id k = i)) ALL.

Fixpoint join (sep : list Z) (parts : list (list Z)) : list Z :=
  match parts with
  | [] => []
  | [p] => p
  | p :: parts => p ++ sep ++ join sep parts
  end.

Definition known_ids : list Z := join (str ", ") (map id ALL).

(** How each driver sees a device. *)
Definition tmc_info (os : TargetOs) (dev : UsbDevice) : UsbtmcUsb.DeviceInfo :=
  UsbtmcUsb.mkDeviceInfo (port_id os dev) (interfaces dev).
Definition ni_info (os : TargetOs) (dev : UsbDevice) : NiHost.DeviceInfo :=
  NiHost.mkDeviceInfo (vendor_id dev) (product_id dev) (port_id os dev).
Definition agilent_info (os : TargetOs) (dev : UsbDevice) : AgilentBoot.DeviceInfo :=
  AgilentBoot.mkDeviceInfo (vendor_id dev) (product_id dev) (port_id os dev) (bus_id dev) (device_address dev).

Definition detect (dev : UsbDevice) : option BackendKind :=
  match List.find (fun k => bool_decide ((vendor_id dev, product_id dev) ∈ usb_ids k)) ALL with
  | Some k => Some k
  | None => match UsbtmcUsb.usbtmc_interface (tmc_info Linux dev) with Some _ => Some Usbtmc | None => None end
  end.

(** ** Selection *)

Inductive UsbSelector : Type := Auto | Port (p : list Z).
Definition port (s : UsbSelector) : option (list Z) := match s with Auto => None | Port p => Some p end.

Record DiscoveredAdapter : Type := mkDiscovered {
  kind : BackendKind; a_port_id : list Z; a_vid : Z; a_pid : Z; a_product : option (list Z); a_serial : option (list Z);
}.

Inductive SelectError : Type :=
| ListFailed (e : Error)                   (* in the context "failed to list USB devices" *)
| NoAdapterAt (want : list Z)
| NoAdapterOf (id : list Z)
| NothingDetected (known : list Z)
| MultipleAdapters (candidates : list Z)
| UnknownBackend (id known : list Z)
| OpenFailed (e : Error).

(** One turn of the loop of [enumerate]. *)
Definition discover (os : TargetOs) (dev : UsbDevice) : option DiscoveredAdapter :=
  match detect dev with
  | None => None
  | Some k =>
      let preinit := is_preinit_pid k (product_id dev) in
      Some (mkDiscovered k (port_id os dev) (vendor_id dev) (product_id dev)
              (if preinit then None else product_string dev) (if preinit then None else serial_number dev))
  end.

Definition enumerate (os : TargetOs) (devs : result (list UsbDevice) Error) : result (list DiscoveredAdapter) SelectError :=
  let? devs := map_err ListFailed devs in Ok (omap (discover os) devs).

Definition of_backend (backend : option (list Z)) (k : BackendKind) : bool :=
  match backend with None => true | Some i => bool_decide (id k = i) end.
Definition at_selector (os : TargetOs) (s : UsbSelector) (port_id : list Z) : bool :=
  match port s with None => true | Some want => port_input_matches os port_id want end.

(** [format!("  {:<16} port {}", ..)]. *)
Definition candidate_line (a : DiscoveredAdapter) : list Z :=
  let i := id (kind a) in
  str "  " ++ i ++ replicate (16 - length i) 32 ++ str " port " ++ a_port_id a.

Definition resolve (os : TargetOs) (found : list DiscoveredAdapter) (backend : option (list Z)) (s : UsbSelector)
    : result DiscoveredAdapter SelectError :=
  let by_backend := List.filter (fun a => of_backend backend (kind a)) found in
  let candidates := List.filter (fun a => at_selector os s (a_port_id a)) by_backend in
  match candidates with
  | [one] => Ok one
  | [] =>
      Err (match port s, backend with
           | Some want, _ => NoAdapterAt want
           | None, Some i => NoAdapterOf i
           | None, None => NothingDetected known_ids
           end)
  | many => Err (MultipleAdapters (join [10] (map candidate_line many)))
  end.

(** [BackendKind::open] of each kind is [open]. *)
Definition open_selected {A : Type} (open : BackendKind -> Z -> option (list Z) -> result A Error)
    (os : TargetOs) (devs : result (list UsbDevice) Error) (s : UsbSelector) (backend : option (list Z)) (timeout_ms : Z)
    : result (A * list Z) SelectError :=
  let? _ := match backend with
            | Some i => match from_id i with Some _ => Ok tt | None => Err (UnknownBackend i known_ids) end
            | None => Ok tt
            end in
  let? found := enumerate os devs in
  let? chosen := resolve os found backend s in
  let? opened := map_err OpenFailed (open (kind chosen) timeout_ms (Some (a_port_id chosen))) in
  Ok (opened, a_port_id chosen).

(** ** Noticing removal *)

(** The devices at each presence check, a second apart.  [Some n]: returned
    after the [n]-th; [None]: still waiting. *)
Fixpoint wait_for_removal (os : TargetOs) (port : list Z) (polls : list (result (list UsbDevice) Error)) : option nat :=
  match polls with
  | [] => None
  | devs :: polls =>
      match enumerate os devs with
      | Ok found =>
          if existsb (fun a => port_input_matches os (a_port_id a) port) found
          then S <$> wait_for_removal os port polls else Some 1%nat
      | Err _ => S <$> wait_for_removal os port polls
      end
  end.

(** ** What selects a device *)

Definition eligible (os : TargetOs) (backend : option (list Z)) (s : UsbSelector) (dev : UsbDevice) : bool :=
  match detect dev with
  | Some k => of_backend backend k && at_selector os s (port_id os dev)
  | None => false
  end.

Lemma discover_kind os dev a : discover os dev = Some a <->
  exists k, detect dev = Some k /\ a = mkDiscovered k (port_id os dev) (vendor_id dev) (product_id dev)
    (if is_preinit_pid k (product_id dev) then None else product_string dev)
    (if is_preinit_pid k (product_id dev) then None else serial_number dev).
Proof. unfold discover. destruct (detect dev) as [k|]; naive_solver. Qed.

Lemma candidates_eq os backend s devs :
  List.filter (fun a => at_selector os s (a_port_id a)) (List.filter (fun a => of_backend backend (kind a)) (omap (discover os) devs)) =
  omap (discover os) (List.filter (eligible os backend s) devs).
Proof.
  induction devs as [|dev devs IH]; [done|]. cbn [omap list_omap List.filter].
  assert (D : discover os dev = None /\ eligible os backend s dev = false \/
    exists a k, discover os dev = Some a /\ kind a = k /\ a_port_id a = port_id os dev /\
      eligible os backend s dev = of_backend backend k && at_selector os s (port_id os dev)).
  { unfold discover, eligible. destruct (detect dev) as [k|]; [right; by eexists _, k|by left]. }
  destruct D as [[-> ->]|(a & k & D & Hk & Hp & ->)]; [done|]. rewrite D. cbn [List.filter]. rewrite Hk.
  destruct (of_backend backend k); [|done]. cbn [List.filter andb]. rewrite Hp.
  destruct (at_selector os s (port_id os dev)); [|done]. cbn [omap list_omap]. rewrite D. by f_equal.
Qed.

Lemma eligible_discovered os backend s devs :
  length (omap (discover os) (List.filter (eligible os backend s) devs)) = length (List.filter (eligible os backend s) devs).
Proof.
  induction devs as [|dev devs IH]; [done|]. cbn [List.filter]. destruct (eligible os backend s dev) eqn:E; [|done].
  cbn [omap list_omap]. unfold eligible in E. unfold discover at 1.
  destruct (detect dev); [|done]. cbn [length]. by rewrite IH.
Qed.

Lemma detect_cases dev k : detect dev = Some k ->
  (vendor_id dev, product_id dev) ∈ usb_ids k \/
  k = Usbtmc /\ exists tmc, UsbtmcUsb.usbtmc_interface (tmc_info Linux dev) = Some tmc.
Proof.
  unfold detect. destruct (List.find _ ALL) as [k'|] eqn:E.
  - intros [= <-]. left. apply List.find_some in E as [_ E]. by apply bool_decide_eq_true in E.
  - destruct (UsbtmcUsb.usbtmc_interface _) eqn:E'; [|done]. intros [= <-]. naive_solver.
Qed.

(** ** The drivers find what was chosen *)

Definition finds (os : TargetOs) (k : BackendKind) (port : option (list Z)) (devs : list UsbDevice) (dev : UsbDevice) : Prop :=
  match k with
  | NiUsbHs => NiHost.find_in port (map (ni_info os) devs) = Ok (ni_info os dev, product_id dev)
  | Usbtmc => exists tmc, UsbtmcUsb.find_in port (map (tmc_info os) devs) = Ok (tmc_info os dev, tmc)
  | _ => exists m, agilent_model k = Some m /\
           AgilentBoot.first_match m port (map (agilent_info os) devs) = Some (agilent_info os dev)
  end.

(** A search by port that takes the wanted device takes it wherever it stands,
    when no other device is at its port. *)
Lemma search_by_port {A R} (os : TargetOs) (info : UsbDevice -> A) (search : list A -> R) (r : R) devs dev :
  (forall l, search (info dev :: l) = r) ->
  (forall d l, port_id os d <> port_id os dev -> search (info d :: l) = search l) ->
  NoDup (map (port_id os) devs) -> dev ∈ devs -> search (map info devs) = r.
Proof.
  intros Hhit Hmiss. induction devs as [|d devs IH]; [set_solver|]. cbn [map].
  rewrite NoDup_cons. intros [Hn Hd] Hin. apply elem_of_cons in Hin as [<-|Hin]; [done|].
  rewrite Hmiss; [auto|]. intros E. apply Hn. rewrite E. by apply list_elem_of_fmap_2.
Qed.

Lemma driver_finds os k devs dev : detect dev = Some k -> NoDup (map (port_id os) devs) -> dev ∈ devs ->
  finds os k (Some (port_id os dev)) devs dev.
Proof.
  intros Hd Hn Hin. apply detect_cases in Hd as [Hids|[-> [tmc Ht]]].
  - assert (Hm : forall m, agilent_model k = Some m -> AgilentBoot.of_model m (agilent_info os dev) = true ->
        AgilentBoot.first_match m (Some (port_id os dev)) (map (agilent_info os) devs) = Some (agilent_info os dev)).
    { intros m _ Hm. eapply (search_by_port os); [| |done..].
      - intros l. cbn. rewrite Hm. by rewrite bool_decide_eq_true_2.
      - intros d l Hp. cbn. by rewrite (bool_decide_eq_false_2 _ Hp), andb_false_r. }
    destruct k; cbn [finds]; [| | |set_solver].
    1, 2: eexists; split; [done|]; apply Hm; [done|]; unfold AgilentBoot.of_model, agilent_info; cbn [AgilentBoot.vendor_id AgilentBoot.product_id];
      apply list_elem_of_In in Hids; cbn in Hids; destruct Hids as [[= <- <-]|[[= <- <-]|[]]]; by vm_compute.
    eapply (search_by_port os); [| |done..].
    + intros l. cbn -[NiUsb.USB_IDS]. assert (vendor_id dev = NiUsb.USB_VENDOR_ID_NI) as Hv.
      { apply list_elem_of_In in Hids. cbn in Hids. naive_solver. }
      rewrite Hv in *. rewrite Z.eqb_refl. cbn [negb]. rewrite bool_decide_eq_true_2 by done. by rewrite decide_True.
    + intros d l Hp. cbn -[NiUsb.USB_IDS]. by repeat case_match.
  - exists tmc. eapply (search_by_port os); [| |done..].
    + intros l. cbn [UsbtmcUsb.find_in]. replace (UsbtmcUsb.usbtmc_interface (tmc_info os dev)) with (Some tmc) by by rewrite <- Ht.
      by rewrite decide_True.
    + intros d l Hp. cbn [UsbtmcUsb.find_in]. destruct (UsbtmcUsb.usbtmc_interface (tmc_info os d)); [|done]. by rewrite decide_False.
Qed.

Lemma resolve_ok os devs backend s a : resolve os (omap (discover os) devs) backend s = Ok a <->
  exists dev, List.filter (eligible os backend s) devs = [dev] /\ discover os dev = Some a.
Proof.
  unfold resolve. rewrite candidates_eq. pose proof (eligible_discovered os backend s devs) as L.
  destruct (List.filter (eligible os backend s) devs) as [|dev [|d l]].
  - split; [done|naive_solver].
  - cbn [omap list_omap] in *. destruct (discover os dev) as [a'|] eqn:E; [|done]. naive_solver.
  - destruct (omap (discover os) (dev :: d :: l)) as [|? [|? ?]]; [done..|]. split; [done|naive_solver].
Qed.

Definition known (backend : option (list Z)) : Prop := forall i, backend = Some i -> from_id i <> None.

(** C39: What a call to open an adapter comes to: only the one device that is
    supported, of the backend asked for and at the port asked for is opened,
    by its own driver at its own port, and that driver's search of the same
    list finds that device and no other; none or several are refused. *)
Theorem open_selected_finds {A} (open : BackendKind -> Z -> option (list Z) -> result A Error) os devs s backend timeout :
  NoDup (map (port_id os) devs) ->
  (forall a p, open_selected open os (Ok devs) s backend timeout = Ok (a, p) ->
     exists dev k, List.filter (eligible os backend s) devs = [dev] /\ detect dev = Some k /\ p = port_id os dev /\
       open k timeout (Some p) = Ok a /\ finds os k (Some p) devs dev) /\
  (forall dev, known backend -> List.filter (eligible os backend s) devs = [dev] ->
     exists k, detect dev = Some k /\
       open_selected open os (Ok devs) s backend timeout =
         (let? a := map_err OpenFailed (open k timeout (Some (port_id os dev))) in Ok (a, port_id os dev))).
Proof.
  intros Hn. unfold open_selected, enumerate. cbn [map_err rbind]. split.
  - intros a p. destruct (match backend with Some _ => _ | None => _ end) as [[]|?]; [|done]. cbn [rbind].
    destruct (resolve os (omap (discover os) devs) backend s) as [c|] eqn:E; [|done]. cbn [rbind].
    apply resolve_ok in E as (dev & Hf & (k & Hk & ->)%discover_kind). cbn [kind a_port_id].
    destruct (open k timeout _) as [o|] eqn:Eo; [|done]. cbn. intros [= <- <-]. exists dev, k. split_and!; [done..|].
    apply driver_finds; [done..|]. apply list_elem_of_In, (List.filter_In (eligible os backend s)). rewrite Hf. by left.
  - intros dev Hb Hf. assert (Hel : In dev devs /\ eligible os backend s dev = true).
    { apply List.filter_In. rewrite Hf. by left. }
    destruct Hel as [_ Hel]. unfold eligible in Hel. destruct (detect dev) as [k|] eqn:Hk; [|done]. exists k. split; [done|].
    assert (resolve os (omap (discover os) devs) backend s = Ok (default (mkDiscovered k [] 0 0 None None) (discover os dev))) as ->.
    { apply resolve_ok. exists dev. split; [done|]. unfold discover. by rewrite Hk. }
    unfold discover. rewrite Hk. cbn [default rbind kind a_port_id].
    destruct backend as [i|]; [|done]. specialize (Hb i eq_refl). by destruct (from_id i).
Qed.

(** ** Spelling a port *)

Lemma split_plain ch s : ch ∉ s -> split ch s = [s].
Proof.
  induction s as [|c s IH]; [done|]. rewrite not_elem_of_cons. intros [Hc Hs]. cbn [split].
  rewrite IH by done. by destruct (Z.eqb_spec c ch).
Qed.

Lemma split_app ch p t : exists c q, split ch (p ++ ch :: t) = (c :: q) ++ split ch t.
Proof.
  induction p as [|c p (d & q & IH)]; cbn [app split].
  - rewrite Z.eqb_refl. by exists [], [].
  - rewrite IH. destruct (c =? ch); [by exists [], (d :: q)|by exists (c :: d), q].
Qed.

Lemma last_split ch s t : ch ∉ t -> last (split ch s) = Some t <-> s = t \/ exists p, s = p ++ ch :: t.
Proof.
  intros Ht. assert (Hl : forall p t', ch ∉ t' -> last (split ch (p ++ ch :: t')) = Some t').
  { intros p t' Ht'. destruct (split_app ch p t') as (c & q & ->). by rewrite split_plain, last_snoc by done. }
  split; [|intros [->|[p ->]]; [by rewrite split_plain|by apply Hl]].
  destruct (decide (ch ∈ s)) as [Hin|Hin]; [|rewrite split_plain by done; intros [= ->]; by left].
  apply list_elem_of_split_r in Hin as (p & t' & -> & Ht'). rewrite Hl by done. intros [= ->]. right. by exists p.
Qed.

Lemma hex_digit_value_digit d : 0 <= d < 16 -> hex_digit_value (Backend.Backend.hex_digit d) = Some d.
Proof.
  intros Hd. unfold hex_digit_value, Backend.Backend.hex_digit. destruct (Z.ltb_spec d 10).
  - rewrite !(proj2 (Z.leb_le _ _)) by lia. cbn. f_equal. lia.
  - rewrite (proj2 (Z.leb_gt (87 + d) 57)) by lia. rewrite andb_false_r, !(proj2 (Z.leb_le _ _)) by lia. cbn. f_equal. lia.
Qed.

Lemma parse_hex_digit n i j t : in_u32 n -> 0 <= i -> j = i + 1 ->
  parse_hex_digits (n / 16 ^ j) (Backend.Backend.hex_digit (n / 16 ^ i mod 16) :: t) = parse_hex_digits (n / 16 ^ i) t.
Proof.
  intros Hn Hi ->. cbn [parse_hex_digits]. rewrite hex_digit_value_digit by (apply Z.mod_pos_bound; lia).
  assert (n / 16 ^ (i + 1) * 16 + n / 16 ^ i mod 16 = n / 16 ^ i) as ->.
  { pose proof (Z.div_mod (n / 16 ^ i) 16 ltac:(lia)) as D.
    rewrite Z.div_div in D by (try apply Z.pow_nonzero; lia). rewrite Z.pow_add_r by lia. change (16 ^ 1) with 16. lia. }
  assert (n / 16 ^ i <= n) by (apply Z.div_le_upper_bound; unfold in_u32 in Hn; nia).
  destruct (Z.ltb_spec 4294967295 (n / 16 ^ i)); [unfold in_u32 in Hn; lia|done].
Qed.

Lemma parse_hex_digits8 n : in_u32 n -> parse_hex_digits 0 (hex_digits8 n) = Some n.
Proof.
  intros Hn. unfold hex_digits8. cbn [map]. replace 0 with (n / 16 ^ 8) at 1 by (apply Z.div_small; exact Hn).
  rewrite (parse_hex_digit n 7), (parse_hex_digit n 6), (parse_hex_digit n 5), (parse_hex_digit n 4), (parse_hex_digit n 3),
    (parse_hex_digit n 2), (parse_hex_digit n 1), (parse_hex_digit n 0) by (done || lia).
  cbn [parse_hex_digits]. by rewrite Z.div_1_r.
Qed.

Definition plain (c : Z) : Prop := 48 <= c <= 57 \/ 97 <= c <= 102.

Lemma hex_digit_plain d : 0 <= d < 16 -> plain (Backend.Backend.hex_digit d).
Proof. unfold plain, Backend.Backend.hex_digit. destruct (d <? 10) eqn:E; lia. Qed.

Lemma hex_digits8_plain n : Forall plain (hex_digits8 n).
Proof. apply Forall_map, Forall_forall. intros i _. apply hex_digit_plain, Z.mod_pos_bound. lia. Qed.

Lemma plain_no_space s : Forall (fun c => 48 <= c <= 120) s -> trim s = s.
Proof.
  intros H. apply trim_none. eapply Forall_impl; [exact H|]. intros c Hc. cbn in Hc. unfold is_whitespace.
  repeat (rewrite orb_false_iff || rewrite andb_false_iff || rewrite Z.eqb_neq || rewrite Z.leb_gt). lia.
Qed.

Lemma parse_zeros k t : parse_hex_digits 0 (replicate k 48 ++ t) = parse_hex_digits 0 t.
Proof. by induction k. Qed.

Lemma radix_plain c d t : c <> 43 -> u32_from_str_radix_16 (c :: d :: t) = parse_hex_digits 0 (c :: d :: t).
Proof. intros H. cbn [u32_from_str_radix_16]. by rewrite (proj2 (Z.eqb_neq _ _)). Qed.

(** A location id in eight digits, with any number of leading zeros. *)
Lemma padded_digits k n : in_u32 n -> exists c d t, replicate k 48 ++ hex_digits8 n = c :: d :: t /\
  Forall plain (c :: d :: t) /\ u32_from_str_radix_16 (c :: d :: t) = Some n.
Proof.
  intros Hn. assert (Hp : Forall plain (replicate k 48 ++ hex_digits8 n)).
  { apply Forall_app. split; [apply Forall_replicate; left; lia|apply hex_digits8_plain]. }
  pose proof (parse_zeros k (hex_digits8 n)) as E. rewrite parse_hex_digits8 in E by done.
  assert (2 <= length (replicate k 48%Z ++ hex_digits8 n))%nat by (rewrite length_app; cbn; lia).
  destruct (replicate k 48 ++ hex_digits8 n) as [|c [|d t]]; [cbn in *; lia..|].
  exists c, d, t. split_and!; [done..|]. rewrite radix_plain; [done|]. inversion_clear Hp. unfold plain in *. lia.
Qed.

Definition spelling (pre : list Z) : Prop := pre = [] \/ pre = str "0x" \/ pre = str "0X".

Lemma parse_spelling pre k n : spelling pre -> in_u32 n -> parse_hex_u32 (pre ++ replicate k 48 ++ hex_digits8 n) = Some n.
Proof.
  intros Hpre Hn. destruct (padded_digits k n Hn) as (c & d & t & -> & Hp & E). unfold parse_hex_u32.
  rewrite plain_no_space.
  2: { apply Forall_app. split; [|eapply Forall_impl; [exact Hp|unfold plain; cbn; lia]]. destruct Hpre as [->|[->| ->]]; [constructor|change (str "0x") with [48; 120]|change (str "0X") with [48; 88]];
       repeat (apply List.Forall_cons; [lia|]); constructor. }
  destruct Hpre as [->|[->| ->]]; [|done|done]. inversion_clear Hp as [|? ? _ Hd]. inversion_clear Hd as [|? ? Hd' _].
  cbn [app]. assert (forall x, 57 < x < 97 \/ 102 < x -> strip_prefix [48; x] (c :: d :: t) = None) as Hs.
  { intros x Hx. cbn [strip_prefix]. destruct (48 =? c); [|done]. destruct (Z.eqb_spec x d); [|done]. unfold plain in Hd'. lia. }
  change (str "0x") with [48; 120]. change (str "0X") with [48; 88]. by rewrite !Hs by lia.
Qed.

Lemma linux_matches_iff i input : 47 ∉ i ->
  port_input_matches Linux i input = true <-> input = i \/ exists p, input = p ++ 47 :: i.
Proof.
  intros Hi. cbn. unfold linux_port_input_matches. rewrite orb_true_iff, !bool_decide_eq_true, last_split by done. tauto.
Qed.

Lemma macos_matches_iff dev input : in_u32 (location_id dev) ->
  port_input_matches MacOs (port_id MacOs dev) input = true <-> parse_hex_u32 input = Some (location_id dev).
Proof.
  intros Hn. cbn [port_input_matches port_id]. unfold macos_port_input_matches.
  assert (parse_hex_u32 (str "0x" ++ hex_digits8 (location_id dev)) = Some (location_id dev)) as E.
  { apply (parse_spelling _ 0); [by right; left|done]. }
  rewrite E. destruct (parse_hex_u32 input) as [m|] eqn:F.
  - rewrite Z.eqb_eq. naive_solver.
  - rewrite bool_decide_eq_true. split; [|done]. intros ->. congruence.
Qed.

(** Which spellings name a port: on Linux the id itself or any path that ends
    in it, on macOS whatever denotes the same location id, with or without a
    prefix and leading zeros; no other location id matches. *)
Theorem port_spellings dev i input pre k :
  (47 ∉ i -> port_input_matches Linux i input = true <-> input = i \/ exists p, input = p ++ 47 :: i) /\
  (in_u32 (location_id dev) ->
   (port_input_matches MacOs (port_id MacOs dev) input = true <-> parse_hex_u32 input = Some (location_id dev)) /\
   (spelling pre ->
    port_input_matches MacOs (port_id MacOs dev) (pre ++ replicate k 48 ++ hex_digits8 (location_id dev)) = true)).
Proof.
  split; [apply linux_matches_iff|]. intros Hn. split; [by apply macos_matches_iff|].
  intros Hp. apply macos_matches_iff; [done|]. by apply parse_spelling.
Qed.

(** An id names its own port on every platform. *)
Lemma port_matches_self os i : port_input_matches os i i = true.
Proof.
  destruct os; cbn; try by rewrite bool_decide_eq_true_2.
  - unfold linux_port_input_matches. by rewrite bool_decide_eq_true_2.
  - unfold macos_port_input_matches. destruct (parse_hex_u32 i); [apply Z.eqb_refl|by rewrite bool_decide_eq_true_2].
Qed.

Definition present (os : TargetOs) (p : list Z) (devs : list UsbDevice) : Prop :=
  exists dev, dev ∈ devs /\ detect dev <> None /\ port_input_matches os (port_id os dev) p = true.

Lemma present_found os p devs :
  existsb (fun a => port_input_matches os (a_port_id a) p) (omap (discover os) devs) = true <-> present os p devs.
Proof.
  rewrite existsb_exists. unfold present. split.
  - intros (a & Ha%list_elem_of_In & Hm). apply list_elem_of_omap in Ha as (dev & Hin & (k & Hk & ->)%discover_kind).
    exists dev. by rewrite Hk.
  - intros (dev & Hin & Hd & Hm). destruct (detect dev) as [k|] eqn:Hk; [|done].
    destruct (discover os dev) as [a|] eqn:Ha; [|unfold discover in Ha; by rewrite Hk in Ha].
    exists a. split; [apply list_elem_of_In, list_elem_of_omap; naive_solver|].
    apply discover_kind in Ha as (? & _ & ->). done.
Qed.

(** The watch on the adapter's port ends at the first check at which the
    devices could be listed and no supported one was at the port; a listing
    that fails is not taken for a removal. *)
Theorem removal_noticed os p polls n : wait_for_removal os p polls = Some n <->
  exists before devs after, polls = before ++ Ok devs :: after /\ n = S (length before) /\ ~ present os p devs /\
    (forall devs', Ok devs' ∈ before -> present os p devs').
Proof.
  revert n. induction polls as [|r polls IH]; intros n; [split; [done|]; intros ([] & ? & ? & [=] & _)|].
  assert (Hskip : (forall devs, r = Ok devs -> present os p devs) ->
    S <$> wait_for_removal os p polls = Some n <-> exists before devs after, r :: polls = before ++ Ok devs :: after /\
      n = S (length before) /\ ~ present os p devs /\ (forall devs', Ok devs' ∈ before -> present os p devs')).
  { intros Hr. rewrite fmap_Some. split.
    - intros (m & (before & devs & after & -> & -> & Hn & Hb)%IH & ->). exists (r :: before), devs, after.
      split_and!; [done..|]. intros d [E|Hd]%elem_of_cons; eauto.
    - intros ([|x before] & devs & after & [= -> ->] & -> & Hn & Hb); [by destruct Hn; apply Hr|].
      exists (S (length before)). split; [|done]. apply IH. exists before, devs, after. split_and!; [done..|].
      intros d Hd. apply Hb. by right. }
  cbn [wait_for_removal]. destruct r as [devs|e]; [|by apply Hskip]. cbn [enumerate map_err rbind].
  destruct (existsb _ (omap (discover os) devs)) eqn:E.
  { apply Hskip. intros d [= <-]. by apply present_found. }
  assert (~ present os p devs) by (rewrite <- present_found; congruence). clear Hskip. split.
  - intros [= <-]. exists [], devs, polls. split_and!; [done..|]. set_solver.
  - intros ([|x before] & d & after & [= <- ->] & -> & Hn & Hb); [done|]. destruct H. apply Hb. by left.
Qed.
End Select.

(** ** A desk with two adapters *)

Definition desk : list UsbDevice :=
  [mkUsbDevice 0x1d6b 2 (Some (str "usb1")) (str "1") 1 0x00100000 [] [] None None;
   mkUsbDevice NiUsb.USB_VENDOR_ID_NI NiUsb.PID_NI_USB_HS (Some (str "1-1.2")) (str "1") 4 0x00120000 [] [] (Some (str "GPIB-USB-HS")) (Some (str "01234567"));
   mkUsbDevice AgilentMsg.USB_VID_AGILENT AgilentMsg.USB_PID_82357B_PREINIT (Some (str "1-1.1")) (str "1") 5 0x00110000 [] []
     (Some (str "USB 2.0 Hub")) None].

(** The discovered adapters stand in the order of the listing, not in that of
    [BackendKind::ALL]; a cold adapter shows no strings. *)
Lemma enumerate_in_listing_order :
  (let? found := enumerate [] [] Linux (Ok desk) in Ok (map (fun a => (kind a, a_product a)) found)) =
    Ok [(NiUsbHs, Some (str "GPIB-USB-HS")); (Agilent82357b, None)].
Proof. by vm_compute. Qed.

Definition open_any (k : BackendKind) (timeout : Z) (port : option (list Z)) : result BackendKind Error := Ok k.

Lemma open_selected_finds_witness :
  NoDup (map (port_id Linux) desk) /\
  exists dev k, List.filter (eligible [] [] Linux (Some (str "ni-usb-hs")) (Port (str "/sys/bus/usb/devices/1-1.2"))) desk = [dev] /\
    detect [] [] dev = Some k /\ str "1-1.2" = port_id Linux dev /\ open_any k 3000 (Some (str "1-1.2")) = Ok NiUsbHs /\
    finds [] [] Linux k (Some (str "1-1.2")) desk dev.
Proof.
  assert (H : NoDup (map (port_id Linux) desk)) by (apply (bool_decide_unpack _); by vm_compute). split; [exact H|].
  apply (proj1 (open_selected_finds [] [] open_any Linux desk (Port (str "/sys/bus/usb/devices/1-1.2"))
    (Some (str "ni-usb-hs")) 3000 H) NiUsbHs (str "1-1.2")). by vm_compute.
Defined.

Lemma port_spellings_witness :
  let dev := mkUsbDevice 0 0 None [] 0 0x03440000 [] [] None None in
  port_input_matches Linux (str "1-1.2") (str "/sys/bus/usb/devices/1-1.2") = true /\
  port_input_matches MacOs (port_id MacOs dev) (str "0X" ++ replicate 3 48 ++ hex_digits8 0x03440000) = true /\
  (port_input_matches MacOs (port_id MacOs dev) (str "0x03450000") = true <-> parse_hex_u32 (str "0x03450000") = Some 0x03440000).
Proof.
  intros dev. destruct (port_spellings dev (str "1-1.2") (str "/sys/bus/usb/devices/1-1.2") (str "0X") 3) as [Hl Hm].
  destruct (port_spellings dev [] (str "0x03450000") [] 0) as [_ Hm']. split_and!.
  - apply Hl; [apply (bool_decide_unpack _); by vm_compute|]. right. exists (str "/sys/bus/usb/devices"). by vm_compute.
  - apply Hm; [split; cbn; lia|]. right. by right.
  - apply Hm'. split; cbn; lia.
Defined.
End Select.
