(* ===== verification/Capture.v ===== *)
(** * The capture front-end: [src/capture.rs]

    [stream_to] takes what happens around it at each turn of its loop: whether
    the watcher has seen the client leave, what other tasks did to the adapter
    before the lock was got, and how the socket took the bytes.  The accept loop
    and the tasks it spawns are a step function over the shared flag, a step
    per await. *)

From S2P Require Import Prelude RustStr Rpc Backend.

Module Capture.
Import RustStr Backend Rpc.Io.

Definition CHUNK : Z := 65536.

Inductive Written : Type := Taken | Broken (n : nat) (e : IoError).   (* [n] bytes went out first *)

Record Turn (B : Type) : Type := mkTurn { gone : bool; meanwhile : B -> B; write_all : Written }.
Arguments mkTurn {B}.
Arguments gone {B}.
Arguments meanwhile {B}.
Arguments write_all {B}.

Inductive Ended : Type := ClientGone (total : Z) | ModeEnded (total : Z) | ClientWrite (e : IoError).

Section Capture.
Context {B : Type} `{GpibBackend B}.

Definition can_capture (b : B) : bool :=
  gb_listen_only b || match gb_device_address b with Some _ => true | None => false end.

(** [None]: still running when the turns are used up.  [sent] is what the
    client has been sent, [total] the code's own count. *)
Fixpoint stream_to (turns : list (Turn B)) (total : Z) (sent : list byte) (b : B) : option (Ended * list byte * B) :=
  match turns with
  | [] => None
  | t :: turns =>
      if gone t then Some (ClientGone total, sent, b)
      else
        let b := meanwhile t b in
        if negb (gb_listen_only b) && match gb_device_address b with None => true | Some _ => false end
        then Some (ModeEnded total, sent, b)
        else
          let '(r, b) := gb_read b 0 CHUNK in
          let chunk := match r with Ok (data, _) => data | Err _ => [] end in
          match chunk with
          | [] => stream_to turns total sent b
          | _ =>
              match write_all t with
              | Taken => stream_to turns ((total + zlen chunk) mod 2 ^ 64) (sent ++ chunk) b
              | Broken n e => Some (ClientWrite e, sent ++ take n chunk, b)
              end
          end
  end.
End Capture.

(** ** Accepting clients *)

Record Front : Type := mkFront {
  listening : bool;
  admitting : bool;       (* [run] between taking the flag and starting the task *)
  busy : bool;
  streaming : nat;        (* tasks inside [stream_to] *)
  leaving : nat;          (* tasks past it, the flag not yet reset *)
}.

Definition new_front : Front := mkFront true false false 0 0.

Inductive Event : Type := Accepted | AcceptFailed | ModeChecked (in_mode : bool) | StreamEnded | FlagReset.

Definition IN_PROGRESS : list Z := str "error: capture already in progress" ++ [10].
Definition NOT_CAPTURING : list Z := str "error: not capturing; use ++lon 1 or ++dev <addr>" ++ [10].

(** The state after an event, and the line the client is turned away with;
    [None] where the event cannot happen. *)
Definition run_step (e : Event) (f : Front) : option (Front * option (list Z)) :=
  match e with
  | Accepted =>
      if negb (listening f) || admitting f then None
      else if busy f then Some (f, Some IN_PROGRESS)
      else Some (mkFront true true true (streaming f) (leaving f), None)
  | AcceptFailed =>
      if negb (listening f) || admitting f then None
      else Some (mkFront false false (busy f) (streaming f) (leaving f), None)
  | ModeChecked in_mode =>
      if negb (admitting f) then None
      else if in_mode then Some (mkFront (listening f) false (busy f) (S (streaming f)) (leaving f), None)
      else Some (mkFront (listening f) false false (streaming f) (leaving f), Some NOT_CAPTURING)
  | StreamEnded =>
      match streaming f with
      | O => None
      | S n => Some (mkFront (listening f) (admitting f) (busy f) n (S (leaving f)), None)
      end
  | FlagReset =>
      match leaving f with
      | O => None
      | S n => Some (mkFront (listening f) (admitting f) false (streaming f) n, None)
      end
  end.

Inductive reachable : Front -> Prop :=
| reachable_new : reachable new_front
| reachable_step f e f' r : reachable f -> run_step e f = Some (f', r) -> reachable f'.

(** The flag counts the one client there may be. *)
Lemma flag_counts f : reachable f ->
  ((if admitting f then 1 else 0) + streaming f + leaving f = if busy f then 1 else 0)%nat.
Proof.
  induction 1 as [|f e f' r _ IH Hs]; [done|]. unfold run_step in Hs.
  destruct f as [li ad bu st le], e; cbn in *; repeat case_match; simplify_eq/=; try done; lia.
Qed.

(** At any time at most one client is streamed to, whatever order clients come
    and go in; a client is turned away as a second one only while another is
    being admitted, streamed to or on its way out, and a client admitted out of
    a capturing mode is refused and the place given up. *)
Theorem one_capture_client f : reachable f ->
  (streaming f <= 1)%nat /\
  (forall f' r, run_step Accepted f = Some (f', Some r) -> r = IN_PROGRESS /\ f' = f /\ (streaming f + leaving f = 1)%nat) /\
  (forall f' r, run_step (ModeChecked false) f = Some (f', r) -> r = Some NOT_CAPTURING /\ busy f' = false /\ streaming f' = 0%nat) /\
  (streaming f = 0%nat -> leaving f = 0%nat -> listening f = true -> admitting f = false ->
   exists f1 f2, run_step Accepted f = Some (f1, None) /\ run_step (ModeChecked true) f1 = Some (f2, None) /\ streaming f2 = 1%nat).
Proof.
  intros Hf. pose proof (flag_counts f Hf) as Hc. destruct f as [li ad bu st le]; cbn [listening admitting busy streaming leaving] in *.
  split_and!.
  - destruct ad, bu; lia.
  - intros f' r. cbn. destruct li, ad, bu; cbn; intros [= <- <-]; split_and!; done || lia.
  - intros f' r. cbn. destruct ad, bu; cbn; intros [= <- <-]; split_and!; done || (cbn; lia).
  - intros -> -> -> ->. destruct bu; cbn in Hc; [lia|]. by do 2 eexists.
Qed.

Lemma one_capture_client_witness :
  exists f, run_step Accepted new_front = Some (mkFront true true true 0 0, None) /\
    run_step (ModeChecked true) (mkFront true true true 0 0) = Some (f, None) /\
    (forall f' r, run_step Accepted f = Some (f', Some r) -> r = IN_PROGRESS /\ f' = f /\ (streaming f + leaving f = 1)%nat).
Proof.
  exists (mkFront true false true 1 0). split_and!; [done..|].
  apply (one_capture_client (mkFront true false true 1 0)).
  eapply (reachable_step (mkFront true true true 0 0) (ModeChecked true)); [|done].
  by eapply (reachable_step new_front Accepted); [apply reachable_new|].
Defined.

(** ** What a client receives *)

Fixpoint got (cs : list Call) : list byte :=
  match cs with [] => [] | CGot d _ :: cs => d ++ got cs | _ :: cs => got cs end.
Fixpoint reads (cs : list Call) : nat :=
  match cs with [] => 0 | CRead _ _ :: cs => S (reads cs) | _ :: cs => reads cs end.
Definition own (c : Call) : Prop := c = CRead 0 CHUNK \/ exists d e, c = CGot d e.

Lemma got_app a b : got (a ++ b) = got a ++ got b.
Proof. induction a as [|[] a IH]; cbn; rewrite ?IH, ?app_assoc; done. Qed.

Section Stream.
Context {B : Type} `{GpibBackend B}.

(** Other tasks act on the adapter, not on this stream's log. *)
Definition on_bus (t : Turn B) : Turn (Logged B) := mkTurn (gone t) (fun l => log_map l (meanwhile t (bus l))) (write_all t).

(** How a stream over [turns] that sent [sent] and made the calls [cs] ended. *)
Definition outcome (turns : list (Turn B)) (r : Ended) (sent0 sent : list byte) (cs : list Call) (b : B) : Prop :=
  match r with
  | ClientGone total => sent = sent0 ++ got cs /\ total = zlen sent mod 2 ^ 64 /\
      exists t, turns !! reads cs = Some t /\ gone t = true
  | ModeEnded total => sent = sent0 ++ got cs /\ total = zlen sent mod 2 ^ 64 /\ can_capture b = false /\
      exists t, turns !! reads cs = Some t /\ gone t = false
  | ClientWrite e => exists t n k before chunk, reads cs = S n /\ turns !! n = Some t /\ write_all t = Broken k e /\
      got cs = before ++ chunk /\ chunk <> [] /\ sent = sent0 ++ before ++ take k chunk
  end.

Lemma can_capture_guard (b : B) :
  negb (gb_listen_only b) && match gb_device_address b with None => true | Some _ => false end = negb (can_capture b).
Proof. unfold can_capture. by destruct (gb_listen_only b), (gb_device_address b). Qed.

Lemma total_step sent (chunk : list byte) : (zlen sent mod 2 ^ 64 + zlen chunk) mod 2 ^ 64 = zlen (sent ++ chunk) mod 2 ^ 64.
Proof. rewrite Zplus_mod_idemp_l. f_equal. unfold zlen. rewrite length_app. lia. Qed.

Lemma reads_app a b : reads (a ++ b) = (reads a + reads b)%nat.
Proof. induction a as [|[] a IH]; cbn; rewrite ?IH; done. Qed.

Lemma outcome_later turns t r sent s cs b step :
  reads step = 1%nat -> outcome turns r (sent ++ got step) s cs b -> outcome (t :: turns) r sent s (step ++ cs) b.
Proof.
  intros Hr. unfold outcome. rewrite reads_app, got_app, Hr. cbn [Nat.add].
  destruct r; rewrite ?app_assoc; [done..|]. intros (u & n & k & before & chunk & -> & Hu & Hw & -> & Hc & ->).
  exists u, (S n), k, (got step ++ before), chunk. rewrite !app_assoc. done.
Qed.

Lemma stream_to_spec turns sent (l0 l : Logged B) r s :
  stream_to (map on_bus turns) (zlen sent mod 2 ^ 64) sent l0 = Some (r, s, l) ->
  exists cs, calls l = calls l0 ++ cs /\ Forall own cs /\
    (forall i t, turns !! i = Some t -> (i < reads cs)%nat -> gone t = false) /\ outcome turns r sent s cs (bus l).
Proof.
  revert sent l0. induction turns as [|t turns IH]; intros sent l0; [done|]. cbn [map stream_to on_bus gone meanwhile write_all].
  destruct (gone t) eqn:Hg.
  { intros [= <- <- <-]. exists []. rewrite !app_nil_r. split_and!; [done|constructor|cbn; lia|]. split_and!; [by rewrite app_nil_r|done|by exists t]. }
  set (l1 := log_map l0 _). change (gb_listen_only l1) with (gb_listen_only (bus l1)).
  change (gb_device_address l1) with (gb_device_address (bus l1)). rewrite can_capture_guard.
  destruct (can_capture (bus l1)) eqn:Hm; cbn [negb].
  2: { intros [= <- <- <-]. exists []. rewrite !app_nil_r. split_and!; [done|constructor|cbn; lia|].
       split_and!; [by rewrite app_nil_r|done|done|by exists t]. }
  cbn [gb_read Logged_backend]. unfold log_read. destruct (gb_read (bus l1) 0 CHUNK) as [res b2]; cbn [fst snd].
  set (step := CRead 0 CHUNK :: match res with Ok (d, e) => [CGot d e] | Err _ => [] end).
  set (chunk := match res with Ok (d, _) => d | Err _ => [] end).
  assert (Hs : got step = chunk /\ reads step = 1%nat /\ Forall own step).
  { subst step chunk. unfold own. destruct res as [[d e]|]; cbn; rewrite ?app_nil_r; repeat constructor; naive_solver. }
  destruct Hs as (Hgot & Hreads & Hown). change (calls l1) with (calls l0).
  assert (Hgo : stream_to (map on_bus turns) (zlen (sent ++ chunk) mod 2 ^ 64) (sent ++ chunk) (mkLogged b2 (calls l0 ++ step)) = Some (r, s, l) ->
    exists cs, calls l = calls l0 ++ cs /\ Forall own cs /\
      (forall i u, (t :: turns) !! i = Some u -> (i < reads cs)%nat -> gone u = false) /\ outcome (t :: turns) r sent s cs (bus l)).
  { intros (cs & Hc & Ho & Hb & Hout)%IH. exists (step ++ cs). rewrite Hc, app_assoc. split_and!; [done|by apply Forall_app| |].
    - rewrite reads_app, Hreads. intros [|i] u; cbn; [congruence|]. intros Hu Hi. apply (Hb i u Hu). lia.
    - apply outcome_later; [done|]. by rewrite Hgot. }
  destruct chunk as [|c0 chunk'] eqn:Ec; [by rewrite app_nil_r in Hgo|].
  destruct (write_all t) as [|n e] eqn:Hw; [by rewrite total_step|].
  intros [= <- <- <-]. exists step. split_and!; [done..| |].
  - rewrite Hreads. intros [|i] u; cbn; [congruence|lia].
  - exists t, 0%nat, n, [], chunk. rewrite Hreads, Hgot, Ec. done.
Qed.

(** A departed client, or a mode that has ended, is noticed at the next turn. *)
Lemma stream_to_stops turns i t total sent (l0 : Logged B) : turns !! i = Some t ->
  gone t = true \/ (forall b, can_capture (meanwhile t b) = false) ->
  exists r s l, stream_to (map on_bus turns) total sent l0 = Some (r, s, l) /\ (reads (calls l) <= reads (calls l0) + i)%nat.
Proof.
  revert turns total sent l0. induction i as [|i IH]; intros [|u turns] total sent l0; cbn [lookup list_lookup]; try done.
  - intros [= ->] Ht. cbn [map stream_to on_bus gone meanwhile write_all]. destruct (gone t) eqn:Hg.
    { do 3 eexists. split; [done|lia]. }
    destruct Ht as [|Ht]; [done|]. set (l1 := log_map l0 _). change (gb_listen_only l1) with (gb_listen_only (bus l1)).
    change (gb_device_address l1) with (gb_device_address (bus l1)). rewrite can_capture_guard. unfold l1 at 1. cbn [log_map bus].
    rewrite Ht. do 3 eexists. split; [done|]. cbn. lia.
  - intros Ht Hstop. cbn [map stream_to on_bus gone meanwhile write_all].
    destruct (gone u); [do 3 eexists; split; [done|lia]|]. set (l1 := log_map l0 _).
    destruct (negb (gb_listen_only l1) && _); [do 3 eexists; split; [done|cbn; lia]|].
    cbn [gb_read Logged_backend]. unfold log_read. destruct (gb_read (bus l1) 0 CHUNK) as [res b2]; cbn [fst snd].
    set (l2 := mkLogged b2 _). assert (reads (calls l2) = S (reads (calls l0))) as Hr.
    { subst l2. cbn. rewrite reads_app. destruct res as [[? ?]|]; cbn; lia. }
    destruct (match res with Ok (d, _) => d | Err _ => [] end) as [|c0 chunk]; [|destruct (write_all u)].
    1, 2: edestruct (IH turns) as (r & s & l & -> & Hl); [done..|]; do 3 eexists; split; [done|lia].
    do 3 eexists. split; [done|]. lia.
Qed.

(** C16: What a capture client gets: the bytes of the reads, all of them and in
    order, each read asked of no address for 65,536 bytes and made while the
    client was there; a failed write ends the stream inside the last chunk.  A
    departure, or the end of the mode, is noticed at the next turn, with at most
    one read per turn before it. *)
Theorem capture_streams (turns : list (Turn B)) (b : B) :
  (forall r sent l, stream_to (map on_bus turns) 0 [] (mkLogged b []) = Some (r, sent, l) ->
     Forall own (calls l) /\
     (forall i t, turns !! i = Some t -> (i < reads (calls l))%nat -> gone t = false) /\
     outcome turns r [] sent (calls l) (bus l)) /\
  (forall i t, turns !! i = Some t -> gone t = true \/ (forall b, can_capture (meanwhile t b) = false) ->
     exists r sent l, stream_to (map on_bus turns) 0 [] (mkLogged b []) = Some (r, sent, l) /\ (reads (calls l) <= i)%nat).
Proof.
  split.
  - intros r sent l E. apply (stream_to_spec turns [] (mkLogged b [])) in E as (cs & Hc & ?). by rewrite Hc.
  - intros i t Ht Hs. apply (stream_to_stops turns i t 0 [] (mkLogged b []) Ht Hs).
Qed.
End Stream.

(** ** A plotter that talks on its own *)

(** The scripted bus, in listen-only mode. *)
Definition Listening : GpibBackend Mock := {|
  gb_listen_only _ := true;
  gb_init := @gb_init _ Mock_backend; gb_write := @gb_write _ Mock_backend;
  gb_read := @gb_read _ Mock_backend; gb_device_clear := @gb_device_clear _ Mock_backend;
  gb_trigger := @gb_trigger _ Mock_backend; gb_ifc := @gb_ifc _ Mock_backend;
  gb_ren := @gb_ren _ Mock_backend; gb_go_to_remote := @gb_go_to_remote _ Mock_backend;
  gb_go_to_local := @gb_go_to_local _ Mock_backend; gb_local_lockout := @gb_local_lockout _ Mock_backend;
  gb_serial_poll := @gb_serial_poll _ Mock_backend; gb_srq_asserted := @gb_srq_asserted _ Mock_backend;
  gb_bus_lines := @gb_bus_lines _ Mock_backend; gb_set_listen_only := @gb_set_listen_only _ Mock_backend;
  gb_set_device_mode := @gb_set_device_mode _ Mock_backend;
  gb_device_address := @gb_device_address _ Mock_backend;
  gb_send_bus_command := @gb_send_bus_command _ Mock_backend; gb_set_atn := @gb_set_atn _ Mock_backend;
  gb_controller_pad := @gb_controller_pad _ Mock_backend;
  gb_set_controller_pad := @gb_set_controller_pad _ Mock_backend;
  gb_send_data_unaddressed := @gb_send_data_unaddressed _ Mock_backend;
  gb_read_unaddressed := @gb_read_unaddressed _ Mock_backend; gb_set_eos := @gb_set_eos _ Mock_backend;
  gb_eos := @gb_eos _ Mock_backend; gb_set_timeout := @gb_set_timeout _ Mock_backend;
  gb_read_slice_ms := @gb_read_slice_ms _ Mock_backend; gb_name := @gb_name _ Mock_backend;
  now := @now _ Mock_backend; sleep := @sleep _ Mock_backend;
|}.

Definition plot : Mock :=
  mkMock [(Ok (as_bytes (str "PU0,0;"), false), 5); (Err (str "read timeout"), 3000); (Ok (as_bytes (str "PD9,9;"), true), 7)]
    0 (10, false) 3000 None 0 false.
Definition plot_turns : list (Turn Mock) :=
  [mkTurn false (fun m => m) Taken; mkTurn false (fun m => m) Taken; mkTurn false (fun m => m) Taken; mkTurn true (fun m => m) Taken].

Lemma capture_streams_witness : exists l,
  stream_to (H := Logged_backend Mock (H := Listening)) (map on_bus plot_turns) 0 [] (mkLogged plot []) =
    Some (ClientGone 12, as_bytes (str "PU0,0;PD9,9;"), l) /\
  outcome (H := Listening) plot_turns (ClientGone 12) [] (as_bytes (str "PU0,0;PD9,9;")) (calls l) (bus l) /\
  exists r sent l', stream_to (H := Logged_backend Mock (H := Listening)) (map on_bus plot_turns) 0 [] (mkLogged plot []) = Some (r, sent, l') /\
    (reads (calls l') <= 3)%nat.
Proof.
  destruct (capture_streams (H := Listening) plot_turns plot) as [Hd Hs]. eexists. split; [by vm_compute|]. split.
  - apply Hd. by vm_compute.
  - by apply (Hs 3%nat (mkTurn true (fun m => m) Taken)); [|left].
Defined.

End Capture.
