(* ===== verification/Scpi.v ===== *)
(** * The command-line client: [src/bin/scpi.rs]

    The three transports over the modelled clients, the line interpreter and
    both read loops.  Standard output is a list of bytes, what is reported on
    standard error the list of errors; the help text and the banner are left
    out.  An error keeps what decides whether the session goes on: whether an
    I/O error is in its chain. *)

From S2P Require Import Prelude RustStr Rpc Backend Messages Vxi11Ops Stream Vxi11Client HislipMsg Hislip HislipClient Prologix.

Module Scpi.
Import RustStr Rpc.Io Stream HislipMsg.HislipMsg.

Definition CLIENT_VENDOR_ID : Z := 0xBEEF.

Inductive TransportKind : Type := KHislip | KVxi11 | KPrologix.

Definition default_port (k : TransportKind) : Z :=
  match k with KHislip => 4880 | KVxi11 => 9010 | KPrologix => 1234 end.

Inductive CliError : Type :=
| EIo (e : IoError)
| EHislip (e : HislipClient.ClientError)
| EVxi11 (e : Vxi11Client.ClientError)
| EDevice (doing : list Z) (error : Z)
| ELinkRefused (device : list Z) (error : Z)
| ENoClientRead                              (* HiSLIP has no client-driven read *)
| ENoResponse                                (* no response before the read timeout *)
| ENotText
| ERemoteAtMode
| EBadPoll (text : list Z)
| EBadRen (arg : list Z)
| EUnknownMeta (cmd : list Z).

(** [e.chain().any(|c| c.is::<std::io::Error>())] *)
Definition is_io (e : CliError) : bool :=
  match e with
  | EIo _ | EHislip (HislipClient.IoFailed _) | EVxi11 (Vxi11Client.IoFailed _) => true
  | _ => false
  end.

(** What the loop needs from a connection; [None] is never the result of the
    instances below ([Answers]). *)
Class Transport (T : Type) : Type := {
  t_write : list byte -> T -> option (result unit CliError * T);
  t_query : list byte -> T -> option (result (list byte) CliError * T);
  t_read : T -> option (result (list byte) CliError * T);
  t_clear : T -> option (result unit CliError * T);
  t_trigger : T -> option (result unit CliError * T);
  t_remote : bool -> T -> option (result unit CliError * T);
  t_status : T -> option (result Z CliError * T);
}.

(** ** HiSLIP *)

Section Hislip.
Variable alloc : Z -> bool.
Variable left_over : Reader -> Reader.

Definition lift {A} (r : result A HislipClient.ClientError * HislipClient.HislipClient)
    : result A CliError * HislipClient.HislipClient := (map_err EHislip r.1, r.2).

Definition Hislip_transport : Transport HislipClient.HislipClient := {|
  t_write cmd c := Some (lift (HislipClient.write cmd c));
  t_query cmd c := lift <$> HislipClient.query alloc left_over cmd c;
  t_read c := Some (Err ENoClientRead, c);
  t_clear c := lift <$> HislipClient.clear alloc left_over c;
  t_trigger c := Some (lift (HislipClient.trigger c));
  t_remote on c := lift <$> HislipClient.remote alloc left_over on c;
  t_status c := lift <$> HislipClient.status alloc left_over c;
|}.
End Hislip.

(** ** VXI-11 *)

Record Vxi11Transport : Type := mkVxi11 { client : Vxi11Client.Vxi11Client; lid : Z }.

Definition check (error : Z) (doing : string) : result unit CliError :=
  if error =? 0 then Ok tt else Err (EDevice (str doing) error).

Section Vxi11.
Variable left_over : Reader -> Reader.

(** A call on the link, and what is made of its reply. *)
Definition on_link {A R} (m : Vxi11Client.Run A) (k : A -> result R CliError) (t : Vxi11Transport) : result R CliError * Vxi11Transport :=
  let '(r, c) := m (client t) in (let? a := map_err EVxi11 r in k a, mkVxi11 c (lid t)).

Definition vxi11_write (cmd : list byte) (t : Vxi11Transport) : result unit CliError * Vxi11Transport :=
  on_link (Vxi11Client.device_write left_over (lid t) cmd true 0) (fun resp => check (Messages.dwr_error resp) "write") t.
Definition vxi11_read (t : Vxi11Transport) : result (list byte) CliError * Vxi11Transport :=
  on_link (Vxi11Client.device_read left_over (lid t) 65536 0 None)
    (fun resp => let? _ := check (Messages.drr_error resp) "read" in Ok (Messages.drr_data resp)) t.

Definition Vxi11_transport : Transport Vxi11Transport := {|
  t_write cmd t := Some (vxi11_write cmd t);
  t_query cmd t :=
    Some (match vxi11_write cmd t with
          | (Err e, t) => (Err e, t)
          | (Ok _, t) => vxi11_read t
          end);
  t_read t := Some (vxi11_read t);
  t_clear t := Some (on_link (Vxi11Client.device_clear left_over (lid t)) (fun e => check e "clear") t);
  t_trigger t := Some (on_link (Vxi11Client.device_trigger left_over (lid t)) (fun e => check e "trigger") t);
  t_remote on t :=
    Some (on_link (if on then Vxi11Client.device_remote left_over (lid t) else Vxi11Client.device_local left_over (lid t))
            (fun e => check e "remote/local") t);
  t_status t :=
    Some (on_link (Vxi11Client.device_readstb left_over (lid t) 0)
            (fun resp => let? _ := check (Messages.dsr_error resp) "serial poll" in Ok (Messages.dsr_stb resp)) t);
|}.
End Vxi11.

(** ** Prologix *)

(** One [read] of the socket: at least one byte and at most 4,096, the read
    timeout, or a failure; when there is no more, the end of the stream. *)
Inductive Recv : Type := Chunk (d : list byte) | TimedOut | RecvFailed (e : IoError).

Record PrologixTransport : Type := mkPrologix { incoming : list Recv; outgoing : list byte; send_error : option IoError }.

Definition send (d : list byte) (t : PrologixTransport) : result unit CliError * PrologixTransport :=
  match send_error t with
  | None => (Ok tt, mkPrologix (incoming t) (outgoing t ++ d) None)
  | Some e => (Err (EIo e), t)
  end.

Definition send_line (line : list Z) (t : PrologixTransport) : result unit CliError * PrologixTransport :=
  match send (as_bytes line) t with
  | (Ok _, t) => send [x0a] t
  | bad => bad
  end.

Fixpoint receive (rs : list Recv) (buf : list byte) : result (list byte) CliError * list Recv :=
  match rs with
  | [] => (Ok buf, [])
  | Chunk [] :: rs => (Ok buf, rs)
  | Chunk d :: rs =>
      if bool_decide (last (buf ++ d) = Some x0a) then (Ok (buf ++ d), rs) else receive rs (buf ++ d)
  | TimedOut :: rs => (Ok buf, rs)
  | RecvFailed e :: rs => (Err (EIo e), rs)
  end.

Definition read_response (t : PrologixTransport) : result (list byte) CliError * PrologixTransport :=
  let '(r, rs) := receive (incoming t) [] in
  (let? buf := r in match buf with [] => Err ENoResponse | _ => Ok buf end, mkPrologix rs (outgoing t) (send_error t)).

(** [PrologixTransport::connect], past the connection itself. *)
Definition prologix_connect (addr : option Z) (t : PrologixTransport) : result unit CliError * PrologixTransport :=
  match send_line (str "++auto 0") t with
  | (Err e, t) => (Err e, t)
  | (Ok _, t) => match addr with Some pad => send_line (str "++addr " ++ to_string pad) t | None => (Ok tt, t) end
  end.

(** Send a line, then read a response. *)
Definition ask (line : list Z) (t : PrologixTransport) : result (list byte) CliError * PrologixTransport :=
  match send_line line t with
  | (Err e, t) => (Err e, t)
  | (Ok _, t) => read_response t
  end.

Definition prologix_write (cmd : list byte) (t : PrologixTransport) : result unit CliError * PrologixTransport :=
  match from_utf8 cmd with Some line => send_line line t | None => (Err ENotText, t) end.

Definition Prologix_transport : Transport PrologixTransport := {|
  t_write cmd t := Some (prologix_write cmd t);
  t_query cmd t :=
    Some (match prologix_write cmd t with
          | (Err e, t) => (Err e, t)
          | (Ok _, t) => ask (str "++read eoi") t
          end);
  t_read t := Some (ask (str "++read eoi") t);
  t_clear t := Some (send_line (str "++clr") t);
  t_trigger t := Some (send_line (str "++trg") t);
  t_remote on t := Some (if on : bool then (Err ERemoteAtMode, t) else send_line (str "++loc") t);
  t_status t :=
    let '(r, t) := ask (str "++spoll") t in
    Some (let? resp := r in
          let text := trim (from_utf8_lossy resp) in
          match parse_u8 text with Some stb => Ok stb | None => Err (EBadPoll text) end, t);
|}.

(** ** The interpreter *)

Inductive Step : Type := Continue | Disconnected.

Definition print_response (resp : list byte) : list byte :=
  if bool_decide (last resp = Some x0a) then resp else resp ++ [x0a].

(** [split_whitespace]: the non-empty words. *)
Definition in_word (s : list Z) : bool := match s with c :: _ => negb (is_whitespace c) | [] => false end.
Fixpoint words (s : list Z) : list (list Z) :=
  match s with
  | [] => []
  | c :: s' =>
      let ws := words s' in
      if is_whitespace c then ws
      else match ws with
           | w :: ws' => if in_word s' then (c :: w) :: ws' else [c] :: ws
           | [] => [[c]]
           end
  end.

Section Repl.
Context {T : Type} `{Transport T}.

(** The value of a result, printed; an error is passed on. *)
Definition printed {A} (show : A -> list byte) (r : result A CliError * T) : result (list byte) CliError * T :=
  (let? a := r.1 in Ok (show a), r.2).
Definition silent (r : result unit CliError * T) : result (list byte) CliError * T := printed (fun _ => []) r.

Definition handle_meta (rest : list Z) (c : T) : option (result (list byte) CliError * T) :=
  let parts := words rest in
  let cmd := to_ascii_lowercase (default [] (head parts)) in
  let arg := head (tail parts) in
  let named w := bool_decide (cmd = str w) in
  let arg_is w := bool_decide (arg = Some (str w)) in
  if named "clr"%string || named "cls"%string then silent <$> t_clear c
  else if named "trg"%string then silent <$> t_trigger c
  else if named "ren"%string then
    if arg_is "0"%string || arg_is "off"%string then silent <$> t_remote false c
    else if arg_is "1"%string || arg_is "on"%string || bool_decide (arg = None) then silent <$> t_remote true c
    else Some (Err (EBadRen (default [] arg)), c)
  else if named "read"%string then printed print_response <$> t_read c
  else if named "status"%string || named "stb"%string || named "spoll"%string then
    printed (fun stb => as_bytes (to_string stb) ++ [x0a]) <$> t_status c
  else if named "help"%string then Some (Ok [], c)
  else Some (Err (EUnknownMeta cmd), c).

(** What one input line does: whether the loop goes on, what is printed, the
    error reported. *)
Definition handle_line (line : list Z) (c : T) : option (Step * list byte * list CliError * T) :=
  let trimmed := trim line in
  match trimmed with
  | [] => Some (Continue, [], [], c)
  | _ =>
      let cmd := as_bytes trimmed in
      '(r, c) ← match strip_prefix (str "++") trimmed with
                | Some rest => handle_meta rest c
                | None =>
                    if Hislip.query_hint cmd then printed print_response <$> t_query cmd c
                    else silent <$> t_write cmd c
                end;
      Some (match r with
            | Ok out => (Continue, out, [])
            | Err e => (if is_io e then Disconnected else Continue, [], [e])
            end, c)
  end.

(** The lines of standard input, up to a failure to read it. *)
Fixpoint run_batch (lines : list (result (list Z) IoError)) (c : T)
    : option (result unit IoError * list byte * list CliError * T) :=
  match lines with
  | [] => Some (Ok tt, [], [], c)
  | Err e :: _ => Some (Err e, [], [], c)
  | Ok line :: lines =>
      '(step, out, errs, c) ← handle_line line c;
      match step with
      | Disconnected => Some (Ok tt, out, errs, c)
      | Continue => '(r, out', errs', c) ← run_batch lines c; Some (r, out ++ out', errs ++ errs', c)
      end
  end.

Inductive Readline : Type := Line (l : list Z) | Interrupted | Eof | ReadlineFailed.

(** [None] while the loop still waits for input. *)
Fixpoint run_interactive (inputs : list Readline) (c : T) : option (list byte * list CliError * T) :=
  match inputs with
  | [] => None
  | Line line :: inputs =>
      '(step, out, errs, c) ← handle_line line c;
      match step with
      | Disconnected => Some (out, errs, c)
      | Continue => '(out', errs', c) ← run_interactive inputs c; Some (out ++ out', errs ++ errs', c)
      end
  | Interrupted :: inputs => run_interactive inputs c
  | Eof :: _ | ReadlineFailed :: _ => Some ([], [], c)
  end.
End Repl.

(** ** Naming the instrument *)

Definition hislip_subaddress (addr : option Z) : list Z :=
  match addr with Some n => str "hislip" ++ to_string n | None => Hislip.DEFAULT_SUBADDRESS end.
Definition vxi11_device (addr : option Z) : list Z :=
  match addr with Some n => str "gpib0," ++ to_string n | None => str "inst0" end.

(** The VXI-11 arm of [main]: the link on a fresh connection. *)
Definition vxi11_open (left_over : Reader -> Reader) (pid : Z) (addr : option Z) (st : Stream)
    : result Vxi11Transport CliError * Vxi11Client.Vxi11Client :=
  let device := vxi11_device addr in
  let '(r, c) := Vxi11Client.create_link left_over pid device (Vxi11Client.connect st) in
  (let? link := map_err EVxi11 r in
   if Messages.clr_error link =? 0 then Ok (mkVxi11 c (Messages.clr_lid link)) else Err (ELinkRefused device (Messages.clr_error link)), c).

(** ** Every line is answered *)

Class Answers (T : Type) `{Transport T} : Prop := {
  write_answers : forall cmd c, is_Some (t_write cmd c);
  query_answers : forall cmd c, is_Some (t_query cmd c);
  read_answers : forall c, is_Some (t_read c);
  clear_answers : forall c, is_Some (t_clear c);
  trigger_answers : forall c, is_Some (t_trigger c);
  remote_answers : forall on c, is_Some (t_remote on c);
  status_answers : forall c, is_Some (t_status c);
}.

Lemma async_request_answers alloc lo m e c : is_Some (HislipClient.async_request alloc lo m e c).
Proof.
  unfold HislipClient.async_request. destruct (HislipClient.write_msg _ _) as [[?|?] st]; [|done].
  destruct (HislipClient.await_turns_enough alloc lo (S (length (avail (inbox st)))) e st (HislipClient.last_srq c)) as [[[? ?] ?] ->]; [lia|]. done.
Qed.

#[export] Instance Hislip_answers alloc lo : Answers HislipClient.HislipClient (H := Hislip_transport alloc lo).
Proof.
  split; intros; try (eexists; reflexivity); unfold t_query, t_clear, t_remote, t_status, Hislip_transport; rewrite fmap_is_Some.
  - unfold HislipClient.query. destruct (HislipClient.next_message_id c) as [id c'].
    destruct (HislipClient.send_data cmd id c') as [[?|?] c2]; [|by eexists].
    destruct (HislipClient.collect_turns_enough alloc lo (S (length (avail (inbox (HislipClient.sync c2))))) id (HislipClient.sync c2) [])
      as [[? ?] ->]; [lia|by eexists].
  - unfold HislipClient.clear. edestruct (async_request_answers alloc lo) as [[? ?] ->]. by eexists.
  - unfold HislipClient.remote. edestruct (async_request_answers alloc lo) as [[? ?] ->]. by eexists.
  - unfold HislipClient.status. edestruct (async_request_answers alloc lo) as [[? ?] ->]. by eexists.
Qed.

#[export] Instance Vxi11_answers lo : Answers Vxi11Transport (H := Vxi11_transport lo).
Proof. by split. Qed.

#[export] Instance Prologix_answers : Answers PrologixTransport (H := Prologix_transport).
Proof.
  split; intros; try (eexists; reflexivity). unfold t_status, Prologix_transport.
  destruct (ask (str "++spoll") c) as [r t]. eexists; reflexivity.
Qed.

Lemma handle_line_answers {T} `{Transport T, !Answers T} line (c : T) : is_Some (handle_line line c).
Proof.
  unfold handle_line. destruct (trim line) as [|x t]; [done|].
  assert (Hr : forall o : option (result (list byte) CliError * T), is_Some o ->
    is_Some ('(r, c) ← o; Some (match r with
      | Ok out => (Continue, out, []) | Err e => (if is_io e then Disconnected else Continue, [], [e]) end, c))).
  { intros o [[r c'] ->]. by destruct r. }
  apply Hr. destruct (strip_prefix _ _) as [rest|].
  - unfold handle_meta. repeat case_match; rewrite ?fmap_is_Some; auto using clear_answers, trigger_answers, remote_answers, read_answers, status_answers.
  - destruct (Hislip.query_hint _); rewrite fmap_is_Some; auto using query_answers, write_answers.
Qed.

Lemma handle_line_step {T} `{Transport T} line (c : T) step out errs c' : handle_line line c = Some (step, out, errs, c') ->
  match step with
  | Continue => errs = [] \/ exists e, errs = [e] /\ is_io e = false
  | Disconnected => exists e, errs = [e] /\ is_io e = true
  end.
Proof.
  unfold handle_line. destruct (trim line) as [|x t]; [intros [= <- _ <- _]; by left|].
  intros ([r c2] & _ & E)%bind_Some. destruct r as [o|e]; [simplify_eq; by left|].
  destruct (is_io e) eqn:Hi; simplify_eq; eauto.
Qed.

(** A batch runs to its end whatever the instrument and the network do.  Each
    error but the last is one after which the connection still stands; an I/O
    error is the last thing that happens; without one, every line was handled,
    up to the first that could not be read. *)
Theorem batch_runs {T} `{Transport T, !Answers T} lines (c : T) :
  exists r out errs c', run_batch lines c = Some (r, out, errs, c') /\ (length errs <= length lines)%nat /\
    ((exists es e, errs = es ++ [e] /\ is_io e = true /\ Forall (fun e => is_io e = false) es /\ r = Ok tt) \/
     Forall (fun e => is_io e = false) errs /\
     match r with
     | Ok _ => Forall is_ok lines
     | Err e => exists pre post, lines = pre ++ Err e :: post /\ Forall is_ok pre
     end).
Proof.
  revert c. induction lines as [|[line|e] lines IH]; intros c; cbn [run_batch].
  - exists (Ok tt), [], [], c. split_and!; [done..|]. right. by split.
  - destruct (handle_line_answers line c) as [[[[step out] errs] c1] E]. rewrite E. cbn [mbind option_bind].
    pose proof (handle_line_step _ _ _ _ _ _ E) as Hs. destruct step.
    + destruct (IH c1) as (r & out' & errs' & c2 & -> & Hl & Hc). cbn [mbind option_bind].
      exists r, (out ++ out'), (errs ++ errs'), c2.
      assert (He : (length errs <= 1)%nat /\ Forall (fun e => is_io e = false) errs).
      { destruct Hs as [->|(e & -> & ?)]; cbn; auto. }
      destruct He as [Hn Hf]. split_and!; [done|rewrite length_app; cbn; lia|].
      destruct Hc as [(es & e & -> & Hi & Hes & ->)|[Hes Hr]].
      * left. exists (errs ++ es), e. rewrite app_assoc. split_and!; [done..|by apply Forall_app|done].
      * right. split; [by apply Forall_app|]. destruct r as [?|e]; [by constructor|].
        destruct Hr as (pre & post & -> & Hp). exists (Ok line :: pre), post. split; [done|by constructor].
    + destruct Hs as (e & -> & Hi). exists (Ok tt), out, [e], c1. split_and!; [done|cbn; lia|]. left. by exists [], e.
  - exists (Err e), [], [], c. split_and!; [done|cbn; lia|]. right. split; [done|]. by exists [], lines.
Qed.

(** ** HiSLIP, end to end *)

Section EndToEnd.
Variables (alloc : Z -> bool) (lo : Reader -> Reader).

(** The operation a line asks for: a plain line or [++trg]. *)
Definition line_op (line : list Z) : option HislipClient.Op :=
  match trim line with
  | [] => None
  | t => Some (match strip_prefix (str "++") t with
               | Some _ => HislipClient.Trigger
               | None => if Hislip.query_hint (as_bytes t) then HislipClient.Query (as_bytes t) else HislipClient.Write (as_bytes t)
               end)
  end.
Definition plain_line (line : list Z) : Prop :=
  forall rest, strip_prefix (str "++") (trim line) = Some rest -> to_ascii_lowercase (default [] (head (words rest))) = str "trg".

Definition shown (a : option (list byte)) : list byte := match a with Some d => print_response d | None => [] end.

Lemma line_runs line o c a c1 : plain_line line -> line_op line = Some o -> HislipClient.run_op alloc lo o c = Some (Ok a, c1) ->
  handle_line (H := Hislip_transport alloc lo) line c = Some (Continue, shown a, [], c1).
Proof.
  unfold plain_line, line_op, handle_line. destruct (trim line) as [|x t]; [done|]. intros Hp Eo.
  destruct (strip_prefix (str "++") (x :: t)) as [rest|]; apply (inj Some) in Eo; subst o.
  { cbn [HislipClient.run_op]. destruct (HislipClient.trigger c) as [[[]|e] c2] eqn:Et; [|done]. intros [= <- <-].
    unfold handle_meta. rewrite (Hp rest eq_refl). cbn [t_trigger Hislip_transport]. rewrite Et. done. }
  destruct (Hislip.query_hint (as_bytes (x :: t))); cbn [HislipClient.run_op t_query t_write Hislip_transport].
  - destruct (HislipClient.query _ _ _ _) as [[[d|e] c2]|]; [|done..]. intros [= <- <-]. done.
  - destruct (HislipClient.write _ _) as [[[]|e] c2]; [|done]. intros [= <- <-]. done.
Qed.

Lemma batch_is_ops lines c l c' : Forall plain_line lines ->
  HislipClient.run_ops alloc lo (omap line_op lines) c = Some (Ok l, c') ->
  run_batch (H := Hislip_transport alloc lo) (map Ok lines) c = Some (Ok tt, concat (map shown l), [], c').
Proof.
  intros Hl. revert c l. induction Hl as [|line lines Hp Hl IH]; intros c l; cbn [omap list_omap map run_batch].
  { intros [= <- <-]. done. }
  destruct (line_op line) as [o|] eqn:Eo.
  - cbn [HislipClient.run_ops]. intros ([r c1] & E & E2)%bind_Some. destruct r as [a|e]; [|done].
    apply bind_Some in E2 as ([r2 c2] & E2 & E3). destruct r2 as [l2|e2]; [|done]. cbn in E3. injection E3 as <- <-.
    rewrite (line_runs line o c a c1 Hp Eo E). cbn [mbind option_bind]. by rewrite (IH _ _ E2).
  - intros E. unfold line_op in Eo. unfold handle_line. destruct (trim line); [|done]. cbn [mbind option_bind]. by rewrite (IH _ _ E).
Qed.

(** C11: What a user sees over HiSLIP.  A batch of plain lines and [++trg] - the
    other [++] commands go over the asynchronous channel or print what is no
    query's answer, and are left out - in the synchronized mode, whose commands
    and triggers the server takes without a reply and whose queries the
    instrument answers ([session]): sent by the client, received by the server's
    loop, run on the instrument and sent back, its lines print exactly the
    answers of the queries among them in order, each on a line of its own, and
    nothing else: no error, no byte lost or left over, the server in the state
    its steps leave. *)
Theorem scpi_over_hislip {B} `{Backend.Backend.GpibBackend B} config display salloc last lines envs
    (st : Hislip.SyncState (B := B)) l st' async :
  (forall n, 0 <= n <= HislipClient.MAX_MESSAGE_SIZE -> alloc n = true) -> Forall plain_line lines ->
  Forall (HislipClient.Op_wf config salloc) (omap line_op lines) ->
  HislipClient.session config display Hislip.FIRST_MESSAGE_ID (omap line_op lines) envs st l st' ->
  exists sent outs id',
    Hislip.sync_loop config display salloc (envs ++ [last]) (mkReader sent None) st = Some (Err UnexpectedEof, outs, st') /\
    run_batch (H := Hislip_transport alloc lo) (map Ok lines)
        (HislipClient.mkClient (mkStream (mkReader (concat (map write_to outs)) None) [] None) async Hislip.FIRST_MESSAGE_ID None) =
      Some (Ok tt, concat (map shown l), [], HislipClient.mkClient (mkStream (mkReader [] None) sent None) async id' None).
Proof.
  intros Ha Hl Hw Hs.
  destruct (HislipClient.hislip_session_wire config display alloc salloc lo Ha last _ envs st l st' Hislip.FIRST_MESSAGE_ID [] async None
              Hs Hw ltac:(by vm_compute)) as (sent & outs & id' & Hsrv & Hcl).
  exists sent, outs, id'. split; [done|]. by apply batch_is_ops.
Qed.
End EndToEnd.
(** ** Prologix, end to end *)

Inductive Quiet : Type := QWrite (cmd : list byte) | QClear | QTrigger | QLocal.

Definition quiet_op (o : Quiet) (t : PrologixTransport) : option (result unit CliError * PrologixTransport) :=
  let _ := Prologix_transport in
  match o with QWrite cmd => t_write cmd t | QClear => t_clear t | QTrigger => t_trigger t | QLocal => t_remote false t end.

Fixpoint quiet_ops (os : list Quiet) (t : PrologixTransport) : option (result unit CliError * PrologixTransport) :=
  match os with
  | [] => Some (Ok tt, t)
  | o :: os =>
      '(r, t) ← quiet_op o t;
      match r with Ok _ => quiet_ops os t | Err e => Some (Err e, t) end
  end.

(** A command the line protocol can carry: text on one line that is not taken
    for one of the front-end's own. *)
Definition Quiet_wf (o : Quiet) : Prop :=
  match o with
  | QWrite cmd => x0a ∉ cmd /\ x0d ∉ cmd /\ exists text, from_utf8 cmd = Some text /\ strip_prefix (str "++") text = None
  | _ => True
  end.

Section Bus.
Import Backend.Backend.

(** What each operation is on the bus. *)
Definition bus_call (pad : Z) (o : Quiet) : Call :=
  match o with
  | QWrite cmd => CWrite pad (cmd ++ [x0d; x0a]) true
  | QClear => COther "device_clear" (Some pad)
  | QTrigger => COther "trigger" (Some pad)
  | QLocal => COther "go_to_local" (Some pad)
  end.

(** The line an operation sends. *)
Definition quiet_line (o : Quiet) : list byte :=
  match o with
  | QWrite cmd => cmd
  | QClear => as_bytes (str "++clr")
  | QTrigger => as_bytes (str "++trg")
  | QLocal => as_bytes (str "++loc")
  end.

Lemma until_newline_line l rest : x0a ∉ l -> Prologix.until_newline (l ++ x0a :: rest) = (l, Some rest).
Proof.
  induction l as [|c l IH]; [done|]. rewrite not_elem_of_cons. intros [Hc Hl]. cbn [app Prologix.until_newline].
  rewrite bool_decide_eq_false_2 by done. by rewrite IH.
Qed.

Lemma strip_cr_none l : x0d ∉ l -> Prologix.strip_cr l = l.
Proof.
  intros Hl. unfold Prologix.strip_cr. destruct (last l) as [c|] eqn:E; [|done].
  apply last_Some_elem_of in E. by destruct c.
Qed.

Lemma next_line_line l rest text : x0a ∉ l -> x0d ∉ l -> from_utf8 l = Some text ->
  Prologix.next_line (mkReader (l ++ x0a :: rest) None) = Ok (Some text, mkReader rest None).
Proof.
  intros Hn Hr Hu. unfold Prologix.next_line. cbn [avail]. by rewrite until_newline_line, strip_cr_none, Hu by done.
Qed.

Lemma text_no_line_end l text : x0a ∉ l -> x0d ∉ l -> from_utf8 l = Some text -> Forall (fun c => Prologix.is_line_end c = false) text.
Proof.
  intros Hn Hr Hu%from_utf8_bytes. apply Forall_forall. intros c Hc. unfold Prologix.is_line_end.
  assert (Hin : forall x, utf8_char c = [x] -> x ∈ l).
  { intros x Hx. rewrite <- Hu. unfold as_bytes. apply list_elem_of_In, in_concat. exists (utf8_char c).
    split; [by apply in_map, list_elem_of_In|rewrite Hx; by left]. }
  destruct (Z.eqb_spec c 13) as [->|]; [by destruct Hr; apply Hin|]. by destruct (Z.eqb_spec c 10) as [->|]; [destruct Hn; apply Hin|].
Qed.

Context {B : Type} `{GpibBackend B}.
Variable display : Error -> list Z.

(** One line, answered with nothing. *)
Lemma serve_lines_line fuel dp st l text rest (b : Logged B) w r st1 st2 b1 : x0a ∉ l -> x0d ∉ l -> from_utf8 l = Some text ->
  Prologix.handle_line st text = (r, st1) -> Prologix.serve_line display dp st1 r b w = (st2, b1, (Ok tt, w)) ->
  Prologix.serve_lines display (S fuel) dp st (mkReader (l ++ x0a :: rest) None) b w =
  Prologix.serve_lines display fuel dp st2 (mkReader rest None) b1 w.
Proof.
  intros Hn Hr Hu Hl Hs. cbn [Prologix.serve_lines]. rewrite (next_line_line l rest text Hn Hr Hu), Hl. by rewrite Hs.
Qed.

Lemma serve_quiet fuel dp pad o rest (b : Logged B) w : Quiet_wf o -> exists b1,
  Prologix.serve_lines display (S fuel) dp (Prologix.with_addr pad) (mkReader (quiet_line o ++ x0a :: rest) None) b w =
    Prologix.serve_lines display fuel dp (Prologix.with_addr pad) (mkReader rest None) b1 w /\
  calls b1 = calls b ++ [bus_call pad o].
Proof.
  intros Ho. assert (Hlit : forall name, bool_decide (x0a ∉ as_bytes (str name)) && bool_decide (x0d ∉ as_bytes (str name)) &&
      bool_decide (from_utf8 (as_bytes (str name)) = Some (str name)) = true ->
    x0a ∉ as_bytes (str name) /\ x0d ∉ as_bytes (str name) /\ from_utf8 (as_bytes (str name)) = Some (str name)).
  { intros name. rewrite !andb_true_iff, !bool_decide_eq_true. tauto. }
  destruct o as [cmd| | |]; cbn [quiet_line bus_call].
  - destruct Ho as (Hn & Hr & text & Hu & Hp). exists (gb_write b pad (as_bytes text ++ [x0d; x0a]) true).2. split.
    + eapply serve_lines_line; [done..| |].
      * unfold Prologix.handle_line. by rewrite trim_end_none, Hp by (by eapply text_no_line_end).
      * cbn. by destruct (gb_write (bus b) _ _ _) as [[[]|e] b'].
    + cbn. by rewrite (from_utf8_bytes _ _ Hu).
  - destruct (Hlit "++clr"%string) as (? & ? & ?); [by vm_compute|]. eexists. split; [by eapply serve_lines_line|done].
  - destruct (Hlit "++trg"%string) as (? & ? & ?); [by vm_compute|]. eexists. split; [by eapply serve_lines_line|done].
  - destruct (Hlit "++loc"%string) as (? & ? & ?); [by vm_compute|]. eexists. split; [by eapply serve_lines_line|done].
Qed.

Lemma serve_quiets os : forall fuel dp pad rest (b : Logged B) w, Forall Quiet_wf os ->
  exists b1, Prologix.serve_lines display (length os + fuel) dp (Prologix.with_addr pad)
      (mkReader (concat (map (fun o => quiet_line o ++ [x0a]) os) ++ rest) None) b w =
      Prologix.serve_lines display fuel dp (Prologix.with_addr pad) (mkReader rest None) b1 w /\
    calls b1 = calls b ++ map (bus_call pad) os.
Proof.
  induction os as [|o os IH]; intros fuel dp pad rest b w Hos; [exists b; by rewrite app_nil_r|].
  apply Forall_cons in Hos as [Ho Hos].
  destruct (serve_quiet (length os + fuel) dp pad o (concat (map (fun o => quiet_line o ++ [x0a]) os) ++ rest) b w Ho) as (b1 & E1 & C1).
  destruct (IH fuel dp pad rest b1 w Hos) as (b2 & E2 & C2). exists b2. cbn [map concat length Nat.add].
  rewrite <- !app_assoc. cbn [app]. rewrite E1, E2. split; [done|]. by rewrite C2, C1, <- app_assoc.
Qed.

Lemma send_line_sends line rs o : send_line line (mkPrologix rs o None) = (Ok tt, mkPrologix rs (o ++ as_bytes line ++ [x0a]) None).
Proof. unfold send_line, send. cbn [send_error incoming outgoing]. by rewrite app_assoc. Qed.

Lemma quiet_ops_send os : forall rs o, Forall Quiet_wf os ->
  quiet_ops os (mkPrologix rs o None) = Some (Ok tt, mkPrologix rs (o ++ concat (map (fun o => quiet_line o ++ [x0a]) os)) None).
Proof.
  induction os as [|q os IH]; intros rs o Hos; [by rewrite app_nil_r|]. apply Forall_cons in Hos as [Hq Hos].
  assert (quiet_op q (mkPrologix rs o None) = Some (Ok tt, mkPrologix rs (o ++ quiet_line q ++ [x0a]) None)) as E.
  { destruct q as [cmd| | |]; unfold quiet_op; cbn [t_write t_clear t_trigger t_remote Prologix_transport quiet_line].
    - destruct Hq as (_ & _ & text & Hu & _). unfold prologix_write. rewrite Hu, send_line_sends. by rewrite (from_utf8_bytes _ _ Hu).
    - by rewrite send_line_sends.
    - by rewrite send_line_sends.
    - by rewrite send_line_sends. }
  cbn [quiet_ops]. rewrite E. cbn [mbind option_bind map concat]. rewrite IH by done. by rewrite <- !app_assoc.
Qed.

Lemma lines_length {A} (f : A -> list byte) ls : (length ls <= length (concat (map (fun l => f l ++ [x0a]) ls)))%nat.
Proof. induction ls as [|l ls IH]; [done|]. cbn [map concat]. rewrite !length_app. cbn [length]. lia. Qed.

(** The set-up lines of the client. *)
Definition setup (addr : option Z) : list (list Z) :=
  str "++auto 0" :: match addr with Some pad => [str "++addr " ++ to_string pad] | None => [] end.

Lemma serve_setup fuel addr dp rest (b : Logged B) w : 0 <= dp <= 30 -> (forall pad, addr = Some pad -> 0 <= pad <= 30) ->
  Prologix.serve_lines display (length (setup addr) + fuel) dp (Prologix.with_addr dp)
    (mkReader (concat (map (fun l => as_bytes l ++ [x0a]) (setup addr)) ++ rest) None) b w =
  Prologix.serve_lines display fuel dp (Prologix.with_addr (default dp addr)) (mkReader rest None) b w.
Proof.
  intros Hdp Ha. assert (Hauto : forall fuel rest, Prologix.serve_lines display (S fuel) dp (Prologix.with_addr dp)
      (mkReader (as_bytes (str "++auto 0") ++ x0a :: rest) None) b w =
    Prologix.serve_lines display fuel dp (Prologix.with_addr dp) (mkReader rest None) b w).
  { intros f r. eapply serve_lines_line; [apply (bool_decide_unpack _); by vm_compute..|by vm_compute|reflexivity|reflexivity]. }
  destruct addr as [pad|]; cbn [setup length Nat.add map concat app default]; rewrite <- !app_assoc; cbn [app]; rewrite Hauto; [|done].
  specialize (Ha pad eq_refl). cbn [app].
  assert (Hs : Forall (fun c => 32 <= c < 128) (str "++addr " ++ to_string pad)).
  { apply Forall_app. split; [apply (bool_decide_unpack _); by vm_compute|].
    eapply Forall_impl; [apply digits_ascii; lia|]. cbn. lia. }
  assert (Hascii : Forall (fun c => 0 <= c < 128) (str "++addr " ++ to_string pad)).
  { eapply Forall_impl; [exact Hs|]. cbn. lia. }
  assert (Hno : forall x, u8 x < 32 -> x ∉ as_bytes (str "++addr " ++ to_string pad)).
  { intros x Hx. rewrite as_bytes_ascii by done. intros (c & -> & Hc)%list_elem_of_fmap. rewrite Forall_forall in Hs.
    specialize (Hs c Hc). cbn in Hs. rewrite u8_b8, as_u8_id in Hx; unfold in_u8; lia. }
  eapply (serve_lines_line _ _ _ _ _ _ _ _ Prologix.LOk (Prologix.with_addr pad)); [apply Hno; by vm_compute..|by apply from_utf8_ascii| |reflexivity].
  destruct (Prologix.set_line (Prologix.with_addr dp) "addr" pad) as (line & c & cs & E1 & E2 & E3); [apply (bool_decide_unpack _); by vm_compute|lia|].
  change (str "++addr " ++ to_string pad) with (str "++" ++ str "addr" ++ [32] ++ to_string pad). rewrite E1.
  rewrite (Prologix.addr_arm _ _ _ E2), E3, <- E3. unfold parse_u8.
  rewrite parse_to_string by lia. by rewrite (proj2 (Z.leb_le pad 30)) by lia.
Qed.

(** C15: What the instrument gets over the line protocol.  The client's set-up and
    any commands, clears, triggers and go-to-locals after it, read back by the
    front-end, are exactly one bus operation each, in order, on the address
    asked for; nothing is answered and the connection ends in order. *)
Theorem scpi_over_prologix addr dp os (b : Logged B) rs : 0 <= dp <= 30 -> (forall pad, addr = Some pad -> 0 <= pad <= 30) ->
  Forall Quiet_wf os ->
  exists t sent b', prologix_connect addr (mkPrologix rs [] None) = (Ok tt, t) /\
    quiet_ops os t = Some (Ok tt, mkPrologix rs sent None) /\
    Prologix.handle_connection display (mkReader sent None) b (Prologix.mkWriter [] None) dp = Some (Ok tt, b', Prologix.mkWriter [] None) /\
    calls b' = calls b ++ map (bus_call (default dp addr)) os.
Proof.
  intros Hdp Ha Hos. set (start := concat (map (fun l => as_bytes l ++ [x0a]) (setup addr))).
  assert (Hc : prologix_connect addr (mkPrologix rs [] None) = (Ok tt, mkPrologix rs start None)).
  { unfold prologix_connect, start. rewrite send_line_sends. destruct addr; [rewrite send_line_sends|]; cbn [setup map concat app]; by rewrite app_nil_r. }
  set (body := concat (map (fun o => quiet_line o ++ [x0a]) os)).
  pose proof (lines_length as_bytes (setup addr)) as L1. pose proof (lines_length quiet_line os) as L2. fold start in L1. fold body in L2.
  set (k := (length start + length body - length (setup addr) - length os)%nat).
  destruct (serve_quiets os (S k) dp (default dp addr) [] b (Prologix.mkWriter [] None) Hos) as (b' & E & C).
  exists (mkPrologix rs start None), (start ++ body), b'. split_and!; [exact Hc|by apply quiet_ops_send| |done].
  unfold Prologix.handle_connection. cbn [avail]. rewrite length_app.
  replace (S (length start + length body)) with (length (setup addr) + (length os + S k))%nat by (unfold k; lia).
  rewrite (serve_setup _ addr dp body) by done. rewrite app_nil_r in E. fold body in E. by rewrite E.
Qed.
End Bus.

(** ** Sessions *)

Import Backend.Backend.

(** A dead HiSLIP connection: the first line reports it and ends the batch. *)
Lemma batch_runs_witness : exists r out errs c',
  run_batch (H := Hislip_transport (fun _ => true) (fun rd => rd)) [Ok (str "*RST"); Ok (str "*IDN?")]
    (HislipClient.mkClient (mkStream (mkReader [] None) [] (Some (Rpc.Io.Transport 32))) (mkStream (mkReader [] None) [] None) 0 None) =
    Some (r, out, errs, c') /\ (length errs <= 2)%nat.
Proof.
  edestruct (batch_runs (H := Hislip_transport (fun _ => true) (fun rd => rd)) [Ok (str "*RST"); Ok (str "*IDN?")])
    as (r & out & errs & c' & E & Hl & _).
  exists r, out, errs, c'. exact (conj E Hl).
Defined.

(** A VXI-11 server that closes the connection is not taken for its end: the
    error is no I/O error and the next line is tried. *)
Lemma vxi11_close_goes_on : exists t,
  handle_line (H := Vxi11_transport (fun rd => rd)) (str "++stb")
    (mkVxi11 (Vxi11Client.connect (mkStream (mkReader [] None) [] None)) 1) = Some (Continue, [], [EVxi11 Vxi11Client.Closed], t).
Proof. eexists. vm_compute. reflexivity. Qed.

Definition demo_lines : list (list Z) := [str " CURV? "; str ""; str "*RST"; str "*OPC?"].

Lemma scpi_over_hislip_witness : exists sent outs id' st',
  Hislip.sync_loop Hislip.default_config (fun e => e) (fun _ => true) (replicate 4 Hislip.idle_env) (mkReader sent None) HislipClient.demo_state =
    Some (Err UnexpectedEof, outs, st') /\
  run_batch (H := Hislip_transport (fun _ => true) (fun rd => rd)) (map Ok demo_lines)
    (HislipClient.mkClient (mkStream (mkReader (concat (map write_to outs)) None) [] None) (mkStream (mkReader [] None) [] None)
       Hislip.FIRST_MESSAGE_ID None) =
    Some (Ok tt, replicate 600 x41 ++ [x0a] ++ [x31; x0a], [],
          HislipClient.mkClient (mkStream (mkReader [] None) sent None) (mkStream (mkReader [] None) [] None) id' None).
Proof.
  edestruct (scpi_over_hislip (fun _ => true) (fun rd => rd) Hislip.default_config (fun e => e) (fun _ => true) Hislip.idle_env demo_lines
    [Hislip.idle_env; Hislip.idle_env; Hislip.idle_env] HislipClient.demo_state [Some (replicate 600 x41); None; Some [x31; x0a]])
    as (sent & outs & id' & Hs & Hc).
  - done.
  - by repeat constructor.
  - by repeat constructor.
  - eapply (HislipClient.session_query Hislip.default_config (fun e => e) _ _ _ _ _ _ (replicate 600 x41)); [by vm_compute| |].
    { split; [by do 2 eexists|]. by vm_compute. }
    eapply HislipClient.session_quiet; [done|by vm_compute|].
    eapply (HislipClient.session_query Hislip.default_config (fun e => e) _ _ _ _ _ _ [x31; x0a]); [by vm_compute| |apply HislipClient.session_nil].
    split; [by do 2 eexists|]. by vm_compute.
  - exists sent, outs, id'. eexists. split; [exact Hs|]. rewrite Hc. reflexivity.
Defined.

Lemma scpi_over_prologix_witness : exists t sent b',
  prologix_connect (Some 22) (mkPrologix [] [] None) = (Ok tt, t) /\
  quiet_ops [QWrite (as_bytes (str "*RST")); QTrigger] t = Some (Ok tt, mkPrologix [] sent None) /\
  Prologix.handle_connection (fun e => e) (mkReader sent None) (Backend.Backend.mkLogged (Backend.Backend.mkMock [] 0 (10, true) 3000 None 0 false) [])
    (Prologix.mkWriter [] None) 0 = Some (Ok tt, b', Prologix.mkWriter [] None) /\
  Backend.Backend.calls b' = [Backend.Backend.CWrite 22 (as_bytes (str "*RST") ++ [x0d; x0a]) true; Backend.Backend.COther "trigger" (Some 22)].
Proof.
  apply (scpi_over_prologix (fun e => e) (Some 22) 0 [QWrite (as_bytes (str "*RST")); QTrigger]
    (Backend.Backend.mkLogged (Backend.Backend.mkMock [] 0 (10, true) 3000 None 0 false) [])).
  - lia.
  - intros pad [= <-]. lia.
  - apply List.Forall_cons; [|by repeat constructor].
    split_and!; [apply (bool_decide_unpack _); by vm_compute..|]. exists (str "*RST"). by vm_compute.
Defined.

End Scpi.
