(* ===== verification/PortmapRun.v ===== *)
(** * The portmap service in time: [run] and [maintain_registration] of [src/vxi11/portmap.rs]

    The responder's two loops over what the sockets deliver, and the resident
    half of register mode in front of a portmapper it shares with others.
    [run] never changes its table and its connections share nothing else, so a
    connection is a function of its own stream.  The portmapper that is asked
    to register is another program: the class [Portmapper], with the protocol's
    rules for SET and GETPORT (RFC 1833, section 3.2) as [PortmapperLaws]. *)

From S2P Require Import Prelude Xdr Rpc Portmap.

Module PortmapRun.
Import Xdr Rpc Rpc.Io Portmap.
#[local] Transparent fits.

(** ** The responder *)

(** What one [recv_from] delivers. *)
Inductive Received : Type :=
| ReceiveFailed
| From_ (peer : Z) (datagram : list byte).

(** A turn of [udp_task]: what is sent, and to whom; the buffer is 4096 bytes. *)
Definition udp_turn (mappings : list Mapping) (r : Received) : option (Z * list byte) :=
  match r with
  | ReceiveFailed => None
  | From_ peer d => reply ← dispatch (ztake 4096 d) mappings; Some (peer, reply)
  end.
Definition udp_task (mappings : list Mapping) (rs : list Received) : list (Z * list byte) :=
  omap (udp_turn mappings) rs.

(** The task of one TCP connection: what it answers until it returns.  [works]
    says which of its writes the peer still takes; [None] is out of fuel. *)
Fixpoint tcp_connection (fuel : nat) (mappings : list Mapping) (works : nat -> bool) (k : nat) (rd : Reader)
    : option (list byte) :=
  match fuel with
  | O => None
  | S fuel =>
      r ← read_record rd 4096;
      match r with
      | Ok (Some record, rd) =>
          match dispatch record mappings with
          | Some reply =>
              match write_record reply with
              | Ok wire =>
                  if works k then
                    out ← tcp_connection fuel mappings works (S k) rd; Some (wire ++ out)
                  else Some []
              | Err _ => Some []
              end
          | None => Some []
          end
      | _ => Some []
      end
  end.
(** Every turn takes a record header off the stream. *)
Definition serve_tcp (mappings : list Mapping) (works : nat -> bool) (rd : Reader) : option (list byte) :=
  tcp_connection (S (length (avail rd))) mappings works 0 rd.

(** [tcp_task]: a failed [accept] is passed over. *)
Definition tcp_task (mappings : list Mapping) (accepted : list (option (Reader * (nat -> bool)))) : list (option (list byte)) :=
  omap (fun a => p ← a; Some (serve_tcp mappings p.2 p.1)) accepted.

(** ** Register mode *)

(** One exchange over UDP: a call sent, and what came of waiting for its reply.
    A socket that cannot be bound or connected is [SendFailed]. *)
Class Portmapper (P : Type) : Type := { exchange : list byte -> P -> Attempt * P }.

Section Client.
Context {P : Type} `{Portmapper P}.

Fixpoint ask (n : nat) (call : list byte) (p : P) : result bool PmError * P :=
  match n with
  | O => (Err PmNoAnswer, p)
  | S n =>
      let '(a, p) := exchange call p in
      match a with
      | SendFailed | RecvFailed => (Err PmIo, p)
      | TimedOut => ask n call p
      | Datagram d => (set_registration_answer d, p)
      end
  end.
Definition set_registration_on (mapping : Mapping) (register : bool) (p : P) : result bool PmError * P :=
  ask 3 (set_registration_call mapping register) p.

Definition getport_on (mapping : Mapping) (p : P) : result Z PmError * P :=
  let '(a, p) := exchange (getport_call mapping) p in (getport a, p).

Inductive Tick : Type :=
| InPlace
| ReRegistered
| ReRefused
| Unreachable (e : PmError)
| CheckFailed (e : PmError).

(** The body of the loop of [maintain_registration]. *)
Definition maintain_tick (mapping : Mapping) (p : P) : Tick * P :=
  match getport_on mapping p with
  | (Ok port, p) =>
      if port =? m_port mapping then (InPlace, p)
      else
        match set_registration_on mapping true p with
        | (Ok true, p) => (ReRegistered, p)
        | (Ok false, p) => (ReRefused, p)
        | (Err e, p) => (Unreachable e, p)
        end
  | (Err e, p) => (CheckFailed e, p)
  end.

(** The loop, until it is cancelled: [between] is what others do to the
    portmapper before each tick. *)
Fixpoint maintain_registration (between : list (P -> P)) (mapping : Mapping) (p : P) : list Tick * P :=
  match between with
  | [] => ([], p)
  | f :: between =>
      let '(t, p) := maintain_tick mapping (f p) in
      let '(ts, p) := maintain_registration between mapping p in (t :: ts, p)
  end.

(** [run_registered] of [bin/portmap.rs]: announce, maintain until the signal,
    withdraw. *)
Inductive Run : Type :=
| NotRegistered (e : PmError)
| Refused
| Maintained (ticks : list Tick) (withdrawn : result bool PmError).

Definition run_registered (between : list (P -> P)) (mapping : Mapping) (p : P) : Run * P :=
  match set_registration_on mapping true p with
  | (Err e, p) => (NotRegistered e, p)
  | (Ok false, p) => (Refused, p)
  | (Ok true, p) =>
      let '(ts, p) := maintain_registration between mapping p in
      let '(r, p) := set_registration_on mapping false p in (Maintained ts r, p)
  end.

End Client.

Definition same_program (m x : Mapping) : bool := (m_prog x =? m_prog m) && (m_vers x =? m_vers m).

(** A portmapper that answers: GETPORT reports the first matching entry, SET
    adds an entry where none matches and refuses otherwise, UNSET removes every
    entry of the program and version, whatever the protocol. *)
Class PortmapperLaws (P : Type) `{Portmapper P} : Type := {
  table : P -> list Mapping;
  answers : P -> bool;
  getport_answer : forall m p, answers p = true -> Mapping_wf m ->
    exists p', exchange (getport_call m) p =
      (Datagram (reply_success 3 (encode_getport_reply (find_port (table p) m))), p') /\
      table p' = table p /\ answers p' = true;
  set_answer : forall m p, answers p = true -> Mapping_wf m ->
    exists p', exchange (set_registration_call m true) p =
      (Datagram (reply_success 1 (put_bool [] (negb (existsb (matches m) (table p))))), p') /\
      table p' = (if existsb (matches m) (table p) then table p else table p ++ [m]) /\ answers p' = true;
  unset_answer : forall m p, answers p = true -> Mapping_wf m ->
    exists b p', exchange (set_registration_call m false) p = (Datagram (reply_success 1 (put_bool [] b)), p') /\
      table p' = List.filter (fun x => negb (same_program m x)) (table p) /\ answers p' = true;
}.

(** ** Lemmas *)

Lemma read_record_shrinks rd max rec rd' : read_record rd max = Some (Ok (Some rec, rd')) ->
  (length (avail rd') < length (avail rd))%nat.
Proof.
  unfold read_record. generalize (@nil byte) (S (length (avail rd))). intros acc fuel. revert acc rd.
  induction fuel as [|fuel IH]; intros acc rd; cbn [read_fragments]; [done|].
  destruct (read_exact 4 rd) as [[h rd1]|e] eqn:E1; [|by destruct (_ && _)].
  apply read_exact_Ok in E1 as (Hl & Ha & _); [|lia]. destruct (_ <? _); [done|].
  destruct (read_exact _ rd1) as [[body rd2]|e] eqn:E2; [|done].
  assert (Hlt : (length (avail rd1) < length (avail rd))%nat).
  { rewrite Ha, length_app. unfold zlen in Hl. lia. }
  apply read_exact_Ok in E2 as (_ & Hb & _); [|apply Z.land_nonneg; right; lia].
  assert (length (avail rd2) <= length (avail rd1))%nat by (rewrite Hb, length_app; lia).
  destruct (has_flag _ _); [intros [= _ <-]; lia|]. intros Hr%IH. lia.
Qed.

(** Each turn consumes a record, so the length of the stream is enough. *)
Lemma tcp_connection_total ms works fuel : forall k rd, (length (avail rd) < fuel)%nat ->
  is_Some (tcp_connection fuel ms works k rd).
Proof.
  induction fuel as [|fuel IH]; intros k rd Hf; [lia|]. cbn [tcp_connection].
  destruct (read_record_total rd 4096) as [[[[rec|] rd']|e] Er]; rewrite Er; cbn [mbind option_bind]; [|by eexists..].
  apply read_record_shrinks in Er. destruct (dispatch rec ms); [|by eexists].
  destruct (write_record _); [|by eexists]. destruct (works k); [|by eexists].
  destruct (IH (S k) rd') as [out ->]; [lia|]. by eexists.
Qed.

(** Framed calls, one after the other. *)
Fixpoint framed (records : list (list byte)) : list byte :=
  match records with
  | [] => []
  | r :: rs => fragment true r ++ framed rs
  end.

(** The replies up to the first call that is answered with silence. *)
Fixpoint answers_to (ms : list Mapping) (records : list (list byte)) : list (list byte) :=
  match records with
  | [] => []
  | r :: rs => match dispatch r ms with Some reply => reply :: answers_to ms rs | None => [] end
  end.

Lemma write_record_fragment payload : zlen payload <= 0x7FFFFFFF -> write_record payload = Ok (fragment true payload).
Proof.
  intros Hp. unfold write_record, fragment. pose proof (zlen_nonneg payload).
  rewrite (proj2 (Z.ltb_ge _ _)) by lia. by rewrite as_u32_id by (unfold in_u32; lia).
Qed.

Ltac reply_length :=
  let E := fresh in intros E; apply (inj Some) in E; rewrite <- E;
  rewrite ?zlen_app, ?zlen_accepted, ?encode_dump_reply_wire, ?zlen_dump_wire, ?zlen_be_bytes;
  change (zlen (@nil byte)) with 0; lia.

Lemma dispatch_length r ms reply : dispatch r ms = Some reply -> zlen reply <= 40 + 20 * zlen ms.
Proof.
  pose proof (zlen_nonneg ms). unfold dispatch. destruct (decode_call r) as [[h args]|[]]; try done.
  2: { intros E%(inj Some). subst reply. unfold reply_rpc_mismatch, put_u32. zlen_solve. }
  unfold reply_prog_unavail, reply_prog_mismatch, reply_success, reply_garbage_args, reply_proc_unavail,
    encode_getport_reply, put_bool, put_u32.
  destruct (negb (prog h =? PMAP_PROG)); [by reply_length|].
  destruct (negb (vers h =? PMAP_VERS)); [by reply_length|].
  destruct (proc h =? PMAPPROC_NULL); [by reply_length|].
  destruct (proc h =? PMAPPROC_GETPORT); [by destruct (Mapping_decode (new args)) as [[]|]; reply_length|].
  destruct (proc h =? PMAPPROC_DUMP); [by reply_length|].
  destruct ((_ =? _) || _); [by reply_length|]. destruct (proc h =? PMAPPROC_CALLIT); [done|by reply_length].
Qed.

(** What a peer takes of a sequence of replies. *)
Fixpoint taken (works : nat -> bool) (k : nat) (replies : list (list byte)) : list (list byte) :=
  match replies with
  | [] => []
  | r :: rs => if works k then r :: taken works (S k) rs else []
  end.

Lemma read_record_end e max : exists r, read_record (mkReader [] e) max = Some r /\
  match r with Ok (Some _, _) => False | _ => True end.
Proof. unfold read_record. cbn. destruct e as [[]|]; eexists; (split; [reflexivity|done]). Qed.

Lemma tcp_connection_answers ms works e : zlen ms <= 1000000 -> forall records fuel k,
  Forall (fun r => zlen r <= 4096) records -> (length (framed records) < fuel)%nat ->
  tcp_connection fuel ms works k (mkReader (framed records) e) = Some (framed (taken works k (answers_to ms records))).
Proof.
  intros Hms. induction records as [|r records IH]; intros [|fuel] k Hr Hf; try lia; cbn [tcp_connection framed answers_to].
  { destruct (read_record_end e 4096) as (res & -> & Hres). cbn [mbind option_bind]. by destruct res as [[[] ?]|]. }
  apply Forall_cons in Hr as [Hr Hrs]. cbn [framed] in Hf. rewrite length_app, length_fragment in Hf.
  rewrite (write_read_record_aux r (fragment true r) (framed records) e 4096);
    [|apply write_record_fragment; lia|done|lia].
  cbn [mbind option_bind]. destruct (dispatch r ms) as [reply|] eqn:Ed; [|done]. cbn [taken].
  apply dispatch_length in Ed. rewrite write_record_fragment by lia. destruct (works k); [|done].
  rewrite IH; [done|done|lia].
Qed.

(** ** Properties *)

(** a TCP client of the responder is answered call by call.  Whatever the
    calls are and however the stream ends, each record in turn is answered with
    what [dispatch] says, as one record, up to the first call that is met with
    silence and the first reply the peer does not take; and on any stream at
    all the connection's task returns. *)
Theorem portmap_tcp_serves ms works records e :
  Forall (fun r => zlen r <= 4096) records -> zlen ms <= 1000000 ->
  serve_tcp ms works (mkReader (framed records) e) = Some (framed (taken works 0 (answers_to ms records))) /\
  forall rd, is_Some (serve_tcp ms works rd).
Proof.
  intros Hr Hms. split; [by apply tcp_connection_answers; [..|cbn; lia]|].
  intros rd. apply tcp_connection_total. lia.
Qed.

(** A NULL call, a look-up, a CALLIT, and a call that is not answered any more. *)
Lemma portmap_tcp_serves_witness :
  let m := mkMapping 0x0607AF 1 6 9010 in
  let calls := [probe_call; getport_call m; encode_call 4 PMAP_PROG PMAP_VERS PMAPPROC_CALLIT []; probe_call] in
  serve_tcp [m] (fun _ => true) (mkReader (framed calls) None) =
  Some (framed [reply_success 2 []; reply_success 3 (be_bytes 4 9010)]).
Proof.
  intros m calls. refine (eq_trans (proj1 (portmap_tcp_serves [m] (fun _ => true) calls None _ _)) _).
  - apply (bool_decide_unpack _). by vm_compute.
  - by vm_compute.
  - by vm_compute.
Defined.

Section Register.
Context {P : Type} `{PortmapperLaws P}.
Implicit Types (m x : Mapping) (p : P).

(** Nobody else has registered the program under another port. *)
Definition unrivalled (m : Mapping) (p : P) : Prop :=
  answers p = true /\ Forall (fun x => matches m x = true -> m_port x = m_port m) (table p) /\ Forall Mapping_wf (table p).

Lemma ask_answered call p b p' : exchange call p = (Datagram (reply_success 1 (put_bool [] b)), p') ->
  ask 3 call p = (Ok b, p').
Proof. intros E. cbn [ask]. rewrite E. by rewrite set_answer_reads. Qed.

Lemma existsb_find m ms : existsb (matches m) ms = true <-> exists x, List.find (matches m) ms = Some x.
Proof.
  induction ms as [|x ms IH]; cbn; [by split; [|intros []]|]. destruct (matches m x); [|done]. by split; eauto.
Qed.

Lemma find_port_app_new m ms : existsb (matches m) ms = false -> find_port (ms ++ [m]) m = m_port m.
Proof.
  unfold find_port. induction ms as [|x ms IH]; cbn.
  - intros _. unfold matches. by rewrite !Z.eqb_refl.
  - destruct (matches m x); [done|exact IH].
Qed.

(** A tick in front of a portmapper that answers, on every branch. *)
Lemma maintain_tick_answered m p : Mapping_wf m -> answers p = true -> Forall Mapping_wf (table p) ->
  exists p', answers p' = true /\
    if find_port (table p) m =? m_port m then maintain_tick m p = (InPlace, p') /\ table p' = table p
    else if existsb (matches m) (table p) then maintain_tick m p = (ReRefused, p') /\ table p' = table p
    else maintain_tick m p = (ReRegistered, p') /\ table p' = table p ++ [m].
Proof.
  intros Hm Ha Hwf. destruct (getport_answer m p Ha Hm) as (p1 & E1 & T1 & A1).
  unfold maintain_tick, getport_on. rewrite E1, getport_reads by by apply find_port_u32.
  destruct (_ =? m_port m); [by exists p1|].
  destruct (set_answer m p1 A1 Hm) as (p2 & E2 & T2 & A2). rewrite T1 in E2, T2.
  unfold set_registration_on. rewrite (ask_answered _ _ _ _ E2). exists p2. split; [done|].
  by destruct (existsb _ _).
Qed.

Lemma maintain_tick_unrivalled m p : Mapping_wf m -> m_port m <> 0 -> unrivalled m p ->
  exists t p', maintain_tick m p = (t, p') /\ (t = InPlace \/ t = ReRegistered) /\ unrivalled m p' /\
    find_port (table p') m = m_port m.
Proof.
  intros Hm Hp (Ha & Hu & Hwf). destruct (maintain_tick_answered m p Hm Ha Hwf) as (p' & A' & Ht).
  destruct (Z.eqb_spec (find_port (table p) m) (m_port m)) as [Ef|Ef].
  { destruct Ht as [-> T']. exists InPlace, p'. unfold unrivalled. rewrite T'. split_and!; auto. }
  destruct (existsb (matches m) (table p)) eqn:Ex.
  - exfalso. apply existsb_find in Ex as [x Hx]. apply Ef. unfold find_port. rewrite Hx.
    apply List.find_some in Hx as [Hin Hx]. rewrite Forall_forall in Hu. apply Hu; [by apply list_elem_of_In|done].
  - destruct Ht as [-> T']. exists ReRegistered, p'. unfold unrivalled. rewrite T'.
    assert (Hnew : forall Q : Mapping -> Prop, Q m -> Forall Q (table p) -> Forall Q (table p ++ [m])).
    { intros Q HQ HF. apply Forall_app. by rewrite Forall_singleton. }
    split_and!; auto. by apply find_port_app_new.
Qed.

Lemma maintain_unrivalled m between : Mapping_wf m -> m_port m <> 0 ->
  Forall (fun f => forall q, unrivalled m q -> unrivalled m (f q)) between -> forall p,
  unrivalled m p -> find_port (table p) m = m_port m ->
  exists ts p', maintain_registration between m p = (ts, p') /\ length ts = length between /\
    Forall (fun t => t = InPlace \/ t = ReRegistered) ts /\ unrivalled m p' /\ find_port (table p') m = m_port m.
Proof.
  intros Hm Hp Hb. induction Hb as [|f between Hf Hb IH]; intros p Hu Hfp; cbn [maintain_registration].
  { by exists [], p. }
  destruct (maintain_tick_unrivalled m (f p) Hm Hp (Hf p Hu)) as (t & p1 & -> & Ht & Hu1 & Hf1).
  destruct (IH p1 Hu1 Hf1) as (ts & p2 & -> & Hl & Hts & Hu2 & Hf2).
  exists (t :: ts), p2. split_and!; [done|cbn; lia|by constructor|done|done].
Qed.

Lemma maintain_take m between : forall k p,
  (maintain_registration (firstn k between) m p).1 = firstn k (maintain_registration between m p).1.
Proof.
  induction between as [|f between IH]; intros [|k] p; cbn [firstn maintain_registration]; try done.
  destruct (maintain_tick m (f p)) as [t q]. specialize (IH k q).
  destruct (maintain_registration (firstn k between) m q), (maintain_registration between m q). cbn in *. by rewrite IH.
Qed.

(** What SET does for a program nobody has registered. *)
Lemma announced m p : Mapping_wf m -> answers p = true -> Forall Mapping_wf (table p) ->
  (forall x, x ∈ table p -> matches m x = false) ->
  exists p1, set_registration_on m true p = (Ok true, p1) /\ table p1 = table p ++ [m] /\ unrivalled m p1 /\
    find_port (table p1) m = m_port m.
Proof.
  intros Hm Ha Hwf Hno. destruct (set_answer m p Ha Hm) as (p1 & E & T & A1).
  assert (Ex : existsb (matches m) (table p) = false).
  { destruct (existsb _ _) eqn:Ex; [|done]. apply List.existsb_exists in Ex as (x & Hin & Hx).
    by rewrite (Hno x) in Hx by by apply list_elem_of_In. }
  rewrite Ex in E, T. exists p1. unfold set_registration_on. rewrite (ask_answered _ _ _ _ E).
  rewrite T, find_port_app_new by done. split_and!; try done. unfold unrivalled. rewrite T, !Forall_app. split_and!; try done.
  - apply Forall_forall. intros x Hx Hm'. by rewrite (Hno x Hx) in Hm'.
  - by apply Forall_singleton.
  - by apply Forall_singleton.
Qed.

(** C18: register mode keeps the program findable.  Announced to a portmapper
    that has no entry for it, and as long as the portmapper answers and nobody
    else claims the program - restarts that empty its table included - every
    tick finds the registration in place or puts it back, the port is the one
    looked up after each of them, nothing else in the table is touched by the
    announcement, and after the withdrawal no entry of the program is left. *)
Theorem register_mode_lifecycle m p (between : list (P -> P)) :
  Mapping_wf m -> m_port m <> 0 -> answers p = true -> Forall Mapping_wf (table p) ->
  (forall x, x ∈ table p -> matches m x = false) ->
  Forall (fun f => forall q, unrivalled m q -> unrivalled m (f q)) between ->
  exists ts r p1 p2, run_registered between m p = (Maintained ts (Ok r), p2) /\
    set_registration_on m true p = (Ok true, p1) /\ table p1 = table p ++ [m] /\
    (forall k, (k <= length between)%nat -> exists q,
       maintain_registration (firstn k between) m p1 = (firstn k ts, q) /\ find_port (table q) m = m_port m) /\
    length ts = length between /\ Forall (fun t => t = InPlace \/ t = ReRegistered) ts /\
    (forall x, x ∈ table p2 -> matches m x = false).
Proof.
  intros Hm Hp Ha Hwf Hno Hb. destruct (announced m p Hm Ha Hwf Hno) as (p1 & E1 & T1 & Hu1 & Hf1).
  destruct (maintain_unrivalled m between Hm Hp Hb p1 Hu1 Hf1) as (ts & q & Em & Hl & Hts & (Aq & _) & _).
  destruct (unset_answer m q Aq Hm) as (r & p2 & E2 & T2 & _).
  exists ts, r, p1, p2. unfold run_registered. rewrite E1, Em. unfold set_registration_on at 1.
  rewrite (ask_answered _ _ _ _ E2). split_and!; try done.
  - intros k Hk. pose proof (maintain_take m between k p1) as Ht. rewrite Em in Ht.
    destruct (maintain_unrivalled m (firstn k between) Hm Hp (Forall_take _ k _ Hb) p1 Hu1 Hf1) as (ts' & q' & Em' & _ & _ & _ & Hq').
    exists q'. rewrite Em' in Ht |- *. cbn in Ht. by rewrite Ht.
  - intros x. rewrite T2, list_elem_of_In, List.filter_In. intros [_ Hx]. apply negb_true_iff in Hx.
    unfold same_program in Hx. unfold matches. by rewrite Hx.
Qed.

End Register.

(** ** A portmapper on this machine *)

#[export] Instance Table_portmapper : Portmapper (list Mapping) := {|
  exchange call t :=
    match decode_call call with
    | Ok (h, args) =>
        match Mapping_decode (new args) with
        | Ok (m, _) =>
            if proc h =? PMAPPROC_SET then
              (Datagram (reply_success (xid h) (put_bool [] (negb (existsb (matches m) t)))),
               if existsb (matches m) t then t else t ++ [m])
            else if proc h =? PMAPPROC_UNSET then
              (Datagram (reply_success (xid h) (put_bool [] (existsb (same_program m) t))),
               List.filter (fun x => negb (same_program m x)) t)
            else (Datagram (reply_success (xid h) (encode_getport_reply (find_port t m))), t)
        | Err _ => (TimedOut, t)
        end
    | Err _ => (TimedOut, t)
    end;
|}.

Lemma table_exchange x p m (t : list Mapping) : in_u32 x -> in_u32 p -> Mapping_wf m ->
  exists c, decode_call (encode_call x PMAP_PROG PMAP_VERS p (Mapping_encode m [])) =
      Ok (mkCallHeader x PMAP_PROG PMAP_VERS p, mapping_wire m) /\
    Mapping_decode (new (mapping_wire m)) = Ok (m, c).
Proof.
  intros Hx Hp Hm. rewrite Mapping_encode_wire, app_nil_l, dispatch_pmap by (done || apply vec_ok_mapping).
  assert (Hc : at_rest (new (mapping_wire m)) (mapping_wire m ++ [])).
  { rewrite app_nil_r. apply at_rest_new, vec_ok_fits, vec_ok_mapping. }
  destruct (Mapping_decode_put m _ [] Hc Hm) as (c & -> & _). by exists c.
Qed.

#[export] Instance Table_laws : PortmapperLaws (list Mapping).
Proof.
  refine {| table t := t; answers _ := true |}; intros m t _ Hm.
  - destruct (table_exchange 3 PMAPPROC_GETPORT m t) as (c & E1 & E2); [by vm_compute..|done|].
    exists t. split; [|done]. cbn [exchange Table_portmapper]. unfold getport_call. by rewrite E1, E2.
  - destruct (table_exchange 1 PMAPPROC_SET m t) as (c & E1 & E2); [by vm_compute..|done|].
    eexists. cbn [exchange Table_portmapper]. unfold set_registration_call. rewrite E1, E2. split; [reflexivity|done].
  - destruct (table_exchange 1 PMAPPROC_UNSET m t) as (c & E1 & E2); [by vm_compute..|done|].
    exists (existsb (same_program m) t). eexists. cbn [exchange Table_portmapper]. unfold set_registration_call.
    rewrite E1, E2. split; [reflexivity|done].
Defined.

(** The portmapper is restarted before the second tick. *)
Lemma register_mode_lifecycle_witness :
  let m := mkMapping 0x0607AF 1 6 9010 in
  let other := mkMapping 100003 3 6 2049 in
  run_registered [id; fun _ => []] m [other] = (Maintained [InPlace; ReRegistered] (Ok true), []) /\
  exists ts r p1 p2, run_registered [id; fun _ => []] m [other] = (Maintained ts (Ok r), p2) /\
    set_registration_on m true [other] = (Ok true, p1) /\ p1 = [other; m] /\
    (forall k, (k <= 2)%nat -> exists q,
       maintain_registration (firstn k [id; fun _ => []]) m p1 = (firstn k ts, q) /\ find_port q m = m_port m) /\
    length ts = 2%nat /\ Forall (fun t => t = InPlace \/ t = ReRegistered) ts /\
    (forall x, x ∈ p2 -> matches m x = false).
Proof.
  intros m other. split; [by vm_compute|].
  refine (register_mode_lifecycle m [other] [id; fun _ => []] _ _ eq_refl _ _ _).
  - repeat constructor; cbn; unfold in_u32; lia.
  - done.
  - repeat constructor; cbn; unfold in_u32; lia.
  - intros x Hx. by apply list_elem_of_singleton in Hx as ->.
  - apply List.Forall_cons; [done|]. apply List.Forall_cons; [|constructor]. intros q _. by unfold unrivalled.
Defined.

End PortmapRun.
