(* ===== verification/Daemon.v ===== *)
(** * The two services: [src/main.rs] and [src/bin/portmap.rs]

    What the programs do between parsing their arguments and running the
    front-ends, over the outcome of each step that involves the outside world:
    listing devices, the drivers' own [open]s (whose models are [Attach] and
    [AgilentBoot]), switching modes, binding ports, the event that ends the
    daemon, the datagrams of the portmapper.  What is done to the adapter is a
    log, the steps of a driver's [open] included, whether it succeeds or not.
    Logging set-up and the futures' plumbing are left out. *)

From S2P Require Import Prelude RustStr Rpc Backend Bus Portmap Vxi11Ops Select.

Module Daemon.
Import RustStr Select.
Notation Error := Backend.Backend.Error.

(** ** [main.rs] *)

Record Args : Type := mkArgs {
  a_port : Z; hislip_port : Z; vxi11_port : Z; capture_port : Z;
  timeout_ms : Z; backend : list Z; enable_prologix : bool; listen_only : bool;
  listen_address : option Z; usb_port : option (list Z); default_address : Z;
}.

(** [{:<w}] *)
Definition padded (w : nat) (s : list Z) : list Z := s ++ replicate (w - length s) 32.

Section Lists.
Variables FW_B FW_A : list byte.

(** [--backend list] *)
Definition backend_list : list (list Z) :=
  map (fun k => padded 16 (id FW_B FW_A k) ++ str "  " ++ description FW_B FW_A k) ALL.

(** [{:04x}] of a 16-bit number *)
Definition hex4 (n : Z) : list Z := map (fun i => Backend.Backend.hex_digit (n / 16 ^ i mod 16)) [3; 2; 1; 0].

Definition adapter_row (number backend vid_pid port serial product : list Z) : list Z :=
  join [32] [padded 3 number; padded 16 backend; padded 10 vid_pid; padded 14 port; padded 18 serial; product].

(** [--list] *)
Definition adapter_table (found : list DiscoveredAdapter) : list (list Z) :=
  match found with
  | [] => [str "no supported USB-GPIB adapters found"]
  | _ =>
      adapter_row (str "#") (str "backend") (str "vid:pid") (str "port") (str "serial") (str "product") ::
      imap (fun i a => adapter_row (to_string (Z.of_nat i)) (id FW_B FW_A (kind a)) (hex4 (a_vid a) ++ str ":" ++ hex4 (a_pid a))
                         (a_port_id a) (default (str "(none)") (a_serial a)) (default [] (a_product a))) found
  end.
End Lists.

Inductive FrontEnd : Type := FPrologix | FHislip | FCapture | FVxi11.

(** The front-ends asked for, in the order their ports are bound. *)
Definition front_ends (args : Args) : list (FrontEnd * Z) :=
  (if enable_prologix args then [(FPrologix, a_port args)] else []) ++
  (if hislip_port args =? 0 then [] else [(FHislip, hislip_port args)]) ++
  (if capture_port args =? 0 then [] else [(FCapture, capture_port args)]) ++
  (if vxi11_port args =? 0 then [] else [(FVxi11, vxi11_port args)]).

Inductive AdapterMode : Type := DeviceMode (a : Z) | ListenOnly.

(** What is done to the adapter; a step of opening is a driver's own event. *)
Inductive Done (X : Type) : Type :=
| Opening (x : X)
| Opened (port : list Z)
| Switched (m : AdapterMode) (r : result unit Error)
| Shutdown.
Arguments Opening {X} x.
Arguments Opened {X} port.
Arguments Switched {X} m r.
Arguments Shutdown {X}.

(** What ends the [select!]. *)
Inductive Stop : Type := FrontEndEnded (r : result unit Error) | Removed | Interrupt | Terminate.

Inductive Exit : Type :=
| NoFrontEnd
| NotOpened (e : SelectError)
| ModeRefused (e : Error)
| BindFailed (f : FrontEnd) (e : Error)
| Ran (serving : list FrontEnd) (r : result unit Error).

(** The world's part: the devices on the bus, a driver's [open] - what it returns
    and what it did on the way - and how the other steps go. *)
Record World (X : Type) : Type := mkWorld {
  os : TargetOs;
  devices : result (list UsbDevice) Error;
  driver_open : BackendKind -> Z -> option (list Z) -> result unit Error * list X;
  mode_result : AdapterMode -> result unit Error;
  bind : Z -> result unit Error;
  stop : list FrontEnd -> Stop;
}.
Arguments mkWorld {X}.
Arguments os {X}.
Arguments devices {X}.
Arguments driver_open {X}.
Arguments mode_result {X}.
Arguments bind {X}.
Arguments stop {X}.

Section Run.
Variables FW_B FW_A : list byte.
Context {X : Type}.
Notation World := (World X).
Notation Done := (Done X).

(** [open_selected]: the call of a driver's [open] it arrives at, if any, and that
    call. *)
Definition opening (w : World) (s : UsbSelector) (backend : option (list Z)) (timeout : Z)
    : result (list Z) SelectError * list Done :=
  match open_selected FW_B FW_A (fun k t p => Ok (k, t, p)) (os w) (devices w) s backend timeout with
  | Err e => (Err e, [])
  | Ok ((k, t, p), adapter_port) =>
      let '(r, steps) := driver_open w k t p in
      match r with
      | Err e => (Err (OpenFailed e), map Opening steps)
      | Ok _ => (Ok adapter_port, map Opening steps ++ [Opened adapter_port])
      end
  end.

Fixpoint bind_all (w : World) (fs : list (FrontEnd * Z)) : result (list FrontEnd) (FrontEnd * Error) :=
  match fs with
  | [] => Ok []
  | (f, p) :: fs =>
      match bind w p with
      | Err e => Err (f, e)
      | Ok _ => let? l := bind_all w fs in Ok (f :: l)
      end
  end.

(** Ask for a mode; whether to go on, and the log. *)
Definition switch (w : World) (m : option AdapterMode) (log : list Done) : result unit Error * list Done :=
  match m with
  | None => (Ok tt, log)
  | Some m => (mode_result w m, log ++ [Switched m (mode_result w m)])
  end.

Definition requested_backend (args : Args) : option (list Z) :=
  if bool_decide (backend args = str "auto") then None else Some (backend args).
Definition requested_selector (args : Args) : UsbSelector :=
  match usb_port args with Some p => Port p | None => Auto end.

(** Past [--list]: how the daemon ends, and what was done to the adapter. *)
Definition run (w : World) (args : Args) : Exit * list Done :=
  if negb (enable_prologix args) && (hislip_port args =? 0) && (vxi11_port args =? 0) then (NoFrontEnd, [])
  else
    match opening w (requested_selector args) (requested_backend args) (timeout_ms args) with
    | (Err e, log) => (NotOpened e, log)
    | (Ok adapter_port, log) =>
        match switch w (DeviceMode <$> listen_address args) log with
        | (Err e, log) => (ModeRefused e, log)
        | (Ok _, log) =>
            match switch w (if listen_only args then Some ListenOnly else None) log with
            | (Err e, log) => (ModeRefused e, log)
            | (Ok _, log) =>
                match bind_all w (front_ends args) with
                | Err (f, e) => (BindFailed f e, log)
                | Ok serving =>
                    match stop w serving with
                    | Removed => (Ran serving (Ok tt), log)
                    | FrontEndEnded r => (Ran serving r, log ++ [Shutdown])
                    | Interrupt | Terminate => (Ran serving (Ok tt), log ++ [Shutdown])
                    end
                end
            end
        end
    end.

End Run.

(** ** [bin/portmap.rs] *)

Definition IPPROTO_TCP : Z := 6.
Definition IPPROTO_UDP : Z := 17.

Definition core_mapping (core_port : Z) : Portmap.Mapping :=
  Portmap.mkMapping Vxi11Ops.DEVICE_CORE_PROG Vxi11Ops.DEVICE_CORE_VERS IPPROTO_TCP core_port.

Definition serving_mappings (mapping : Portmap.Mapping) (self_port : Z) : list Portmap.Mapping :=
  [mapping; Portmap.mkMapping Portmap.PMAP_PROG Portmap.PMAP_VERS IPPROTO_TCP self_port;
   Portmap.mkMapping Portmap.PMAP_PROG Portmap.PMAP_VERS IPPROTO_UDP self_port].

Inductive Mode : Type := Serve | Register | Unregister.

(** What the tool meets: answers to the probe, to SET and to UNSET, and the
    outcome of binding both sockets, with the port bound. *)
Record Net : Type := mkNet {
  to_probe : list Portmap.Attempt; to_set : list Portmap.Attempt; to_unset : list Portmap.Attempt;
  sockets : result Z Error;
}.

Inductive Outcome : Type :=
| Serving (mappings : list Portmap.Mapping)
| NotBound (e : Error)
| Maintained (withdrawn : result bool Portmap.PmError)   (* until the signal; how UNSET went *)
| Registered
| Unregistered
| RegistrationFailed (e : Portmap.PmError)
| RegistrationRefused.

Definition run_serving (n : Net) (mapping : Portmap.Mapping) : Outcome :=
  match sockets n with Ok self_port => Serving (serving_mappings mapping self_port) | Err e => NotBound e end.

Definition run_registered (n : Net) (mapping : Portmap.Mapping) : Outcome :=
  match Portmap.set_registration (to_set n) with
  | Err e => RegistrationFailed e
  | Ok false => RegistrationRefused
  | Ok true => Maintained (Portmap.set_registration (to_unset n))
  end.

Definition portmap_main (n : Net) (mode : option Mode) (core_port : Z) : Outcome :=
  let mapping := core_mapping core_port in
  let one_shot recv ok := match Portmap.set_registration recv with
                          | Err e => RegistrationFailed e
                          | Ok accepted => if accepted : bool then ok else RegistrationRefused
                          end in
  match mode with
  | Some Serve => run_serving n mapping
  | Some Register => one_shot (to_set n) Registered
  | Some Unregister => one_shot (to_unset n) Unregistered
  | None => if Portmap.probe (to_probe n) then run_registered n mapping else run_serving n mapping
  end.

(** ** Properties *)

Section AdapterLeft.
Variables FW_B FW_A : list byte.
Context {X : Type} (w : World X) (args : Args).

(** The ports bound before the one that failed, or all of them. *)
Lemma bind_all_spec fs :
  match bind_all w fs with
  | Ok l => l = map fst fs /\ Forall (fun x => is_ok (bind w x.2) = true) fs
  | Err (f, e) => exists pre p post, fs = pre ++ (f, p) :: post /\ bind w p = Err e /\ Forall (fun x => is_ok (bind w x.2) = true) pre
  end.
Proof.
  induction fs as [|[f p] fs IH]; cbn [bind_all map fst]; [by split|].
  destruct (bind w p) as [[]|e] eqn:Ep; [|by exists [], p, fs].
  destruct (bind_all w fs) as [l|[f' e]]; cbn [rbind].
  - destruct IH as [-> IH]. split; [done|]. constructor; [by cbn [snd]; rewrite Ep|done].
  - destruct IH as (pre & p' & post & -> & Hb & Hp). exists ((f, p) :: pre), p', post. split_and!; [done..|].
    constructor; [by cbn [snd]; rewrite Ep|done].
Qed.

(** The modes asked for on the command line, in the order they are switched. *)
Definition modes : list AdapterMode :=
  option_list (DeviceMode <$> listen_address args) ++ (if listen_only args then [ListenOnly] else []).

(** The adapter [open_selected] settled on was opened by its driver, in [steps]. *)
Definition chosen (k : BackendKind) (p : list Z) : Prop :=
  open_selected FW_B FW_A (fun k t p => Ok (k, t, p)) (os w) (devices w) (requested_selector args) (requested_backend args)
    (timeout_ms args) = Ok ((k, timeout_ms args, Some p), p).
Definition opened (log : list (Done X)) : Prop :=
  exists k p steps, chosen k p /\ driver_open w k (timeout_ms args) (Some p) = (Ok tt, steps) /\
    log = map Opening steps ++ [Opened p].

Lemma open_selected_call k t p q :
  open_selected FW_B FW_A (fun k t p => Ok (k, t, p)) (os w) (devices w) (requested_selector args) (requested_backend args)
    (timeout_ms args) = Ok ((k, t, p), q) -> t = timeout_ms args /\ p = Some q.
Proof.
  unfold open_selected. destruct (match requested_backend args with Some _ => _ | None => _ end); [|done]. cbn [rbind].
  destruct (enumerate _ _ _ _) as [found|]; [|done]. cbn [rbind]. destruct (resolve _ _ _ _ _ _) as [c|]; [|done].
  cbn. by intros [= _ <- <- <-].
Qed.

Lemma opening_spec :
  match opening FW_B FW_A w (requested_selector args) (requested_backend args) (timeout_ms args) with
  | (Ok _, log) => opened log
  | (Err (OpenFailed e), log) => exists k p steps, chosen k p /\
      driver_open w k (timeout_ms args) (Some p) = (Err e, steps) /\ log = map Opening steps
  | (Err _, log) => log = []
  end.
Proof.
  unfold opening. destruct (open_selected _ _ _ _ _ _ _ _) as [[[[k t] p] q]|e] eqn:E.
  - destruct (open_selected_call k t p q E) as [-> ->]. destruct (driver_open w k _ _) as [[[]|e] steps] eqn:Ed.
    + by exists k, q, steps.
    + by exists k, q, steps.
  - destruct e; try done. exfalso. revert E. unfold open_selected.
    destruct (requested_backend args) as [i|]; [destruct (from_id _ _ i); [|done]|]; cbn [rbind];
      (unfold enumerate; destruct (devices w) as [devs|]; [|done]; cbn [map_err rbind]; unfold resolve;
       destruct (List.filter _ _) as [|c [|c' cs]]; [|done|done]; by destruct (port _)).
Qed.

(** How far the switches went: all of them, or to the first that is refused. *)
Definition switched (ms : list AdapterMode) : list (Done X) := map (fun m => Switched m (mode_result w m)) ms.

Lemma switched_app a b : switched (a ++ b) = switched a ++ switched b.
Proof. apply map_app. Qed.

Lemma switch_spec m log :
  match switch w m log with
  | (Ok _, log') => log' = log ++ switched (option_list m)
  | (Err e, log') => exists m', m = Some m' /\ mode_result w m' = Err e /\ log' = log ++ switched [m']
  end.
Proof.
  destruct m as [m|]; cbn; [|by rewrite app_nil_r]. destruct (mode_result w m) as [[]|e] eqn:E; [done|]. by exists m; rewrite E.
Qed.


End AdapterLeft.

(** An NI adapter on the desk, whose port 4880 is taken. *)
Definition desk_world : World (list Z) :=
  mkWorld Linux (Ok desk) (fun k _ _ => (Ok tt, [str "claimed"; str "initialised"])) (fun _ => Ok tt)
    (fun p => if p =? 4880 then Err (str "address in use") else Ok tt) (fun _ => Removed).


(** The portmap tool picks the mode that works: with nobody on the port it
    serves it, and a client that looks the core channel up is told its port;
    next to another instance that serves the port it probes it, asks it to
    register, is refused and says so instead of fighting for the port. *)
Theorem portmap_auto core_port self_port n : 0 < core_port < 65536 -> 0 < self_port < 65536 ->
  (Portmap.probe (to_probe n) = false -> sockets n = Ok self_port ->
   exists reply, portmap_main n None core_port = Serving (serving_mappings (core_mapping core_port) self_port) /\
     Portmap.dispatch (Portmap.getport_call (core_mapping 0)) (serving_mappings (core_mapping core_port) self_port) = Some reply /\
     Portmap.getport (Portmap.Datagram reply) = Ok core_port) /\
  (forall other_port, exists probed refused,
     let ms := serving_mappings (core_mapping other_port) self_port in
     Portmap.dispatch Portmap.probe_call ms = Some probed /\
     Portmap.dispatch (Portmap.set_registration_call (core_mapping core_port) true) ms = Some refused /\
     forall n', to_probe n' = [Portmap.Datagram probed] -> to_set n' = [Portmap.Datagram refused] ->
       portmap_main n' None core_port = RegistrationRefused).
Proof.
  intros Hc Hs. assert (Hcore : forall p, 0 <= p < 65536 -> Portmap.Mapping_wf (core_mapping p)).
  { intros p Hp. unfold Portmap.Mapping_wf, core_mapping, in_u32, Vxi11Ops.DEVICE_CORE_PROG, Vxi11Ops.DEVICE_CORE_VERS, IPPROTO_TCP.
    cbn [Portmap.m_prog Portmap.m_vers Portmap.m_prot Portmap.m_port]. lia. }
  assert (Hself : forall t, 0 <= t < 256 -> Portmap.Mapping_wf (Portmap.mkMapping Portmap.PMAP_PROG Portmap.PMAP_VERS t self_port)).
  { intros t Ht. unfold Portmap.Mapping_wf, in_u32, Portmap.PMAP_PROG, Portmap.PMAP_VERS.
    cbn [Portmap.m_prog Portmap.m_vers Portmap.m_prot Portmap.m_port]. lia. }
  split.
  - intros Hp Hb. destruct (Portmap.getport_end_to_end (serving_mappings (core_mapping core_port) self_port) (core_mapping 0))
      as (reply & Hd & Hg & _).
    + apply List.Forall_cons; [apply Hcore; lia|]. repeat (apply List.Forall_cons; [apply Hself; unfold IPPROTO_TCP, IPPROTO_UDP; lia|]). constructor.
    + apply Hcore. lia.
    + intros m. unfold serving_mappings. rewrite !elem_of_cons, elem_of_nil. intros [->|[->|[->|[]]]]; cbn; lia.
    + exists reply. unfold portmap_main. rewrite Hp. unfold run_serving. rewrite Hb. exact (conj eq_refl (conj Hd Hg)).
  - intros other. destruct (Portmap.set_registration_refused (serving_mappings (core_mapping other) self_port) (core_mapping core_port) true)
      as (refused & Hd & Hr); [apply Hcore; lia|].
    exists (Rpc.reply_success 2 []), refused. split_and!; [by vm_compute|done|].
    intros n' Hp Hset. unfold portmap_main, run_registered. rewrite Hp, Hset, Hr. by vm_compute.
Qed.

Lemma portmap_auto_witness : exists reply,
  portmap_main (mkNet [Portmap.TimedOut; Portmap.TimedOut] [] [] (Ok 111)) None 9010 = Serving (serving_mappings (core_mapping 9010) 111) /\
  Portmap.dispatch (Portmap.getport_call (core_mapping 0)) (serving_mappings (core_mapping 9010) 111) = Some reply /\
  Portmap.getport (Portmap.Datagram reply) = Ok 9010.
Proof.
  refine (proj1 (portmap_auto 9010 111 (mkNet [Portmap.TimedOut; Portmap.TimedOut] [] [] (Ok 111)) _ _) _ _); [lia|lia|done|done].
Defined.

(** [--default-address] takes any byte: 31 is the unlisten command, no
    instrument's address. *)
Lemma default_address_31 : Bus.mla 31 = Bus.UNL.
Proof. done. Qed.

End Daemon.
